(* ===== verification/_CoqProject ===== *)
-Q . S2P
Prelude.v
Eth.v
Bpf.v
Rpc.v
Block.v
Connect.v
Records.v
Ar.v
Cm.v
Rta.v
AlarmChannel.v
Diag.v
Dcp.v
Data.v
RtFrame.v
Layout.v
Config.v
Hist.v
Engine.v
Image.v
Transport.v
Runner.v
Gsdml.v
Text.v
Controller.v
Capture.v
Device.v
Api.v
Os.v
Cli.v
TextIds.v
Description.v
Bringup.v
Probe.v
System.v
Received.v
