(* ===== verification/Prelude.v ===== *)
(** * pnio: a verified model of a PROFINET RT IO-device stack

    This library models the Rust crate [crates/pnio] and proves the
    properties that make its parts correct.  Paths below are relative to
    [src/crates/pnio/src/], those of the example programs to
    [src/crates/pnio/].

    ** The program

    The application declares its submodules and their typed fields in a
    configuration, from which the device model, the field tables and the GSDML
    description are derived.  The device answers DCP on the raw Ethernet socket
    (discovery, address checks).  A controller then connects over UDP: DCE/RPC
    requests carry PNIO blocks that the connection manager parses and feeds to
    the AR state machine (Connect, Write, PrmEnd, ApplicationReady, Read,
    Release), with a response cache for retransmissions.  Once the AR is in
    Data, the plan of both cyclic relationships is laid out from the negotiated
    parameters, and a real-time thread exchanges one frame per tick with the
    controller, sharing an I/O image with the application and watching for the
    loss of the controller.  Diagnoses raised by the application become alarm
    notifications, which an alarm channel sends one at a time.  The device loop
    runs all of this on the acyclic thread, and the application reads and
    writes fields by slot and index through a handle.

    ** Files and sources

    - [Prelude]: outcomes of Rust code (Ok, Err, Panic), machine integers,
      byte order, checked slices, the automation and hint databases.
    - [Eth] (eth/header.rs) and [Bpf] (eth/bpf.rs): the Ethernet header and
      the socket filters with an interpreter for them.
    - [Rpc] (rpc/mod.rs, uuid.rs, header.rs, ndr.rs): the RPC envelope.
    - [Block] (cm/status.rs, cm/block.rs): status words, the block codec, and
      the theory of its parsers: [reads] (round trip), [safe] (no panic) and
      [yields] (what is read is in range).
    - [Connect] (cm/model.rs, cm/connect.rs): the device model, the Connect
      request and its validation.
    - [Records] (cm/write.rs, records.rs, control.rs, im.rs): parameter
      records, record reads, control blocks, identification data.
    - [Ar] (cm/ar.rs): the AR state machine.
    - [Cm] (cm/mod.rs): the connection manager around it.
    - [Rta] (alarm/rta.rs) and [AlarmChannel] (alarm/channel.rs): alarm frames
      and the sender and receiver of one alarm channel.
    - [Diag] (diag.rs): the diagnosis store.
    - [Dcp] (dcp/): discovery and configuration.
    - [Data] (data.rs): field types, values and their octets.
    - [RtFrame] (rt/frame.rs), [Layout] (rt/layout.rs), [Engine]
      (rt/engine.rs), [Image] (rt/image.rs), [Hist] (rt/hist.rs): the cyclic
      exchange and its latency histogram.
    - [Config] (config.rs): the builder, its checks, the packing of fields and
      the objects derived from a configuration.
    - [Transport] (eth/transport.rs, afpacket.rs, poll.rs, rpc/transport.rs,
      udp.rs): the two transport traits as type classes with their laws, the
      in-memory and the socket transports.
    - [Runner] (rt/runner.rs): the loop of the cyclic thread over [Engine],
      [Image] and a transport, and its event queue.
    - [Gsdml] (gsdml.rs): the description file.
    - [Text] (the text forms of rpc/uuid.rs, read_mac of api.rs).
    - [Controller] (testutil.rs): the Connect request a controller derives from
      a device model.
    - [Capture] (capture.rs): the frames of a packet capture.
    - [Device] (device/mod.rs): the device loop over [Cm], [AlarmChannel],
      [Diag], [Dcp], [Image], [Runner] and any transports that satisfy the
      laws.
    - [Api] (api.rs): the application's handle and the acyclic thread.
    - [Os] (rt/sched.rs, rt/mod.rs, and what eth/afpacket.rs, rpc/udp.rs,
      rt/runner.rs and api.rs open): sockets, timers, threads and scheduling
      over the answers of the system calls, with the descriptors they own.
    - [Cli] (examples/gen_gsdml.rs and the parsers, verdicts and files of
      examples/linux/): the text the programs take and produce.
    - [TextIds] (gsdml.rs): the text identifiers of the description file.
    - [Description] (gsdml.rs): a reader of the description file, and what it
      finds in a rendered one.
    - [Bringup] (examples/linux/typed_bringup.rs, rt_bringup.rs,
      ar_bringup.rs): the application loops over [Api] and [Image], with the
      other threads as an environment between any two accesses.
    - [Probe] (examples/linux/latency_probe.rs): what the latency probe counts.
    - [System] (the threads of api.rs, device/mod.rs and rt/runner.rs): the
      acyclic thread, the cyclic thread and the application as a step relation
      on their locals and the objects they share; [Received] follows the
      controller's data through it to the application's reads.

    Every definition that translates code carries a comment with its file,
    lines and Rust symbol.  A struct is a record with prefixed field names, an
    enum an inductive type, a method taking [&mut self] a function from the
    old value to the new one (with the returned actions), a loop over a
    collection a fixpoint or a fold.

    ** What the theorems show

    - Safety and invariants: no datagram, frame, tick, abort, transport error
      or action of the application makes the device loop, the cyclic thread,
      or any component under them panic, and each keeps its invariant
      ([device_never_panics], [device_consistent], [runner_safe],
      [Cm_never_panics], [Ar_run_invariant], [consumer_verdict],
      [channel_refines_sender]).
    - Composition: in every interleaving of the three threads their views of
      the shared objects agree, the handle shows the AR's state, none panics and
      each can go on ([system_safe]); a value written by the application is in
      every frame sent until it is overwritten or the AR changes its state
      ([written_value_sent]), and what it reads is the data of the newest valid
      frame ([received_value_read]); a controller and a device that start from the
      same declaration connect ([declaration_connects]).
    - Resources: no failing system call leaks a descriptor
      ([no_descriptor_leaks]); the CPU mask is written in bounds and exactly
      ([set_affinity_spec]), every page of the stack is touched
      ([prefault_touches_every_page]), waiting for the cyclic thread is bounded
      ([rt_join_bounded]).
    - Applications: the bring-up programs mirror the outputs to the inputs
      whatever the other threads do ([app_cycle_mirrors],
      [rt_application_mirrors]), raise and clear each diagnosis once
      ([diagnoses_raised_once]), and judge a run by its samples
      ([verdict_exact]); the probe counts what it says ([probe_measures]), but
      one cycle too many between two changes ([ob_gap_one_long]); CPU lists and
      address maps mean what they print ([cpu_list_roundtrip],
      [address_map_tiles]).
    - Refinement: the AR follows its documented life cycle
      ([Ar_run_lifecycle]); an alarm channel is a FIFO sender
      ([channel_refines_sender], [acks_in_order]); the notifications of the
      diagnosis store keep a controller's picture exact ([diagnosis_view]),
      and the device brings a new controller up to date
      ([data_replays_diagnoses]).
    - Functional behaviour: what is accepted and what is answered, on every
      branch ([validate_accepts], [write_all_or_nothing], [Cm_answers_once],
      [Cm_retransmission], [connect_retransmission], [read_record_spec],
      [set_answers], [identify_answers], [data_acknowledged],
      [enqueue_transmits], [frame_id_filter_correct]); how an AR ends
      ([abort_ends_ar], [rt_failure_ends_ar]).
    - Cyclic data end to end: the plan is exactly the disjoint in-bounds one
      ([build_cr_spec], [layout_cells_disjoint]), and an accepted Connect has
      one unless its objects overlap ([accepted_connect_layout]); each tick sends one
      well-formed frame ([provider_frame], [one_frame_per_tick]); inputs reach
      the wire and outputs the application, each in its own region
      ([input_reaches_wire], [output_reaches_application]).
    - Typed access: a read returns the declared field or the right error
      ([reads_declared_fields]), writes are all or nothing
      ([writes_all_or_nothing]) and survive a missing connection
      ([kept_writes_reach_wire]).
    - Configuration: what [build] accepts, stores and reports
      ([build_accepts], [build_reports], [checked_layout_spec]), and that the
      model and the description file agree with it ([config_model],
      [description_matches_device], [text_ids_unique], [escape_roundtrip]).
    - Bounded retries and timers: [app_ready_gives_up],
      [retransmission_bounded], [next_deadline_exact],
      [watchdog_reports_once], [spin_is_detected].
    - Round trips of the codecs, with arbitrary trailing octets where frames
      may be padded ([ConnectReq_parse_wire], [WriteReq_parse_wire],
      [ControlBlock_roundtrip], [ImStore_write_read], [alarm_frame_roundtrip],
      [rt_frame_roundtrip], [dcp_blocks_roundtrip], [uuid_text],
      [im_text_roundtrip]); a capture is delivered in order
      ([frames_in_order]).

    ** Conventions, bounds and fuel

    An octet, [u16], [u32] or [u64] is a [Z] in its range; arithmetic wraps
    where release Rust wraps and where the code casts.  A [usize] is a [nat].
    An [Instant] is an unbounded number of nanoseconds.  Indexing, slicing,
    [expect], [unwrap] and [unreachable!] that fail are [Panic], and the
    no-panic theorems exclude it.  Loops that advance through a buffer
    ([read_all], nested Write records, DCP blocks) take the buffer's length as
    fuel: every iteration consumes at least the block header, and running out
    would be a [Panic], so totality is part of the same theorems.  The BPF
    interpreter takes the program's length as fuel, enough because jumps only
    go forward.  The receive loops of [Device] and the event loop take the
    length of the backlog (and the code's own budgets) as fuel, and the mutual
    recursion of dispatch and abort a fixed depth, enough because an abort
    leaves the AR idle and closes the channel; running out is again a [Panic]
    that the theorems exclude.  The environment of a step (what the clock, the
    sockets and the locks do) is an argument.  [debug_assert!]s and log lines
    are left out.

    ** Not modelled

    The kernel: [Os] and [Transport] take the answers of the system calls as
    arguments.  The file system appears only as the octets exchanged for
    identification data, captures, statistics and the interface address.  The
    parsing of pcap and pcapng files and of the argument vector is third-party
    code; [Capture] and [Bringup] start from its results.  Signal handlers and
    log lines of the example programs are left out.  [Image] and [Bringup]
    interleave the threads at the granularity of the image's locks (each
    accessor is one step, a failed [try_lock] an argument); [System] at that of
    whole iterations and calls.  A cyclic thread that outlives the bounded wait
    for its end is not modelled. *)

From Stdlib Require Import ZArith Lia.
From stdpp Require Export base numbers list option strings sets tactics.

#[global] Set Default Proof Using "Type".

(** ** Outcomes of Rust code

    A fallible Rust function returns [Ok], returns [Err], or panics.  The
    third constructor records an out-of-range index, a bad slice, a failed
    [expect]/[unwrap] or an [unreachable!]; that it is never produced is a
    theorem about each function, never an assumption. *)

Inductive outcome (E A : Type) : Type :=
| Ok (a : A)
| Err (e : E)
| Panic.
Arguments Ok {E A} _.
Arguments Err {E A} _.
Arguments Panic {E A}.

Declare Scope outcome_scope.
Delimit Scope outcome_scope with outcome.
Open Scope outcome_scope.

Definition obind {E A B} (m : outcome E A) (k : A → outcome E B) : outcome E B :=
  match m with
  | Ok a => k a
  | Err e => Err e
  | Panic => Panic
  end.

Notation "'let!' x := m 'in' k" := (obind m (λ x, k))
  (at level 10, x pattern, m at level 100, k at level 200,
   format "'[v' 'let!'  x  :=  m  'in' '/' k ']'") : outcome_scope.

(** [?] with a [From] conversion, and [Result::map_err]. *)
Definition map_err {E F A} (f : E → F) (m : outcome E A) : outcome F A :=
  match m with
  | Ok a => Ok a
  | Err e => Err (f e)
  | Panic => Panic
  end.

(** [Option::ok_or] followed by [?]. *)
Definition ok_or {E A} (o : option A) (e : E) : outcome E A :=
  match o with Some a => Ok a | None => Err e end.

(** [Option::expect] / [Option::unwrap]. *)
Definition expect {E A} (o : option A) : outcome E A :=
  match o with Some a => Ok a | None => Panic end.

(** An early [return Err(e)] guarded by a condition. *)
Definition guard {E} (b : bool) (e : E) : outcome E unit :=
  if b then Err e else Ok tt.

Definition is_Ok {E A} (m : outcome E A) : bool :=
  match m with Ok _ => true | _ => false end.

(** [no_panic m]: the computation returns, with a value or an error. *)
Definition no_panic {E A} (m : outcome E A) : Prop := m ≠ Panic.

(** [for x in l { f(x)?; }]: stop at the first error. *)
Fixpoint for_each {E A} (l : list A) (f : A → outcome E unit) : outcome E unit :=
  match l with
  | [] => Ok tt
  | a :: l => obind (f a) (λ _, for_each l f)
  end.

#[global] Instance outcome_eq_dec {E A} `{EqDecision E, EqDecision A} :
  EqDecision (outcome E A).
Proof. solve_decision. Defined.

Lemma obind_Ok {E A B} (m : outcome E A) (k : A → outcome E B) b :
  obind m k = Ok b ↔ ∃ a, m = Ok a ∧ k a = Ok b.
Proof. destruct m; naive_solver. Qed.

Lemma obind_assoc {E A B C} (m : outcome E A) (f : A → outcome E B) (g : B → outcome E C) :
  obind (obind m f) g = obind m (λ a, obind (f a) g).
Proof. by destruct m. Qed.

(** Rewriting under the binder of a [let!]. *)
#[global] Instance obind_proper {E A B} :
  Proper (eq ==> pointwise_relation A eq ==> eq) (@obind E A B).
Proof. intros m ? <- f g Hfg. destruct m; [apply Hfg|done..]. Qed.

Lemma map_err_Ok {E F A} (f : E → F) (m : outcome E A) a :
  map_err f m = Ok a ↔ m = Ok a.
Proof. destruct m; naive_solver. Qed.

Lemma no_panic_bind {E A B} (m : outcome E A) (k : A → outcome E B) :
  no_panic m → (∀ a, m = Ok a → no_panic (k a)) → no_panic (obind m k).
Proof. unfold no_panic. destruct m; naive_solver. Qed.

Lemma no_panic_map_err {E F A} (f : E → F) (m : outcome E A) :
  no_panic m → no_panic (map_err f m).
Proof. unfold no_panic. by destruct m. Qed.

Lemma no_panic_Ok {E A} (a : A) : no_panic (Ok (E := E) a).
Proof. done. Qed.

Lemma no_panic_Err {E A} (e : E) : no_panic (Err (A := A) e).
Proof. done. Qed.

Lemma no_panic_ok_or {E A} (o : option A) (e : E) : no_panic (ok_or o e).
Proof. by destruct o. Qed.

Lemma no_panic_guard {E} b (e : E) : no_panic (guard b e).
Proof. by destruct b. Qed.

Lemma Forall_weaken {A} (P Q : A → Prop) (l : list A) :
  Forall P l → (∀ x, P x → Q x) → Forall Q l.
Proof. induction 1; auto. Qed.

Lemma for_each_Ok {E A} (l : list A) (f : A → outcome E unit) :
  for_each l f = Ok tt ↔ Forall (λ a, f a = Ok tt) l.
Proof.
  induction l as [|a l IH]; cbn; [by split; [constructor|]|].
  split.
  - intros ([] & ? & ?)%obind_Ok. constructor; [done|by apply IH].
  - intros [-> ?]%Forall_cons_1. by apply IH.
Qed.

Lemma no_panic_for_each {E A} (l : list A) (f : A → outcome E unit) :
  (∀ a, a ∈ l → no_panic (f a)) → no_panic (for_each l f).
Proof.
  induction l as [|a l IH]; cbn; intros Hf; [done|].
  apply no_panic_bind; [apply Hf; set_solver|intros _ _; apply IH; set_solver].
Qed.

(** [errs P m]: an error returned by [m] satisfies [P]. *)
Definition errs {E A} (P : E → Prop) (m : outcome E A) : Prop := ∀ e, m = Err e → P e.

Lemma errs_bind {E A B} (P : E → Prop) (m : outcome E A) (k : A → outcome E B) :
  errs P m → (∀ a, errs P (k a)) → errs P (obind m k).
Proof. unfold errs. destruct m; naive_solver. Qed.

Lemma errs_for_each {E A} (P : E → Prop) (l : list A) (f : A → outcome E unit) :
  (∀ a, errs P (f a)) → errs P (for_each l f).
Proof. intros Hf. induction l as [|a l IH]; [done|]. by apply errs_bind. Qed.

Lemma guard_Ok {E} (b : bool) (e : E) u : guard b e = Ok u ↔ b = false.
Proof. destruct b, u; naive_solver. Qed.

Create HintDb panics.
#[export] Hint Resolve no_panic_Ok no_panic_Err no_panic_ok_or no_panic_guard
  no_panic_map_err : panics.

(** ** Machine integers

    A [u8]/[u16]/[u32]/[u64] value is a [Z] in its range; [wrapN] is the
    wrap-around of release arithmetic and of the [as uN] casts. *)

Local Open Scope Z_scope.

Definition u8 (x : Z) : Prop := 0 ≤ x < 256.
Definition u16 (x : Z) : Prop := 0 ≤ x < 65536.
Definition u32 (x : Z) : Prop := 0 ≤ x < 4294967296.

#[global] Instance u8_dec x : Decision (u8 x) := decide (0 ≤ x < 256).
#[global] Instance u16_dec x : Decision (u16 x) := decide (0 ≤ x < 65536).
#[global] Instance u32_dec x : Decision (u32 x) := decide (0 ≤ x < 4294967296).

(** The range [x, x + 1, ...] of [n] integers. *)
Fixpoint zrange (x : Z) (n : nat) : list Z :=
  match n with O => [] | S n => x :: zrange (x + 1) n end.

(** An exhaustive check over a range. *)
Lemma zrange_all (P : Z → bool) n : ∀ lo, forallb P (zrange lo n) = true →
  ∀ x, lo ≤ x < lo + Z.of_nat n → P x = true.
Proof.
  induction n as [|n IH]; intros lo H x Hx; [lia|]. cbn in H. apply andb_prop in H as [H1 H2].
  destruct (decide (x = lo)) as [->|]; [done|]. apply (IH (lo + 1)); [done|lia].
Qed.

Definition wrap8 (x : Z) : Z := x mod 256.
Definition wrap16 (x : Z) : Z := x mod 65536.
Definition wrap32 (x : Z) : Z := x mod 4294967296.
Definition wrap64 (x : Z) : Z := x mod 18446744073709551616.

(** A [u64] counter bump. *)
Definition inc64 (x : Z) : Z := wrap64 (x + 1).

Lemma wrap16_u16 x : u16 (wrap16 x).
Proof. unfold u16, wrap16. apply Z.mod_pos_bound. lia. Qed.

Lemma wrap16_id x : u16 x → wrap16 x = x.
Proof. unfold u16, wrap16. intros. apply Z.mod_small. lia. Qed.

Lemma wrap32_id x : u32 x → wrap32 x = x.
Proof. unfold u32, wrap32. intros. apply Z.mod_small. lia. Qed.

Lemma u8_u16 x : u8 x → u16 x.
Proof. unfold u8, u16. lia. Qed.

#[export] Hint Resolve wrap16_u16 u8_u16 : core.

(** ** Byte order *)

Definition be16 (x : Z) : list Z := [(x / 256) mod 256; x mod 256].
Definition le16 (x : Z) : list Z := [x mod 256; (x / 256) mod 256].
Definition be32 (x : Z) : list Z :=
  [(x / 16777216) mod 256; (x / 65536) mod 256; (x / 256) mod 256; x mod 256].
Definition le32 (x : Z) : list Z :=
  [x mod 256; (x / 256) mod 256; (x / 65536) mod 256; (x / 16777216) mod 256].

Definition from_be16 (a b : Z) : Z := 256 * a + b.
Definition from_le16 (a b : Z) : Z := 256 * b + a.
Definition from_be32 (a b c d : Z) : Z := 16777216 * a + 65536 * b + 256 * c + d.
Definition from_le32 (a b c d : Z) : Z := 16777216 * d + 65536 * c + 256 * b + a.

Lemma mod256_u8 x : u8 (x mod 256).
Proof. unfold u8. apply Z.mod_pos_bound. lia. Qed.

Lemma from_be16_u16 a b : u8 a → u8 b → u16 (from_be16 a b).
Proof. unfold u8, u16, from_be16. lia. Qed.

Lemma from_be32_u32 a b c d : u8 a → u8 b → u8 c → u8 d → u32 (from_be32 a b c d).
Proof. unfold u8, u32, from_be32. lia. Qed.

Lemma from_be16_to x : u16 x → from_be16 ((x / 256) mod 256) (x mod 256) = x.
Proof. unfold u16, from_be16. intros. Z.div_mod_to_equations. lia. Qed.

Lemma from_le16_to x : u16 x → from_le16 (x mod 256) ((x / 256) mod 256) = x.
Proof. apply from_be16_to. Qed.

Lemma from_be32_to x : u32 x →
  from_be32 ((x / 16777216) mod 256) ((x / 65536) mod 256) ((x / 256) mod 256) (x mod 256) = x.
Proof. unfold u32, from_be32. intros. Z.div_mod_to_equations. lia. Qed.

Lemma from_le32_to x : u32 x →
  from_le32 (x mod 256) ((x / 256) mod 256) ((x / 65536) mod 256) ((x / 16777216) mod 256) = x.
Proof. apply from_be32_to. Qed.

Lemma be16_from a b : u8 a → u8 b → be16 (from_be16 a b) = [a; b].
Proof.
  unfold u8, be16, from_be16. intros.
  f_equal; [|f_equal]; Z.div_mod_to_equations; lia.
Qed.

Lemma be32_from a b c d : u8 a → u8 b → u8 c → u8 d → be32 (from_be32 a b c d) = [a; b; c; d].
Proof.
  unfold u8, be32, from_be32. intros.
  repeat f_equal; Z.div_mod_to_equations; lia.
Qed.

Lemma length_be16 x : length (be16 x) = 2%nat.
Proof. done. Qed.

Lemma length_be32 x : length (be32 x) = 4%nat.
Proof. done. Qed.

Lemma be16_u8 x : Forall u8 (be16 x).
Proof. repeat constructor; apply mod256_u8. Qed.

Lemma be32_u8 x : Forall u8 (be32 x).
Proof. repeat constructor; apply mod256_u8. Qed.

Lemma be16_inj x y : u16 x → u16 y → be16 x = be16 y → x = y.
Proof.
  intros Hx Hy [= H1 H2]. rewrite <-(from_be16_to x), <-(from_be16_to y) by done.
  by rewrite H1, H2.
Qed.

#[export] Hint Resolve mod256_u8 from_be16_u16 from_be32_u32 be16_u8 be32_u8 : core.

(** A byte-string literal. *)
Definition ascii_bytes (s : string) : list Z :=
  (λ a, Z.of_N (Ascii.N_of_ascii a)) <$> String.list_ascii_of_string s.

(** ** Slices and indexing, with Rust's bounds checks *)

Section slices.
Context {E A : Type}.
Implicit Types b : list A.

(** [b[i]] *)
Definition idx (b : list A) (i : nat) : outcome E A :=
  match b !! i with Some x => Ok x | None => Panic end.

(** [&b[lo..hi]] *)
Definition slice (b : list A) (lo hi : nat) : outcome E (list A) :=
  if decide (lo ≤ hi ∧ hi ≤ length b)%nat then Ok (take (hi - lo) (drop lo b)) else Panic.

(** [&b[lo..]] *)
Definition slice_from (b : list A) (lo : nat) : outcome E (list A) :=
  if decide (lo ≤ length b)%nat then Ok (drop lo b) else Panic.

(** [b[off..off + src.len()].copy_from_slice(src)] *)
Definition copy_at (b : list A) (off : nat) (src : list A) : outcome E (list A) :=
  if decide (off + length src ≤ length b)%nat
  then Ok (take off b ++ src ++ drop (off + length src) b) else Panic.

(** [b[i] = x] *)
Definition set_at (b : list A) (i : nat) (x : A) : outcome E (list A) :=
  if decide (i < length b)%nat then Ok (<[i := x]> b) else Panic.

Lemma idx_Ok b i x : idx b i = Ok x ↔ b !! i = Some x.
Proof. unfold idx. destruct (b !! i); naive_solver. Qed.

Lemma idx_drop b i x rest : drop i b = x :: rest → idx b i = Ok x.
Proof.
  intros Hd. apply idx_Ok. rewrite <-(Nat.add_0_r i), <-lookup_drop, Hd. done.
Qed.

Lemma no_panic_idx b i : (i < length b)%nat → no_panic (idx b i).
Proof.
  intros H. unfold idx, no_panic. apply lookup_lt_is_Some in H as [x ->]. done.
Qed.

Lemma slice_Ok b lo hi s :
  slice b lo hi = Ok s ↔ (lo ≤ hi ∧ hi ≤ length b)%nat ∧ s = take (hi - lo) (drop lo b).
Proof. unfold slice. case_decide; naive_solver. Qed.

Lemma no_panic_slice b lo hi : (lo ≤ hi)%nat → (hi ≤ length b)%nat → no_panic (slice b lo hi).
Proof. intros. unfold slice, no_panic. rewrite decide_True; done. Qed.

Lemma slice_length b lo hi s : slice b lo hi = Ok s → length s = (hi - lo)%nat.
Proof. intros [? ->]%slice_Ok. rewrite length_take, length_drop. lia. Qed.

Lemma slice_app pre s post :
  slice (pre ++ s ++ post) (length pre) (length pre + length s) = Ok s.
Proof.
  apply slice_Ok. rewrite !length_app, drop_app_length. split; [lia|].
  replace (_ - _)%nat with (length s) by lia. by rewrite take_app_length.
Qed.

Lemma slice_drop b lo hi s rest :
  drop lo b = s ++ rest → (lo ≤ length b)%nat → hi = (lo + length s)%nat →
  slice b lo hi = Ok s.
Proof.
  intros Hd Hlo ->. apply slice_Ok.
  assert (length (drop lo b) = length s + length rest)%nat by by rewrite Hd, length_app.
  rewrite length_drop in *. split; [lia|].
  rewrite Hd. replace (_ - _)%nat with (length s) by lia. by rewrite take_app_length.
Qed.

Lemma copy_at_Ok b off src b' :
  copy_at b off src = Ok b' ↔
  (off + length src ≤ length b)%nat ∧ b' = take off b ++ src ++ drop (off + length src) b.
Proof. unfold copy_at. case_decide; naive_solver. Qed.

Lemma copy_at_length b off src b' : copy_at b off src = Ok b' → length b' = length b.
Proof.
  intros [? ->]%copy_at_Ok. rewrite !length_app, length_take, length_drop. lia.
Qed.

Lemma copy_at_lookup b off src b' i :
  copy_at b off src = Ok b' →
  b' !! i = if decide (off ≤ i < off + length src)%nat then src !! (i - off)%nat else b !! i.
Proof.
  intros [? ->]%copy_at_Ok. case_decide.
  - rewrite lookup_app_r by (rewrite length_take; lia).
    rewrite length_take, Nat.min_l by lia. rewrite lookup_app_l by lia. done.
  - destruct (decide (i < off)%nat).
    + rewrite lookup_app_l by (rewrite length_take; lia). by rewrite lookup_take_lt.
    + rewrite lookup_app_r by (rewrite length_take; lia).
      rewrite length_take, Nat.min_l by lia. rewrite lookup_app_r by lia.
      rewrite lookup_drop. f_equal. lia.
Qed.

Lemma set_at_Ok b i x b' : set_at b i x = Ok b' ↔ (i < length b)%nat ∧ b' = <[i := x]> b.
Proof. unfold set_at. case_decide; naive_solver. Qed.

Lemma no_panic_set_at b i x : (i < length b)%nat → no_panic (set_at b i x).
Proof. intros. unfold set_at, no_panic. rewrite decide_True; done. Qed.

Lemma no_panic_copy_at b off src :
  (off + length src ≤ length b)%nat → no_panic (copy_at b off src).
Proof. intros. unfold copy_at, no_panic. rewrite decide_True; done. Qed.
End slices.
Arguments idx : simpl never.
Arguments slice : simpl never.
Arguments slice_from : simpl never.
Arguments copy_at : simpl never.
Arguments set_at : simpl never.

#[export] Hint Resolve no_panic_idx no_panic_slice no_panic_set_at no_panic_copy_at : panics.

(** Fixed-size reads used by all the hand-indexed parsers. *)
Definition be16_at {E} (b : list Z) (o : nat) : outcome E Z :=
  let! h := idx b o in
  let! l := idx b (o + 1) in
  Ok (from_be16 h l).

Definition be32_at {E} (b : list Z) (o : nat) : outcome E Z :=
  let! b0 := idx b o in
  let! b1 := idx b (o + 1) in
  let! b2 := idx b (o + 2) in
  let! b3 := idx b (o + 3) in
  Ok (from_be32 b0 b1 b2 b3).

Lemma be16_at_drop {E} (b : list Z) o x rest :
  u16 x → drop o b = be16 x ++ rest → be16_at (E := E) b o = Ok x.
Proof.
  intros Hx Hd. unfold be16_at, idx.
  assert (∀ i, b !! (o + i)%nat = (be16 x ++ rest) !! i) as Hl
    by (intros i; by rewrite <-Hd, lookup_drop).
  rewrite <-(Nat.add_0_r o) at 1. rewrite !Hl. cbn. by rewrite from_be16_to.
Qed.

Lemma be32_at_drop {E} (b : list Z) o x rest :
  u32 x → drop o b = be32 x ++ rest → be32_at (E := E) b o = Ok x.
Proof.
  intros Hx Hd. unfold be32_at, idx.
  assert (∀ i, b !! (o + i)%nat = (be32 x ++ rest) !! i) as Hl
    by (intros i; by rewrite <-Hd, lookup_drop).
  rewrite <-(Nat.add_0_r o) at 1. rewrite !Hl. cbn. by rewrite from_be32_to.
Qed.

Lemma no_panic_be16_at {E} (b : list Z) o :
  (o + 2 ≤ length b)%nat → no_panic (be16_at (E := E) b o).
Proof.
  intros. unfold be16_at.
  repeat (apply no_panic_bind; [apply no_panic_idx; lia|intros]). done.
Qed.

Lemma no_panic_be32_at {E} (b : list Z) o :
  (o + 4 ≤ length b)%nat → no_panic (be32_at (E := E) b o).
Proof.
  intros. unfold be32_at.
  repeat (apply no_panic_bind; [apply no_panic_idx; lia|intros]). done.
Qed.

#[export] Hint Resolve no_panic_be16_at no_panic_be32_at : panics.

Lemma idx_u8 {E} (b : list Z) i x : Forall u8 b → idx (E := E) b i = Ok x → u8 x.
Proof. intros Hb Hi%idx_Ok. by eapply Forall_lookup_1 in Hb. Qed.

Lemma be16_at_u16 {E} (b : list Z) o x : Forall u8 b → be16_at (E := E) b o = Ok x → u16 x.
Proof.
  unfold be16_at. intros Hb (h & Hh & (l & Hl & [= <-])%obind_Ok)%obind_Ok.
  eauto using idx_u8, from_be16_u16.
Qed.

Lemma be32_at_u32 {E} (b : list Z) o x : Forall u8 b → be32_at (E := E) b o = Ok x → u32 x.
Proof.
  unfold be32_at.
  intros Hb (b0 & ? & (b1 & ? & (b2 & ? & (b3 & ? & [= <-])%obind_Ok)%obind_Ok)%obind_Ok)%obind_Ok.
  apply from_be32_u32; by eapply idx_u8.
Qed.

(** ** Proof automation *)

(** Decompose every [let!] chain that is known to return [Ok]. *)
Ltac ok_step :=
  match goal with
  | H : obind _ _ = Ok _ |- _ => apply obind_Ok in H as (? & ? & H)
  | H : map_err _ _ = Ok _ |- _ => apply map_err_Ok in H
  | H : Ok _ = Ok _ |- _ => injection H as H
  | H : Err _ = Ok _ |- _ => discriminate H
  | H : Panic = Ok _ |- _ => discriminate H
  | H : (if decide _ then _ else _) = Ok _ |- _ => case_decide
  | H : guard _ _ = Ok _ |- _ => apply guard_Ok in H
  | H : (let '_ := ?p in _) = Ok _ |- _ => destruct p
  end.
Ltac ok_inv := repeat ok_step; subst.

(** Bring the length of every slice taken so far into the context. *)
Ltac slice_lens :=
  repeat match goal with
  | H : slice ?b ?lo ?hi = Ok ?s |- _ =>
      lazymatch goal with
      | _ : length s = (hi - lo)%nat |- _ => fail
      | _ => pose proof (slice_length _ _ _ _ H)
      end
  end.

(** Walk down a computation, leaving only the bounds of its accesses. *)
Ltac np_step :=
  lazymatch goal with
  | |- no_panic (obind _ _) => apply no_panic_bind; [|intros ? ?]
  | |- no_panic (map_err _ _) => apply no_panic_map_err
  | |- no_panic (if decide _ then _ else _) => case_decide
  | |- no_panic (Ok _) => apply no_panic_Ok
  | |- no_panic (Err _) => apply no_panic_Err
  | |- no_panic (ok_or _ _) => apply no_panic_ok_or
  | |- no_panic (guard _ _) => apply no_panic_guard
  | |- no_panic (idx _ _) => apply no_panic_idx; slice_lens; try lia
  | |- no_panic (slice _ _ _) => apply no_panic_slice; slice_lens; try lia
  | |- no_panic (be16_at _ _) => apply no_panic_be16_at; slice_lens; try lia
  | |- no_panic (be32_at _ _) => apply no_panic_be32_at; slice_lens; try lia
  | |- no_panic (match ?x with _ => _ end) => destruct x eqn:?
  | |- no_panic _ => solve [eauto with panics]
  end.
Ltac np := repeat np_step.

(** Reduce a claim about errors to the error constants of the code. *)
Ltac errs_tac :=
  repeat match goal with
  | |- errs _ (obind _ _) => apply errs_bind; [|intros ?]
  | |- errs _ (for_each _ _) => apply errs_for_each; intros ?
  | |- errs _ (Ok _) => intros ? [=]
  | |- errs _ Panic => intros ? [=]
  | |- errs _ (guard ?b _) => destruct b; intros ? [= <-]
  | |- errs _ (ok_or ?o _) => destruct o; intros ? [= <-]
  | |- errs _ (Err _) => intros ? [= <-]
  | |- errs _ (let '_ := ?p in _) => destruct p
  | |- errs _ (match ?x with _ => _ end) => destruct x
  end.

(** A decidable fact about concrete data, by evaluation. *)
Ltac by_decide :=
  match goal with |- ?P => apply (proj1 (bool_decide_eq_true P)); vm_compute; reflexivity end.

(** Destruct a list of known length into its elements. *)
Ltac list_elements l H :=
  repeat (destruct l as [|? l]; [discriminate H|]; cbn in H; apply Nat.succ_inj in H);
  destruct l; [clear H|discriminate H].

(** Range side conditions: a hypothesis, or a closed constant. *)
Ltac range :=
  solve [ eauto
        | unfold u8, u16, u32 in *; lia
        | match goal with
          | |- u16 ?c => is_const c; unfold c, u16; lia
          | |- u8 ?c => is_const c; unfold c, u8; lia
          | |- u32 ?c => is_const c; unfold c, u32; lia
          end ].

(** Resolve the [decide]s whose condition is arithmetic or closed. *)
Ltac dec_solve := solve [done | cbn; lia | cbn; congruence | intros ?; simplify_eq | tauto].
Ltac dec :=
  repeat match goal with
  | |- context [decide ?P] =>
      first [ rewrite (decide_True (P := P)) by dec_solve
            | rewrite (decide_False (P := P)) by dec_solve ]
  end.

(** Seek to a field of a buffer written as a concatenation of fields: the
    database [len] knows the fields' lengths. *)
Create Rewrite HintDb len.
#[export] Hint Rewrite @length_app @length_nil @length_cons @length_be16 @length_be32
  @length_replicate : len.
Ltac len := autorewrite with len in *; try (cbn [length]; lia).
Ltac seek :=
  repeat (rewrite drop_app_ge by (autorewrite with len; cbn [length]; lia);
          autorewrite with len;
          repeat match goal with H : length ?l = _ |- context [length ?l] => rewrite H end;
          cbn [length Nat.sub Nat.add]);
  rewrite ?drop_0; cbn [drop app].
