(* ===== verification/Eth.v ===== *)
(** * Eth: the Ethernet II header codec

    Models [crates/pnio/src/eth/header.rs]: MAC addresses, the (possibly
    802.1Q-tagged) header, its parser and its serializer. *)

From S2P Require Import Prelude.
Local Open Scope Z_scope.

(** eth/header.rs:3-5 ETHERTYPE_PROFINET *)
Definition ETHERTYPE_PROFINET : Z := 0x8892.
(** eth/header.rs:6-7 ETHERTYPE_VLAN *)
Definition ETHERTYPE_VLAN : Z := 0x8100.

(** eth/header.rs:9-11 MacAddr *)
Record MacAddr := Mac { mac_octets : list Z }.

(** eth/header.rs:13-24 EthHeader *)
Record EthHeader := {
  eth_dst : MacAddr;
  eth_src : MacAddr;
  eth_vlan : option Z;
  eth_ethertype : Z
}.

(** eth/header.rs:26-32 EthError *)
Inductive EthError := EthTooShort.

#[global] Instance MacAddr_eq_dec : EqDecision MacAddr.
Proof. solve_decision. Defined.
#[global] Instance EthError_eq_dec : EqDecision EthError.
Proof. solve_decision. Defined.
#[global] Instance EthHeader_eq_dec : EqDecision EthHeader.
Proof. solve_decision. Defined.

(** eth/header.rs:34-66 EthHeader::parse *)
Definition EthHeader_parse (buf : list Z) : outcome EthError (EthHeader * nat) :=
  if decide (length buf < 14)%nat then Err EthTooShort else
  let! dst := slice buf 0 6 in
  let! src := slice buf 6 12 in
  let! first := be16_at buf 12 in
  let! (vlan, ethertype, off) :=
    (if decide (first = ETHERTYPE_VLAN) then
       if decide (length buf < 18)%nat then Err EthTooShort else
       let! tci := be16_at buf 14 in
       let! et := be16_at buf 16 in
       Ok (Some tci, et, 18%nat)
     else Ok (None, first, 14%nat)) in
  Ok ({| eth_dst := Mac dst; eth_src := Mac src;
         eth_vlan := vlan; eth_ethertype := ethertype |}, off).

(** eth/header.rs:68-78 EthHeader::write *)
Definition EthHeader_write (h : EthHeader) : list Z :=
  mac_octets (eth_dst h) ++ mac_octets (eth_src h) ++
  match eth_vlan h with
  | Some tci => be16 ETHERTYPE_VLAN ++ be16 tci
  | None => []
  end ++ be16 (eth_ethertype h).

(** ** Well-formed values (what the Rust types guarantee) *)

Definition wf_mac (m : MacAddr) : Prop :=
  length (mac_octets m) = 6%nat ∧ Forall u8 (mac_octets m).

Definition wf_eth (h : EthHeader) : Prop :=
  wf_mac (eth_dst h) ∧ wf_mac (eth_src h) ∧
  (∀ tci, eth_vlan h = Some tci → u16 tci) ∧ u16 (eth_ethertype h).

(** An untagged header cannot announce the tag's own ethertype. *)
Definition eth_unambiguous (h : EthHeader) : Prop :=
  eth_vlan h = None → eth_ethertype h ≠ ETHERTYPE_VLAN.

Lemma length_EthHeader_write h :
  wf_eth h → length (EthHeader_write h) = match eth_vlan h with Some _ => 18 | None => 14 end%nat.
Proof.
  intros ([Hd _] & [Hs _] & _). unfold EthHeader_write.
  rewrite !length_app, Hd, Hs. by destruct (eth_vlan h).
Qed.

Lemma EthHeader_parse_no_panic buf : no_panic (EthHeader_parse buf).
Proof. unfold EthHeader_parse. np. Qed.
#[export] Hint Resolve EthHeader_parse_no_panic : panics.

Lemma EthHeader_parse_off buf h off :
  EthHeader_parse buf = Ok (h, off) → (off = 14 ∨ off = 18)%nat ∧ (off ≤ length buf)%nat.
Proof. unfold EthHeader_parse. intros H. ok_inv; simplify_eq; lia. Qed.

Lemma EthHeader_parse_write h rest :
  wf_eth h → eth_unambiguous h →
  EthHeader_parse (EthHeader_write h ++ rest) = Ok (h, length (EthHeader_write h)).
Proof.
  intros Hwf Hu. rewrite length_EthHeader_write by done.
  destruct h as [[d] [s] vlan et], Hwf as ([Hd _] & [Hs _] & Hv & He). cbn in *.
  list_elements d Hd. list_elements s Hs.
  destruct vlan as [tci|]; unfold EthHeader_write, EthHeader_parse; cbn.
  - unfold be16_at, idx; cbn. rewrite !from_be16_to by range. done.
  - dec. unfold be16_at, idx; cbn. rewrite !from_be16_to by range.
    unfold eth_unambiguous in Hu; cbn in Hu. specialize (Hu eq_refl). dec. done.
Qed.

(** What the parser accepts is exactly what the serializer would have
    produced, followed by the payload. *)
Lemma EthHeader_write_parse buf h off :
  Forall u8 buf → EthHeader_parse buf = Ok (h, off) →
  wf_eth h ∧ buf = EthHeader_write h ++ drop off buf ∧ off = length (EthHeader_write h).
Proof.
  intros Hb H.
  assert (14 ≤ length buf)%nat as Hl.
  { unfold EthHeader_parse in H. ok_inv; lia. }
  do 14 (destruct buf as [|? buf]; [cbn in Hl; lia|]).
  repeat match goal with Hf : Forall _ (_ :: _) |- _ => inversion Hf; clear Hf; subst end.
  revert H. unfold EthHeader_parse, be16_at, idx. cbn. dec. cbn.
  destruct (decide (from_be16 z11 z12 = ETHERTYPE_VLAN)) as [Hv|Hv].
  - case_decide as Hl'; [discriminate|]. cbn in Hl'.
    do 4 (destruct buf as [|? buf]; [cbn in Hl'; lia|]).
    repeat match goal with Hf : Forall _ (_ :: _) |- _ => inversion Hf; clear Hf; subst end.
    cbn. intros [= <- <-].
    assert (z11 = 0x81 ∧ z12 = 0x00) as [-> ->]
      by (unfold from_be16, ETHERTYPE_VLAN, u8 in *; lia).
    unfold EthHeader_write; cbn [eth_dst eth_src eth_vlan eth_ethertype mac_octets].
    rewrite !be16_from by done.
    split; [|done]. unfold wf_eth, wf_mac; cbn. split_and!; auto 10;
      intros ? [=]; subst; auto.
  - cbn. intros [= <- <-].
    unfold EthHeader_write; cbn [eth_dst eth_src eth_vlan eth_ethertype mac_octets].
    rewrite !be16_from by done.
    split; [|done]. unfold wf_eth, wf_mac; cbn. split_and!; auto 10;
      intros ? [=]; subst; auto.
Qed.
