(* ===== verification/Bpf.v ===== *)
(** * Bpf: the classic BPF programs attached to the raw sockets

    Models [crates/pnio/src/eth/bpf.rs]: the instruction format, the two
    filter programs, and the classic-BPF machine they run on (the file's own
    interpreter of exactly these opcodes).  The machine is given fuel; the
    programs only jump forward, so the program length is enough, which
    [run_frame_id_filter] shows by computing the result of every run. *)

From S2P Require Import Prelude Eth.
Local Open Scope Z_scope.

(** eth/bpf.rs:13-29 SockFilter *)
Record SockFilter := insn { sf_code : Z; sf_jt : nat; sf_jf : nat; sf_k : Z }.

(** eth/bpf.rs:31-32 LD_H_ABS *)
Definition LD_H_ABS : Z := 0x28.
(** eth/bpf.rs:33-34 LD_H_IND *)
Definition LD_H_IND : Z := 0x48.
(** eth/bpf.rs:35-36 LDX_IMM *)
Definition LDX_IMM : Z := 0x01.
(** eth/bpf.rs:37-38 JA *)
Definition JA : Z := 0x05.
(** eth/bpf.rs:39-40 JEQ *)
Definition JEQ : Z := 0x15.
(** eth/bpf.rs:41-42 JGE *)
Definition JGE : Z := 0x35.
(** eth/bpf.rs:43-44 JGT *)
Definition JGT : Z := 0x25.
(** eth/bpf.rs:45-46 RET *)
Definition RET : Z := 0x06.

(** eth/bpf.rs:52-86 frame_id_filter *)
Definition frame_id_filter (lo hi : Z) : list SockFilter :=
  [ insn LD_H_ABS 0 0 12;
    insn JEQ 0 2 0x8892;
    insn LDX_IMM 0 0 14;
    insn JA 0 0 4;
    insn JEQ 0 6 0x8100;
    insn LD_H_ABS 0 0 16;
    insn JEQ 0 4 0x8892;
    insn LDX_IMM 0 0 18;
    insn LD_H_IND 0 0 0;
    insn JGE 0 1 lo;
    insn JGT 0 1 hi;
    insn RET 0 0 0;
    insn RET 0 0 0xFFFF ].

(** eth/bpf.rs:88-91 rt_filter *)
Definition rt_filter : list SockFilter := frame_id_filter 0x8000 0xBFFF.
(** eth/bpf.rs:93-96 acyclic_filter *)
Definition acyclic_filter : list SockFilter := frame_id_filter 0xFC00 0xFFFF.

(** eth/bpf.rs:106-109 ldh *)
Definition ldh (pkt : list Z) (off : nat) : option Z :=
  match pkt !! off, pkt !! (off + 1)%nat with
  | Some h, Some l => Some (from_be16 h l)
  | _, _ => None
  end.

(** The body of the interpreter's loop on one fetched instruction, [pc]
    already advanced: a returned length, or the next [(a, x, pc)]. *)
(** eth/bpf.rs:112-131 run *)
Definition bpf_exec (pkt : list Z) (i : SockFilter) (a x : Z) (pc : nat) :
    outcome unit (Z + Z * Z * nat) :=
  if decide (sf_code i = LD_H_ABS) then
    match ldh pkt (Z.to_nat (sf_k i)) with
    | Some v => Ok (inr (v, x, pc))
    | None => Ok (inl 0)
    end
  else if decide (sf_code i = LD_H_IND) then
    match ldh pkt (Z.to_nat (x + sf_k i)) with
    | Some v => Ok (inr (v, x, pc))
    | None => Ok (inl 0)
    end
  else if decide (sf_code i = LDX_IMM) then Ok (inr (a, sf_k i, pc))
  else if decide (sf_code i = JA) then Ok (inr (a, x, (pc + Z.to_nat (sf_k i))%nat))
  else if decide (sf_code i = JEQ) then
    Ok (inr (a, x, (pc + if decide (a = sf_k i)%Z then sf_jt i else sf_jf i)%nat))
  else if decide (sf_code i = JGE) then
    Ok (inr (a, x, (pc + if decide (sf_k i ≤ a)%Z then sf_jt i else sf_jf i)%nat))
  else if decide (sf_code i = JGT) then
    Ok (inr (a, x, (pc + if decide (sf_k i < a)%Z then sf_jt i else sf_jf i)%nat))
  else if decide (sf_code i = RET) then Ok (inl (sf_k i))
  else Panic.

(** eth/bpf.rs:105-132 run *)
Fixpoint bpf_run (fuel : nat) (prog : list SockFilter) (pkt : list Z)
    (a x : Z) (pc : nat) : outcome unit Z :=
  match fuel with
  | O => Err tt
  | S fuel =>
    let! i := idx prog pc in
    let! r := bpf_exec pkt i a x (S pc) in
    match r with
    | inl k => Ok k
    | inr (a, x, pc) => bpf_run fuel prog pkt a x pc
    end
  end.

(** A whole run: [(a, x, pc) = (0, 0, 0)], as much fuel as instructions. *)
Definition bpf_accepts (prog : list SockFilter) (pkt : list Z) : outcome unit Z :=
  bpf_run (length prog) prog pkt 0 0 0.

(** ** What the filters are meant to accept

    A frame whose Ethernet header, tagged or not, announces PROFINET and is
    followed by a FrameID in [lo..=hi]. *)
Definition frame_id_of (pkt : list Z) : option Z :=
  match EthHeader_parse pkt with
  | Ok (h, off) =>
      if decide (eth_ethertype h = ETHERTYPE_PROFINET) then ldh pkt off else None
  | _ => None
  end.

Lemma ldh_be16_at {E} pkt off v : ldh pkt off = Some v ↔ be16_at (E := E) pkt off = Ok v.
Proof.
  unfold ldh, be16_at, idx. destruct (pkt !! off), (pkt !! (off + 1)%nat); naive_solver.
Qed.

Lemma ldh_None pkt off : ldh pkt off = None ↔ (length pkt < off + 2)%nat.
Proof.
  unfold ldh. split.
  - intros H. destruct (pkt !! off) eqn:E1; [|apply lookup_ge_None in E1; lia].
    destruct (pkt !! (off + 1)%nat) eqn:E2; [done|]. apply lookup_ge_None in E2. lia.
  - intros H. destruct (pkt !! (off + 1)%nat) eqn:E2; [|by destruct (pkt !! off)].
    apply lookup_lt_Some in E2. lia.
Qed.

Lemma ldh_Some_length pkt off v : ldh pkt off = Some v → (off + 2 ≤ length pkt)%nat.
Proof.
  intros H. destruct (decide (length pkt < off + 2)%nat) as [Hl|]; [|lia].
  apply ldh_None in Hl. congruence.
Qed.

(** The header parser's view of the same half-words the filter loads. *)
Lemma frame_id_of_ldh pkt :
  frame_id_of pkt =
  match ldh pkt 12 with
  | Some et =>
      if decide (et = 0x8892) then ldh pkt 14
      else if decide (et = 0x8100) then
        match ldh pkt 16 with
        | Some et' => if decide (et' = 0x8892) then ldh pkt 18 else None
        | None => None
        end
      else None
  | None => None
  end.
Proof.
  unfold frame_id_of, EthHeader_parse, ETHERTYPE_PROFINET, ETHERTYPE_VLAN.
  destruct (ldh pkt 12) as [et|] eqn:E12; [|apply ldh_None in E12; by dec].
  pose proof (ldh_Some_length _ _ _ E12).
  unfold slice. dec. cbn [obind].
  rewrite (proj1 (ldh_be16_at _ _ _) E12). cbn [obind].
  destruct (decide (et = 0x8892)) as [->|]; [done|].
  destruct (decide (et = 0x8100)) as [->|]; [|by cbn; dec].
  cbn. destruct (ldh pkt 16) as [et'|] eqn:E16; [|apply ldh_None in E16; by dec].
  pose proof (ldh_Some_length _ _ _ E16). dec.
  destruct (ldh pkt 14) as [tci|] eqn:E14; [|apply ldh_None in E14; lia].
  rewrite (proj1 (ldh_be16_at _ _ _) E14), (proj1 (ldh_be16_at _ _ _) E16).
  cbn [obind eth_ethertype]. reflexivity.
Qed.

Lemma bpf_run_S fuel prog pkt a x pc :
  bpf_run (S fuel) prog pkt a x pc =
  let! i := idx prog pc in
  let! r := bpf_exec pkt i a x (S pc) in
  match r with
  | inl k => Ok k
  | inr (a, x, pc) => bpf_run fuel prog pkt a x pc
  end.
Proof. done. Qed.

Ltac bpf_step :=
  rewrite bpf_run_S; unfold idx; cbn [frame_id_filter lookup list_lookup obind];
  unfold bpf_exec; cbn [sf_code sf_k sf_jt sf_jf];
  repeat match goal with
  | |- context [decide (?c1 = ?c2)] =>
      is_const c1; is_const c2;
      first [ rewrite (decide_True (P := c1 = c2)) by done
            | rewrite (decide_False (P := c1 = c2)) by done ]
  end; cbn [obind Nat.add]; change_to_nat
with change_to_nat :=
  repeat match goal with
  | |- context [Z.to_nat (Z.pos ?c)] =>
      let n := eval vm_compute in (Z.to_nat (Z.pos c)) in change (Z.to_nat (Z.pos c)) with n
  end; cbn [Nat.add].

Lemma run_frame_id_filter lo hi pkt :
  bpf_accepts (frame_id_filter lo hi) pkt =
  Ok (match frame_id_of pkt with
      | Some id => if decide (lo ≤ id ≤ hi) then 0xFFFF else 0
      | None => 0
      end).
Proof.
  assert (∀ fuel x id a0, ldh pkt (Z.to_nat (x + 0)) = id →
    bpf_run (4 + fuel) (frame_id_filter lo hi) pkt a0 x 8 =
    Ok (match id with
        | Some id => if decide (lo ≤ id ≤ hi) then 0xFFFF else 0
        | None => 0
        end)) as Htail.
  { intros fuel x id a0 Hid. cbn [Nat.add]. bpf_step. rewrite Hid.
    destruct id as [id|]; [|done]. cbn [obind]. bpf_step.
    destruct (decide (lo ≤ id)); cbn [obind Nat.add]; bpf_step.
    - destruct (decide (hi < id)); cbn [obind Nat.add]; bpf_step;
        repeat case_decide; done || lia.
    - case_decide; done || lia. }
  rewrite frame_id_of_ldh. unfold bpf_accepts. change (length _) with 13%nat.
  bpf_step. destruct (ldh pkt 12) as [et|]; cbn [obind]; [|done]. bpf_step.
  destruct (decide (et = 34962)); cbn [obind Nat.add].
  { bpf_step. bpf_step. apply (Htail 5%nat). done. }
  bpf_step. destruct (decide (et = 33024)); cbn [obind Nat.add]; [|by bpf_step].
  bpf_step. destruct (ldh pkt 16) as [et'|]; cbn [obind]; [|done]. bpf_step.
  destruct (decide (et' = 34962)); cbn [obind Nat.add]; [|by bpf_step].
  bpf_step. apply (Htail 3%nat). done.
Qed.

(** C38: [frame_id_filter lo hi] terminates on every packet within its own
    length, without running off the program, and accepts (with length
    [0xFFFF]) exactly the frames whose Ethernet header, tagged or untagged,
    parses with the PROFINET ethertype and is followed by a FrameID in
    [lo..=hi]; every other packet is dropped with [0]. *)
Theorem frame_id_filter_correct lo hi pkt :
  bpf_accepts (frame_id_filter lo hi) pkt =
    Ok (match EthHeader_parse pkt with
        | Ok (h, off) =>
            if decide (eth_ethertype h = ETHERTYPE_PROFINET) then
              match be16_at (E := unit) pkt off with
              | Ok id => if decide (lo ≤ id ≤ hi) then 0xFFFF else 0
              | _ => 0
              end
            else 0
        | _ => 0
        end).
Proof.
  rewrite run_frame_id_filter. unfold frame_id_of.
  destruct (EthHeader_parse pkt) as [[h off]| |]; try done.
  case_decide; [|done]. destruct (ldh pkt off) as [v|] eqn:E.
  - by rewrite (proj1 (ldh_be16_at _ _ _) E).
  - destruct (be16_at pkt off) eqn:E'; try done.
    apply ldh_be16_at in E'. congruence.
Qed.
