(* ===== verification/Rpc.v ===== *)
(** * Rpc: the DCE-RPC v4 connectionless codec

    Models [crates/pnio/src/rpc/]: the NDR data representation ([mod.rs]),
    UUIDs in wire form ([uuid.rs]), the 80-byte connectionless header
    ([header.rs]) and the NDR array headers in front of the PNIO blocks
    ([ndr.rs]).  The UDP and mock transports are not modelled (sockets). *)

From S2P Require Import Prelude.
Local Open Scope Z_scope.

(** ** Data representation and UUIDs *)

(** rpc/mod.rs:89-95 Drep *)
Record Drep := { little_endian : bool }.
(** rpc/mod.rs:98-101 Drep::BIG *)
Definition Drep_BIG : Drep := {| little_endian := false |}.
(** rpc/mod.rs:102-105 Drep::LITTLE *)
Definition Drep_LITTLE : Drep := {| little_endian := true |}.

(** rpc/uuid.rs:6-9 Uuid *)
Record Uuid := MkUuid { uuid_bytes : list Z }.

#[global] Instance Drep_eq_dec : EqDecision Drep.
Proof. solve_decision. Defined.
#[global] Instance Uuid_eq_dec : EqDecision Uuid.
Proof. solve_decision. Defined.

(** rpc/mod.rs:22-57 RpcError *)
Inductive RpcError :=
| RpcTooShort (need have : nat)
| RpcBadVersion (v : Z)
| UnsupportedPtype (p : Z)
| Fragmented (frag_num flags1 : Z)
| BadInterface (u : Uuid)
| NdrMismatch (why : string)
| RpcIo (kind : Z).

(** rpc/mod.rs:62-87 RpcError::eq *)
Definition RpcError_eq (self other : RpcError) : bool :=
  match self, other with
  | RpcTooShort n1 h1, RpcTooShort n2 h2 => bool_decide (n1 = n2) && bool_decide (h1 = h2)
  | RpcBadVersion a, RpcBadVersion b => bool_decide (a = b)
  | UnsupportedPtype a, UnsupportedPtype b => bool_decide (a = b)
  | Fragmented f1 fl1, Fragmented f2 fl2 => bool_decide (f1 = f2) && bool_decide (fl1 = fl2)
  | BadInterface a, BadInterface b => bool_decide (a = b)
  | NdrMismatch a, NdrMismatch b => bool_decide (a = b)
  | RpcIo a, RpcIo b => bool_decide (a = b)
  | _, _ => false
  end.

(** rpc/mod.rs:107-112 Drep::from_byte *)
Definition Drep_from_byte (b : Z) : Drep :=
  {| little_endian := bool_decide (Z.land b 0x10 ≠ 0) |}.
(** rpc/mod.rs:113-116 Drep::to_bytes *)
Definition Drep_to_bytes (d : Drep) : list Z :=
  [if little_endian d then 0x10 else 0x00; 0; 0].
(** rpc/mod.rs:117-125 Drep::u16 *)
Definition Drep_u16 {E} (d : Drep) (b : list Z) : outcome E Z :=
  let! b0 := idx b 0 in
  let! b1 := idx b 1 in
  Ok (if little_endian d then from_le16 b0 b1 else from_be16 b0 b1).
(** rpc/mod.rs:126-134 Drep::u32 *)
Definition Drep_u32 {E} (d : Drep) (b : list Z) : outcome E Z :=
  let! b0 := idx b 0 in
  let! b1 := idx b 1 in
  let! b2 := idx b 2 in
  let! b3 := idx b 3 in
  Ok (if little_endian d then from_le32 b0 b1 b2 b3 else from_be32 b0 b1 b2 b3).
(** rpc/mod.rs:135-142 Drep::put_u16 *)
Definition Drep_put_u16 (d : Drep) (v : Z) : list Z :=
  if little_endian d then le16 v else be16 v.
(** rpc/mod.rs:143-150 Drep::put_u32 *)
Definition Drep_put_u32 (d : Drep) (v : Z) : list Z :=
  if little_endian d then le32 v else be32 v.

(** rpc/uuid.rs:11-14 PNIO_DEVICE_INTERFACE *)
Definition PNIO_DEVICE_INTERFACE : Uuid := MkUuid
  [0xde; 0xa0; 0x00; 0x01; 0x6c; 0x97; 0x11; 0xd1;
   0x82; 0x71; 0x00; 0xa0; 0x24; 0x42; 0xdf; 0x7d].
(** rpc/uuid.rs:15-18 PNIO_CONTROLLER_INTERFACE *)
Definition PNIO_CONTROLLER_INTERFACE : Uuid := MkUuid
  [0xde; 0xa0; 0x00; 0x02; 0x6c; 0x97; 0x11; 0xd1;
   0x82; 0x71; 0x00; 0xa0; 0x24; 0x42; 0xdf; 0x7d].
(** rpc/uuid.rs:21-22 Uuid::NIL *)
Definition Uuid_NIL : Uuid := MkUuid (replicate 16 0).

(** rpc/uuid.rs:24-33 Uuid::pnio_object *)
Definition Uuid_pnio_object (instance device_id vendor_id : Z) : Uuid :=
  MkUuid ([0xde; 0xa0; 0x00; 0x00; 0x6c; 0x97; 0x11; 0xd1; 0x82; 0x71]
          ++ be16 instance ++ be16 device_id ++ be16 vendor_id).

(** rpc/uuid.rs:49-60 Uuid::read *)
Definition Uuid_read {E} (buf : list Z) (drep : Drep) : outcome E (option Uuid) :=
  if decide (length buf < 16)%nat then Ok None else
  let! s0 := slice buf 0 4 in
  let! time_low := Drep_u32 drep s0 in
  let! s1 := slice buf 4 6 in
  let! time_mid := Drep_u16 drep s1 in
  let! s2 := slice buf 6 8 in
  let! time_hi := Drep_u16 drep s2 in
  let! node := slice buf 8 16 in
  Ok (Some (MkUuid (be32 time_low ++ be16 time_mid ++ be16 time_hi ++ node))).

(** rpc/uuid.rs:62-72 Uuid::write *)
Definition Uuid_write {E} (u : Uuid) (drep : Drep) : outcome E (list Z) :=
  let b := uuid_bytes u in
  let! time_low := be32_at b 0 in
  let! time_mid := be16_at b 4 in
  let! time_hi := be16_at b 6 in
  let! node := slice b 8 16 in
  Ok (Drep_put_u32 drep time_low ++ Drep_put_u16 drep time_mid
      ++ Drep_put_u16 drep time_hi ++ node).

(** ** The 80-byte connectionless header *)

(** rpc/header.rs:7-8 VERSION *)
Definition RPC_VERSION : Z := 4.
(** rpc/header.rs:10-11 FLAG1_LAST_FRAG *)
Definition FLAG1_LAST_FRAG : Z := 0x02.
(** rpc/header.rs:12-13 FLAG1_FRAG *)
Definition FLAG1_FRAG : Z := 0x04.
(** rpc/header.rs:14-15 FLAG1_NO_FACK *)
Definition FLAG1_NO_FACK : Z := 0x08.
(** rpc/header.rs:16-17 FLAG1_IDEMPOTENT *)
Definition FLAG1_IDEMPOTENT : Z := 0x20.

(** rpc/header.rs:19-45 PacketType *)
Inductive PacketType :=
| PtRequest | PtPing | PtResponse | PtFault | PtWorking | PtNocall
| PtReject | PtAck | PtClCancel | PtFack | PtCancelAck.

(** rpc/header.rs:48-64 PacketType::from_u8 *)
Definition PacketType_from_u8 (b : Z) : outcome RpcError PacketType :=
  match b with
  | 0 => Ok PtRequest
  | 1 => Ok PtPing
  | 2 => Ok PtResponse
  | 3 => Ok PtFault
  | 4 => Ok PtWorking
  | 5 => Ok PtNocall
  | 6 => Ok PtReject
  | 7 => Ok PtAck
  | 8 => Ok PtClCancel
  | 9 => Ok PtFack
  | 10 => Ok PtCancelAck
  | other => Err (UnsupportedPtype other)
  end.

(** rpc/header.rs:66-69 PacketType::to_u8 *)
Definition PacketType_to_u8 (p : PacketType) : Z :=
  match p with
  | PtRequest => 0 | PtPing => 1 | PtResponse => 2 | PtFault => 3 | PtWorking => 4
  | PtNocall => 5 | PtReject => 6 | PtAck => 7 | PtClCancel => 8 | PtFack => 9
  | PtCancelAck => 10
  end.

(** rpc/header.rs:72-87 Opnum *)
Inductive Opnum := OpConnect | OpRelease | OpRead | OpWrite | OpControl | OpReadImplicit.

(** rpc/header.rs:90-101 Opnum::from_u16 *)
Definition Opnum_from_u16 (v : Z) : option Opnum :=
  match v with
  | 0 => Some OpConnect
  | 1 => Some OpRelease
  | 2 => Some OpRead
  | 3 => Some OpWrite
  | 4 => Some OpControl
  | 5 => Some OpReadImplicit
  | _ => None
  end.

(** rpc/header.rs:103-106 Opnum::to_u16 *)
Definition Opnum_to_u16 (o : Opnum) : Z :=
  match o with
  | OpConnect => 0 | OpRelease => 1 | OpRead => 2 | OpWrite => 3 | OpControl => 4
  | OpReadImplicit => 5
  end.

#[global] Instance PacketType_eq_dec : EqDecision PacketType.
Proof. solve_decision. Defined.
#[global] Instance Opnum_eq_dec : EqDecision Opnum.
Proof. solve_decision. Defined.

(** rpc/header.rs:109-148 RpcHeader *)
Record RpcHeader := {
  rh_ptype : PacketType;
  rh_flags1 : Z;
  rh_flags2 : Z;
  rh_drep : Drep;
  rh_serial_hi : Z;
  rh_object : Uuid;
  rh_interface : Uuid;
  rh_activity : Uuid;
  rh_server_boot : Z;
  rh_if_version : Z;
  rh_seq_num : Z;
  rh_opnum : Z;
  rh_ihint : Z;
  rh_ahint : Z;
  rh_frag_len : Z;
  rh_frag_num : Z;
  rh_auth_proto : Z;
  rh_serial_lo : Z
}.

(** rpc/header.rs:151-152 RpcHeader::LEN *)
Definition RpcHeader_LEN : nat := 80.

(** [drep.u32(&buf[lo..lo + 4])], [drep.u16(&buf[lo..lo + 2])] and
    [Uuid::read(&buf[lo..lo + 16], drep).unwrap()] on a sub-slice. *)
Definition drep_u32_at {E} (d : Drep) (buf : list Z) (lo : nat) : outcome E Z :=
  let! s := slice buf lo (lo + 4) in Drep_u32 d s.
Definition drep_u16_at {E} (d : Drep) (buf : list Z) (lo : nat) : outcome E Z :=
  let! s := slice buf lo (lo + 2) in Drep_u16 d s.
Definition uuid_at {E} (d : Drep) (buf : list Z) (lo : nat) : outcome E Uuid :=
  let! s := slice buf lo (lo + 16) in
  let! o := Uuid_read s d in
  expect o.

(** rpc/header.rs:154-211 RpcHeader::parse *)
Definition RpcHeader_parse (buf : list Z) : outcome RpcError RpcHeader :=
  if decide (length buf < RpcHeader_LEN)%nat then Err (RpcTooShort RpcHeader_LEN (length buf)) else
  let! b0 := idx buf 0 in
  if decide (b0 ≠ RPC_VERSION) then Err (RpcBadVersion b0) else
  let! b1 := idx buf 1 in
  let! ptype := PacketType_from_u8 b1 in
  let! flags1 := idx buf 2 in
  let! flags2 := idx buf 3 in
  let! b4 := idx buf 4 in
  let drep := Drep_from_byte b4 in
  let! serial_hi := idx buf 7 in
  let! object := uuid_at drep buf 8 in
  let! interface := uuid_at drep buf 24 in
  let! activity := uuid_at drep buf 40 in
  let! server_boot := drep_u32_at drep buf 56 in
  let! if_version := drep_u32_at drep buf 60 in
  let! seq_num := drep_u32_at drep buf 64 in
  let! opnum := drep_u16_at drep buf 68 in
  let! ihint := drep_u16_at drep buf 70 in
  let! ahint := drep_u16_at drep buf 72 in
  let! frag_len := drep_u16_at drep buf 74 in
  let! frag_num := drep_u16_at drep buf 76 in
  let! auth_proto := idx buf 78 in
  let! serial_lo := idx buf 79 in
  if decide (frag_num ≠ 0 ∨ Z.land flags1 FLAG1_FRAG ≠ 0) then
    Err (Fragmented frag_num flags1)
  else
  Ok {| rh_ptype := ptype; rh_flags1 := flags1; rh_flags2 := flags2; rh_drep := drep;
        rh_serial_hi := serial_hi; rh_object := object; rh_interface := interface;
        rh_activity := activity; rh_server_boot := server_boot; rh_if_version := if_version;
        rh_seq_num := seq_num; rh_opnum := opnum; rh_ihint := ihint; rh_ahint := ahint;
        rh_frag_len := frag_len; rh_frag_num := frag_num; rh_auth_proto := auth_proto;
        rh_serial_lo := serial_lo |}.

(** rpc/header.rs:213-235 RpcHeader::write *)
Definition RpcHeader_write {E} (h : RpcHeader) : outcome E (list Z) :=
  let d := rh_drep h in
  let! object := Uuid_write (rh_object h) d in
  let! interface := Uuid_write (rh_interface h) d in
  let! activity := Uuid_write (rh_activity h) d in
  Ok ([RPC_VERSION; PacketType_to_u8 (rh_ptype h); rh_flags1 h; rh_flags2 h]
      ++ Drep_to_bytes d ++ [rh_serial_hi h] ++ object ++ interface ++ activity
      ++ Drep_put_u32 d (rh_server_boot h) ++ Drep_put_u32 d (rh_if_version h)
      ++ Drep_put_u32 d (rh_seq_num h) ++ Drep_put_u16 d (rh_opnum h)
      ++ Drep_put_u16 d (rh_ihint h) ++ Drep_put_u16 d (rh_ahint h)
      ++ Drep_put_u16 d (rh_frag_len h) ++ Drep_put_u16 d (rh_frag_num h)
      ++ [rh_auth_proto h; rh_serial_lo h]).

(** ** NDR array headers *)

(** rpc/ndr.rs:6-20 NdrRequest *)
Record NdrRequest := {
  nq_args_max : Z; nq_args_len : Z; nq_max_count : Z; nq_offset : Z; nq_actual_count : Z
}.
(** rpc/ndr.rs:23-24 NdrRequest::LEN *)
Definition NdrRequest_LEN : nat := 20.

(** rpc/ndr.rs:26-62 NdrRequest::parse *)
Definition NdrRequest_parse (buf : list Z) (drep : Drep) :
    outcome RpcError (NdrRequest * list Z) :=
  if decide (length buf < NdrRequest_LEN)%nat then Err (RpcTooShort NdrRequest_LEN (length buf))
  else
  let! args_max := drep_u32_at drep buf 0 in
  let! args_len := drep_u32_at drep buf 4 in
  let! max_count := drep_u32_at drep buf 8 in
  let! offset := drep_u32_at drep buf 12 in
  let! actual_count := drep_u32_at drep buf 16 in
  if decide (args_len ≠ actual_count) then Err (NdrMismatch "args_len != actual_count") else
  if decide (offset ≠ 0) then Err (NdrMismatch "array offset must be 0") else
  let available := (length buf - NdrRequest_LEN)%nat in
  if decide (Z.of_nat available < actual_count) then
    Err (NdrMismatch "actual_count overruns buffer")
  else
  let! blocks := slice buf NdrRequest_LEN (NdrRequest_LEN + Z.to_nat actual_count) in
  Ok ({| nq_args_max := args_max; nq_args_len := args_len; nq_max_count := max_count;
         nq_offset := offset; nq_actual_count := actual_count |}, blocks).

(** rpc/ndr.rs:64-75 NdrRequest::for_blocks *)
Definition NdrRequest_for_blocks (args_max blocks_len : Z) : NdrRequest :=
  {| nq_args_max := args_max; nq_args_len := blocks_len; nq_max_count := args_max;
     nq_offset := 0; nq_actual_count := blocks_len |}.

(** rpc/ndr.rs:77-84 NdrRequest::write *)
Definition NdrRequest_write (n : NdrRequest) (drep : Drep) : list Z :=
  Drep_put_u32 drep (nq_args_max n) ++ Drep_put_u32 drep (nq_args_len n)
  ++ Drep_put_u32 drep (nq_max_count n) ++ Drep_put_u32 drep (nq_offset n)
  ++ Drep_put_u32 drep (nq_actual_count n).

(** rpc/ndr.rs:87-102 NdrResponse *)
Record NdrResponse := {
  nr_status : Z; nr_args_len : Z; nr_max_count : Z; nr_offset : Z; nr_actual_count : Z
}.
(** rpc/ndr.rs:105-106 NdrResponse::LEN *)
Definition NdrResponse_LEN : nat := 20.

(** rpc/ndr.rs:108-144 NdrResponse::parse *)
Definition NdrResponse_parse (buf : list Z) (drep : Drep) :
    outcome RpcError (NdrResponse * list Z) :=
  if decide (length buf < NdrResponse_LEN)%nat then Err (RpcTooShort NdrResponse_LEN (length buf))
  else
  let! status := drep_u32_at drep buf 0 in
  let! args_len := drep_u32_at drep buf 4 in
  let! max_count := drep_u32_at drep buf 8 in
  let! offset := drep_u32_at drep buf 12 in
  let! actual_count := drep_u32_at drep buf 16 in
  if decide (args_len ≠ actual_count) then Err (NdrMismatch "args_len != actual_count") else
  if decide (offset ≠ 0) then Err (NdrMismatch "array offset must be 0") else
  let available := (length buf - NdrResponse_LEN)%nat in
  if decide (Z.of_nat available < actual_count) then
    Err (NdrMismatch "actual_count overruns buffer")
  else
  let! blocks := slice buf NdrResponse_LEN (NdrResponse_LEN + Z.to_nat actual_count) in
  Ok ({| nr_status := status; nr_args_len := args_len; nr_max_count := max_count;
         nr_offset := offset; nr_actual_count := actual_count |}, blocks).

(** rpc/ndr.rs:146-157 NdrResponse::ok *)
Definition NdrResponse_ok (request_args_max blocks_len : Z) : NdrResponse :=
  {| nr_status := 0; nr_args_len := blocks_len; nr_max_count := request_args_max;
     nr_offset := 0; nr_actual_count := blocks_len |}.
(** rpc/ndr.rs:159-169 NdrResponse::error *)
Definition NdrResponse_error (status request_args_max : Z) : NdrResponse :=
  {| nr_status := status; nr_args_len := 0; nr_max_count := request_args_max;
     nr_offset := 0; nr_actual_count := 0 |}.

(** rpc/ndr.rs:171-178 NdrResponse::write *)
Definition NdrResponse_write (n : NdrResponse) (drep : Drep) : list Z :=
  Drep_put_u32 drep (nr_status n) ++ Drep_put_u32 drep (nr_args_len n)
  ++ Drep_put_u32 drep (nr_max_count n) ++ Drep_put_u32 drep (nr_offset n)
  ++ Drep_put_u32 drep (nr_actual_count n).

(** ** Well-formed values *)

Definition wf_uuid (u : Uuid) : Prop :=
  length (uuid_bytes u) = 16%nat ∧ Forall u8 (uuid_bytes u).

Definition wf_rpc_header (h : RpcHeader) : Prop :=
  wf_uuid (rh_object h) ∧ wf_uuid (rh_interface h) ∧ wf_uuid (rh_activity h) ∧
  u32 (rh_server_boot h) ∧ u32 (rh_if_version h) ∧ u32 (rh_seq_num h) ∧
  u16 (rh_opnum h) ∧ u16 (rh_ihint h) ∧ u16 (rh_ahint h) ∧ u16 (rh_frag_len h) ∧
  u16 (rh_frag_num h).

(** The header announces a single, unfragmented PDU. *)
Definition unfragmented (h : RpcHeader) : Prop :=
  rh_frag_num h = 0 ∧ Z.land (rh_flags1 h) FLAG1_FRAG = 0.

(** ** Byte-order-generic reads *)

Lemma Drep_u16_put {E} d v rest : u16 v → Drep_u16 (E := E) d (Drep_put_u16 d v ++ rest) = Ok v.
Proof.
  intros. unfold Drep_u16, Drep_put_u16, idx. destruct (little_endian d); cbn.
  - by rewrite from_le16_to.
  - by rewrite from_be16_to.
Qed.

Lemma Drep_u32_put {E} d v rest : u32 v → Drep_u32 (E := E) d (Drep_put_u32 d v ++ rest) = Ok v.
Proof.
  intros. unfold Drep_u32, Drep_put_u32, idx. destruct (little_endian d); cbn.
  - by rewrite from_le32_to.
  - by rewrite from_be32_to.
Qed.

Lemma length_Drep_put_u16 d v : length (Drep_put_u16 d v) = 2%nat.
Proof. unfold Drep_put_u16. by destruct (little_endian d). Qed.

Lemma length_Drep_put_u32 d v : length (Drep_put_u32 d v) = 4%nat.
Proof. unfold Drep_put_u32. by destruct (little_endian d). Qed.

#[export] Hint Rewrite length_Drep_put_u16 length_Drep_put_u32 : len.

Lemma drep_u16_at_drop {E} d buf lo v rest :
  u16 v → drop lo buf = Drep_put_u16 d v ++ rest → (lo ≤ length buf)%nat →
  drep_u16_at (E := E) d buf lo = Ok v.
Proof.
  intros Hv Hd Hlo. unfold drep_u16_at.
  rewrite (slice_drop buf lo (lo + 2) (Drep_put_u16 d v) rest)
    by (done || by rewrite length_Drep_put_u16).
  cbn. rewrite <-(app_nil_r (Drep_put_u16 d v)). by apply Drep_u16_put.
Qed.

Lemma drep_u32_at_drop {E} d buf lo v rest :
  u32 v → drop lo buf = Drep_put_u32 d v ++ rest → (lo ≤ length buf)%nat →
  drep_u32_at (E := E) d buf lo = Ok v.
Proof.
  intros Hv Hd Hlo. unfold drep_u32_at.
  rewrite (slice_drop buf lo (lo + 4) (Drep_put_u32 d v) rest)
    by (done || by rewrite length_Drep_put_u32).
  cbn. rewrite <-(app_nil_r (Drep_put_u32 d v)). by apply Drep_u32_put.
Qed.

Lemma no_panic_Drep_u16 {E} d b : (2 ≤ length b)%nat → no_panic (Drep_u16 (E := E) d b).
Proof. intros. unfold Drep_u16. np. Qed.
Lemma no_panic_Drep_u32 {E} d b : (4 ≤ length b)%nat → no_panic (Drep_u32 (E := E) d b).
Proof. intros. unfold Drep_u32. np. Qed.

Lemma no_panic_drep_u16_at {E} d b lo :
  (lo + 2 ≤ length b)%nat → no_panic (drep_u16_at (E := E) d b lo).
Proof.
  intros. unfold drep_u16_at. np. slice_lens. apply no_panic_Drep_u16. lia.
Qed.
Lemma no_panic_drep_u32_at {E} d b lo :
  (lo + 4 ≤ length b)%nat → no_panic (drep_u32_at (E := E) d b lo).
Proof.
  intros. unfold drep_u32_at. np. slice_lens. apply no_panic_Drep_u32. lia.
Qed.

Lemma no_panic_Uuid_read {E} b d : no_panic (Uuid_read (E := E) b d).
Proof.
  unfold Uuid_read. case_decide; [done|].
  repeat (np_step || (slice_lens; first [apply no_panic_Drep_u32; lia | apply no_panic_Drep_u16; lia])).
Qed.
#[export] Hint Resolve no_panic_Uuid_read : panics.

Lemma Uuid_read_Some {E} b d :
  (16 ≤ length b)%nat → ∃ u, Uuid_read (E := E) b d = Ok (Some u).
Proof.
  intros H. do 16 (destruct b as [|? b]; [cbn in H; lia|]).
  unfold Uuid_read, slice. dec. cbn. unfold Drep_u32, Drep_u16, idx; cbn. eauto.
Qed.

Lemma no_panic_uuid_at {E} d b lo :
  (lo + 16 ≤ length b)%nat → no_panic (uuid_at (E := E) d b lo).
Proof.
  intros. unfold uuid_at. np. slice_lens.
  match goal with H : Uuid_read ?s ?d = Ok ?o |- _ =>
    destruct (Uuid_read_Some (E := E) s d) as [u Hu]; [lia|]; rewrite Hu in H end.
  by simplify_eq.
Qed.

(** The bytes of a UUID: writing a 16-byte array cannot panic. *)
Definition Uuid_wire (u : Uuid) (d : Drep) : list Z :=
  match Uuid_write (E := unit) u d with Ok bs => bs | _ => [] end.

Lemma Uuid_write_Ok {E} u d : wf_uuid u → Uuid_write (E := E) u d = Ok (Uuid_wire u d).
Proof.
  intros [Hl _]. destruct u as [b]; cbn in Hl. list_elements b Hl.
  by unfold Uuid_wire, Uuid_write, be32_at, be16_at, idx, slice.
Qed.

Lemma length_Uuid_wire u d : wf_uuid u → length (Uuid_wire u d) = 16%nat.
Proof.
  intros [Hl _]. destruct u as [b]; cbn in Hl. list_elements b Hl.
  unfold Uuid_wire, Uuid_write, be32_at, be16_at, idx, slice, Drep_put_u32, Drep_put_u16.
  by destruct (little_endian d).
Qed.

(** Refold the byte lists [cbn] has opened. *)
Ltac fold_be :=
  repeat match goal with
  | |- context [?x / 16777216 mod 256 :: _ :: _ :: ?x mod 256 :: ?r] =>
      change (x / 16777216 mod 256 :: _ :: _ :: x mod 256 :: r) with (be32 x ++ r)
  | |- context [?x / 256 mod 256 :: ?x mod 256 :: ?r] =>
      change (x / 256 mod 256 :: x mod 256 :: r) with (be16 x ++ r)
  end.

(** A UUID written in either byte order reads back unchanged. *)
Lemma Uuid_read_wire {E} u d rest :
  wf_uuid u → Uuid_read (E := E) (Uuid_wire u d ++ rest) d = Ok (Some u).
Proof.
  intros [Hl Hb]. destruct u as [b]; cbn in Hl, Hb. list_elements b Hl.
  repeat match goal with Hf : Forall _ (_ :: _) |- _ => inversion Hf; clear Hf; subst end.
  unfold Uuid_wire, Uuid_write, be32_at, be16_at, idx, slice; cbn.
  unfold Uuid_read, slice, Drep_put_u32, Drep_put_u16. destruct (little_endian d) eqn:Hd; cbn; dec; cbn;
    unfold Drep_u32, Drep_u16, idx; rewrite Hd; cbn.
  - rewrite from_le32_to, !from_le16_to by auto. fold_be. by rewrite be32_from, !be16_from.
  - rewrite from_be32_to, !from_be16_to by auto. fold_be. by rewrite be32_from, !be16_from.
Qed.

Lemma uuid_at_drop {E} d buf lo u rest :
  wf_uuid u → drop lo buf = Uuid_wire u d ++ rest →
  (lo ≤ length buf)%nat → uuid_at (E := E) d buf lo = Ok u.
Proof.
  intros Hu Hd Hlo. unfold uuid_at.
  rewrite (slice_drop buf lo (lo + 16) (Uuid_wire u d) rest)
    by (done || by rewrite length_Uuid_wire).
  cbn. rewrite <-(app_nil_r (Uuid_wire u d)). by rewrite Uuid_read_wire.
Qed.

Lemma PacketType_from_to p : PacketType_from_u8 (PacketType_to_u8 p) = Ok p.
Proof. by destruct p. Qed.

Lemma no_panic_PacketType_from_u8 b : no_panic (PacketType_from_u8 b).
Proof. unfold PacketType_from_u8. repeat case_match; done. Qed.

Lemma Drep_from_to_bytes d : Drep_from_byte (if little_endian d then 0x10 else 0x00) = d.
Proof. by destruct d as [[]]. Qed.

#[export] Hint Resolve no_panic_PacketType_from_u8 no_panic_uuid_at no_panic_drep_u16_at
  no_panic_drep_u32_at : panics.

Ltac rpc_np :=
  repeat (np_step ||
    first [ apply no_panic_uuid_at; lia | apply no_panic_drep_u16_at; lia
          | apply no_panic_drep_u32_at; lia | apply no_panic_PacketType_from_u8 ]).

Lemma RpcHeader_parse_no_panic buf : no_panic (RpcHeader_parse buf).
Proof.
  unfold RpcHeader_parse, RpcHeader_LEN. case_decide; [done|]. rpc_np.
Qed.

Lemma NdrRequest_parse_no_panic buf d : no_panic (NdrRequest_parse buf d).
Proof.
  unfold NdrRequest_parse, NdrRequest_LEN. case_decide; [done|]. rpc_np.
Qed.

Lemma NdrResponse_parse_no_panic buf d : no_panic (NdrResponse_parse buf d).
Proof.
  unfold NdrResponse_parse, NdrResponse_LEN. case_decide; [done|]. rpc_np.
Qed.
#[export] Hint Resolve RpcHeader_parse_no_panic NdrRequest_parse_no_panic
  NdrResponse_parse_no_panic : panics.

(** The 80 bytes of a header. *)
Definition RpcHeader_wire (h : RpcHeader) : list Z :=
  match RpcHeader_write (E := unit) h with Ok bs => bs | _ => [] end.

Lemma RpcHeader_write_Ok {E} h :
  wf_rpc_header h → RpcHeader_write (E := E) h = Ok (RpcHeader_wire h).
Proof.
  intros (Ho & Hi & Ha & _). unfold RpcHeader_wire, RpcHeader_write.
  by rewrite !Uuid_write_Ok.
Qed.

Lemma length_RpcHeader_wire h : wf_rpc_header h → length (RpcHeader_wire h) = 80%nat.
Proof.
  intros (Ho & Hi & Ha & _). unfold RpcHeader_wire, RpcHeader_write.
  rewrite !Uuid_write_Ok by done. cbn [obind].
  rewrite !length_app, !length_Drep_put_u32, !length_Drep_put_u16, !length_Uuid_wire; done.
Qed.

(** Side conditions of a field read past the eight leading bytes. *)
Ltac rpc_field Hdrop :=
  first [ eassumption
        | match goal with |- drop ?n _ = _ =>
            let k := eval cbv in (n - 8)%nat in rewrite (Hdrop n k eq_refl) end;
          cbn [Nat.sub]; seek; reflexivity
        | lia ].

Lemma RpcHeader_parse_wire h rest :
  wf_rpc_header h → unfragmented h → RpcHeader_parse (RpcHeader_wire h ++ rest) = Ok h.
Proof.
  intros Hwf [Hfn Hf1]. destruct Hwf as (Ho & Hi & Ha & ? & ? & ? & ? & ? & ? & ? & ?).
  unfold RpcHeader_wire, RpcHeader_write. rewrite !Uuid_write_Ok by done. cbn [obind].
  pose proof (length_Uuid_wire _ (rh_drep h) Ho). pose proof (length_Uuid_wire _ (rh_drep h) Hi).
  pose proof (length_Uuid_wire _ (rh_drep h) Ha).
  unfold RpcHeader_parse, RpcHeader_LEN, Drep_to_bytes.
  set (d := rh_drep h) in *. set (buf := _ ++ rest).
  assert (length buf = (80 + length rest)%nat) as Hlen by (subst buf; len).
  assert (∃ tl, drop 8 buf = Uuid_wire (rh_object h) d ++ Uuid_wire (rh_interface h) d
    ++ Uuid_wire (rh_activity h) d ++ Drep_put_u32 d (rh_server_boot h)
    ++ Drep_put_u32 d (rh_if_version h) ++ Drep_put_u32 d (rh_seq_num h)
    ++ Drep_put_u16 d (rh_opnum h) ++ Drep_put_u16 d (rh_ihint h)
    ++ Drep_put_u16 d (rh_ahint h) ++ Drep_put_u16 d (rh_frag_len h)
    ++ Drep_put_u16 d (rh_frag_num h) ++ rh_auth_proto h :: rh_serial_lo h :: tl) as [tl Hb].
  { exists rest. subst buf. cbn [drop app]. by rewrite <-!app_assoc. }
  assert (∀ n k, n = (8 + k)%nat → drop n buf = drop k (drop 8 buf)) as Hdrop
    by (intros n k ->; by rewrite drop_drop).
  rewrite Hb in Hdrop.
  rewrite decide_False by lia.
  rewrite (idx_drop buf 0 _ _ eq_refl). cbn [obind]. dec.
  rewrite (idx_drop buf 1 _ _ eq_refl). cbn [obind]. rewrite PacketType_from_to.
  rewrite (idx_drop buf 2 _ _ eq_refl), (idx_drop buf 3 _ _ eq_refl),
    (idx_drop buf 4 _ _ eq_refl), (idx_drop buf 7 _ _ eq_refl).
  cbn [obind]. rewrite Drep_from_to_bytes. fold d.
  erewrite (uuid_at_drop d buf 8 (rh_object h)) by rpc_field Hdrop.
  erewrite (uuid_at_drop d buf 24 (rh_interface h)) by rpc_field Hdrop.
  erewrite (uuid_at_drop d buf 40 (rh_activity h)) by rpc_field Hdrop.
  erewrite (drep_u32_at_drop d buf 56 (rh_server_boot h)) by rpc_field Hdrop.
  erewrite (drep_u32_at_drop d buf 60 (rh_if_version h)) by rpc_field Hdrop.
  erewrite (drep_u32_at_drop d buf 64 (rh_seq_num h)) by rpc_field Hdrop.
  erewrite (drep_u16_at_drop d buf 68 (rh_opnum h)) by rpc_field Hdrop.
  erewrite (drep_u16_at_drop d buf 70 (rh_ihint h)) by rpc_field Hdrop.
  erewrite (drep_u16_at_drop d buf 72 (rh_ahint h)) by rpc_field Hdrop.
  erewrite (drep_u16_at_drop d buf 74 (rh_frag_len h)) by rpc_field Hdrop.
  erewrite (drep_u16_at_drop d buf 76 (rh_frag_num h)) by rpc_field Hdrop.
  erewrite (idx_drop buf 78 (rh_auth_proto h)) by rpc_field Hdrop.
  erewrite (idx_drop buf 79 (rh_serial_lo h)) by rpc_field Hdrop.
  cbn [obind]. rewrite decide_False by (rewrite Hf1, Hfn; naive_solver).
  by destruct h.
Qed.

(** The two NDR headers carry the same five words; what they accept is
    decided by the last four. *)
Lemma ndr_words_at {E} d v0 v1 v2 v3 v4 rest :
  u32 v0 → u32 v1 → u32 v2 → u32 v3 → u32 v4 →
  let buf := Drep_put_u32 d v0 ++ Drep_put_u32 d v1 ++ Drep_put_u32 d v2
             ++ Drep_put_u32 d v3 ++ Drep_put_u32 d v4 ++ rest in
  drep_u32_at (E := E) d buf 0 = Ok v0 ∧ drep_u32_at (E := E) d buf 4 = Ok v1 ∧
  drep_u32_at (E := E) d buf 8 = Ok v2 ∧ drep_u32_at (E := E) d buf 12 = Ok v3 ∧
  drep_u32_at (E := E) d buf 16 = Ok v4.
Proof.
  intros ????? buf. split_and!;
    (eapply drep_u32_at_drop; [eassumption|subst buf; seek; reflexivity|subst buf; len]).
Qed.

Lemma NdrRequest_parse_write d args_max blocks rest :
  u32 args_max → u32 (Z.of_nat (length blocks)) →
  let n := NdrRequest_for_blocks args_max (Z.of_nat (length blocks)) in
  NdrRequest_parse (NdrRequest_write n d ++ blocks ++ rest) d = Ok (n, blocks).
Proof.
  intros Ha Hb n. unfold NdrRequest_write. rewrite <-!app_assoc.
  destruct (ndr_words_at (E := RpcError) d args_max (Z.of_nat (length blocks)) args_max 0
    (Z.of_nat (length blocks)) (blocks ++ rest)) as (E0 & E1 & E2 & E3 & E4); try done.
  unfold NdrRequest_parse, NdrRequest_LEN. cbn [n NdrRequest_for_blocks nq_args_max nq_args_len
    nq_max_count nq_offset nq_actual_count].
  rewrite decide_False by len. rewrite E0, E1, E2, E3, E4. cbn [obind].
  rewrite !decide_False by (done || tauto || len).
  rewrite (slice_drop _ 20 _ blocks rest); [done|by seek|len|lia].
Qed.

Lemma NdrResponse_parse_write d n blocks rest :
  u32 (nr_status n) → u32 (nr_max_count n) → u32 (Z.of_nat (length blocks)) →
  nr_args_len n = Z.of_nat (length blocks) → nr_actual_count n = Z.of_nat (length blocks) →
  nr_offset n = 0 →
  NdrResponse_parse (NdrResponse_write n d ++ blocks ++ rest) d = Ok (n, blocks).
Proof.
  intros Hs Hm Hb Hl Hc Ho. unfold NdrResponse_write. rewrite <-!app_assoc.
  destruct (ndr_words_at (E := RpcError) d (nr_status n) (Z.of_nat (length blocks))
    (nr_max_count n) 0 (Z.of_nat (length blocks)) (blocks ++ rest))
    as (E0 & E1 & E2 & E3 & E4); try done.
  unfold NdrResponse_parse, NdrResponse_LEN. rewrite Hl, Hc, Ho.
  rewrite decide_False by len. rewrite E0, E1, E2, E3, E4. cbn [obind].
  rewrite !decide_False by (done || tauto || len).
  rewrite (slice_drop _ 20 _ blocks rest); [|by seek|len|lia].
  cbn [obind]. destruct n; cbn in *; by subst.
Qed.
