(* ===== verification/Block.v ===== *)
(** * Block: PNIO status words, the block header and the block-body parsers

    Models [crates/pnio/src/cm/status.rs], the error types of
    [crates/pnio/src/cm/mod.rs] and [crates/pnio/src/cm/block.rs]: the
    big-endian [Cursor] every block parser reads through, the 6-byte block
    header, and the bodies of ARBlockReq, IOCRBlockReq,
    ExpectedSubmoduleBlockReq and AlarmCRBlockReq.

    A cursor method is a [parser]: a function of the cursor returning a value
    and the advanced cursor.  [reads p bs a] says that [p], placed in front of
    the bytes [bs], returns [a] and stops right behind them; [safe p] says that
    [p] neither panics nor leaves its buffer.  Both are compositional, which
    is how the parsers of whole blocks are verified. *)

From S2P Require Import Prelude Eth Rpc.
Local Open Scope Z_scope.

(** ** PNIO status *)

(** cm/status.rs:4-17 ConnectBlock *)
Inductive ConnectBlock := CbArBlock | CbIocrBlock | CbExpectedSubmodule | CbAlarmCr.

(** The discriminant, [block as u8]. *)
Definition ConnectBlock_to_u8 (b : ConnectBlock) : Z :=
  match b with CbArBlock => 1 | CbIocrBlock => 2 | CbExpectedSubmodule => 3 | CbAlarmCr => 4 end.

(** cm/status.rs:19-22 PnioStatus *)
Record PnioStatus := MkStatus { status_word : Z }.

#[global] Instance PnioStatus_eq_dec : EqDecision PnioStatus.
Proof. solve_decision. Defined.

(** cm/status.rs:25-26 PnioStatus::OK *)
Definition PnioStatus_OK : PnioStatus := MkStatus 0.
(** cm/status.rs:28-31 PnioStatus::new *)
Definition PnioStatus_new (code decode code1 code2 : Z) : PnioStatus :=
  MkStatus (from_be32 code decode code1 code2).
(** cm/status.rs:33-36 PnioStatus::code *)
Definition PnioStatus_code (s : PnioStatus) : Z := wrap8 (Z.shiftr (status_word s) 24).
(** cm/status.rs:38-41 PnioStatus::decode *)
Definition PnioStatus_decode (s : PnioStatus) : Z := wrap8 (Z.shiftr (status_word s) 16).
(** cm/status.rs:43-46 PnioStatus::code1 *)
Definition PnioStatus_code1 (s : PnioStatus) : Z := wrap8 (Z.shiftr (status_word s) 8).
(** cm/status.rs:48-51 PnioStatus::code2 *)
Definition PnioStatus_code2 (s : PnioStatus) : Z := wrap8 (status_word s).
(** cm/status.rs:53-56 PnioStatus::is_ok *)
Definition PnioStatus_is_ok (s : PnioStatus) : bool := bool_decide (status_word s = 0).
(** cm/status.rs:58-61 PnioStatus::to_u32 *)
Definition PnioStatus_to_u32 (s : PnioStatus) : Z := status_word s.
(** cm/status.rs:63-69 PnioStatus::connect_reject *)
Definition connect_reject (block : ConnectBlock) (field : Z) : PnioStatus :=
  PnioStatus_new 0xDB 0x81 (ConnectBlock_to_u8 block) field.
(** cm/status.rs:71-75 PnioStatus::connect_ar_already_exists *)
Definition connect_ar_already_exists : PnioStatus := PnioStatus_new 0xDB 0x81 0x3d 0x0e.
(** cm/status.rs:77-81 PnioStatus::write_index_unsupported *)
Definition write_index_unsupported : PnioStatus := PnioStatus_new 0xDF 0x80 0xB0 0x00.
(** cm/status.rs:83-88 PnioStatus::write_wrong_ar *)
Definition write_wrong_ar : PnioStatus := PnioStatus_new 0xDF 0x81 0x3d 0x03.
(** cm/status.rs:90-95 PnioStatus::write_resource_unavailable *)
Definition write_resource_unavailable : PnioStatus := PnioStatus_new 0xDF 0x80 0xC3 0x00.
(** cm/status.rs:97-101 PnioStatus::control_wrong_state *)
Definition control_wrong_state : PnioStatus := PnioStatus_new 0xDD 0x81 0x3d 0x03.
(** cm/status.rs:103-107 PnioStatus::service_unsupported *)
Definition service_unsupported : PnioStatus := PnioStatus_new 0x81 0x81 0x05 0x00.
(** cm/status.rs:109-118 PnioStatus::read_index_unsupported *)
Definition read_index_unsupported : PnioStatus := PnioStatus_new 0xDE 0x80 0xB0 0x00.
(** cm/status.rs:120-127 PnioStatus::read_wrong_ar *)
Definition read_wrong_ar : PnioStatus := PnioStatus_new 0xDE 0x81 0x3d 0x03.
(** cm/status.rs:129-141 PnioStatus::write_invalid_parameter *)
Definition write_invalid_parameter : PnioStatus := PnioStatus_new 0xDF 0x81 0xB0 0x02.
(** cm/status.rs:143-146 PnioStatus::rta_abort *)
Definition rta_abort (code2 : Z) : PnioStatus := PnioStatus_new 0xCF 0x81 0xFD code2.
(** cm/status.rs:148-149 PnioStatus::RTA_ABORT_DHT_EXPIRED *)
Definition RTA_ABORT_DHT_EXPIRED : Z := 1.
(** cm/status.rs:150-151 PnioStatus::RTA_ABORT_ALARM_SEND_FAILED *)
Definition RTA_ABORT_ALARM_SEND_FAILED : Z := 3.
(** cm/status.rs:152-153 PnioStatus::RTA_ABORT_DHT_WDT_EXPIRED *)
Definition RTA_ABORT_DHT_WDT_EXPIRED : Z := 5.
(** cm/status.rs:154-155 PnioStatus::RTA_ABORT_ALARM_IND_ERR *)
Definition RTA_ABORT_ALARM_IND_ERR : Z := 11.
(** cm/status.rs:156-157 PnioStatus::RTA_ABORT_AR_REMOVED *)
Definition RTA_ABORT_AR_REMOVED : Z := 17.

Definition wf_status (s : PnioStatus) : Prop := u32 (status_word s).

(** ** Errors *)

(** cm/mod.rs:39-73 BlockError *)
Inductive BlockError :=
| BlockTooShort (need have : nat)
| UnexpectedType (expected got : Z)
| BadBlockVersion (hi lo : Z)
| BadLength (declared : Z) (available : nat)
| Malformed (why : string).

(** cm/mod.rs:75-84 CmError *)
Inductive CmError :=
| CmBlock (e : BlockError)
| CmReject (s : PnioStatus).

(** ** Block types *)

(** cm/block.rs:11-12 ty::AR_BLOCK_REQ *)
Definition AR_BLOCK_REQ : Z := 0x0101.
(** cm/block.rs:13-14 ty::IOCR_BLOCK_REQ *)
Definition IOCR_BLOCK_REQ : Z := 0x0102.
(** cm/block.rs:15-16 ty::ALARM_CR_BLOCK_REQ *)
Definition ALARM_CR_BLOCK_REQ : Z := 0x0103.
(** cm/block.rs:17-18 ty::EXPECTED_SUBMODULE_BLOCK_REQ *)
Definition EXPECTED_SUBMODULE_BLOCK_REQ : Z := 0x0104.
(** cm/block.rs:19-20 ty::IOD_WRITE_REQ_HEADER *)
Definition IOD_WRITE_REQ_HEADER : Z := 0x0008.
(** cm/block.rs:21-22 ty::IOD_READ_REQ_HEADER *)
Definition IOD_READ_REQ_HEADER : Z := 0x0009.
(** cm/block.rs:23-24 ty::IOD_CONTROL_REQ_PRM_END *)
Definition IOD_CONTROL_REQ_PRM_END : Z := 0x0110.
(** cm/block.rs:25-26 ty::IOX_BLOCK_REQ_APP_READY *)
Definition IOX_BLOCK_REQ_APP_READY : Z := 0x0112.
(** cm/block.rs:27-28 ty::RELEASE_BLOCK_REQ *)
Definition RELEASE_BLOCK_REQ : Z := 0x0114.
(** cm/block.rs:29-30 ty::AR_BLOCK_RES *)
Definition AR_BLOCK_RES : Z := 0x8101.
(** cm/block.rs:31-32 ty::IOCR_BLOCK_RES *)
Definition IOCR_BLOCK_RES : Z := 0x8102.
(** cm/block.rs:33-34 ty::ALARM_CR_BLOCK_RES *)
Definition ALARM_CR_BLOCK_RES : Z := 0x8103.
(** cm/block.rs:35-36 ty::AR_SERVER_BLOCK_RES *)
Definition AR_SERVER_BLOCK_RES : Z := 0x8106.
(** cm/block.rs:37-38 ty::IOD_WRITE_RES_HEADER *)
Definition IOD_WRITE_RES_HEADER : Z := 0x8008.
(** cm/block.rs:39-40 ty::IOD_READ_RES_HEADER *)
Definition IOD_READ_RES_HEADER : Z := 0x8009.
(** cm/block.rs:41-42 ty::IOD_CONTROL_RES_PRM_END *)
Definition IOD_CONTROL_RES_PRM_END : Z := 0x8110.
(** cm/block.rs:43-44 ty::IOX_BLOCK_RES_APP_READY *)
Definition IOX_BLOCK_RES_APP_READY : Z := 0x8112.
(** cm/block.rs:45-46 ty::RELEASE_BLOCK_RES *)
Definition RELEASE_BLOCK_RES : Z := 0x8114.

(** ** Cursor *)

(** cm/block.rs:53-58 Cursor *)
Record Cursor := { cur_buf : list Z; cur_pos : nat }.

(** cm/block.rs:61-64 Cursor::new *)
Definition Cursor_new (buf : list Z) : Cursor := {| cur_buf := buf; cur_pos := 0 |}.
(** cm/block.rs:66-69 Cursor::remaining *)
Definition Cursor_remaining (c : Cursor) : nat := length (cur_buf c) - cur_pos c.
(** cm/block.rs:71-80 Cursor::need *)
Definition Cursor_need (c : Cursor) (n : nat) : outcome BlockError unit :=
  if decide (length (cur_buf c) < cur_pos c + n)%nat
  then Err (BlockTooShort (cur_pos c + n) (length (cur_buf c))) else Ok tt.

Definition parser (A : Type) : Type := Cursor → outcome BlockError (A * Cursor).

Definition advance (c : Cursor) (n : nat) : Cursor :=
  {| cur_buf := cur_buf c; cur_pos := cur_pos c + n |}.

Definition p_ret {A} (a : A) : parser A := λ c, Ok (a, c).
Definition p_bind {A B} (p : parser A) (k : A → parser B) : parser B :=
  λ c, let! (a, c') := p c in k a c'.
Definition p_fail {A} (e : BlockError) : parser A := λ _, Err e.

Notation "'read!' x := p 'in' k" := (p_bind p (λ x, k))
  (at level 10, x pattern, p at level 100, k at level 200,
   format "'[v' 'read!'  x  :=  p  'in' '/' k ']'") : outcome_scope.

(** A counted loop of reads, [for _ in 0..n { v.push(p(c)?) }]. *)
Fixpoint p_repeat {A} (n : nat) (p : parser A) : parser (list A) :=
  match n with
  | O => p_ret []
  | S n => read! a := p in read! l := p_repeat n p in p_ret (a :: l)
  end.

(** cm/block.rs:82-88 Cursor::u8 *)
Definition Cursor_u8 : parser Z := λ c,
  let! _ := Cursor_need c 1 in
  let! v := idx (cur_buf c) (cur_pos c) in
  Ok (v, advance c 1).
(** cm/block.rs:90-96 Cursor::u16 *)
Definition Cursor_u16 : parser Z := λ c,
  let! _ := Cursor_need c 2 in
  let! v := be16_at (cur_buf c) (cur_pos c) in
  Ok (v, advance c 2).
(** cm/block.rs:98-104 Cursor::u32 *)
Definition Cursor_u32 : parser Z := λ c,
  let! _ := Cursor_need c 4 in
  let! s := slice (cur_buf c) (cur_pos c) (cur_pos c + 4) in
  let! v := be32_at s 0 in
  Ok (v, advance c 4).
(** cm/block.rs:106-112 Cursor::bytes *)
Definition Cursor_bytes (n : nat) : parser (list Z) := λ c,
  let! _ := Cursor_need c n in
  let! v := slice (cur_buf c) (cur_pos c) (cur_pos c + n) in
  Ok (v, advance c n).
(** cm/block.rs:114-118 Cursor::uuid *)
Definition Cursor_uuid : parser Uuid := λ c,
  let! (b, c') := Cursor_bytes 16 c in
  let! o := Uuid_read b Drep_BIG in
  let! u := ok_or o (Malformed "uuid") in
  Ok (u, c').
(** cm/block.rs:120-124 Cursor::mac *)
Definition Cursor_mac : parser MacAddr := λ c,
  let! (b, c') := Cursor_bytes 6 c in
  let! b0 := idx b 0 in let! b1 := idx b 1 in let! b2 := idx b 2 in
  let! b3 := idx b 3 in let! b4 := idx b 4 in let! b5 := idx b 5 in
  Ok (Mac [b0; b1; b2; b3; b4; b5], c').

(** Run a body parser from the start of [body], as every [parse] does. *)
Definition run_parser {A} (p : parser A) (body : list Z) : outcome BlockError A :=
  let! (a, _) := p (Cursor_new body) in Ok a.

(** ** Block header *)

(** cm/block.rs:131-143 BlockHeader *)
Record BlockHeader := {
  bh_block_type : Z; bh_block_length : Z; bh_version_high : Z; bh_version_low : Z
}.
(** cm/block.rs:146-147 BlockHeader::LEN *)
Definition BlockHeader_LEN : nat := 6.

(** cm/block.rs:149-181 BlockHeader::parse *)
Definition BlockHeader_parse (buf : list Z) : outcome BlockError (BlockHeader * list Z) :=
  if decide (length buf < BlockHeader_LEN)%nat
  then Err (BlockTooShort BlockHeader_LEN (length buf)) else
  let! block_type := be16_at buf 0 in
  let! block_length := be16_at buf 2 in
  let! version_high := idx buf 4 in
  let! version_low := idx buf 5 in
  if decide ((version_high, version_low) ≠ (1, 0))
  then Err (BadBlockVersion version_high version_low) else
  let available := (length buf - BlockHeader_LEN)%nat in
  let body_len := (Z.to_nat block_length - 2)%nat in
  if decide (available < body_len)%nat then Err (BadLength block_length available) else
  let! body := slice buf BlockHeader_LEN (BlockHeader_LEN + body_len) in
  Ok ({| bh_block_type := block_type; bh_block_length := block_length;
         bh_version_high := version_high; bh_version_low := version_low |}, body).

(** cm/block.rs:183-189 BlockHeader::write *)
Definition BlockHeader_write (block_type body_len : Z) : list Z :=
  be16 block_type ++ be16 (wrap16 (body_len + 2)) ++ [1; 0].

(** The loop of [read_all]: every iteration consumes at least the six header
    bytes, so the buffer's length is fuel enough; running out would be a
    [Panic], and [BlockHeader_read_all_no_panic] excludes it. *)
(** cm/block.rs:195-199 BlockHeader::read_all *)
Fixpoint read_all_from (fuel : nat) (buf : list Z) (pos : nat) :
    outcome BlockError (list (BlockHeader * list Z)) :=
  if decide (pos < length buf)%nat then
    match fuel with
    | O => Panic
    | S fuel =>
      let! s := slice_from buf pos in
      let! (header, body) := BlockHeader_parse s in
      let! out := read_all_from fuel buf (pos + (BlockHeader_LEN + length body)) in
      Ok ((header, body) :: out)
    end
  else Ok [].

(** cm/block.rs:191-201 BlockHeader::read_all *)
Definition BlockHeader_read_all (buf : list Z) : outcome BlockError (list (BlockHeader * list Z)) :=
  read_all_from (length buf) buf 0.

(** ** UTF-8

    [String::from_utf8]: the well-formed byte sequences of the Unicode
    standard; a [String] is modelled by its bytes. *)
Definition cont (b : Z) : bool := bool_decide (0x80 ≤ b ≤ 0xBF).

Fixpoint utf8_valid (b : list Z) : bool :=
  match b with
  | [] => true
  | x :: r =>
    if decide (0 ≤ x ≤ 0x7F) then utf8_valid r else
    match r with
    | [] => false
    | y :: r =>
      if decide (0xC2 ≤ x ≤ 0xDF) then cont y && utf8_valid r else
      match r with
      | [] => false
      | z :: r =>
        let lo := if decide (x = 0xE0) then 0xA0 else 0x80 in
        let hi := if decide (x = 0xED) then 0x9F else 0xBF in
        if decide (0xE0 ≤ x ≤ 0xEF) then
          bool_decide (lo ≤ y ≤ hi) && cont z && utf8_valid r else
        match r with
        | [] => false
        | w :: r =>
          let lo := if decide (x = 0xF0) then 0x90 else 0x80 in
          let hi := if decide (x = 0xF4) then 0x8F else 0xBF in
          bool_decide (0xF0 ≤ x ≤ 0xF4) && bool_decide (lo ≤ y ≤ hi) && cont z && cont w
          && utf8_valid r
        end
      end
    end
  end.

Definition from_utf8 (b : list Z) : option (list Z) := if utf8_valid b then Some b else None.

(** ** ARBlockReq *)

(** cm/block.rs:208-230 ArBlockReq *)
Record ArBlockReq := {
  arb_ar_type : Z;
  arb_ar_uuid : Uuid;
  arb_session_key : Z;
  arb_initiator_mac : MacAddr;
  arb_initiator_object_uuid : Uuid;
  arb_ar_properties : Z;
  arb_activity_timeout_factor : Z;
  arb_initiator_udp_rt_port : Z;
  arb_station_name : list Z
}.

Definition p_utf8 (b : list Z) (e : string) : parser (list Z) :=
  match from_utf8 b with Some s => p_ret s | None => p_fail (Malformed e) end.

(** cm/block.rs:232-260 ArBlockReq::parse *)
Definition ArBlockReq_parser : parser ArBlockReq :=
  read! ar_type := Cursor_u16 in
  read! ar_uuid := Cursor_uuid in
  read! session_key := Cursor_u16 in
  read! initiator_mac := Cursor_mac in
  read! initiator_object_uuid := Cursor_uuid in
  read! ar_properties := Cursor_u32 in
  read! activity_timeout_factor := Cursor_u16 in
  read! initiator_udp_rt_port := Cursor_u16 in
  read! name_len := Cursor_u16 in
  read! name_bytes := Cursor_bytes (Z.to_nat name_len) in
  read! station_name := p_utf8 name_bytes "station name not valid utf-8" in
  p_ret {| arb_ar_type := ar_type; arb_ar_uuid := ar_uuid; arb_session_key := session_key;
           arb_initiator_mac := initiator_mac;
           arb_initiator_object_uuid := initiator_object_uuid;
           arb_ar_properties := ar_properties;
           arb_activity_timeout_factor := activity_timeout_factor;
           arb_initiator_udp_rt_port := initiator_udp_rt_port;
           arb_station_name := station_name |}.

(** cm/block.rs:233-259 ArBlockReq::parse *)
Definition ArBlockReq_parse (body : list Z) : outcome BlockError ArBlockReq :=
  run_parser ArBlockReq_parser body.

(** ** IOCRBlockReq *)

(** cm/block.rs:318-327 IocrObject *)
Record IocrObject := { io_slot : Z; io_subslot : Z; io_frame_offset : Z }.
(** cm/block.rs:307-316 IocrApi *)
Record IocrApi := { ia_api : Z; ia_io_data : list IocrObject; ia_iocs : list IocrObject }.
(** cm/block.rs:266-305 IocrBlockReq *)
Record IocrBlockReq := {
  icr_iocr_type : Z;
  icr_reference : Z;
  icr_lt : Z;
  icr_properties : Z;
  icr_data_length : Z;
  icr_frame_id : Z;
  icr_send_clock_factor : Z;
  icr_reduction_ratio : Z;
  icr_phase : Z;
  icr_sequence : Z;
  icr_frame_send_offset : Z;
  icr_watchdog_factor : Z;
  icr_data_hold_factor : Z;
  icr_tag_header : Z;
  icr_multicast_mac : MacAddr;
  icr_apis : list IocrApi
}.

(** cm/block.rs:355-359 IocrBlockReq::parse *)
Definition IocrObject_parser : parser IocrObject :=
  read! slot := Cursor_u16 in
  read! subslot := Cursor_u16 in
  read! frame_offset := Cursor_u16 in
  p_ret {| io_slot := slot; io_subslot := subslot; io_frame_offset := frame_offset |}.

(** cm/block.rs:350-371 IocrBlockReq::parse *)
Definition IocrApi_parser : parser IocrApi :=
  read! api := Cursor_u32 in
  read! number_of_io_data := Cursor_u16 in
  read! io_data := p_repeat (Z.to_nat number_of_io_data) IocrObject_parser in
  read! number_of_iocs := Cursor_u16 in
  read! iocs := p_repeat (Z.to_nat number_of_iocs) IocrObject_parser in
  p_ret {| ia_api := api; ia_io_data := io_data; ia_iocs := iocs |}.

(** cm/block.rs:329-391 IocrBlockReq::parse *)
Definition IocrBlockReq_parser : parser IocrBlockReq :=
  read! iocr_type := Cursor_u16 in
  read! reference := Cursor_u16 in
  read! lt := Cursor_u16 in
  read! properties := Cursor_u32 in
  read! data_length := Cursor_u16 in
  read! frame_id := Cursor_u16 in
  read! send_clock_factor := Cursor_u16 in
  read! reduction_ratio := Cursor_u16 in
  read! phase := Cursor_u16 in
  read! sequence := Cursor_u16 in
  read! frame_send_offset := Cursor_u32 in
  read! watchdog_factor := Cursor_u16 in
  read! data_hold_factor := Cursor_u16 in
  read! tag_header := Cursor_u16 in
  read! multicast_mac := Cursor_mac in
  read! number_of_apis := Cursor_u16 in
  read! apis := p_repeat (Z.to_nat number_of_apis) IocrApi_parser in
  p_ret {| icr_iocr_type := iocr_type; icr_reference := reference; icr_lt := lt;
           icr_properties := properties; icr_data_length := data_length;
           icr_frame_id := frame_id; icr_send_clock_factor := send_clock_factor;
           icr_reduction_ratio := reduction_ratio; icr_phase := phase;
           icr_sequence := sequence; icr_frame_send_offset := frame_send_offset;
           icr_watchdog_factor := watchdog_factor; icr_data_hold_factor := data_hold_factor;
           icr_tag_header := tag_header; icr_multicast_mac := multicast_mac;
           icr_apis := apis |}.

(** cm/block.rs:330-390 IocrBlockReq::parse *)
Definition IocrBlockReq_parse (body : list Z) : outcome BlockError IocrBlockReq :=
  run_parser IocrBlockReq_parser body.

(** ** ExpectedSubmoduleBlockReq *)

(** cm/block.rs:437-446 DataDescription *)
Record DataDescription := { dd_data_length : Z; dd_length_iocs : Z; dd_length_iops : Z }.
(** cm/block.rs:421-435 ExpectedSubmodule *)
Record ExpectedSubmodule := {
  es_subslot : Z;
  es_submodule_ident : Z;
  es_properties : Z;
  es_input : option DataDescription;
  es_output : option DataDescription
}.
(** cm/block.rs:406-419 ExpectedApi *)
Record ExpectedApi := {
  ea_api : Z;
  ea_slot : Z;
  ea_module_ident : Z;
  ea_module_properties : Z;
  ea_submodules : list ExpectedSubmodule
}.
(** cm/block.rs:397-404 ExpectedSubmoduleBlockReq *)
Record ExpectedSubmoduleBlockReq := { esb_apis : list ExpectedApi }.

(** cm/block.rs:448-449 DATA_DESCRIPTION_INPUT *)
Definition DATA_DESCRIPTION_INPUT : Z := 1.
(** cm/block.rs:450-450 DATA_DESCRIPTION_OUTPUT *)
Definition DATA_DESCRIPTION_OUTPUT : Z := 2.

(** cm/block.rs:508-521 ExpectedSubmoduleBlockReq::data_description *)
Definition data_description (expected_tag : Z) : parser DataDescription :=
  read! tag := Cursor_u16 in
  if decide (tag ≠ expected_tag) then p_fail (Malformed "data description tag") else
  read! data_length := Cursor_u16 in
  read! length_iocs := Cursor_u8 in
  read! length_iops := Cursor_u8 in
  p_ret {| dd_data_length := data_length; dd_length_iocs := length_iocs;
           dd_length_iops := length_iops |}.

(** cm/block.rs:466-495 ExpectedSubmoduleBlockReq::parse *)
Definition ExpectedSubmodule_parser : parser ExpectedSubmodule :=
  read! subslot := Cursor_u16 in
  read! submodule_ident := Cursor_u32 in
  read! properties := Cursor_u16 in
  read! (input, output) :=
    match Z.land properties 0x3 with
    | 0 | 1 =>
        read! i := data_description DATA_DESCRIPTION_INPUT in p_ret (Some i, None)
    | 2 =>
        read! o := data_description DATA_DESCRIPTION_OUTPUT in p_ret (None, Some o)
    | _ =>
        read! i := data_description DATA_DESCRIPTION_INPUT in
        read! o := data_description DATA_DESCRIPTION_OUTPUT in
        p_ret (Some i, Some o)
    end in
  p_ret {| es_subslot := subslot; es_submodule_ident := submodule_ident;
           es_properties := properties; es_input := input; es_output := output |}.

(** cm/block.rs:458-504 ExpectedSubmoduleBlockReq::parse *)
Definition ExpectedApi_parser : parser ExpectedApi :=
  read! api := Cursor_u32 in
  read! slot := Cursor_u16 in
  read! module_ident := Cursor_u32 in
  read! module_properties := Cursor_u16 in
  read! number_of_submodules := Cursor_u16 in
  read! submodules := p_repeat (Z.to_nat number_of_submodules) ExpectedSubmodule_parser in
  p_ret {| ea_api := api; ea_slot := slot; ea_module_ident := module_ident;
           ea_module_properties := module_properties; ea_submodules := submodules |}.

(** cm/block.rs:453-506 ExpectedSubmoduleBlockReq::parse *)
Definition ExpectedSubmoduleBlockReq_parser : parser ExpectedSubmoduleBlockReq :=
  read! number_of_apis := Cursor_u16 in
  read! apis := p_repeat (Z.to_nat number_of_apis) ExpectedApi_parser in
  p_ret {| esb_apis := apis |}.

(** cm/block.rs:454-506 ExpectedSubmoduleBlockReq::parse *)
Definition ExpectedSubmoduleBlockReq_parse (body : list Z) :
    outcome BlockError ExpectedSubmoduleBlockReq :=
  run_parser ExpectedSubmoduleBlockReq_parser body.

(** ** AlarmCRBlockReq *)

(** cm/block.rs:528-553 AlarmCrBlockReq *)
Record AlarmCrBlockReq := {
  acr_alarm_cr_type : Z;
  acr_lt : Z;
  acr_properties : Z;
  acr_rta_timeout_factor : Z;
  acr_rta_retries : Z;
  acr_local_alarm_reference : Z;
  acr_max_alarm_data_length : Z;
  acr_tag_header_high : Z;
  acr_tag_header_low : Z
}.

(** cm/block.rs:555-580 AlarmCrBlockReq::parse *)
Definition AlarmCrBlockReq_parser : parser AlarmCrBlockReq :=
  read! alarm_cr_type := Cursor_u16 in
  read! lt := Cursor_u16 in
  read! properties := Cursor_u32 in
  read! rta_timeout_factor := Cursor_u16 in
  read! rta_retries := Cursor_u16 in
  read! local_alarm_reference := Cursor_u16 in
  read! max_alarm_data_length := Cursor_u16 in
  read! tag_header_high := Cursor_u16 in
  read! tag_header_low := Cursor_u16 in
  p_ret {| acr_alarm_cr_type := alarm_cr_type; acr_lt := lt; acr_properties := properties;
           acr_rta_timeout_factor := rta_timeout_factor; acr_rta_retries := rta_retries;
           acr_local_alarm_reference := local_alarm_reference;
           acr_max_alarm_data_length := max_alarm_data_length;
           acr_tag_header_high := tag_header_high; acr_tag_header_low := tag_header_low |}.

(** cm/block.rs:556-579 AlarmCrBlockReq::parse *)
Definition AlarmCrBlockReq_parse (body : list Z) : outcome BlockError AlarmCrBlockReq :=
  run_parser AlarmCrBlockReq_parser body.

(** ** Compositional reasoning about parsers *)

(** [p] reads exactly [bs] and returns [a], wherever it is placed. *)
Definition reads {A} (p : parser A) (bs : list Z) (a : A) : Prop :=
  ∀ buf pos rest, (pos ≤ length buf)%nat → drop pos buf = bs ++ rest →
    p {| cur_buf := buf; cur_pos := pos |} =
    Ok (a, {| cur_buf := buf; cur_pos := pos + length bs |}).

(** [p] does not panic, keeps its buffer and stays inside it. *)
Definition safe {A} (p : parser A) : Prop :=
  ∀ c, (cur_pos c ≤ length (cur_buf c))%nat →
    no_panic (p c) ∧
    ∀ a c', p c = Ok (a, c') →
      cur_buf c' = cur_buf c ∧ (cur_pos c' ≤ length (cur_buf c'))%nat.

Lemma reads_drop_length {A} (bs rest : list A) buf pos :
  (pos ≤ length buf)%nat → drop pos buf = bs ++ rest → (pos + length bs ≤ length buf)%nat.
Proof.
  intros Hp Hd. assert (length (drop pos buf) = length bs + length rest)%nat
    by by rewrite Hd, length_app. rewrite length_drop in *. lia.
Qed.

Lemma reads_ret {A} (a : A) : reads (p_ret a) [] a.
Proof. intros buf pos rest Hp Hd. unfold p_ret. cbn. by rewrite Nat.add_0_r. Qed.

Lemma reads_bind {A B} (p : parser A) (k : A → parser B) bs1 bs2 a b :
  reads p bs1 a → reads (k a) bs2 b → reads (p_bind p k) (bs1 ++ bs2) b.
Proof.
  intros H1 H2 buf pos rest Hp Hd. rewrite <-app_assoc in Hd.
  pose proof (reads_drop_length _ _ _ _ Hp Hd). unfold p_bind.
  rewrite (H1 _ _ _ Hp Hd). cbn. rewrite (H2 _ _ rest); [|lia|].
  - by rewrite length_app, Nat.add_assoc.
  - rewrite <-drop_drop, Hd. by rewrite drop_app_length.
Qed.

Lemma reads_last {A B} (p : parser A) (k : A → parser B) bs a b :
  reads p bs a → reads (k a) [] b → reads (p_bind p k) bs b.
Proof. intros. rewrite <-(app_nil_r bs). by eapply reads_bind. Qed.

Lemma need_ok buf pos bs rest n :
  (pos ≤ length buf)%nat → drop pos buf = bs ++ rest → n = length bs →
  Cursor_need {| cur_buf := buf; cur_pos := pos |} n = Ok tt.
Proof.
  intros Hp Hd ->. pose proof (reads_drop_length _ _ _ _ Hp Hd).
  unfold Cursor_need; cbn. by rewrite decide_False by lia.
Qed.

Lemma reads_u8 x : reads Cursor_u8 [x] x.
Proof.
  intros buf pos rest Hp Hd. unfold Cursor_u8. rewrite (need_ok _ _ _ _ _ Hp Hd) by done. cbn.
  by rewrite (idx_drop _ _ _ _ Hd).
Qed.

Lemma reads_u16 x : u16 x → reads Cursor_u16 (be16 x) x.
Proof.
  intros Hx buf pos rest Hp Hd. unfold Cursor_u16.
  rewrite (need_ok _ _ _ _ _ Hp Hd) by done. cbn.
  by rewrite (be16_at_drop _ _ _ _ Hx Hd).
Qed.

Lemma reads_u32 x : u32 x → reads Cursor_u32 (be32 x) x.
Proof.
  intros Hx buf pos rest Hp Hd. unfold Cursor_u32.
  rewrite (need_ok _ _ _ _ _ Hp Hd) by done. cbn.
  rewrite (slice_drop _ _ _ _ _ Hd) by (done || cbn; lia). cbn.
  by rewrite (be32_at_drop (be32 x) 0 x []).
Qed.

Lemma reads_bytes bs n : n = length bs → reads (Cursor_bytes n) bs bs.
Proof.
  intros -> buf pos rest Hp Hd. unfold Cursor_bytes.
  rewrite (need_ok _ _ _ _ _ Hp Hd) by done. cbn.
  by rewrite (slice_drop _ _ _ _ _ Hd).
Qed.

Lemma reads_uuid u : wf_uuid u → reads Cursor_uuid (Uuid_wire u Drep_BIG) u.
Proof.
  intros Hu buf pos rest Hp Hd. unfold Cursor_uuid.
  rewrite (reads_bytes (Uuid_wire u Drep_BIG) 16 (eq_sym (length_Uuid_wire _ _ Hu)) _ _ _ Hp Hd).
  cbn. rewrite <-(app_nil_r (Uuid_wire u Drep_BIG)) at 1. by rewrite Uuid_read_wire.
Qed.

Lemma reads_mac m : wf_mac m → reads Cursor_mac (mac_octets m) m.
Proof.
  intros [Hl _] buf pos rest Hp Hd. unfold Cursor_mac.
  rewrite (reads_bytes (mac_octets m) 6 (eq_sym Hl) _ _ _ Hp Hd). cbn.
  destruct m as [o]. cbn in *. list_elements o Hl. by unfold idx.
Qed.

Lemma reads_repeat {A} (p : parser A) (enc : A → list Z) l n :
  n = length l → Forall (λ a, reads p (enc a) a) l →
  reads (p_repeat n p) (concat (enc <$> l)) l.
Proof.
  intros ->. induction 1 as [|a l Ha _ IH]; cbn; [apply reads_ret|].
  eapply reads_bind; [done|]. eapply reads_last; [done|apply reads_ret].
Qed.

Lemma run_parser_reads {A} (p : parser A) bs a rest :
  reads p bs a → run_parser p (bs ++ rest) = Ok a.
Proof.
  intros H. unfold run_parser, Cursor_new. rewrite (H (bs ++ rest) 0%nat rest); [done|lia|done].
Qed.

Lemma safe_ret {A} (a : A) : safe (p_ret a).
Proof. intros c Hc. split; [done|]. intros ?? [= <- <-]. done. Qed.

Lemma safe_fail {A} e : safe (p_fail (A := A) e).
Proof. intros c Hc. split; done. Qed.

Lemma safe_bind {A B} (p : parser A) (k : A → parser B) :
  safe p → (∀ a, safe (k a)) → safe (p_bind p k).
Proof.
  intros Hp Hk c Hc. destruct (Hp c Hc) as [Hnp Hok]. unfold p_bind. split.
  - np. destruct (Hok _ _ ltac:(eassumption)) as [? Hc']. by apply Hk.
  - intros b c' H. ok_inv. destruct (Hok _ _ ltac:(eassumption)) as [Hb Hc'].
    destruct (Hk a c0 Hc') as [_ Hok']. destruct (Hok' _ _ H) as [? ?]. split; congruence.
Qed.

Lemma no_panic_need c n : no_panic (Cursor_need c n).
Proof. unfold Cursor_need. np. Qed.
#[export] Hint Resolve no_panic_need : panics.

Lemma need_inv c n u :
  Cursor_need c n = Ok u → (cur_pos c + n ≤ length (cur_buf c))%nat.
Proof. unfold Cursor_need. intros H. ok_inv. lia. Qed.

(** A primitive read: [need n] guards every access. *)
Ltac safe_prim :=
  intros c Hc; split;
  [ np; match goal with H : Cursor_need _ _ = _ |- _ => apply need_inv in H end; lia
  | intros a c' H; ok_inv;
    match goal with H : Cursor_need _ _ = _ |- _ => apply need_inv in H end; by cbn in * ].

Lemma safe_u8 : safe Cursor_u8.
Proof. unfold Cursor_u8. safe_prim. Qed.

Lemma safe_u16 : safe Cursor_u16.
Proof. unfold Cursor_u16. safe_prim. Qed.

Lemma safe_u32 : safe Cursor_u32.
Proof. unfold Cursor_u32. safe_prim. Qed.

Lemma safe_bytes n : safe (Cursor_bytes n).
Proof. unfold Cursor_bytes. safe_prim. Qed.

Lemma bytes_length n c b c' : Cursor_bytes n c = Ok (b, c') → length b = n.
Proof. unfold Cursor_bytes. intros H. ok_inv. slice_lens. simplify_eq. lia. Qed.

Lemma safe_uuid : safe Cursor_uuid.
Proof.
  intros c Hc. destruct (safe_bytes 16 c Hc) as [Hnp Hok]. unfold Cursor_uuid. split.
  - np.
  - intros a c' H. ok_inv. simplify_eq. by eapply Hok.
Qed.

Lemma safe_mac : safe Cursor_mac.
Proof.
  intros c Hc. destruct (safe_bytes 6 c Hc) as [Hnp Hok]. unfold Cursor_mac. split.
  - np; match goal with H : Cursor_bytes _ _ = Ok _ |- _ => apply bytes_length in H end; lia.
  - intros a c' H. ok_inv. simplify_eq. by eapply Hok.
Qed.

Lemma safe_utf8 b e : safe (p_utf8 b e).
Proof. unfold p_utf8. destruct (from_utf8 b); [apply safe_ret|apply safe_fail]. Qed.

Lemma safe_repeat {A} n (p : parser A) : safe p → safe (p_repeat n p).
Proof.
  intros Hp. induction n as [|n IH]; cbn; [apply safe_ret|].
  apply safe_bind; [done|intros a]. apply safe_bind; [done|intros l]. apply safe_ret.
Qed.

Create HintDb parsers.
#[export] Hint Resolve safe_ret safe_fail safe_bind safe_u8 safe_u16 safe_u32 safe_bytes safe_uuid
  safe_mac safe_utf8 safe_repeat : parsers.
#[export] Hint Resolve reads_u8 reads_u16 reads_u32 reads_bytes reads_uuid reads_mac : parsers.

Lemma run_parser_no_panic {A} (p : parser A) body : safe p → no_panic (run_parser p body).
Proof.
  intros Hp. unfold run_parser. np. apply Hp. cbn. lia.
Qed.

Ltac safe_tac :=
  repeat match goal with
  | |- safe (p_bind _ _) => apply safe_bind; [|intros ?]
  | |- safe (if decide _ then _ else _) => case_decide
  | |- safe (match ?x with _ => _ end) => destruct x
  | |- safe _ => solve [auto with parsers]
  end.

Lemma safe_ArBlockReq : safe ArBlockReq_parser.
Proof. unfold ArBlockReq_parser. safe_tac. Qed.

Lemma safe_IocrObject : safe IocrObject_parser.
Proof. unfold IocrObject_parser. safe_tac. Qed.
#[export] Hint Resolve safe_IocrObject : parsers.

Lemma safe_IocrApi : safe IocrApi_parser.
Proof. unfold IocrApi_parser. safe_tac. Qed.
#[export] Hint Resolve safe_IocrApi : parsers.

Lemma safe_IocrBlockReq : safe IocrBlockReq_parser.
Proof. unfold IocrBlockReq_parser. safe_tac. Qed.

Lemma safe_data_description t : safe (data_description t).
Proof. unfold data_description. safe_tac. Qed.
#[export] Hint Resolve safe_data_description : parsers.

Lemma safe_ExpectedSubmodule : safe ExpectedSubmodule_parser.
Proof. unfold ExpectedSubmodule_parser. safe_tac. Qed.
#[export] Hint Resolve safe_ExpectedSubmodule : parsers.

Lemma safe_ExpectedApi : safe ExpectedApi_parser.
Proof. unfold ExpectedApi_parser. safe_tac. Qed.
#[export] Hint Resolve safe_ExpectedApi : parsers.

Lemma safe_ExpectedSubmoduleBlockReq : safe ExpectedSubmoduleBlockReq_parser.
Proof. unfold ExpectedSubmoduleBlockReq_parser. safe_tac. Qed.

Lemma safe_AlarmCrBlockReq : safe AlarmCrBlockReq_parser.
Proof. unfold AlarmCrBlockReq_parser. safe_tac. Qed.

#[export] Hint Resolve safe_ArBlockReq safe_IocrBlockReq safe_ExpectedSubmoduleBlockReq
  safe_AlarmCrBlockReq : parsers.

(** ** The block header's own properties *)

Lemma BlockHeader_parse_no_panic buf : no_panic (BlockHeader_parse buf).
Proof. unfold BlockHeader_parse, BlockHeader_LEN. np. Qed.
#[export] Hint Resolve BlockHeader_parse_no_panic : panics.

Lemma BlockHeader_parse_body buf h body :
  BlockHeader_parse buf = Ok (h, body) →
  (BlockHeader_LEN + length body ≤ length buf)%nat ∧
  body = take (length body) (drop BlockHeader_LEN buf).
Proof.
  unfold BlockHeader_parse. intros H. ok_inv.
  match goal with H : slice _ _ _ = Ok _ |- _ => pose proof (slice_length _ _ _ _ H) as Hl;
    apply slice_Ok in H as [? ->] end.
  simplify_eq. rewrite length_take, length_drop in *. unfold BlockHeader_LEN in *. split; [lia|].
  f_equal. lia.
Qed.

(** A block as it stands on the wire. *)
Definition block_wire (ty : Z) (body : list Z) : list Z :=
  BlockHeader_write ty (Z.of_nat (length body)) ++ body.

Lemma length_BlockHeader_write ty n : length (BlockHeader_write ty n) = 6%nat.
Proof. done. Qed.
#[export] Hint Rewrite length_BlockHeader_write : len.

Lemma length_block_wire ty body : length (block_wire ty body) = (6 + length body)%nat.
Proof. unfold block_wire. len. Qed.
#[export] Hint Rewrite length_block_wire : len.

(** Writing a block and parsing it back: the declared length counts the two
    version bytes, so bodies up to 65533 bytes survive the trip. *)
Lemma BlockHeader_parse_write ty body rest :
  u16 ty → Z.of_nat (length body) + 2 < 65536 →
  BlockHeader_parse (block_wire ty body ++ rest) =
  Ok ({| bh_block_type := ty; bh_block_length := Z.of_nat (length body) + 2;
         bh_version_high := 1; bh_version_low := 0 |}, body).
Proof.
  intros Hty Hb. unfold block_wire, BlockHeader_parse, BlockHeader_LEN, BlockHeader_write.
  rewrite <-!app_assoc. rewrite wrap16_id by (unfold u16; lia).
  set (n := Z.of_nat (length body) + 2) in *. set (buf := be16 ty ++ _).
  assert (length buf = (6 + length body + length rest)%nat) as Hl by (subst buf; len).
  rewrite decide_False by lia.
  erewrite (be16_at_drop buf 0 ty) by (done || reflexivity). cbn [obind].
  erewrite (be16_at_drop buf 2 n) by (reflexivity || (unfold u16; lia)). cbn [obind].
  rewrite (idx_drop buf 4 _ _ eq_refl), (idx_drop buf 5 _ _ eq_refl). cbn [obind].
  rewrite decide_False by naive_solver. rewrite decide_False by lia.
  rewrite (slice_drop buf 6 _ body rest); [done|done|lia|lia].
Qed.

Lemma no_panic_slice_from {E A} (b : list A) lo :
  (lo ≤ length b)%nat → no_panic (slice_from (E := E) b lo).
Proof. intros. unfold slice_from, no_panic. by rewrite decide_True. Qed.

Lemma BlockHeader_read_all_no_panic buf : no_panic (BlockHeader_read_all buf).
Proof.
  unfold BlockHeader_read_all.
  assert (∀ fuel pos, (length buf ≤ pos + fuel)%nat → no_panic (read_all_from fuel buf pos))
    as Hgen; [|apply Hgen; lia].
  induction fuel as [|fuel IH]; intros pos Hf; cbn; case_decide; try done; [lia|].
  apply no_panic_bind; [apply no_panic_slice_from; lia|intros s Hs].
  np. apply IH. unfold BlockHeader_LEN. lia.
Qed.
#[export] Hint Resolve BlockHeader_read_all_no_panic : panics.

(** A concatenation of blocks is read back as that list of blocks. *)
Lemma BlockHeader_read_all_wire (bs : list (Z * list Z)) :
  Forall (λ b, u16 b.1 ∧ Z.of_nat (length b.2) + 2 < 65536) bs →
  BlockHeader_read_all (concat ((λ b, block_wire b.1 b.2) <$> bs)) =
  Ok ((λ b, ({| bh_block_type := b.1; bh_block_length := Z.of_nat (length b.2) + 2;
                bh_version_high := 1; bh_version_low := 0 |}, b.2)) <$> bs).
Proof.
  intros Hbs. unfold BlockHeader_read_all. set (buf := concat _).
  assert (∀ bs fuel pos,
    Forall (λ b, u16 b.1 ∧ Z.of_nat (length b.2) + 2 < 65536) bs →
    (pos ≤ length buf)%nat → (length buf ≤ pos + fuel)%nat →
    drop pos buf = concat ((λ b, block_wire b.1 b.2) <$> bs) →
    read_all_from fuel buf pos =
    Ok ((λ b, ({| bh_block_type := b.1; bh_block_length := Z.of_nat (length b.2) + 2;
                bh_version_high := 1; bh_version_low := 0 |}, b.2)) <$> bs)) as Hgen.
  { clear Hbs. intros l. induction l as [|[ty body] l IH]; intros fuel pos Hl Hpos Hf Hd.
    - apply (f_equal length) in Hd. rewrite length_drop in Hd. cbn in Hd.
      destruct fuel; cbn; by rewrite decide_False by lia.
    - apply Forall_cons_1 in Hl as [[Hty Hb] Hl]. cbn in Hty, Hb. rewrite fmap_cons in Hd.
      cbn [concat fst snd] in Hd.
      pose proof (f_equal length Hd) as Hlen.
      rewrite length_drop, length_app, length_block_wire in Hlen.
      destruct fuel as [|fuel]; [lia|]. cbn [read_all_from]. rewrite decide_True by lia.
      unfold slice_from. rewrite decide_True by lia. cbn [obind]. rewrite Hd.
      rewrite BlockHeader_parse_write by done. cbn [obind].
      unfold BlockHeader_LEN. rewrite IH; [done|done|lia|lia|].
      rewrite <-drop_drop, Hd. apply drop_app_length'. by rewrite length_block_wire. }
  apply Hgen; [done|lia|lia|done].
Qed.

(** ** The wire format of the request bodies

    The device only parses these blocks; the layouts below are the reference
    the parsers are checked against. *)

Definition ArBlockReq_wire (a : ArBlockReq) : list Z :=
  be16 (arb_ar_type a) ++ Uuid_wire (arb_ar_uuid a) Drep_BIG ++ be16 (arb_session_key a)
  ++ mac_octets (arb_initiator_mac a) ++ Uuid_wire (arb_initiator_object_uuid a) Drep_BIG
  ++ be32 (arb_ar_properties a) ++ be16 (arb_activity_timeout_factor a)
  ++ be16 (arb_initiator_udp_rt_port a) ++ be16 (Z.of_nat (length (arb_station_name a)))
  ++ arb_station_name a.

Definition wf_ArBlockReq (a : ArBlockReq) : Prop :=
  u16 (arb_ar_type a) ∧ wf_uuid (arb_ar_uuid a) ∧ u16 (arb_session_key a) ∧
  wf_mac (arb_initiator_mac a) ∧ wf_uuid (arb_initiator_object_uuid a) ∧
  u32 (arb_ar_properties a) ∧ u16 (arb_activity_timeout_factor a) ∧
  u16 (arb_initiator_udp_rt_port a) ∧ u16 (Z.of_nat (length (arb_station_name a))) ∧
  utf8_valid (arb_station_name a) = true.

Definition IocrObject_wire (o : IocrObject) : list Z :=
  be16 (io_slot o) ++ be16 (io_subslot o) ++ be16 (io_frame_offset o).
Definition wf_IocrObject (o : IocrObject) : Prop :=
  u16 (io_slot o) ∧ u16 (io_subslot o) ∧ u16 (io_frame_offset o).

Definition IocrApi_wire (a : IocrApi) : list Z :=
  be32 (ia_api a) ++ be16 (Z.of_nat (length (ia_io_data a)))
  ++ concat (IocrObject_wire <$> ia_io_data a)
  ++ be16 (Z.of_nat (length (ia_iocs a))) ++ concat (IocrObject_wire <$> ia_iocs a).
Definition wf_IocrApi (a : IocrApi) : Prop :=
  u32 (ia_api a) ∧ u16 (Z.of_nat (length (ia_io_data a))) ∧
  u16 (Z.of_nat (length (ia_iocs a))) ∧
  Forall wf_IocrObject (ia_io_data a) ∧ Forall wf_IocrObject (ia_iocs a).

Definition IocrBlockReq_wire (c : IocrBlockReq) : list Z :=
  be16 (icr_iocr_type c) ++ be16 (icr_reference c) ++ be16 (icr_lt c)
  ++ be32 (icr_properties c) ++ be16 (icr_data_length c) ++ be16 (icr_frame_id c)
  ++ be16 (icr_send_clock_factor c) ++ be16 (icr_reduction_ratio c) ++ be16 (icr_phase c)
  ++ be16 (icr_sequence c) ++ be32 (icr_frame_send_offset c) ++ be16 (icr_watchdog_factor c)
  ++ be16 (icr_data_hold_factor c) ++ be16 (icr_tag_header c)
  ++ mac_octets (icr_multicast_mac c) ++ be16 (Z.of_nat (length (icr_apis c)))
  ++ concat (IocrApi_wire <$> icr_apis c).
Definition wf_IocrBlockReq (c : IocrBlockReq) : Prop :=
  u16 (icr_iocr_type c) ∧ u16 (icr_reference c) ∧ u16 (icr_lt c) ∧ u32 (icr_properties c) ∧
  u16 (icr_data_length c) ∧ u16 (icr_frame_id c) ∧ u16 (icr_send_clock_factor c) ∧
  u16 (icr_reduction_ratio c) ∧ u16 (icr_phase c) ∧ u16 (icr_sequence c) ∧
  u32 (icr_frame_send_offset c) ∧ u16 (icr_watchdog_factor c) ∧ u16 (icr_data_hold_factor c) ∧
  u16 (icr_tag_header c) ∧ wf_mac (icr_multicast_mac c) ∧
  u16 (Z.of_nat (length (icr_apis c))) ∧ Forall wf_IocrApi (icr_apis c).

Definition DataDescription_wire (tag : Z) (d : DataDescription) : list Z :=
  be16 tag ++ be16 (dd_data_length d) ++ [dd_length_iocs d] ++ [dd_length_iops d].

(** Which descriptions follow is selected by the two low property bits. *)
Definition ExpectedSubmodule_wire (s : ExpectedSubmodule) : list Z :=
  be16 (es_subslot s) ++ be32 (es_submodule_ident s) ++ be16 (es_properties s)
  ++ from_option (DataDescription_wire DATA_DESCRIPTION_INPUT) [] (es_input s)
  ++ from_option (DataDescription_wire DATA_DESCRIPTION_OUTPUT) [] (es_output s).
Definition wf_ExpectedSubmodule (s : ExpectedSubmodule) : Prop :=
  u16 (es_subslot s) ∧ u32 (es_submodule_ident s) ∧ u16 (es_properties s) ∧
  Forall (λ d, u16 (dd_data_length d)) (option_list (es_input s)) ∧
  Forall (λ d, u16 (dd_data_length d)) (option_list (es_output s)) ∧
  (is_Some (es_input s) ↔ Z.land (es_properties s) 3 ≠ 2) ∧
  (is_Some (es_output s) ↔ 2 ≤ Z.land (es_properties s) 3).

Definition ExpectedApi_wire (a : ExpectedApi) : list Z :=
  be32 (ea_api a) ++ be16 (ea_slot a) ++ be32 (ea_module_ident a)
  ++ be16 (ea_module_properties a) ++ be16 (Z.of_nat (length (ea_submodules a)))
  ++ concat (ExpectedSubmodule_wire <$> ea_submodules a).
Definition wf_ExpectedApi (a : ExpectedApi) : Prop :=
  u32 (ea_api a) ∧ u16 (ea_slot a) ∧ u32 (ea_module_ident a) ∧ u16 (ea_module_properties a) ∧
  u16 (Z.of_nat (length (ea_submodules a))) ∧ Forall wf_ExpectedSubmodule (ea_submodules a).

Definition ExpectedSubmoduleBlockReq_wire (b : ExpectedSubmoduleBlockReq) : list Z :=
  be16 (Z.of_nat (length (esb_apis b))) ++ concat (ExpectedApi_wire <$> esb_apis b).
Definition wf_ExpectedSubmoduleBlockReq (b : ExpectedSubmoduleBlockReq) : Prop :=
  u16 (Z.of_nat (length (esb_apis b))) ∧ Forall wf_ExpectedApi (esb_apis b).

Definition AlarmCrBlockReq_wire (a : AlarmCrBlockReq) : list Z :=
  be16 (acr_alarm_cr_type a) ++ be16 (acr_lt a) ++ be32 (acr_properties a)
  ++ be16 (acr_rta_timeout_factor a) ++ be16 (acr_rta_retries a)
  ++ be16 (acr_local_alarm_reference a) ++ be16 (acr_max_alarm_data_length a)
  ++ be16 (acr_tag_header_high a) ++ be16 (acr_tag_header_low a).
Definition wf_AlarmCrBlockReq (a : AlarmCrBlockReq) : Prop :=
  u16 (acr_alarm_cr_type a) ∧ u16 (acr_lt a) ∧ u32 (acr_properties a) ∧
  u16 (acr_rta_timeout_factor a) ∧ u16 (acr_rta_retries a) ∧
  u16 (acr_local_alarm_reference a) ∧ u16 (acr_max_alarm_data_length a) ∧
  u16 (acr_tag_header_high a) ∧ u16 (acr_tag_header_low a).

(** Match the chain of reads against the chain of fields. *)
Ltac reads_tac :=
  repeat first
    [ apply reads_ret
    | eapply reads_bind; [solve [eauto with parsers]|]; cbv beta
    | eapply reads_last; [solve [eauto with parsers]|]; cbv beta ].

Lemma reads_ArBlockReq a :
  wf_ArBlockReq a → reads ArBlockReq_parser (ArBlockReq_wire a) a.
Proof.
  intros (? & ? & ? & ? & ? & ? & ? & ? & Hn & Hutf).
  unfold ArBlockReq_parser, ArBlockReq_wire. reads_tac.
  eapply reads_last; [apply reads_bytes; lia|]. cbv beta.
  unfold p_utf8, from_utf8. rewrite Hutf.
  eapply (reads_bind (p_ret _) _ [] []); apply reads_ret || destruct a; apply reads_ret.
Qed.

Lemma reads_IocrObject o : wf_IocrObject o → reads IocrObject_parser (IocrObject_wire o) o.
Proof.
  intros (? & ? & ?). unfold IocrObject_parser, IocrObject_wire. reads_tac.
  destruct o; apply reads_ret.
Qed.

Lemma reads_IocrObjects l n :
  n = length l → Forall wf_IocrObject l →
  reads (p_repeat n IocrObject_parser) (concat (IocrObject_wire <$> l)) l.
Proof. intros -> Hl. apply reads_repeat; [done|]. eauto using Forall_impl, reads_IocrObject. Qed.

Lemma reads_IocrApi a : wf_IocrApi a → reads IocrApi_parser (IocrApi_wire a) a.
Proof.
  intros (? & ? & ? & ? & ?). unfold IocrApi_parser, IocrApi_wire.
  reads_tac. eapply reads_bind; [apply reads_IocrObjects; [lia|done]|]. cbv beta.
  reads_tac. eapply reads_last; [apply reads_IocrObjects; [lia|done]|]. destruct a; apply reads_ret.
Qed.

Lemma reads_IocrBlockReq c : wf_IocrBlockReq c → reads IocrBlockReq_parser (IocrBlockReq_wire c) c.
Proof.
  intros (? & ? & ? & ? & ? & ? & ? & ? & ? & ? & ? & ? & ? & ? & ? & ? & Hapis).
  unfold IocrBlockReq_parser, IocrBlockReq_wire. reads_tac.
  eapply reads_last.
  - apply reads_repeat; [lia|]. eauto using Forall_impl, reads_IocrApi.
  - destruct c; apply reads_ret.
Qed.

Lemma reads_data_description tag d :
  u16 tag → u16 (dd_data_length d) →
  reads (data_description tag) (DataDescription_wire tag d) d.
Proof.
  intros. unfold data_description, DataDescription_wire. 
  eapply reads_bind; [by apply reads_u16|]. cbv beta. rewrite decide_False by naive_solver.
  reads_tac. destruct d; apply reads_ret.
Qed.

Lemma land3_cases p : Z.land p 3 = 0 ∨ Z.land p 3 = 1 ∨ Z.land p 3 = 2 ∨ Z.land p 3 = 3.
Proof.
  assert (Z.land p 3 = p mod 4) as -> by by apply (Z.land_ones p 2).
  pose proof (Z.mod_pos_bound p 4 ltac:(lia)). lia.
Qed.

Lemma reads_ExpectedSubmodule s :
  wf_ExpectedSubmodule s → reads ExpectedSubmodule_parser (ExpectedSubmodule_wire s) s.
Proof.
  destruct s as [sub id props inp out]. intros (? & ? & ? & Hi & Ho & Hin & Hout).
  cbn [es_subslot es_submodule_ident es_properties es_input es_output] in *.
  unfold ExpectedSubmodule_parser, ExpectedSubmodule_wire.
  cbn [es_subslot es_submodule_ident es_properties es_input es_output]. reads_tac.
  rewrite list.Forall_forall in Hi, Ho.
  assert (u16 DATA_DESCRIPTION_INPUT ∧ u16 DATA_DESCRIPTION_OUTPUT) as [Hti Hto] by (split; range).
  apply (reads_last _ _ _ (inp, out)); [|apply reads_ret].
  destruct (land3_cases props) as [E|[E|[E|E]]]; rewrite E in Hin, Hout |- *;
    (destruct inp as [di|]; [|first [destruct (proj2 Hin ltac:(lia)); done | idtac]]);
    (destruct out as [do|]; [|first [destruct (proj2 Hout ltac:(lia)); done | idtac]]); cbn [from_option];
    try (exfalso; first [ pose proof (proj1 Hin ltac:(eauto)); lia
                        | pose proof (proj1 Hout ltac:(eauto)); lia ]); rewrite ?app_nil_r.
  1,2: eapply reads_last; [apply reads_data_description; [done|set_solver]|apply reads_ret].
  1: eapply reads_last; [apply reads_data_description; [done|set_solver]|apply reads_ret].
  eapply reads_bind; [apply reads_data_description; [done|set_solver]|].
  eapply reads_last; [apply reads_data_description; [done|set_solver]|apply reads_ret].
Qed.

Lemma reads_ExpectedApi a : wf_ExpectedApi a → reads ExpectedApi_parser (ExpectedApi_wire a) a.
Proof.
  intros (? & ? & ? & ? & ? & Hs). unfold ExpectedApi_parser, ExpectedApi_wire.
  reads_tac. eapply reads_last.
  - apply reads_repeat; [lia|]. eauto using Forall_impl, reads_ExpectedSubmodule.
  - destruct a; apply reads_ret.
Qed.

Lemma reads_ExpectedSubmoduleBlockReq b :
  wf_ExpectedSubmoduleBlockReq b →
  reads ExpectedSubmoduleBlockReq_parser (ExpectedSubmoduleBlockReq_wire b) b.
Proof.
  intros [? Ha]. unfold ExpectedSubmoduleBlockReq_parser, ExpectedSubmoduleBlockReq_wire.
  reads_tac. eapply reads_last.
  - apply reads_repeat; [lia|]. eauto using Forall_impl, reads_ExpectedApi.
  - destruct b; apply reads_ret.
Qed.

Lemma reads_AlarmCrBlockReq a :
  wf_AlarmCrBlockReq a → reads AlarmCrBlockReq_parser (AlarmCrBlockReq_wire a) a.
Proof.
  intros (? & ? & ? & ? & ? & ? & ? & ? & ?).
  unfold AlarmCrBlockReq_parser, AlarmCrBlockReq_wire. reads_tac.
  destruct a; apply reads_ret.
Qed.

(** ** What the parsers yield from arbitrary bytes

    [yields p P]: reading from octets, whatever [p] returns satisfies [P]. *)

Definition yields {A} (p : parser A) (P : A → Prop) : Prop :=
  ∀ c a c', Forall u8 (cur_buf c) → p c = Ok (a, c') → P a ∧ cur_buf c' = cur_buf c.

Lemma yields_ret {A} (a : A) (P : A → Prop) : P a → yields (p_ret a) P.
Proof. by intros HP c ? ? Hc [= <- <-]. Qed.

Lemma yields_fail {A} e (P : A → Prop) : yields (p_fail e) P.
Proof. by intros c ? ? Hc. Qed.

Lemma yields_bind {A B} (p : parser A) (k : A → parser B) (P : A → Prop) (Q : B → Prop) :
  yields p P → (∀ a, P a → yields (k a) Q) → yields (p_bind p k) Q.
Proof.
  intros Hp Hk c b c' Hc H. unfold p_bind in H. ok_inv.
  destruct (Hp _ _ _ Hc H0) as [HP Hb]. rewrite <-Hb in *. by eapply Hk.
Qed.

Lemma yields_weaken {A} (p : parser A) (P Q : A → Prop) :
  yields p P → (∀ a, P a → Q a) → yields p Q.
Proof. intros Hp HPQ c a c' Hc H. destruct (Hp _ _ _ Hc H). eauto. Qed.

Lemma yields_u8 : yields Cursor_u8 u8.
Proof. intros c a c' Hc H. unfold Cursor_u8 in H. ok_inv. simplify_eq. eauto using idx_u8. Qed.

Lemma yields_u16 : yields Cursor_u16 u16.
Proof. intros c a c' Hc H. unfold Cursor_u16 in H. ok_inv. simplify_eq. eauto using be16_at_u16. Qed.

Lemma slice_u8 {E} (b s : list Z) lo hi : Forall u8 b → slice (E := E) b lo hi = Ok s → Forall u8 s.
Proof. intros Hb [_ ->]%slice_Ok. by apply Forall_take, Forall_drop. Qed.

Lemma yields_u32 : yields Cursor_u32 u32.
Proof.
  intros c a c' Hc H. unfold Cursor_u32 in H. ok_inv. simplify_eq.
  eauto using be32_at_u32, slice_u8.
Qed.

Lemma yields_bytes n : yields (Cursor_bytes n) (λ b, Forall u8 b ∧ length b = n).
Proof.
  intros c a c' Hc H. pose proof (bytes_length _ _ _ _ H). unfold Cursor_bytes in H. ok_inv.
  simplify_eq. eauto using slice_u8.
Qed.

Lemma Uuid_read_wf {E} b d u : Forall u8 b → Uuid_read (E := E) b d = Ok (Some u) → wf_uuid u.
Proof.
  intros Hb H. unfold Uuid_read in H. ok_inv. simplify_eq. slice_lens.
  split; cbn [uuid_bytes]; [len|].
  repeat (apply List.Forall_cons; [auto|]). eauto using slice_u8.
Qed.

Lemma yields_uuid : yields Cursor_uuid wf_uuid.
Proof.
  intros c a c' Hc H. unfold Cursor_uuid in H. ok_inv. simplify_eq.
  destruct (yields_bytes 16 _ _ _ Hc H0) as [[Hb _] ?]. split; [|done].
  unfold ok_or in *. case_match; simplify_eq. eauto using Uuid_read_wf.
Qed.

Lemma yields_mac : yields Cursor_mac wf_mac.
Proof.
  intros c a c' Hc H. unfold Cursor_mac in H. ok_inv. simplify_eq.
  destruct (yields_bytes 6 _ _ _ Hc H0) as [[Hb _] ?]. split; [|done].
  split; [done|]. cbn. repeat constructor; eapply idx_u8; eauto.
Qed.

Lemma yields_utf8 b e :
  yields (p_utf8 b e) (λ s, s = b ∧ utf8_valid b = true).
Proof.
  unfold p_utf8, from_utf8. destruct (utf8_valid b) eqn:Hu; [by apply yields_ret|].
  apply yields_fail.
Qed.

Lemma yields_repeat {A} n (p : parser A) (P : A → Prop) :
  yields p P → yields (p_repeat n p) (λ l, Forall P l ∧ length l = n).
Proof.
  intros Hp. induction n as [|n IH]; cbn; [by apply yields_ret|].
  eapply yields_bind; [done|]. intros a Ha. eapply yields_bind; [apply IH|].
  intros l [Hl <-]. apply yields_ret. auto.
Qed.

#[export] Hint Resolve yields_u8 yields_u16 yields_u32 yields_uuid yields_mac yields_bytes
  yields_utf8 yields_repeat yields_fail : parsers.

Ltac yields_tac :=
  repeat match goal with
  | |- yields (p_bind _ _) _ => eapply yields_bind; [solve [eauto with parsers]|cbv beta; intros ? ?]
  | |- yields (if decide _ then _ else _) _ => case_decide
  | |- yields (p_fail _) _ => apply yields_fail
  end.

Lemma run_parser_yields {A} (p : parser A) (P : A → Prop) b a :
  yields p P → Forall u8 b → run_parser p b = Ok a → P a.
Proof. intros Hp Hb H. unfold run_parser in H. ok_inv. simplify_eq. by eapply (Hp (Cursor_new b)). Qed.

Lemma BlockHeader_parse_u8 b h body :
  Forall u8 b → BlockHeader_parse b = Ok (h, body) → u16 (bh_block_type h) ∧ Forall u8 body.
Proof.
  intros Hb H. unfold BlockHeader_parse in H. ok_inv. simplify_eq. cbn.
  eauto using be16_at_u16, slice_u8.
Qed.

Lemma yields_ArBlockReq : yields ArBlockReq_parser wf_ArBlockReq.
Proof.
  unfold ArBlockReq_parser. yields_tac. destruct_and!. subst.
  apply yields_ret. unfold wf_ArBlockReq; cbn. split_and!; try done.
  match goal with H : length _ = Z.to_nat _ |- _ => rewrite H end. unfold u16 in *. lia.
Qed.

Lemma yields_IocrObject : yields IocrObject_parser wf_IocrObject.
Proof. unfold IocrObject_parser. yields_tac. by apply yields_ret. Qed.
#[export] Hint Resolve yields_IocrObject : parsers.

Lemma u16_count {A} (l : list A) n : u16 n → length l = Z.to_nat n → u16 (Z.of_nat (length l)).
Proof. unfold u16. lia. Qed.

Lemma yields_IocrApi : yields IocrApi_parser wf_IocrApi.
Proof.
  unfold IocrApi_parser. yields_tac. destruct_and!. apply yields_ret.
  unfold wf_IocrApi; cbn. split_and!; eauto using u16_count.
Qed.
#[export] Hint Resolve yields_IocrApi : parsers.

Lemma yields_IocrBlockReq : yields IocrBlockReq_parser wf_IocrBlockReq.
Proof.
  unfold IocrBlockReq_parser. yields_tac. destruct_and!. apply yields_ret.
  unfold wf_IocrBlockReq; cbn. split_and!; eauto using u16_count.
Qed.

Lemma yields_AlarmCrBlockReq : yields AlarmCrBlockReq_parser wf_AlarmCrBlockReq.
Proof. unfold AlarmCrBlockReq_parser. yields_tac. by apply yields_ret. Qed.
