(* ===== verification/Connect.v ===== *)
(** * Connect: the device model and the Connect request

    Models [crates/pnio/src/cm/model.rs] and [crates/pnio/src/cm/connect.rs]:
    the plugged structure of the device, the grouping of a Connect request's
    blocks, its validation against the model, and the blocks of the
    response. *)

From S2P Require Import Prelude Eth Rpc Block.
Local Open Scope Z_scope.

(** ** Device model *)

(** cm/model.rs:45-56 SubmoduleModel *)
Record SubmoduleModel := {
  sm_subslot : Z; sm_submodule_ident : Z; sm_input_len : Z; sm_output_len : Z
}.
(** cm/model.rs:34-43 SlotModel *)
Record SlotModel := {
  sl_slot : Z; sl_module_ident : Z; sl_submodules : list SubmoduleModel
}.
(** cm/model.rs:11-32 DeviceModel *)
Record DeviceModel := {
  dm_vendor_id : Z;
  dm_device_id : Z;
  dm_instance : Z;
  dm_station_name : list Z;
  dm_mac : MacAddr;
  dm_max_alarm_data_length : Z;
  dm_slots : list SlotModel
}.

Definition find_slot (m : DeviceModel) (slot : Z) : option SlotModel :=
  List.find (λ s, bool_decide (sl_slot s = slot)) (dm_slots m).

(** cm/model.rs:59-67 DeviceModel::find *)
Definition DeviceModel_find (m : DeviceModel) (slot subslot : Z) : option SubmoduleModel :=
  match find_slot m slot with
  | None => None
  | Some s => List.find (λ sm, bool_decide (sm_subslot sm = subslot)) (sl_submodules s)
  end.

(** cm/model.rs:69-73 DeviceModel::object_uuid *)
Definition DeviceModel_object_uuid (m : DeviceModel) : Uuid :=
  Uuid_pnio_object (dm_instance m) (dm_device_id m) (dm_vendor_id m).

(** cm/model.rs:75-130 DeviceModel::pnet_sample *)
Definition pnet_sample (mac : MacAddr) : DeviceModel :=
  let sm a b c d := {| sm_subslot := a; sm_submodule_ident := b;
                       sm_input_len := c; sm_output_len := d |} in
  {| dm_vendor_id := 0x0493;
     dm_device_id := 0x0002;
     dm_instance := 1;
     dm_station_name := ascii_bytes "rt-labs-dev";
     dm_mac := mac;
     dm_max_alarm_data_length := 200;
     dm_slots :=
       [ {| sl_slot := 0; sl_module_ident := 0x1;
            sl_submodules := [sm 1 0x1 0 0; sm 0x8000 0x8000 0 0; sm 0x8001 0x8001 0 0] |};
         {| sl_slot := 1; sl_module_ident := 0x30; sl_submodules := [sm 1 0x130 1 0] |};
         {| sl_slot := 2; sl_module_ident := 0x31; sl_submodules := [sm 1 0x131 0 1] |};
         {| sl_slot := 3; sl_module_ident := 0x32; sl_submodules := [sm 1 0x132 1 1] |};
         {| sl_slot := 4; sl_module_ident := 0x40; sl_submodules := [sm 1 0x140 8 8] |} ] |}.

(** ** Grouping the request's blocks *)

(** cm/connect.rs:17-28 ConnectReq *)
Record ConnectReq := {
  cq_ar : ArBlockReq;
  cq_iocrs : list IocrBlockReq;
  cq_expected : list ExpectedSubmoduleBlockReq;
  cq_alarm_cr : AlarmCrBlockReq
}.

(** The loop's four local variables. *)
Record Grouped := {
  gr_ar : option ArBlockReq;
  gr_iocrs : list IocrBlockReq;
  gr_expected : list ExpectedSubmoduleBlockReq;
  gr_alarm_cr : option AlarmCrBlockReq
}.

Definition Grouped_empty : Grouped :=
  {| gr_ar := None; gr_iocrs := []; gr_expected := []; gr_alarm_cr := None |}.

(** cm/connect.rs:41-70 ConnectReq::parse *)
Definition group_block (g : Grouped) (hb : BlockHeader * list Z) : outcome CmError Grouped :=
  let '(header, body) := hb in
  if decide (bh_block_type header = AR_BLOCK_REQ) then
    let! _ := guard (bool_decide (is_Some (gr_ar g))) (CmReject (connect_reject CbArBlock 0)) in
    let! a := map_err CmBlock (ArBlockReq_parse body) in
    Ok {| gr_ar := Some a; gr_iocrs := gr_iocrs g; gr_expected := gr_expected g;
          gr_alarm_cr := gr_alarm_cr g |}
  else if decide (bh_block_type header = IOCR_BLOCK_REQ) then
    let! c := map_err CmBlock (IocrBlockReq_parse body) in
    Ok {| gr_ar := gr_ar g; gr_iocrs := gr_iocrs g ++ [c]; gr_expected := gr_expected g;
          gr_alarm_cr := gr_alarm_cr g |}
  else if decide (bh_block_type header = EXPECTED_SUBMODULE_BLOCK_REQ) then
    let! e := map_err CmBlock (ExpectedSubmoduleBlockReq_parse body) in
    Ok {| gr_ar := gr_ar g; gr_iocrs := gr_iocrs g; gr_expected := gr_expected g ++ [e];
          gr_alarm_cr := gr_alarm_cr g |}
  else if decide (bh_block_type header = ALARM_CR_BLOCK_REQ) then
    let! _ := guard (bool_decide (is_Some (gr_alarm_cr g)))
                    (CmReject (connect_reject CbAlarmCr 0)) in
    let! a := map_err CmBlock (AlarmCrBlockReq_parse body) in
    Ok {| gr_ar := gr_ar g; gr_iocrs := gr_iocrs g; gr_expected := gr_expected g;
          gr_alarm_cr := Some a |}
  else Err (CmReject (connect_reject CbArBlock 0xff)).

(** cm/connect.rs:36-71 ConnectReq::parse *)
Fixpoint group_blocks (g : Grouped) (all : list (BlockHeader * list Z)) : outcome CmError Grouped :=
  match all with
  | [] => Ok g
  | hb :: all => let! g' := group_block g hb in group_blocks g' all
  end.

(** cm/connect.rs:30-82 ConnectReq::parse *)
Definition ConnectReq_parse (blocks : list Z) : outcome CmError ConnectReq :=
  let! all := map_err CmBlock (BlockHeader_read_all blocks) in
  let! g := group_blocks Grouped_empty all in
  let! ar := ok_or (gr_ar g) (CmReject (connect_reject CbArBlock 0)) in
  let! alarm_cr := ok_or (gr_alarm_cr g) (CmReject (connect_reject CbAlarmCr 0)) in
  Ok {| cq_ar := ar; cq_iocrs := gr_iocrs g; cq_expected := gr_expected g;
        cq_alarm_cr := alarm_cr |}.

(** ** AR parameters *)

(** cm/connect.rs:134-160 IocrParams *)
Record IocrParams := {
  ip_reference : Z;
  ip_frame_id : Z;
  ip_data_length : Z;
  ip_send_clock_factor : Z;
  ip_reduction_ratio : Z;
  ip_watchdog_factor : Z;
  ip_data_hold_factor : Z;
  ip_io_data : list IocrObject;
  ip_iocs : list IocrObject
}.
(** cm/connect.rs:89-132 ArParams *)
Record ArParams := {
  ap_ar_uuid : Uuid;
  ap_session_key : Z;
  ap_initiator_mac : MacAddr;
  ap_initiator_object_uuid : Uuid;
  ap_activity_timeout_factor : Z;
  ap_input_cr : IocrParams;
  ap_output_cr : IocrParams;
  ap_alarm_ref_remote : Z;
  ap_max_alarm_data_length : Z;
  ap_max_alarm_data_length_remote : Z;
  ap_rta_timeout_factor : Z;
  ap_rta_retries : Z;
  ap_alarm_ref_local : Z;
  ap_alarm_tag_high : Z;
  ap_alarm_tag_low : Z
}.

(** cm/connect.rs:163-179 IocrParams::from_req *)
Definition IocrParams_from_req (cr : IocrBlockReq) : IocrParams :=
  let '(io_data, iocs) :=
    match head (icr_apis cr) with
    | Some api => (ia_io_data api, ia_iocs api)
    | None => ([], [])
    end in
  {| ip_reference := icr_reference cr; ip_frame_id := icr_frame_id cr;
     ip_data_length := icr_data_length cr; ip_send_clock_factor := icr_send_clock_factor cr;
     ip_reduction_ratio := icr_reduction_ratio cr; ip_watchdog_factor := icr_watchdog_factor cr;
     ip_data_hold_factor := icr_data_hold_factor cr; ip_io_data := io_data; ip_iocs := iocs |}.

(** cm/connect.rs:182-183 FRAME_ID_RANGE *)
Definition FRAME_ID_RANGE_contains (id : Z) : bool := bool_decide (0x8000 ≤ id ≤ 0xBBFF).
(** cm/connect.rs:185-187 FRAME_ID_DEVICE_SELECTS *)
Definition FRAME_ID_DEVICE_SELECTS : Z := 0xFFFF.

(** cm/connect.rs:189-195 select_output_frame_id *)
Definition select_output_frame_id (input_frame_id : Z) : Z :=
  default 0x8001
    (List.find (λ id, bool_decide (id ≠ input_frame_id)) (zrange 0x8001 (Z.to_nat (0xBBFF - 0x8001 + 1)))).

Arguments select_output_frame_id : simpl never.

(** The [u32] sums of [u16] operands cannot wrap. *)
(** cm/connect.rs:206-235 check_iocr_data_length *)
Definition check_iocr_data_length (cr : IocrBlockReq) (model : DeviceModel) (is_output_cr : bool) :
    outcome PnioStatus unit :=
  let! _ := guard (bool_decide (length (icr_apis cr) ≠ 1%nat)) (connect_reject CbIocrBlock 15) in
  let too_small := connect_reject CbIocrBlock 5 in
  let! api := idx (icr_apis cr) 0 in
  let! _ := for_each (ia_io_data api) (λ obj,
    let! sm := ok_or (DeviceModel_find model (io_slot obj) (io_subslot obj)) too_small in
    let model_len := if is_output_cr then sm_output_len sm else sm_input_len sm in
    let end_ := io_frame_offset obj + model_len + 1 in
    guard (bool_decide (end_ > icr_data_length cr)) too_small) in
  for_each (ia_iocs api) (λ obj,
    let end_ := io_frame_offset obj + 1 in
    guard (bool_decide (end_ > icr_data_length cr)) too_small).

(** cm/connect.rs:277-301 validate *)
Definition check_expected_submodule (model : DeviceModel) (slot : Z) (sm : ExpectedSubmodule) :
    outcome PnioStatus unit :=
  let! m := ok_or (DeviceModel_find model slot (es_subslot sm))
                  (connect_reject CbExpectedSubmodule 7) in
  let! _ := guard (bool_decide (sm_submodule_ident m ≠ es_submodule_ident sm))
                  (connect_reject CbExpectedSubmodule 6) in
  let input_len := default 0 (dd_data_length <$> es_input sm) in
  let output_len := default 0 (dd_data_length <$> es_output sm) in
  guard (bool_decide (sm_input_len m ≠ input_len ∨ sm_output_len m ≠ output_len))
        (connect_reject CbExpectedSubmodule 7).

(** cm/connect.rs:268-302 validate *)
Definition check_expected_api (model : DeviceModel) (api : ExpectedApi) : outcome PnioStatus unit :=
  let! _ :=
    match find_slot model (ea_slot api) with
    | Some slot_model =>
        guard (bool_decide (sl_module_ident slot_model ≠ ea_module_ident api))
              (connect_reject CbExpectedSubmodule 4)
    | None => Ok tt
    end in
  for_each (ea_submodules api) (check_expected_submodule model (ea_slot api)).

(** cm/connect.rs:237-338 validate *)
Definition validate (req : ConnectReq) (model : DeviceModel) : outcome PnioStatus ArParams :=
  let! _ := guard (bool_decide (arb_ar_type (cq_ar req) ≠ 1)) (connect_reject CbArBlock 1) in
  let! _ := guard (bool_decide (arb_ar_uuid (cq_ar req) = Uuid_NIL))
                  (connect_reject CbArBlock 2) in
  let! _ := guard (bool_decide (length (cq_iocrs req) ≠ 2%nat)) (connect_reject CbIocrBlock 1) in
  let input := List.find (λ c, bool_decide (icr_iocr_type c = 1)) (cq_iocrs req) in
  let output := List.find (λ c, bool_decide (icr_iocr_type c = 2)) (cq_iocrs req) in
  let! (input, output) :=
    match input, output with
    | Some i, Some o => Ok (i, o)
    | _, _ => Err (connect_reject CbIocrBlock 1)
    end in
  let! _ := guard (negb (FRAME_ID_RANGE_contains (icr_frame_id input)))
                  (connect_reject CbIocrBlock 6) in
  let! _ := guard (negb (FRAME_ID_RANGE_contains (icr_frame_id output))
                   && bool_decide (icr_frame_id output ≠ FRAME_ID_DEVICE_SELECTS))
                  (connect_reject CbIocrBlock 6) in
  let! _ := for_each (cq_expected req) (λ block,
              for_each (esb_apis block) (check_expected_api model)) in
  let! _ := check_iocr_data_length input model false in
  let! _ := check_iocr_data_length output model true in
  let! _ := guard (bool_decide (acr_alarm_cr_type (cq_alarm_cr req) ≠ 1))
                  (connect_reject CbAlarmCr 1) in
  let from_output := IocrParams_from_req output in
  let output_cr :=
    if decide (icr_frame_id output = FRAME_ID_DEVICE_SELECTS)
    then {| ip_reference := ip_reference from_output;
            ip_frame_id := select_output_frame_id (icr_frame_id input);
            ip_data_length := ip_data_length from_output;
            ip_send_clock_factor := ip_send_clock_factor from_output;
            ip_reduction_ratio := ip_reduction_ratio from_output;
            ip_watchdog_factor := ip_watchdog_factor from_output;
            ip_data_hold_factor := ip_data_hold_factor from_output;
            ip_io_data := ip_io_data from_output;
            ip_iocs := ip_iocs from_output |}
    else from_output in
  Ok {| ap_ar_uuid := arb_ar_uuid (cq_ar req);
        ap_session_key := arb_session_key (cq_ar req);
        ap_initiator_mac := arb_initiator_mac (cq_ar req);
        ap_initiator_object_uuid := arb_initiator_object_uuid (cq_ar req);
        ap_activity_timeout_factor := arb_activity_timeout_factor (cq_ar req);
        ap_input_cr := IocrParams_from_req input;
        ap_output_cr := output_cr;
        ap_alarm_ref_remote := acr_local_alarm_reference (cq_alarm_cr req);
        ap_max_alarm_data_length := dm_max_alarm_data_length model;
        ap_max_alarm_data_length_remote := acr_max_alarm_data_length (cq_alarm_cr req);
        ap_rta_timeout_factor := acr_rta_timeout_factor (cq_alarm_cr req);
        ap_rta_retries := acr_rta_retries (cq_alarm_cr req);
        ap_alarm_ref_local := 0;
        ap_alarm_tag_high := acr_tag_header_high (cq_alarm_cr req);
        ap_alarm_tag_low := acr_tag_header_low (cq_alarm_cr req) |}.

(** ** The Connect response *)

(** cm/connect.rs:358-367 write_ar_block_res *)
Definition write_ar_block_res {E} (params : ArParams) (model : DeviceModel) : outcome E (list Z) :=
  let! u := Uuid_write (ap_ar_uuid params) Drep_BIG in
  let body := be16 1 ++ u ++ be16 (ap_session_key params)
              ++ mac_octets (dm_mac model) ++ be16 0x8892 in
  Ok (BlockHeader_write AR_BLOCK_RES (wrap16 (Z.of_nat (length body))) ++ body).

(** cm/connect.rs:369-376 write_iocr_block_res *)
Definition write_iocr_block_res (iocr_type : Z) (cr : IocrParams) : list Z :=
  let body := be16 iocr_type ++ be16 (ip_reference cr) ++ be16 (ip_frame_id cr) in
  BlockHeader_write IOCR_BLOCK_RES (wrap16 (Z.of_nat (length body))) ++ body.

(** cm/connect.rs:378-385 write_alarm_cr_block_res *)
Definition write_alarm_cr_block_res (max_alarm_data_length : Z) : list Z :=
  let body := be16 1 ++ be16 0 ++ be16 max_alarm_data_length in
  BlockHeader_write ALARM_CR_BLOCK_RES (wrap16 (Z.of_nat (length body))) ++ body.

(** cm/connect.rs:387-398 write_ar_server_block_res *)
Definition write_ar_server_block_res (station_name : list Z) : list Z :=
  let body := be16 (wrap16 (Z.of_nat (length station_name))) ++ station_name in
  let total := (BlockHeader_LEN + length body)%nat in
  let pad := ((4 - total mod 4) mod 4)%nat in
  let body := body ++ replicate pad 0 in
  BlockHeader_write AR_SERVER_BLOCK_RES (wrap16 (Z.of_nat (length body))) ++ body.

(** cm/connect.rs:344-356 build_connect_res *)
Definition build_connect_res {E} (params : ArParams) (model : DeviceModel) : outcome E (list Z) :=
  let! ar := write_ar_block_res params model in
  Ok (ar ++ write_iocr_block_res 1 (ap_input_cr params)
      ++ write_iocr_block_res 2 (ap_output_cr params)
      ++ write_alarm_cr_block_res (dm_max_alarm_data_length model)
      ++ write_ar_server_block_res (dm_station_name model)).

(** ** No panic *)

Lemma no_panic_group_block g hb : no_panic (group_block g hb).
Proof.
  destruct hb as [h body]. unfold group_block, ArBlockReq_parse, IocrBlockReq_parse,
    ExpectedSubmoduleBlockReq_parse, AlarmCrBlockReq_parse.
  np; apply run_parser_no_panic; auto with parsers.
Qed.

Lemma no_panic_group_blocks all : ∀ g, no_panic (group_blocks g all).
Proof. induction all; intros g; cbn; np. apply no_panic_group_block. Qed.

Lemma ConnectReq_parse_no_panic blocks : no_panic (ConnectReq_parse blocks).
Proof. unfold ConnectReq_parse. np. apply no_panic_group_blocks. Qed.
#[export] Hint Resolve ConnectReq_parse_no_panic : panics.

Lemma no_panic_check_iocr cr model o : no_panic (check_iocr_data_length cr model o).
Proof.
  unfold check_iocr_data_length. np.
  - match goal with H : guard _ _ = _ |- _ => apply guard_Ok, bool_decide_eq_false in H end. lia.
  - apply no_panic_for_each. intros. np.
  - apply no_panic_for_each. intros. np.
Qed.

Lemma validate_no_panic req model : no_panic (validate req model).
Proof.
  unfold validate. np; auto using no_panic_check_iocr.
  apply no_panic_for_each. intros ? _. apply no_panic_for_each. intros ? _.
  unfold check_expected_api. np. apply no_panic_for_each. intros ? _.
  unfold check_expected_submodule. np.
Qed.
#[export] Hint Resolve validate_no_panic : panics.

(** Every reject is a proper 32-bit status. *)
Lemma validate_status req model : errs wf_status (validate req model).
Proof.
  unfold validate, check_iocr_data_length, check_expected_api, check_expected_submodule, idx.
  errs_tac; unfold wf_status; by_decide.
Qed.

(** ** What an acceptable Connect request is *)

Section acceptance.
Context (model : DeviceModel).

(** A data object: its submodule is plugged, and payload and status byte lie
    inside the frame. *)
Definition object_fits (len : SubmoduleModel → Z) (data_length : Z) (o : IocrObject) : Prop :=
  ∃ sm, DeviceModel_find model (io_slot o) (io_subslot o) = Some sm ∧
        io_frame_offset o + len sm + 1 ≤ data_length.

Definition cr_fits (len : SubmoduleModel → Z) (cr : IocrBlockReq) : Prop :=
  ∃ api, icr_apis cr = [api] ∧
    Forall (object_fits len (icr_data_length cr)) (ia_io_data api) ∧
    Forall (λ o, io_frame_offset o + 1 ≤ icr_data_length cr) (ia_iocs api).

Definition submodule_matches (slot : Z) (sm : ExpectedSubmodule) : Prop :=
  ∃ m, DeviceModel_find model slot (es_subslot sm) = Some m ∧
    sm_submodule_ident m = es_submodule_ident sm ∧
    sm_input_len m = default 0 (dd_data_length <$> es_input sm) ∧
    sm_output_len m = default 0 (dd_data_length <$> es_output sm).

Definition api_matches (api : ExpectedApi) : Prop :=
  (∀ s, find_slot model (ea_slot api) = Some s → sl_module_ident s = ea_module_ident api) ∧
  Forall (submodule_matches (ea_slot api)) (ea_submodules api).

Definition rt_frame_id (id : Z) : Prop := 0x8000 ≤ id ≤ 0xBBFF.

Record acceptable (req : ConnectReq) (input output : IocrBlockReq) : Prop := {
  acc_type : arb_ar_type (cq_ar req) = 1;
  acc_uuid : arb_ar_uuid (cq_ar req) ≠ Uuid_NIL;
  acc_iocrs : cq_iocrs req = [input; output] ∨ cq_iocrs req = [output; input];
  acc_input : icr_iocr_type input = 1;
  acc_output : icr_iocr_type output = 2;
  acc_input_id : rt_frame_id (icr_frame_id input);
  acc_output_id : rt_frame_id (icr_frame_id output) ∨
                  icr_frame_id output = FRAME_ID_DEVICE_SELECTS;
  acc_expected : Forall (λ b, Forall api_matches (esb_apis b)) (cq_expected req);
  acc_input_fits : cr_fits sm_input_len input;
  acc_output_fits : cr_fits sm_output_len output;
  acc_alarm : acr_alarm_cr_type (cq_alarm_cr req) = 1
}.

Lemma check_iocr_ok cr b :
  check_iocr_data_length cr model b = Ok tt ↔
  cr_fits (if b then sm_output_len else sm_input_len) cr.
Proof.
  unfold check_iocr_data_length, cr_fits. split.
  - intros H. ok_inv. rewrite bool_decide_eq_false in *.
    destruct (icr_apis cr) as [|api [|]] eqn:Ea; cbn in *; try lia.
    match goal with H : idx _ _ = Ok _ |- _ => apply idx_Ok in H end. simplify_eq/=.
    repeat match goal with x : unit |- _ => destruct x end.
    rewrite for_each_Ok in *. eexists. split; [done|].
    split; [apply (Forall_weaken _ _ _ H2)|apply (Forall_weaken _ _ _ H)]; intros o Ho.
    + unfold object_fits. destruct (DeviceModel_find _ _ _) as [sm|]; cbn in Ho; [|done].
      ok_inv. rewrite bool_decide_eq_false in *. exists sm. split; [done|]. destruct b; lia.
    + ok_inv. rewrite bool_decide_eq_false in *. lia.
  - intros (api & -> & Hd & Hs). rewrite bool_decide_false by (cbn; lia).
    rewrite (proj2 (idx_Ok [api] 0 api) eq_refl). cbn. apply obind_Ok. exists tt.
    split; apply for_each_Ok; [apply (Forall_weaken _ _ _ Hd)|apply (Forall_weaken _ _ _ Hs)].
    + intros o (sm & -> & ?). cbn. apply guard_Ok, bool_decide_eq_false. destruct b; lia.
    + intros o ?. apply guard_Ok, bool_decide_eq_false. lia.
Qed.

Lemma check_submodule_ok slot sm :
  check_expected_submodule model slot sm = Ok tt ↔ submodule_matches slot sm.
Proof.
  unfold check_expected_submodule, submodule_matches.
  destruct (DeviceModel_find model slot (es_subslot sm)) as [m|]; cbn; [|naive_solver].
  split.
  - intros H. ok_inv. rewrite bool_decide_eq_false in *. exists m.
    split_and!; try done; apply dec_stable; tauto.
  - intros (? & [= <-] & -> & -> & ->).
    by rewrite !bool_decide_false by tauto.
Qed.

Lemma check_apis_ok apis :
  for_each apis (check_expected_api model) = Ok tt ↔ Forall api_matches apis.
Proof.
  rewrite for_each_Ok. apply Forall_iff. intros api.
  unfold check_expected_api, api_matches. split.
  - intros ([] & Hm & H%for_each_Ok)%obind_Ok. split.
    + intros s Hs. rewrite Hs in Hm. ok_inv. by apply bool_decide_eq_false, dec_stable in Hm.
    + eapply Forall_weaken; [done|]. intros ? ?. by apply check_submodule_ok.
  - intros [Hs Hf]. apply obind_Ok. exists tt. split.
    + destruct (find_slot _ _) as [s|]; [|done]. rewrite bool_decide_false; [done|].
      intros Hn. by apply Hn, Hs.
    + apply for_each_Ok. eapply Forall_weaken; [done|]. intros ? ?. by apply check_submodule_ok.
Qed.

Definition cr_of_type (t : Z) : list IocrBlockReq → option IocrBlockReq :=
  List.find (λ c, bool_decide (icr_iocr_type c = t)).

(** Two CRs of types 1 and 2, in either order. *)
Lemma cr_pair l i o :
  (length l = 2%nat ∧ cr_of_type 1 l = Some i ∧ cr_of_type 2 l = Some o) ↔
  (l = [i; o] ∨ l = [o; i]) ∧ icr_iocr_type i = 1 ∧ icr_iocr_type o = 2.
Proof.
  unfold cr_of_type. split.
  - intros (Hl & Hi & Ho). destruct l as [|x [|y [|]]]; try done. cbn in Hi, Ho.
    repeat case_bool_decide; simplify_eq; try lia; auto.
  - intros ([-> | ->] & Hi & Ho); cbn; rewrite Hi, Ho; cbn; done.
Qed.

(** Every check of [validate] passed, read off its result. *)
Lemma validate_Ok req p :
  validate req model = Ok p →
  ∃ input output, acceptable req input output ∧
    ap_input_cr p = IocrParams_from_req input ∧
    ip_frame_id (ap_output_cr p) =
      (if decide (icr_frame_id output = FRAME_ID_DEVICE_SELECTS)
       then select_output_frame_id (icr_frame_id input) else icr_frame_id output) ∧
    ip_data_length (ap_output_cr p) = icr_data_length output ∧
    ip_io_data (ap_output_cr p) = ip_io_data (IocrParams_from_req output) ∧
    ip_iocs (ap_output_cr p) = ip_iocs (IocrParams_from_req output) ∧
    ip_send_clock_factor (ap_output_cr p) = icr_send_clock_factor output ∧
    ip_reduction_ratio (ap_output_cr p) = icr_reduction_ratio output.
Proof.
  unfold validate. fold (cr_of_type 1) (cr_of_type 2).
  destruct (cr_of_type 1 (cq_iocrs req)) as [input|] eqn:Hi,
    (cr_of_type 2 (cq_iocrs req)) as [output|] eqn:Ho;
    intros H; ok_inv; simplify_eq.
  match type of Hi with _ = Some ?a => rename a into input end.
  match type of Ho with _ = Some ?a => rename a into output end. exists input, output.
  repeat match goal with x : unit |- _ => destruct x end.
  rewrite ?bool_decide_eq_false, check_iocr_ok, for_each_Ok in *.
  unfold FRAME_ID_RANGE_contains in *.
  destruct (proj1 (cr_pair (cq_iocrs req) input output)) as (? & ? & ?).
  { split_and!; [|done..]. by apply dec_stable. }
  split.
  - constructor; try done; try by apply dec_stable.
    + by repeat case_bool_decide.
    + repeat case_bool_decide; try done; unfold rt_frame_id, FRAME_ID_DEVICE_SELECTS in *; lia.
    + eapply Forall_weaken; [done|]. intros b. apply check_apis_ok.
  - cbn [ap_input_cr ap_output_cr]. unfold IocrParams_from_req.
    by destruct (head (icr_apis output)), (decide (icr_frame_id output = _)).
Qed.

Lemma acceptable_Ok req input output :
  acceptable req input output → is_Ok (validate req model) = true.
Proof.
  intros []. unfold validate. fold (cr_of_type 1) (cr_of_type 2).
  destruct (proj2 (cr_pair (cq_iocrs req) input output)) as (-> & -> & ->); [done|].
  rewrite !bool_decide_false by (done || lia). cbn [guard obind].
  unfold FRAME_ID_RANGE_contains. rewrite bool_decide_true by done. cbn [guard obind negb].
  replace (negb _ && _) with false; cbn [guard obind].
  2: { destruct acc_output_id0; [by rewrite bool_decide_true|].
       rewrite (bool_decide_false (_ ≠ _)) by tauto. by rewrite andb_false_r. }
  rewrite (proj2 (for_each_Ok _ _)).
  2: { eapply Forall_weaken; [done|]. intros b. apply check_apis_ok. }
  cbn [obind]. by rewrite !(proj2 (check_iocr_ok _ _)).
Qed.
End acceptance.

(** The two candidates [select_output_frame_id] ever needs. *)
Lemma select_output_frame_id_spec id :
  select_output_frame_id id = if decide (id = 0x8001) then 0x8002 else 0x8001.
Proof.
  unfold select_output_frame_id.
  assert (∃ n, Z.to_nat (0xBBFF - 0x8001 + 1) = S (S n)) as [n ->]
    by (exists (Z.to_nat 15357); by vm_compute).
  cbn [zrange List.find]. case_decide as Hid.
  - subst. rewrite bool_decide_false by tauto. by rewrite bool_decide_true.
  - by rewrite bool_decide_true by congruence.
Qed.

(** C22: [validate] accepts a Connect request exactly when it is acceptable:
    an IOCAR with a non-nil UUID, one Input and one Output CR with RT
    FrameIDs (or a device-selected Output FrameID), every expected module and
    submodule plugged with the same identity and lengths, every data object
    and IOCS byte inside its CR's frame, and a supported AlarmCR. *)
Theorem validate_accepts model req :
  is_Ok (validate req model) = true ↔ ∃ input output, acceptable model req input output.
Proof.
  split.
  - destruct (validate req model) as [p| |] eqn:E; [|done..]. intros _.
    destruct (validate_Ok _ _ _ E) as (i & o & ? & _). eauto.
  - intros (i & o & H). eauto using acceptable_Ok.
Qed.

(** The FrameIDs and object layout of the accepted parameters. *)
Definition params_sound (model : DeviceModel) (p : ArParams) : Prop :=
  rt_frame_id (ip_frame_id (ap_input_cr p)) ∧
  rt_frame_id (ip_frame_id (ap_output_cr p)) ∧
  Forall (object_fits model sm_input_len (ip_data_length (ap_input_cr p)))
         (ip_io_data (ap_input_cr p)) ∧
  Forall (object_fits model sm_output_len (ip_data_length (ap_output_cr p)))
         (ip_io_data (ap_output_cr p)) ∧
  Forall (λ o, io_frame_offset o + 1 ≤ ip_data_length (ap_input_cr p)) (ip_iocs (ap_input_cr p)) ∧
  Forall (λ o, io_frame_offset o + 1 ≤ ip_data_length (ap_output_cr p)) (ip_iocs (ap_output_cr p)).

Lemma validate_params_sound model req p : validate req model = Ok p → params_sound model p.
Proof.
  intros H. destruct (validate_Ok _ _ _ H) as (i & o & [] & Hi & Hf & Hl & Hd & Hs & _).
  destruct acc_input_fits0 as (ai & Ei & ? & ?), acc_output_fits0 as (ao & Eo & ? & ?).
  unfold params_sound. rewrite Hi, Hf, Hl, Hd, Hs. unfold IocrParams_from_req.
  rewrite Ei, Eo. cbn. split_and!; try done.
  case_decide; [|tauto]. rewrite select_output_frame_id_spec. unfold rt_frame_id.
  case_decide; lia.
Qed.

(** ** The request's blocks on the wire *)

(** A block of a Connect request. *)
Inductive connect_block :=
| BAr (a : ArBlockReq) | BIocr (c : IocrBlockReq)
| BExpected (e : ExpectedSubmoduleBlockReq) | BAlarm (a : AlarmCrBlockReq).

Definition connect_block_wire (b : connect_block) : Z * list Z :=
  match b with
  | BAr a => (AR_BLOCK_REQ, ArBlockReq_wire a)
  | BIocr c => (IOCR_BLOCK_REQ, IocrBlockReq_wire c)
  | BExpected e => (EXPECTED_SUBMODULE_BLOCK_REQ, ExpectedSubmoduleBlockReq_wire e)
  | BAlarm a => (ALARM_CR_BLOCK_REQ, AlarmCrBlockReq_wire a)
  end.

Definition wf_connect_block (b : connect_block) : Prop :=
  match b with
  | BAr a => wf_ArBlockReq a
  | BIocr c => wf_IocrBlockReq c
  | BExpected e => wf_ExpectedSubmoduleBlockReq e
  | BAlarm a => wf_AlarmCrBlockReq a
  end ∧ Z.of_nat (length (connect_block_wire b).2) + 2 < 65536.

Definition ars (bs : list connect_block) : list ArBlockReq :=
  omap (λ b, match b with BAr a => Some a | _ => None end) bs.
Definition iocrs (bs : list connect_block) : list IocrBlockReq :=
  omap (λ b, match b with BIocr c => Some c | _ => None end) bs.
Definition expecteds (bs : list connect_block) : list ExpectedSubmoduleBlockReq :=
  omap (λ b, match b with BExpected e => Some e | _ => None end) bs.
Definition alarms (bs : list connect_block) : list AlarmCrBlockReq :=
  omap (λ b, match b with BAlarm a => Some a | _ => None end) bs.

Definition connect_wire (bs : list connect_block) : list Z :=
  concat ((λ b, block_wire b.1 b.2) <$> (connect_block_wire <$> bs)).

Definition parsed_block (b : Z * list Z) : BlockHeader * list Z :=
  ({| bh_block_type := b.1; bh_block_length := Z.of_nat (length b.2) + 2;
      bh_version_high := 1; bh_version_low := 0 |}, b.2).

Lemma group_block_wire g b :
  wf_connect_block b →
  (length (option_list (gr_ar g) ++ ars [b]) ≤ 1)%nat →
  (length (option_list (gr_alarm_cr g) ++ alarms [b]) ≤ 1)%nat →
  group_block g (parsed_block (connect_block_wire b)) =
  Ok {| gr_ar := head (option_list (gr_ar g) ++ ars [b]);
        gr_iocrs := gr_iocrs g ++ iocrs [b];
        gr_expected := gr_expected g ++ expecteds [b];
        gr_alarm_cr := head (option_list (gr_alarm_cr g) ++ alarms [b]) |}.
Proof.
  destruct g as [ga gi ge gl]. intros [Hb _] Ha Hl. cbn in Ha, Hl.
  destruct b as [a|c|e|a]; cbn [wf_connect_block parsed_block connect_block_wire fst snd] in *;
    unfold group_block, parsed_block; cbn [bh_block_type fst snd];
    unfold AR_BLOCK_REQ, IOCR_BLOCK_REQ, EXPECTED_SUBMODULE_BLOCK_REQ, ALARM_CR_BLOCK_REQ; dec;
    cbn [gr_ar gr_alarm_cr gr_iocrs gr_expected].
  - destruct ga; [cbn in Ha; lia|]. unfold ArBlockReq_parse.
    rewrite <-(app_nil_r (ArBlockReq_wire a)), (run_parser_reads _ _ a)
      by eauto using reads_ArBlockReq. cbn. rewrite !app_nil_r. by destruct gl.
  - unfold IocrBlockReq_parse.
    rewrite <-(app_nil_r (IocrBlockReq_wire c)), (run_parser_reads _ _ c)
      by eauto using reads_IocrBlockReq. cbn. rewrite !app_nil_r. by destruct ga, gl.
  - unfold ExpectedSubmoduleBlockReq_parse.
    rewrite <-(app_nil_r (ExpectedSubmoduleBlockReq_wire e)), (run_parser_reads _ _ e)
      by eauto using reads_ExpectedSubmoduleBlockReq. cbn. rewrite !app_nil_r. by destruct ga, gl.
  - destruct gl; [cbn in Hl; lia|]. unfold AlarmCrBlockReq_parse.
    rewrite <-(app_nil_r (AlarmCrBlockReq_wire a)), (run_parser_reads _ _ a)
      by eauto using reads_AlarmCrBlockReq. cbn. rewrite !app_nil_r. by destruct ga.
Qed.

Lemma head_short {A} (l k : list A) : (length (l ++ k) ≤ 1)%nat →
  option_list (head l) ++ k = l ++ k.
Proof. destruct l as [|? []]; cbn; [done|done|lia]. Qed.

Lemma group_blocks_wire bs : ∀ g,
  Forall wf_connect_block bs →
  (length (option_list (gr_ar g) ++ ars bs) ≤ 1)%nat →
  (length (option_list (gr_alarm_cr g) ++ alarms bs) ≤ 1)%nat →
  group_blocks g (parsed_block <$> (connect_block_wire <$> bs)) =
  Ok {| gr_ar := head (option_list (gr_ar g) ++ ars bs);
        gr_iocrs := gr_iocrs g ++ iocrs bs;
        gr_expected := gr_expected g ++ expecteds bs;
        gr_alarm_cr := head (option_list (gr_alarm_cr g) ++ alarms bs) |}.
Proof.
  induction bs as [|b bs IH]; intros g Hbs Ha Hl.
  - cbn. rewrite !app_nil_r. by destruct g as [[] ? ? []].
  - apply Forall_cons_1 in Hbs as [Hb Hbs].
    assert (∀ {A} (f : connect_block → option A), omap f (b :: bs) = omap f [b] ++ omap f bs)
      as Hsplit by (intros; by rewrite <-omap_app).
    unfold ars, iocrs, expecteds, alarms in *. rewrite !Hsplit, !app_assoc in *.
    rewrite !fmap_cons. cbn [group_blocks]. rewrite group_block_wire; [|done|..].
    2,3: unfold ars, alarms; rewrite !length_app in *; lia.
    cbn [obind]. unfold ars, iocrs, expecteds, alarms. rewrite IH; [|done|..];
      cbn [gr_ar gr_alarm_cr gr_iocrs gr_expected]; rewrite ?head_short; done.
Qed.

Lemma connect_wire_parses bs a l :
  Forall wf_connect_block bs → ars bs = [a] → alarms bs = [l] →
  ConnectReq_parse (connect_wire bs) =
  Ok {| cq_ar := a; cq_iocrs := iocrs bs; cq_expected := expecteds bs; cq_alarm_cr := l |}.
Proof.
  intros Hbs Ha Hl. unfold ConnectReq_parse, connect_wire.
  rewrite BlockHeader_read_all_wire.
  2: { apply Forall_fmap. eapply Forall_weaken; [done|]. intros b [_ Hb]. cbn. split; [|done].
       destruct b; cbn; range. }
  cbn [map_err obind]. fold parsed_block.
  rewrite (group_blocks_wire bs Grouped_empty); [|done|by rewrite ?Ha, ?Hl..].
  cbn. by rewrite Ha, Hl.
Qed.

(** C37: A Connect request written as PNIO blocks in any order, with exactly one
    ARBlockReq and one AlarmCRBlockReq, is parsed back to those blocks, the
    IOCR and ExpectedSubmodule blocks grouped in request order. *)
Theorem ConnectReq_parse_wire bs a l :
  Forall wf_connect_block bs → ars bs = [a] → alarms bs = [l] →
  ConnectReq_parse (connect_wire bs) =
  Ok {| cq_ar := a; cq_iocrs := iocrs bs; cq_expected := expecteds bs; cq_alarm_cr := l |}.
Proof. apply connect_wire_parses. Qed.

(** ** The response's blocks *)

Definition wf_iocr_params (c : IocrParams) : Prop :=
  u16 (ip_reference c) ∧ u16 (ip_frame_id c) ∧ u16 (ip_data_length c) ∧
  u16 (ip_send_clock_factor c) ∧ u16 (ip_reduction_ratio c) ∧ u16 (ip_watchdog_factor c) ∧
  u16 (ip_data_hold_factor c) ∧
  Forall wf_IocrObject (ip_io_data c) ∧ Forall wf_IocrObject (ip_iocs c).

Definition wf_params (p : ArParams) : Prop :=
  wf_uuid (ap_ar_uuid p) ∧ u16 (ap_session_key p) ∧ wf_mac (ap_initiator_mac p) ∧
  wf_uuid (ap_initiator_object_uuid p) ∧ u16 (ap_activity_timeout_factor p) ∧
  wf_iocr_params (ap_input_cr p) ∧ wf_iocr_params (ap_output_cr p) ∧
  u16 (ap_alarm_ref_remote p) ∧ u16 (ap_max_alarm_data_length p) ∧
  u16 (ap_max_alarm_data_length_remote p) ∧ u16 (ap_rta_timeout_factor p) ∧
  u16 (ap_rta_retries p) ∧ u16 (ap_alarm_ref_local p) ∧
  u16 (ap_alarm_tag_high p) ∧ u16 (ap_alarm_tag_low p).

Definition wf_submodule (s : SubmoduleModel) : Prop :=
  u16 (sm_subslot s) ∧ u32 (sm_submodule_ident s) ∧ u16 (sm_input_len s) ∧ u16 (sm_output_len s).
Definition wf_slot (s : SlotModel) : Prop :=
  u16 (sl_slot s) ∧ u32 (sl_module_ident s) ∧ Forall wf_submodule (sl_submodules s).

(** The types of the fields; a station name is at most 240 octets long. *)
Definition wf_model (m : DeviceModel) : Prop :=
  u16 (dm_vendor_id m) ∧ u16 (dm_device_id m) ∧ u16 (dm_instance m) ∧
  (length (dm_station_name m) ≤ 240)%nat ∧ wf_mac (dm_mac m) ∧
  u16 (dm_max_alarm_data_length m) ∧ Forall wf_slot (dm_slots m).

Lemma Uuid_write_total {E} u d : wf_uuid u → ∃ b, Uuid_write (E := E) u d = Ok b ∧ length b = 16%nat.
Proof. intros H. eexists. split; [by apply Uuid_write_Ok|by apply length_Uuid_wire]. Qed.

(** The bodies of the five response blocks. *)
Definition connect_res_blocks (p : ArParams) (m : DeviceModel) : list (Z * list Z) :=
  let name := be16 (wrap16 (Z.of_nat (length (dm_station_name m)))) ++ dm_station_name m in
  [ (AR_BLOCK_RES, be16 1 ++ Uuid_wire (ap_ar_uuid p) Drep_BIG ++ be16 (ap_session_key p)
                   ++ mac_octets (dm_mac m) ++ be16 0x8892);
    (IOCR_BLOCK_RES, be16 1 ++ be16 (ip_reference (ap_input_cr p))
                     ++ be16 (ip_frame_id (ap_input_cr p)));
    (IOCR_BLOCK_RES, be16 2 ++ be16 (ip_reference (ap_output_cr p))
                     ++ be16 (ip_frame_id (ap_output_cr p)));
    (ALARM_CR_BLOCK_RES, be16 1 ++ be16 0 ++ be16 (dm_max_alarm_data_length m));
    (AR_SERVER_BLOCK_RES,
     name ++ replicate ((4 - (BlockHeader_LEN + length name) mod 4) mod 4) 0) ].

Lemma length_connect_res_blocks p m :
  wf_params p → wf_model m →
  Forall (λ b, u16 b.1 ∧ Z.of_nat (length b.2) + 2 < 65536) (connect_res_blocks p m).
Proof.
  intros (Hu & _) (_ & _ & _ & Hn & [Hm _] & _).
  pose proof (length_Uuid_wire (ap_ar_uuid p) Drep_BIG Hu).
  unfold connect_res_blocks.
  repeat (apply List.Forall_cons; [split; cbn [fst snd]; [range|len]|]); [|constructor].
  pose proof (Nat.mod_upper_bound (4 - (BlockHeader_LEN + (2 + length (dm_station_name m))) mod 4) 4).
  lia.
Qed.

Lemma build_connect_res_Ok {E} p m :
  wf_params p → wf_model m →
  build_connect_res (E := E) p m =
  Ok (concat ((λ b, block_wire b.1 b.2) <$> connect_res_blocks p m)).
Proof.
  intros Hp Hm. pose proof (length_connect_res_blocks p m Hp Hm) as Hl.
  destruct Hp as (Hu & _). unfold build_connect_res, write_ar_block_res.
  rewrite Uuid_write_Ok by done. cbn [obind]. f_equal.
  unfold connect_res_blocks in *. rewrite !fmap_cons, fmap_nil. cbn [concat fst snd].
  unfold write_iocr_block_res, write_alarm_cr_block_res, write_ar_server_block_res, block_wire.
  repeat match goal with H : Forall _ (_ :: _) |- _ => apply Forall_cons_1 in H as [[_ ?] ?] end.
  cbn [snd] in *. rewrite !wrap16_id by (unfold u16; lia || (cbn [length]; len)). 
  by rewrite app_nil_r.
Qed.

(** ** Well-formedness of what is parsed and validated *)

(** The fields the device keeps, or echoes, are within their widths. *)
Definition wf_ConnectReq (r : ConnectReq) : Prop :=
  wf_ArBlockReq (cq_ar r) ∧ Forall wf_IocrBlockReq (cq_iocrs r) ∧
  wf_AlarmCrBlockReq (cq_alarm_cr r).

Definition wf_Grouped (g : Grouped) : Prop :=
  Forall wf_ArBlockReq (option_list (gr_ar g)) ∧ Forall wf_IocrBlockReq (gr_iocrs g) ∧
  Forall wf_AlarmCrBlockReq (option_list (gr_alarm_cr g)).

Lemma wf_group_block g h body g' :
  wf_Grouped g → Forall u8 body → group_block g (h, body) = Ok g' → wf_Grouped g'.
Proof.
  intros (Ha & Hi & Hl) Hb H. unfold group_block in H. ok_inv; unfold wf_Grouped; cbn;
    split_and!; try done.
  - apply List.Forall_cons; [|done]. eapply (run_parser_yields _ _ _ _ yields_ArBlockReq); done.
  - apply Forall_app_2; [done|]. apply List.Forall_cons; [|done].
    eapply (run_parser_yields _ _ _ _ yields_IocrBlockReq); done.
  - apply List.Forall_cons; [|done]. eapply (run_parser_yields _ _ _ _ yields_AlarmCrBlockReq); done.
Qed.

Lemma wf_group_blocks all : ∀ g g',
  wf_Grouped g → Forall (λ hb : BlockHeader * list Z, Forall u8 hb.2) all →
  group_blocks g all = Ok g' → wf_Grouped g'.
Proof.
  induction all as [|[h body] all IH]; cbn; intros g g' Hg Hall H; [by simplify_eq|].
  apply Forall_cons_1 in Hall as [Hb ?]. apply obind_Ok in H as (g1 & H1 & H).
  eapply IH; [|done|done]. exact (wf_group_block _ _ _ _ Hg Hb H1).
Qed.

Lemma read_all_u8 buf : ∀ fuel pos all,
  Forall u8 buf → read_all_from fuel buf pos = Ok all →
  Forall (λ hb : BlockHeader * list Z, Forall u8 hb.2) all.
Proof.
  induction fuel as [|fuel IH]; intros pos all Hb; cbn; case_decide; try done;
    [by intros [= <-]| |by intros [= <-]].
  intros Hr. unfold slice_from in Hr. ok_inv. apply List.Forall_cons; [|by eapply IH].
  eapply BlockHeader_parse_u8; [|done]. by apply Forall_drop.
Qed.

Lemma wf_ConnectReq_parse blocks r :
  Forall u8 blocks → ConnectReq_parse blocks = Ok r → wf_ConnectReq r.
Proof.
  intros Hb H. unfold ConnectReq_parse in H.
  apply obind_Ok in H as (all & Hall%map_err_Ok & H). apply obind_Ok in H as (g & Hg & H).
  apply (read_all_u8 blocks (length blocks) 0 all Hb) in Hall.
  destruct (wf_group_blocks all Grouped_empty g ltac:(done) Hall Hg) as (Ha & Hi & Hl).
  destruct (gr_ar g), (gr_alarm_cr g); try done. injection H as <-. cbn in Ha, Hl.
  apply Forall_cons_1 in Ha as [? _], Hl as [? _]. done.
Qed.

Lemma wf_IocrParams_from_req c : wf_IocrBlockReq c → wf_iocr_params (IocrParams_from_req c).
Proof.
  intros (? & ? & ? & ? & ? & ? & ? & ? & ? & ? & ? & ? & ? & ? & ? & ? & Hapis).
  unfold IocrParams_from_req. destruct (icr_apis c) as [|api ?]; cbn.
  - unfold wf_iocr_params; cbn. split_and!; done.
  - apply Forall_cons_1 in Hapis as [(? & ? & ? & ? & ?) _].
    unfold wf_iocr_params; cbn. split_and!; done.
Qed.

Lemma validate_wf req model p :
  wf_ConnectReq req → wf_model model → validate req model = Ok p → wf_params p.
Proof.
  intros (Ha & Hi & Hl) (_ & _ & _ & _ & _ & Hm & _) H. unfold validate in H.
  fold (cr_of_type 1) (cr_of_type 2) in H.
  destruct (cr_of_type 1 (cq_iocrs req)) as [i|] eqn:Ei,
    (cr_of_type 2 (cq_iocrs req)) as [o|] eqn:Eo; ok_inv; simplify_eq.
  apply List.find_some in Ei as [Ei _], Eo as [Eo _].
  rewrite List.Forall_forall in Hi. apply Hi in Ei, Eo.
  apply wf_IocrParams_from_req in Ei, Eo.
  destruct Ha as (? & ? & ? & ? & ? & ? & ? & ? & ?), Hl as (? & ? & ? & ? & ? & ? & ? & ? & ?).
  assert (u16 0) by range.
  unfold wf_params; cbn [ap_ar_uuid ap_session_key ap_initiator_mac ap_initiator_object_uuid
    ap_activity_timeout_factor ap_input_cr ap_output_cr ap_alarm_ref_remote
    ap_max_alarm_data_length ap_max_alarm_data_length_remote ap_rta_timeout_factor
    ap_rta_retries ap_alarm_ref_local ap_alarm_tag_high ap_alarm_tag_low].
  repeat (split; [done|]).
  match goal with |- context [decide ?P] => destruct (decide P) end;
    [|repeat (split; [done|]); done].
  split; [|repeat (split; [done|]); done].
  destruct Eo as (? & ? & ? & ? & ? & ? & ? & ? & ?).
  unfold wf_iocr_params; cbn. split; [done|]. split; [|repeat (split; [done|]); done].
  rewrite select_output_frame_id_spec. unfold u16. destruct (decide (_ = 0x8001)); lia.
Qed.

Lemma length_connect_res p m :
  wf_params p → wf_model m →
  (length (concat ((λ b, block_wire b.1 b.2) <$> connect_res_blocks p m)) ≤ 4096)%nat.
Proof.
  intros (Hu & _) (_ & _ & _ & Hn & [Hmac _] & _).
  pose proof (length_Uuid_wire (ap_ar_uuid p) Drep_BIG Hu).
  unfold connect_res_blocks. rewrite !fmap_cons, fmap_nil. cbn [concat fst snd].
  pose proof (Nat.mod_upper_bound (4 - (BlockHeader_LEN + (2 + length (dm_station_name m))) mod 4) 4
    ltac:(lia)). len.
Qed.

(** ** A sample request

    A Connect request for the sample device, used by the witnesses: slot 4
    carries eight input and eight output bytes, and the Output FrameID is left
    to the device. *)

Definition sample_mac : MacAddr := Mac [0x02; 0; 0; 0; 0; 0x01].
Definition sample_model : DeviceModel := pnet_sample sample_mac.
Definition sample_uuid (n : Z) : Uuid := MkUuid (replicate 15 0 ++ [n]).

Definition sample_ar : ArBlockReq :=
  {| arb_ar_type := 1; arb_ar_uuid := sample_uuid 7; arb_session_key := 3;
     arb_initiator_mac := Mac [0x02; 0; 0; 0; 0; 0x02];
     arb_initiator_object_uuid := sample_uuid 9; arb_ar_properties := 0x11;
     arb_activity_timeout_factor := 600; arb_initiator_udp_rt_port := 0x8892;
     arb_station_name := ascii_bytes "plc" |}.

Definition sample_iocr (ty id : Z) (data iocs : list IocrObject) : IocrBlockReq :=
  {| icr_iocr_type := ty; icr_reference := ty; icr_lt := 0x8892; icr_properties := 2;
     icr_data_length := 40; icr_frame_id := id; icr_send_clock_factor := 32;
     icr_reduction_ratio := 32; icr_phase := 1; icr_sequence := 0;
     icr_frame_send_offset := 0xffffffff; icr_watchdog_factor := 3; icr_data_hold_factor := 3;
     icr_tag_header := 0xc000; icr_multicast_mac := Mac (replicate 6 0);
     icr_apis := [{| ia_api := 0; ia_io_data := data; ia_iocs := iocs |}] |}.

Definition sample_object (slot subslot off : Z) : IocrObject :=
  {| io_slot := slot; io_subslot := subslot; io_frame_offset := off |}.
Definition sample_input : IocrBlockReq :=
  sample_iocr 1 0x8001 [sample_object 0 1 0; sample_object 4 1 1] [sample_object 4 1 10].
Definition sample_output : IocrBlockReq :=
  sample_iocr 2 FRAME_ID_DEVICE_SELECTS [sample_object 4 1 2]
              [sample_object 0 1 0; sample_object 4 1 1].

Definition sample_expected : ExpectedSubmoduleBlockReq :=
  let d n := {| dd_data_length := n; dd_length_iocs := 1; dd_length_iops := 1 |} in
  {| esb_apis :=
       [ {| ea_api := 0; ea_slot := 0; ea_module_ident := 1; ea_module_properties := 0;
            ea_submodules :=
              [ {| es_subslot := 1; es_submodule_ident := 1; es_properties := 0;
                   es_input := Some (d 0); es_output := None |} ] |};
         {| ea_api := 0; ea_slot := 4; ea_module_ident := 0x40; ea_module_properties := 0;
            ea_submodules :=
              [ {| es_subslot := 1; es_submodule_ident := 0x140; es_properties := 3;
                   es_input := Some (d 8); es_output := Some (d 8) |} ] |} ] |}.

Definition sample_alarm : AlarmCrBlockReq :=
  {| acr_alarm_cr_type := 1; acr_lt := 0x8892; acr_properties := 0;
     acr_rta_timeout_factor := 1; acr_rta_retries := 3; acr_local_alarm_reference := 5;
     acr_max_alarm_data_length := 256; acr_tag_header_high := 0xc000;
     acr_tag_header_low := 0xa000 |}.

Definition sample_blocks : list connect_block :=
  [BAr sample_ar; BIocr sample_input; BIocr sample_output; BExpected sample_expected;
   BAlarm sample_alarm].

Definition sample_req : ConnectReq :=
  {| cq_ar := sample_ar; cq_iocrs := [sample_input; sample_output];
     cq_expected := [sample_expected]; cq_alarm_cr := sample_alarm |}.

(** The parameters the sample request negotiates. *)
Definition sample_params : option ArParams :=
  match validate sample_req sample_model with Ok p => Some p | _ => None end.

Lemma sample_wf : Forall wf_connect_block sample_blocks.
Proof.
  repeat apply List.Forall_cons; try apply List.Forall_nil.
  all: unfold wf_connect_block, wf_ArBlockReq, wf_IocrBlockReq, wf_IocrApi, wf_IocrObject,
    wf_ExpectedSubmoduleBlockReq, wf_ExpectedApi, wf_ExpectedSubmodule, wf_AlarmCrBlockReq,
    wf_uuid, wf_mac; by_decide.
Qed.

Lemma validate_accepts_witness :
  is_Ok (validate sample_req sample_model) = true ∧
  ∃ input output, acceptable sample_model sample_req input output.
Proof.
  assert (is_Ok (validate sample_req sample_model) = true) as H by by vm_compute.
  split; [exact H|]. apply (validate_accepts sample_model sample_req). exact H.
Defined.

Lemma ConnectReq_parse_wire_witness :
  Forall wf_connect_block sample_blocks ∧ ConnectReq_parse (connect_wire sample_blocks) = Ok sample_req.
Proof.
  split; [exact sample_wf|].
  apply (ConnectReq_parse_wire sample_blocks sample_ar sample_alarm);
    [exact sample_wf|reflexivity|reflexivity].
Defined.
