(* ===== verification/Records.v ===== *)
(** * Records: I&M records, control blocks, parameter writes and reads

    Models [crates/pnio/src/im.rs] (the I&M0 encoder and the writable I&M1-3
    store), [crates/pnio/src/cm/control.rs], [crates/pnio/src/cm/write.rs] and
    [crates/pnio/src/cm/records.rs].

    The file system is outside the model: [ImStore_persist] returns the path
    and the bytes the store hands to it, and [ImStore_load] takes what reading
    the path returned.  A [char] is its code point; a [String] its bytes. *)

From S2P Require Import Prelude Eth Rpc Block Connect.
Local Open Scope Z_scope.

(** ** I&M records *)

(** im.rs:12-13 VALID_SW_PREFIXES *)
Definition VALID_SW_PREFIXES : list Z := ascii_bytes "VRPUT".
(** im.rs:15-17 BLOCK_TYPE_IM0 *)
Definition BLOCK_TYPE_IM0 : Z := 0x0020.
(** im.rs:18-18 BLOCK_TYPE_IM1 *)
Definition BLOCK_TYPE_IM1 : Z := 0x0021.
(** im.rs:19-19 BLOCK_TYPE_IM2 *)
Definition BLOCK_TYPE_IM2 : Z := 0x0022.
(** im.rs:20-20 BLOCK_TYPE_IM3 *)
Definition BLOCK_TYPE_IM3 : Z := 0x0023.
(** im.rs:22-23 INDEX_IM0 *)
Definition INDEX_IM0 : Z := 0xAFF0.
(** im.rs:24-25 INDEX_IM1 *)
Definition INDEX_IM1 : Z := 0xAFF1.
(** im.rs:26-27 INDEX_IM2 *)
Definition INDEX_IM2 : Z := 0xAFF2.
(** im.rs:28-29 INDEX_IM3 *)
Definition INDEX_IM3 : Z := 0xAFF3.
(** im.rs:31-35 IM_SUPPORTED_DAP *)
Definition IM_SUPPORTED_DAP : Z := 0x000E.
(** im.rs:37-39 IM1_LEN *)
Definition IM1_LEN : nat := 54.
(** im.rs:40-42 IM2_LEN *)
Definition IM2_LEN : nat := 16.
(** im.rs:43-45 IM3_LEN *)
Definition IM3_LEN : nat := 54.

(** im.rs:47-59 SwRevision *)
Record SwRevision := {
  sw_prefix : Z; sw_functional : Z; sw_bug_fix : Z; sw_internal : Z
}.

(** im.rs:61-78 Im0 *)
Record Im0 := {
  im0_order_id : list Z;
  im0_serial_number : list Z;
  im0_hardware_revision : Z;
  im0_software_revision : SwRevision;
  im0_revision_counter : Z;
  im0_profile_id : Z;
  im0_profile_specific_type : Z
}.

(** im.rs:130-159 ImError *)
Inductive ImError :=
| NotAscii (field : string)
| TooLong (field : string) (max : nat)
| BadPrefix (c : Z)
| BadRecord (index : Z) (why : string).

(** [str::is_ascii] on the string's bytes. *)
Definition is_ascii (s : list Z) : bool := forallb (λ b, bool_decide (b < 128)) s.

(** im.rs:81-108 Im0::validate *)
Definition Im0_validate (im : Im0) : outcome ImError unit :=
  let! _ := guard (negb (is_ascii (im0_order_id im))) (NotAscii "order_id") in
  let! _ := guard (bool_decide (20 < length (im0_order_id im))%nat) (TooLong "order_id" 20) in
  let! _ := guard (negb (is_ascii (im0_serial_number im))) (NotAscii "serial_number") in
  let! _ := guard (bool_decide (16 < length (im0_serial_number im))%nat)
                  (TooLong "serial_number" 16) in
  guard (negb (bool_decide (sw_prefix (im0_software_revision im) ∈ VALID_SW_PREFIXES)))
        (BadPrefix (sw_prefix (im0_software_revision im))).

(** im.rs:111-128 Im0::default *)
Definition Im0_default : Im0 :=
  {| im0_order_id := ascii_bytes "pnio device";
     im0_serial_number := [];
     im0_hardware_revision := 1;
     im0_software_revision :=
       {| sw_prefix := 86; sw_functional := 0; sw_bug_fix := 1; sw_internal := 0 |};
     im0_revision_counter := 0;
     im0_profile_id := 0;
     im0_profile_specific_type := 0 |}.

(** im.rs:161-168 push_padded *)
Definition push_padded (s : list Z) (len : nat) : list Z :=
  let n := Nat.min (length s) len in
  take n s ++ replicate (len - n) 32.

(** im.rs:170-190 encode_im0 *)
Definition encode_im0 (vendor_id : Z) (im0 : Im0) (supported : Z) : list Z :=
  let sw := im0_software_revision im0 in
  BlockHeader_write BLOCK_TYPE_IM0 54
  ++ be16 vendor_id
  ++ push_padded (im0_order_id im0) 20
  ++ push_padded (im0_serial_number im0) 16
  ++ be16 (im0_hardware_revision im0)
  ++ [wrap8 (sw_prefix sw)] ++ [sw_functional sw] ++ [sw_bug_fix sw] ++ [sw_internal sw]
  ++ be16 (im0_revision_counter im0)
  ++ be16 (im0_profile_id im0)
  ++ be16 (im0_profile_specific_type im0)
  ++ [1] ++ [1]
  ++ be16 supported.

(** im.rs:199-208 ImStore *)
Record ImStore := {
  st_im1 : list Z; st_im2 : list Z; st_im3 : list Z; st_path : option string
}.

(** The array lengths of the Rust type. *)
Definition wf_store (s : ImStore) : Prop :=
  length (st_im1 s) = IM1_LEN ∧ length (st_im2 s) = IM2_LEN ∧ length (st_im3 s) = IM3_LEN.

(** im.rs:211-219 ImStore::new *)
Definition ImStore_new : ImStore :=
  {| st_im1 := replicate IM1_LEN 32; st_im2 := replicate IM2_LEN 32;
     st_im3 := replicate IM3_LEN 32; st_path := None |}.

(** [read] is the outcome of [std::fs::read] on the configured path. *)
(** im.rs:221-252 ImStore::load *)
Definition ImStore_load (path : option string) (read : option (list Z)) : ImStore :=
  let blank := {| st_im1 := st_im1 ImStore_new; st_im2 := st_im2 ImStore_new;
                  st_im3 := st_im3 ImStore_new; st_path := path |} in
  match path, read with
  | None, _ => blank
  | Some _, Some data =>
      if decide (length data = IM1_LEN + IM2_LEN + IM3_LEN)%nat then
        {| st_im1 := take IM1_LEN data;
           st_im2 := take IM2_LEN (drop IM1_LEN data);
           st_im3 := take IM3_LEN (drop (IM1_LEN + IM2_LEN) data);
           st_path := path |}
      else blank
  | Some _, None => blank
  end.

(** im.rs:254-267 ImStore::read *)
Definition ImStore_read (s : ImStore) (index : Z) : option (list Z) :=
  let record ty body := Some (BlockHeader_write ty (wrap16 (Z.of_nat (length body))) ++ body) in
  if decide (index = INDEX_IM1) then record BLOCK_TYPE_IM1 (st_im1 s)
  else if decide (index = INDEX_IM2) then record BLOCK_TYPE_IM2 (st_im2 s)
  else if decide (index = INDEX_IM3) then record BLOCK_TYPE_IM3 (st_im3 s)
  else None.

(** im.rs:312-329 ImStore::persist *)
Definition ImStore_persist (s : ImStore) : option (string * list Z) :=
  match st_path s with
  | None => None
  | Some path => Some (path, st_im1 s ++ st_im2 s ++ st_im3 s)
  end.

(** [copy_from_slice]: the lengths must agree. *)
Definition copy_from_slice {E} (dst src : list Z) : outcome E (list Z) :=
  if decide (length dst = length src) then Ok src else Panic.

(** *** Text accessors

    [String::from_utf8_lossy]: every maximal prefix of a character that cannot
    be completed becomes U+FFFD. *)
Definition REPLACEMENT : list Z := [0xEF; 0xBF; 0xBD].

Definition second3 (x y : Z) : bool :=
  bool_decide ((if decide (x = 0xE0) then 0xA0 else 0x80) ≤ y ≤
               (if decide (x = 0xED) then 0x9F else 0xBF)).
Definition second4 (x y : Z) : bool :=
  bool_decide ((if decide (x = 0xF0) then 0x90 else 0x80) ≤ y ≤
               (if decide (x = 0xF4) then 0x8F else 0xBF)).

Fixpoint from_utf8_lossy (b : list Z) : list Z :=
  match b with
  | [] => []
  | x :: r =>
    if decide (0 ≤ x ≤ 0x7F) then x :: from_utf8_lossy r
    else if decide (0xC2 ≤ x ≤ 0xDF) then
      match r with
      | y :: r1 => if cont y then x :: y :: from_utf8_lossy r1
                   else REPLACEMENT ++ from_utf8_lossy r
      | [] => REPLACEMENT
      end
    else if decide (0xE0 ≤ x ≤ 0xEF) then
      match r with
      | y :: r1 =>
        if second3 x y then
          match r1 with
          | z :: r2 => if cont z then x :: y :: z :: from_utf8_lossy r2
                       else REPLACEMENT ++ from_utf8_lossy r1
          | [] => REPLACEMENT
          end
        else REPLACEMENT ++ from_utf8_lossy r
      | [] => REPLACEMENT
      end
    else if decide (0xF0 ≤ x ≤ 0xF4) then
      match r with
      | y :: r1 =>
        if second4 x y then
          match r1 with
          | z :: r2 =>
            if cont z then
              match r2 with
              | w :: r3 => if cont w then x :: y :: z :: w :: from_utf8_lossy r3
                           else REPLACEMENT ++ from_utf8_lossy r2
              | [] => REPLACEMENT
              end
            else REPLACEMENT ++ from_utf8_lossy r1
          | [] => REPLACEMENT
          end
        else REPLACEMENT ++ from_utf8_lossy r
      | [] => REPLACEMENT
      end
    else REPLACEMENT ++ from_utf8_lossy r
  end.

(** [str::trim_end_matches] of NUL and space; both are one octet long. *)
Definition is_pad (b : Z) : bool := bool_decide (b = 0 ∨ b = 32).
Fixpoint trim_end (s : list Z) : list Z :=
  match s with
  | [] => []
  | x :: r => match trim_end r with
              | [] => if is_pad x then [] else [x]
              | r' => x :: r'
              end
  end.

(** im.rs:192-197 trimmed *)
Definition trimmed (bytes : list Z) : list Z := trim_end (from_utf8_lossy bytes).

(** im.rs:331-334 ImStore::tag_function *)
Definition tag_function {E} (s : ImStore) : outcome E (list Z) :=
  let! b := slice (st_im1 s) 0 32 in Ok (trimmed b).
(** im.rs:336-339 ImStore::tag_location *)
Definition tag_location {E} (s : ImStore) : outcome E (list Z) :=
  let! b := slice (st_im1 s) 32 IM1_LEN in Ok (trimmed b).
(** im.rs:341-344 ImStore::date *)
Definition date {E} (s : ImStore) : outcome E (list Z) :=
  let! b := slice (st_im2 s) 0 IM2_LEN in Ok (trimmed b).
(** im.rs:346-349 ImStore::descriptor *)
Definition descriptor {E} (s : ImStore) : outcome E (list Z) :=
  let! b := slice (st_im3 s) 0 IM3_LEN in Ok (trimmed b).
(** im.rs:352-356 ImStore::default *)
Definition ImStore_default : ImStore := ImStore_new.

(** im.rs:269-310 ImStore::write *)
Definition ImStore_write (s : ImStore) (index : Z) (record : list Z) :
    outcome ImError (ImStore * option (string * list Z)) :=
  let! (block_type, expected_len) :=
    (if decide (index = INDEX_IM1) then Ok (BLOCK_TYPE_IM1, IM1_LEN)
     else if decide (index = INDEX_IM2) then Ok (BLOCK_TYPE_IM2, IM2_LEN)
     else if decide (index = INDEX_IM3) then Ok (BLOCK_TYPE_IM3, IM3_LEN)
     else Err (BadRecord index "unknown I&M record index")) in
  let! (header, body) :=
    map_err (λ _, BadRecord index "malformed block header") (BlockHeader_parse record) in
  let! _ := guard (bool_decide (bh_block_type header ≠ block_type))
                  (BadRecord index "block type does not match the record index") in
  let! _ := guard (bool_decide (length body ≠ expected_len))
                  (BadRecord index "body length does not match the fixed record length") in
  let! s' :=
    (if decide (index = INDEX_IM1) then
       let! b := copy_from_slice (st_im1 s) body in
       Ok {| st_im1 := b; st_im2 := st_im2 s; st_im3 := st_im3 s; st_path := st_path s |}
     else if decide (index = INDEX_IM2) then
       let! b := copy_from_slice (st_im2 s) body in
       Ok {| st_im1 := st_im1 s; st_im2 := b; st_im3 := st_im3 s; st_path := st_path s |}
     else if decide (index = INDEX_IM3) then
       let! b := copy_from_slice (st_im3 s) body in
       Ok {| st_im1 := st_im1 s; st_im2 := st_im2 s; st_im3 := b; st_path := st_path s |}
     else Panic) in
  Ok (s', ImStore_persist s').

(** ** Control blocks *)

(** cm/control.rs:11-12 cmd::PRM_END *)
Definition PRM_END : Z := 0x0001.
(** cm/control.rs:13-14 cmd::APPLICATION_READY *)
Definition APPLICATION_READY : Z := 0x0002.
(** cm/control.rs:15-16 cmd::RELEASE *)
Definition RELEASE : Z := 0x0004.
(** cm/control.rs:17-18 cmd::DONE *)
Definition DONE : Z := 0x0008.
(** cm/control.rs:21-23 BODY_LEN *)
Definition BODY_LEN : nat := 26.

(** cm/control.rs:25-40 ControlBlock *)
Record ControlBlock := {
  cb_block_type : Z; cb_ar_uuid : Uuid; cb_session_key : Z; cb_command : Z; cb_properties : Z
}.

(** cm/control.rs:85-95 is_control_type *)
Definition is_control_type (t : Z) : bool :=
  bool_decide (t ∈ [IOD_CONTROL_REQ_PRM_END; IOD_CONTROL_RES_PRM_END; IOX_BLOCK_REQ_APP_READY;
                    IOX_BLOCK_RES_APP_READY; RELEASE_BLOCK_REQ; RELEASE_BLOCK_RES]).

(** cm/control.rs:57-70 ControlBlock::parse *)
Definition ControlBlock_parser (block_type : Z) : parser ControlBlock :=
  read! _ := Cursor_u16 in
  read! ar_uuid := Cursor_uuid in
  read! session_key := Cursor_u16 in
  read! _ := Cursor_u16 in
  read! command := Cursor_u16 in
  read! properties := Cursor_u16 in
  p_ret {| cb_block_type := block_type; cb_ar_uuid := ar_uuid; cb_session_key := session_key;
           cb_command := command; cb_properties := properties |}.

(** cm/control.rs:43-71 ControlBlock::parse *)
Definition ControlBlock_parse (blocks : list Z) : outcome CmError ControlBlock :=
  let! (header, body) := map_err CmBlock (BlockHeader_parse blocks) in
  let! _ := guard (negb (is_control_type (bh_block_type header)))
                  (CmBlock (UnexpectedType IOD_CONTROL_REQ_PRM_END (bh_block_type header))) in
  let! _ := guard (bool_decide (length body ≠ BODY_LEN))
                  (CmBlock (Malformed "control block body length")) in
  map_err CmBlock (run_parser (ControlBlock_parser (bh_block_type header)) body).

(** cm/control.rs:73-82 ControlBlock::write *)
Definition ControlBlock_write {E} (c : ControlBlock) : outcome E (list Z) :=
  let! u := Uuid_write (cb_ar_uuid c) Drep_BIG in
  Ok (BlockHeader_write (cb_block_type c) (Z.of_nat BODY_LEN)
      ++ be16 0 ++ u ++ be16 (cb_session_key c) ++ be16 0
      ++ be16 (cb_command c) ++ be16 (cb_properties c)).

(** cm/control.rs:97-107 prm_end_done *)
Definition prm_end_done (req : ControlBlock) : ControlBlock :=
  {| cb_block_type := IOD_CONTROL_RES_PRM_END; cb_ar_uuid := cb_ar_uuid req;
     cb_session_key := cb_session_key req; cb_command := DONE; cb_properties := 0 |}.

(** cm/control.rs:109-119 app_ready_req *)
Definition app_ready_req (ar_uuid : Uuid) (session_key : Z) : ControlBlock :=
  {| cb_block_type := IOX_BLOCK_REQ_APP_READY; cb_ar_uuid := ar_uuid;
     cb_session_key := session_key; cb_command := APPLICATION_READY; cb_properties := 0 |}.

(** cm/control.rs:121-131 release_done *)
Definition release_done (req : ControlBlock) : ControlBlock :=
  {| cb_block_type := RELEASE_BLOCK_RES; cb_ar_uuid := cb_ar_uuid req;
     cb_session_key := cb_session_key req; cb_command := DONE; cb_properties := 0 |}.

(** ** Parameter writes *)

(** cm/write.rs:12-13 INDEX_MULTIPLE_WRITE *)
Definition INDEX_MULTIPLE_WRITE : Z := 0xe040.

(** cm/write.rs:15-33 Record *)
Record WRecord := {
  wr_seq : Z; wr_ar_uuid : Uuid; wr_api : Z; wr_slot : Z; wr_subslot : Z; wr_index : Z;
  wr_data : list Z
}.
(** cm/write.rs:35-44 WriteReq *)
Record WriteReq := { wq_records : list WRecord }.

(** The fixed body: the record without its data, and [record_data_length]. *)
(** cm/write.rs:78-87 parse_one *)
Definition write_body_parser : parser (WRecord * nat) :=
  read! seq := Cursor_u16 in
  read! ar_uuid := Cursor_uuid in
  read! api := Cursor_u32 in
  read! slot := Cursor_u16 in
  read! subslot := Cursor_u16 in
  read! _ := Cursor_u16 in
  read! index := Cursor_u16 in
  read! record_data_length := Cursor_u32 in
  read! _ := Cursor_bytes 24 in
  p_ret ({| wr_seq := seq; wr_ar_uuid := ar_uuid; wr_api := api; wr_slot := slot;
            wr_subslot := subslot; wr_index := index; wr_data := [] |},
         Z.to_nat record_data_length).

(** cm/write.rs:67-114 parse_one *)
Definition parse_one (buf : list Z) : outcome BlockError (WRecord * nat) :=
  let! (header, body) := BlockHeader_parse buf in
  let! _ := guard (bool_decide (bh_block_type header ≠ IOD_WRITE_REQ_HEADER))
                  (UnexpectedType IOD_WRITE_REQ_HEADER (bh_block_type header)) in
  let! (r, record_data_length) := run_parser write_body_parser body in
  let header_end := (BlockHeader_LEN + length body)%nat in
  let data_end := (header_end + record_data_length)%nat in
  if decide (length buf < data_end)%nat then Err (BlockTooShort data_end (length buf)) else
  let! data := slice buf header_end data_end in
  Ok ({| wr_seq := wr_seq r; wr_ar_uuid := wr_ar_uuid r; wr_api := wr_api r;
         wr_slot := wr_slot r; wr_subslot := wr_subslot r; wr_index := wr_index r;
         wr_data := data |}, data_end).

(** Each nested record takes at least six bytes, so the data's length is fuel
    enough; [WriteReq_parse_no_panic] excludes running out. *)
(** cm/write.rs:54-59 WriteReq::parse *)
Fixpoint parse_nested (fuel : nat) (data : list Z) (pos : nat) : outcome BlockError (list WRecord) :=
  if decide (pos < length data)%nat then
    match fuel with
    | O => Panic
    | S fuel =>
      let! s := slice_from data pos in
      let! (record, consumed) := parse_one s in
      let! records := parse_nested fuel data (Nat.ldiff (pos + consumed + 3) 3) in
      Ok (record :: records)
    end
  else Ok [].

(** cm/write.rs:46-64 WriteReq::parse *)
Definition WriteReq_parse (blocks : list Z) : outcome CmError WriteReq :=
  let! (outer, _) := map_err CmBlock (parse_one blocks) in
  if decide (wr_index outer = INDEX_MULTIPLE_WRITE) then
    let data := wr_data outer in
    let! nested := map_err CmBlock (parse_nested (length data) data 0) in
    Ok {| wq_records := outer :: nested |}
  else Ok {| wq_records := [outer] |}.

(** cm/write.rs:121-135 build_write_res *)
Definition write_res_record {E} (r : WRecord) : outcome E (list Z) :=
  let! u := Uuid_write (wr_ar_uuid r) Drep_BIG in
  Ok (BlockHeader_write IOD_WRITE_RES_HEADER 58
      ++ be16 (wr_seq r) ++ u ++ be32 (wr_api r) ++ be16 (wr_slot r) ++ be16 (wr_subslot r)
      ++ be16 0 ++ be16 (wr_index r) ++ be32 0 ++ be16 0 ++ be16 0 ++ be32 0
      ++ replicate 16 0).

(** cm/write.rs:116-137 build_write_res *)
Fixpoint build_write_res_records {E} (rs : list WRecord) : outcome E (list Z) :=
  match rs with
  | [] => Ok []
  | r :: rs =>
    let! b := write_res_record r in
    let! out := build_write_res_records rs in
    Ok (b ++ out)
  end.

(** cm/write.rs:119-137 build_write_res *)
Definition build_write_res {E} (req : WriteReq) : outcome E (list Z) :=
  build_write_res_records (wq_records req).

(** ** Record reads *)

(** cm/records.rs:16-37 ReadReq *)
Record ReadReq := {
  rq_seq : Z; rq_ar_uuid : Uuid; rq_api : Z; rq_slot : Z; rq_subslot : Z; rq_index : Z;
  rq_record_data_length : Z; rq_target_ar_uuid : Uuid
}.

(** cm/records.rs:51-71 ReadReq::parse *)
Definition ReadReq_parser : parser ReadReq :=
  read! seq := Cursor_u16 in
  read! ar_uuid := Cursor_uuid in
  read! api := Cursor_u32 in
  read! slot := Cursor_u16 in
  read! subslot := Cursor_u16 in
  read! _ := Cursor_u16 in
  read! index := Cursor_u16 in
  read! record_data_length := Cursor_u32 in
  read! target_ar_uuid := Cursor_uuid in
  read! _ := Cursor_bytes 8 in
  p_ret {| rq_seq := seq; rq_ar_uuid := ar_uuid; rq_api := api; rq_slot := slot;
           rq_subslot := subslot; rq_index := index;
           rq_record_data_length := record_data_length; rq_target_ar_uuid := target_ar_uuid |}.

(** cm/records.rs:40-72 ReadReq::parse *)
Definition ReadReq_parse (blocks : list Z) : outcome CmError ReadReq :=
  let! (header, body) := map_err CmBlock (BlockHeader_parse blocks) in
  let! _ := guard (bool_decide (bh_block_type header ≠ IOD_READ_REQ_HEADER))
                  (CmBlock (UnexpectedType IOD_READ_REQ_HEADER (bh_block_type header))) in
  map_err CmBlock (run_parser ReadReq_parser body).

(** cm/records.rs:75-94 build_read_res *)
Definition build_read_res {E} (req : ReadReq) (data : list Z) : outcome E (list Z) :=
  let! u := Uuid_write (rq_ar_uuid req) Drep_BIG in
  Ok (BlockHeader_write IOD_READ_RES_HEADER 58
      ++ be16 (rq_seq req) ++ u ++ be32 (rq_api req) ++ be16 (rq_slot req)
      ++ be16 (rq_subslot req) ++ be16 0 ++ be16 (rq_index req)
      ++ be32 (wrap32 (Z.of_nat (length data))) ++ be16 0 ++ be16 0 ++ replicate 20 0
      ++ data).

(** cm/records.rs:96-104 RecordCtx *)
Record RecordCtx := { rc_model : DeviceModel; rc_im0 : Im0; rc_im : ImStore }.

(** cm/records.rs:106-122 read_record *)
Definition read_record (req : ReadReq) (ctx : RecordCtx) : option (list Z) :=
  match DeviceModel_find (rc_model ctx) (rq_slot req) (rq_subslot req) with
  | None => None
  | Some _ =>
    if decide (rq_index req = INDEX_IM0) then
      Some (encode_im0 (dm_vendor_id (rc_model ctx)) (rc_im0 ctx) IM_SUPPORTED_DAP)
    else if decide (INDEX_IM1 ≤ rq_index req ≤ INDEX_IM3) then
      ImStore_read (rc_im ctx) (rq_index req)
    else None
  end.

(** The status, the store afterwards and what was handed to the file system. *)
(** cm/records.rs:124-140 write_im_record *)
Definition write_im_record {E} (r : WRecord) (model : DeviceModel) (im : ImStore) :
    outcome E (PnioStatus * ImStore * option (string * list Z)) :=
  match DeviceModel_find model (wr_slot r) (wr_subslot r) with
  | None => Ok (write_invalid_parameter, im, None)
  | Some _ =>
    match ImStore_write im (wr_index r) (wr_data r) with
    | Ok (im', file) => Ok (PnioStatus_OK, im', file)
    | Err _ => Ok (write_invalid_parameter, im, None)
    | Panic => Panic
    end
  end.

(** ** The I&M store *)

Lemma wf_ImStore_new : wf_store ImStore_new.
Proof. done. Qed.

Lemma wf_ImStore_load path read : wf_store (ImStore_load path read).
Proof.
  unfold ImStore_load. destruct path; [|done]. destruct read as [data|]; [|done].
  case_decide; [|done]. unfold wf_store, IM1_LEN, IM2_LEN, IM3_LEN in *. cbn.
  rewrite !length_take, !length_drop. lia.
Qed.


Lemma no_panic_ImStore_write s index record :
  wf_store s → no_panic (ImStore_write s index record).
Proof.
  intros (H1 & H2 & H3). unfold ImStore_write, copy_from_slice.
  repeat case_decide; try done; cbn [obind]; np; subst;
    repeat match goal with H : guard _ _ = _ |- _ =>
      apply guard_Ok, bool_decide_eq_false, dec_stable in H end; congruence.
Qed.

Lemma wf_ImStore_write s index record s' file :
  wf_store s → ImStore_write s index record = Ok (s', file) → wf_store s'.
Proof.
  intros (H1 & H2 & H3). unfold ImStore_write, copy_from_slice. intros H.
  repeat (case_decide; try discriminate H); ok_inv; simplify_eq;
    unfold wf_store; cbn; split_and!; congruence.
Qed.

(** The body stored under an index. *)
Definition ImStore_body (s : ImStore) (index : Z) : option (list Z) :=
  if decide (index = INDEX_IM1) then Some (st_im1 s)
  else if decide (index = INDEX_IM2) then Some (st_im2 s)
  else if decide (index = INDEX_IM3) then Some (st_im3 s) else None.

(** The record the controller writes and reads back: a block of the type that
    belongs to the index. *)
Definition im_record (index : Z) (body : list Z) : list Z :=
  block_wire (BLOCK_TYPE_IM0 + (index - INDEX_IM0)) body.

Definition im_len (index : Z) : nat := if decide (index = INDEX_IM2) then IM2_LEN else IM1_LEN.

Ltac im_cases :=
  match goal with H : INDEX_IM1 ≤ ?i ≤ INDEX_IM3 |- _ =>
    let E := fresh in
    assert (i = INDEX_IM1 ∨ i = INDEX_IM2 ∨ i = INDEX_IM3) as E
      by (unfold INDEX_IM1, INDEX_IM2, INDEX_IM3 in *; lia);
    destruct E as [E|[E|E]]; first [subst i | rewrite E in *]
  end.

(** Writing a well-formed record stores its body, hands the three bodies to
    the file system and leaves the other records alone. *)
Lemma ImStore_write_record s index body :
  wf_store s → INDEX_IM1 ≤ index ≤ INDEX_IM3 → length body = im_len index →
  ∃ s', ImStore_write s index (im_record index body) = Ok (s', ImStore_persist s') ∧
    wf_store s' ∧ st_path s' = st_path s ∧
    ∀ i, ImStore_body s' i = if decide (i = index) then Some body else ImStore_body s i.
Proof.
  intros (H1 & H2 & H3) Hi Hb. unfold im_record, im_len in *.
  rewrite <-(app_nil_r (block_wire _ _)).
  im_cases; unfold INDEX_IM1, INDEX_IM2, INDEX_IM3 in Hb;
    revert Hb; dec; intros Hb; unfold ImStore_write, copy_from_slice;
    rewrite BlockHeader_parse_write by (rewrite ?Hb; by_decide);
    unfold INDEX_IM1, INDEX_IM2, INDEX_IM3; dec; cbn [map_err obind bh_block_type];
    rewrite !bool_decide_false by (rewrite ?Hb; intros Hn; by apply Hn); cbn [guard obind].
  all: (eexists; split; [dec; rewrite ?decide_True by (rewrite ?H1, ?H2, ?H3, ?Hb; done); reflexivity|]).
  all: split; [unfold wf_store; cbn; split_and!; (done || by rewrite Hb)|split; [done|]].
  all: intros i; unfold ImStore_body, INDEX_IM1, INDEX_IM2, INDEX_IM3; repeat case_decide;
    try done; lia.
Qed.

(** Reading returns the stored body as a block of the index's type. *)
Lemma ImStore_read_body s index :
  wf_store s → ImStore_read s index = im_record index <$> ImStore_body s index.
Proof.
  intros (H1 & H2 & H3). unfold ImStore_read, ImStore_body, im_record, block_wire.
  repeat case_decide; subst; cbn [fmap option_fmap option_map]; try done;
    rewrite wrap16_id by (rewrite ?H1, ?H2, ?H3; by_decide); done.
Qed.

(** The I&M store is a three-cell memory: a record written under an I&M1-3
    index is accepted, is what a read of that index returns, and leaves every
    other index unchanged; what is handed to the file system, loaded back,
    gives the same store. *)
Theorem ImStore_write_read s index body :
  wf_store s → INDEX_IM1 ≤ index ≤ INDEX_IM3 → length body = im_len index →
  ∃ s' file, ImStore_write s index (im_record index body) = Ok (s', file) ∧
    (∀ i, ImStore_read s' i =
          if decide (i = index) then Some (im_record index body) else ImStore_read s i) ∧
    (∀ path, st_path s = Some path →
       ∃ bytes, file = Some (path, bytes) ∧ ImStore_load (Some path) (Some bytes) = s').
Proof.
  intros Hs Hi Hb. destruct (ImStore_write_record s index body) as (s' & Hw & Hs' & Hp & Hr);
    [done..|]. exists s', (ImStore_persist s'). split; [done|]. split.
  - intros i. rewrite !ImStore_read_body, Hr by done. case_decide; by subst.
  - intros path Hpath. unfold ImStore_persist. rewrite Hp, Hpath. eexists. split; [done|].
    destruct Hs' as (H1 & H2 & H3). unfold ImStore_load.
    rewrite decide_True by (rewrite !length_app; lia).
    rewrite take_app_length' by done. rewrite drop_app_length' by done.
    rewrite take_app_length' by done. rewrite <-drop_drop, !drop_app_length' by done.
    rewrite take_ge by lia. rewrite <-Hpath, <-Hp. by destruct s'.
Qed.

Lemma ImStore_write_read_witness :
  let s := {| st_im1 := replicate 54 32; st_im2 := replicate 16 32; st_im3 := replicate 54 32;
              st_path := Some "im.bin"%string |} in
  ∃ s' file, ImStore_write s INDEX_IM2 (im_record INDEX_IM2 (replicate 16 48)) = Ok (s', file) ∧
    (∀ i, ImStore_read s' i =
          if decide (i = INDEX_IM2) then Some (im_record INDEX_IM2 (replicate 16 48))
          else ImStore_read s i) ∧
    (∀ path, st_path s = Some path →
       ∃ bytes, file = Some (path, bytes) ∧ ImStore_load (Some path) (Some bytes) = s').
Proof.
  intros s. apply (ImStore_write_read s INDEX_IM2 (replicate 16 48));
    [done|unfold INDEX_IM1, INDEX_IM2, INDEX_IM3; lia|reflexivity].
Defined.

(** ** I&M0 *)

Lemma length_push_padded s n : length (push_padded s n) = n.
Proof. unfold push_padded. rewrite length_app, length_take, length_replicate. lia. Qed.
#[export] Hint Rewrite length_push_padded : len.

(** The identity record always takes 60 bytes, whatever the strings. *)
Lemma length_encode_im0 v im sup : length (encode_im0 v im sup) = 60%nat.
Proof. unfold encode_im0. len. Qed.
#[export] Hint Rewrite length_encode_im0 : len.

(** ** Control blocks *)

Lemma safe_ControlBlock t : safe (ControlBlock_parser t).
Proof. unfold ControlBlock_parser. safe_tac. Qed.

Lemma ControlBlock_parse_no_panic b : no_panic (ControlBlock_parse b).
Proof. unfold ControlBlock_parse. np. apply run_parser_no_panic, safe_ControlBlock. Qed.
#[export] Hint Resolve ControlBlock_parse_no_panic : panics.

Definition wf_ControlBlock (c : ControlBlock) : Prop :=
  is_control_type (cb_block_type c) = true ∧ wf_uuid (cb_ar_uuid c) ∧ u16 (cb_session_key c) ∧
  u16 (cb_command c) ∧ u16 (cb_properties c).

Lemma is_control_type_u16 t : is_control_type t = true → u16 t.
Proof.
  unfold is_control_type. intros H%bool_decide_eq_true.
  set_unfold in H. destruct_or!; subst; by_decide.
Qed.

Definition ControlBlock_body (c : ControlBlock) : list Z :=
  be16 0 ++ Uuid_wire (cb_ar_uuid c) Drep_BIG ++ be16 (cb_session_key c) ++ be16 0
  ++ be16 (cb_command c) ++ be16 (cb_properties c).

Lemma length_ControlBlock_body c : wf_uuid (cb_ar_uuid c) → length (ControlBlock_body c) = 26%nat.
Proof. intros Hu. pose proof (length_Uuid_wire _ Drep_BIG Hu). unfold ControlBlock_body. len. Qed.

Lemma ControlBlock_write_Ok {E} c :
  wf_uuid (cb_ar_uuid c) →
  ControlBlock_write (E := E) c = Ok (block_wire (cb_block_type c) (ControlBlock_body c)).
Proof.
  intros Hu. unfold ControlBlock_write, block_wire. rewrite Uuid_write_Ok by done. cbn [obind].
  by rewrite length_ControlBlock_body.
Qed.

Lemma ControlBlock_parse_wire c rest :
  wf_ControlBlock c →
  ControlBlock_parse (block_wire (cb_block_type c) (ControlBlock_body c) ++ rest) = Ok c.
Proof.
  intros (Ht & Hu & ? & ? & ?). unfold ControlBlock_parse.
  pose proof (length_ControlBlock_body c Hu) as Hl.
  rewrite BlockHeader_parse_write by (eauto using is_control_type_u16 || lia).
  cbn [map_err obind bh_block_type]. rewrite Ht. cbn [negb guard obind].
  rewrite bool_decide_false by (rewrite Hl; tauto). cbn [guard obind].
  rewrite <-(app_nil_r (ControlBlock_body c)), (run_parser_reads _ _ c); [done|].
  unfold ControlBlock_parser, ControlBlock_body.
  assert (u16 0) by range. reads_tac. destruct c; apply reads_ret.
Qed.

(** Control blocks round-trip: what [write] produces for any of the six
    PrmEnd/ApplicationReady/Release types parses back to the same block. *)
Theorem ControlBlock_roundtrip c rest :
  wf_ControlBlock c →
  ∃ bytes, ControlBlock_write (E := CmError) c = Ok bytes ∧ length bytes = 32%nat ∧
           ControlBlock_parse (bytes ++ rest) = Ok c.
Proof.
  intros Hc. pose proof Hc as (_ & Hu & _). eexists.
  split; [by apply ControlBlock_write_Ok|]. split; [|by apply ControlBlock_parse_wire].
  rewrite length_block_wire, length_ControlBlock_body by done. done.
Qed.

Lemma ControlBlock_roundtrip_witness :
  ∃ bytes, ControlBlock_write (E := CmError) (app_ready_req (sample_uuid 7) 3) = Ok bytes ∧
    length bytes = 32%nat ∧
    ControlBlock_parse (bytes ++ [1; 2]) = Ok (app_ready_req (sample_uuid 7) 3).
Proof.
  apply (ControlBlock_roundtrip (app_ready_req (sample_uuid 7) 3) [1; 2]).
  unfold wf_ControlBlock, wf_uuid. by_decide.
Defined.

(** ** Parameter writes *)

Lemma safe_write_body : safe write_body_parser.
Proof. unfold write_body_parser. safe_tac. Qed.

Lemma no_panic_parse_one buf : no_panic (parse_one buf).
Proof.
  unfold parse_one. np.
  - apply run_parser_no_panic, safe_write_body.
Qed.
#[export] Hint Resolve no_panic_parse_one : panics.

Lemma parse_one_consumed buf r n :
  parse_one buf = Ok (r, n) → (BlockHeader_LEN ≤ n ≤ length buf)%nat.
Proof.
  unfold parse_one. intros H. ok_inv. simplify_eq.
  unfold BlockHeader_LEN in *. lia.
Qed.

(** [(x + 3) & !3] is the next multiple of four. *)
Lemma align4 x : Nat.ldiff (x + 3) 3 = (4 * ((x + 3) / 4))%nat.
Proof.
  transitivity (Nat.ldiff (x + 3) (Nat.ones 2)); [done|].
  rewrite Nat.ldiff_ones_r, Nat.shiftl_mul_pow2, Nat.shiftr_div_pow2.
  change (2 ^ 2)%nat with 4%nat. lia.
Qed.

Lemma align4_bounds x : (x ≤ Nat.ldiff (x + 3) 3 < x + 4)%nat.
Proof.
  rewrite align4. pose proof (Nat.div_mod (x + 3) 4 ltac:(lia)).
  pose proof (Nat.mod_upper_bound (x + 3) 4 ltac:(lia)). lia.
Qed.

Lemma no_panic_parse_nested data : ∀ fuel pos,
  (length data ≤ pos + fuel)%nat → no_panic (parse_nested fuel data pos).
Proof.
  induction fuel as [|fuel IH]; intros pos Hf; cbn [parse_nested]; case_decide; try done; [lia|].
  apply no_panic_bind; [apply no_panic_slice_from; lia|intros s Hs].
  apply no_panic_bind; [auto with panics|]. intros [r n] Hn. apply no_panic_bind; [|intros; np].
  apply IH. apply parse_one_consumed in Hn. pose proof (align4_bounds (pos + n)).
  unfold BlockHeader_LEN in *. lia.
Qed.

Lemma WriteReq_parse_no_panic blocks : no_panic (WriteReq_parse blocks).
Proof. unfold WriteReq_parse. np. apply no_panic_parse_nested. lia. Qed.
#[export] Hint Resolve WriteReq_parse_no_panic : panics.

(** The wire format of a write record, and of a MultipleWrite container. *)
Definition WRecord_wire (r : WRecord) : list Z :=
  block_wire IOD_WRITE_REQ_HEADER
    (be16 (wr_seq r) ++ Uuid_wire (wr_ar_uuid r) Drep_BIG ++ be32 (wr_api r)
     ++ be16 (wr_slot r) ++ be16 (wr_subslot r) ++ be16 0 ++ be16 (wr_index r)
     ++ be32 (Z.of_nat (length (wr_data r))) ++ replicate 24 0)
  ++ wr_data r.

Definition wf_WRecord (r : WRecord) : Prop :=
  u16 (wr_seq r) ∧ wf_uuid (wr_ar_uuid r) ∧ u32 (wr_api r) ∧ u16 (wr_slot r) ∧
  u16 (wr_subslot r) ∧ u16 (wr_index r) ∧ u32 (Z.of_nat (length (wr_data r))).

Definition pad4 (l : list Z) : list Z := l ++ replicate ((4 - length l mod 4) mod 4) 0.

Definition multiple_write_data (rs : list WRecord) : list Z :=
  concat ((λ r, pad4 (WRecord_wire r)) <$> rs).

Lemma length_WRecord_wire r :
  wf_WRecord r → length (WRecord_wire r) = (64 + length (wr_data r))%nat.
Proof.
  intros (_ & Hu & _). pose proof (length_Uuid_wire _ Drep_BIG Hu). unfold WRecord_wire. len.
Qed.

Lemma length_pad4 l : length (pad4 l) = Nat.ldiff (length l + 3) 3.
Proof.
  rewrite align4. unfold pad4. rewrite length_app, length_replicate.
  pose proof (Nat.div_mod (length l) 4 ltac:(lia)) as Hd.
  pose proof (Nat.mod_upper_bound (length l) 4 ltac:(lia)) as Hr.
  pose proof (Nat.div_mod (length l + 3) 4 ltac:(lia)) as Hd'.
  pose proof (Nat.mod_upper_bound (length l + 3) 4 ltac:(lia)).
  destruct (length l mod 4)%nat as [|[|[|[|]]]]; cbn [Nat.sub]; [..|lia];
    match goal with |- context [(?n mod 4)%nat] => let v := eval vm_compute in (n mod 4)%nat in
      change (n mod 4)%nat with v end; lia.
Qed.

Lemma parse_one_wire r rest :
  wf_WRecord r → parse_one (WRecord_wire r ++ rest) = Ok (r, length (WRecord_wire r)).
Proof.
  intros Hr. pose proof (length_WRecord_wire r Hr) as Hlen.
  pose proof Hr as (? & Hu & ? & ? & ? & ? & Hd).
  pose proof (length_Uuid_wire _ Drep_BIG Hu). unfold parse_one.
  set (buf := WRecord_wire r ++ rest).
  assert (length buf = 64 + length (wr_data r) + length rest)%nat as Hbuf
    by (subst buf; rewrite length_app, Hlen; lia).
  unfold WRecord_wire in buf. set (body := be16 (wr_seq r) ++ _) in buf.
  assert (length body = 58)%nat as Hb by (subst body; len).
  assert (buf = block_wire IOD_WRITE_REQ_HEADER body ++ wr_data r ++ rest) as Hbeq
    by (subst buf; by rewrite <-app_assoc).
  rewrite Hbeq at 1. rewrite BlockHeader_parse_write by (range || lia).
  cbn [obind bh_block_type]. rewrite bool_decide_false by tauto. cbn [guard obind].
  rewrite <-(app_nil_r body) at 1. rewrite (run_parser_reads write_body_parser body
    ({| wr_seq := wr_seq r; wr_ar_uuid := wr_ar_uuid r; wr_api := wr_api r; wr_slot := wr_slot r;
        wr_subslot := wr_subslot r; wr_index := wr_index r; wr_data := [] |}, length (wr_data r))).
  - cbn [obind]. unfold BlockHeader_LEN. rewrite Hb, decide_False by lia.
    rewrite (slice_drop buf _ _ (wr_data r) rest); [|..|lia|lia].
    + cbn [obind]. rewrite Hlen. by destruct r.
    + rewrite Hbeq. rewrite drop_app_length'; [done|]. by rewrite length_block_wire, Hb.
  - unfold write_body_parser, body. assert (u16 0) by range. reads_tac.
    rewrite Nat2Z.id. apply reads_ret.
Qed.

Lemma parse_nested_wire data : ∀ rs fuel pos,
  Forall wf_WRecord rs → (pos ≤ length data)%nat → (length data ≤ pos + fuel)%nat →
  drop pos data = multiple_write_data rs → (pos mod 4 = 0)%nat →
  parse_nested fuel data pos = Ok rs.
Proof.
  induction rs as [|r rs IH]; intros fuel pos Hrs Hp Hf Hd Ha.
  - apply (f_equal length) in Hd. rewrite length_drop in Hd. cbn in Hd.
    destruct fuel; cbn [parse_nested]; by rewrite decide_False by lia.
  - apply Forall_cons_1 in Hrs as [Hr Hrs].
    unfold multiple_write_data in Hd. rewrite fmap_cons in Hd. cbn [concat] in Hd.
    fold (multiple_write_data rs) in Hd. pose proof (length_WRecord_wire r Hr) as Hw.
    pose proof (f_equal length Hd) as Hlen. rewrite length_drop, length_app, length_pad4 in Hlen.
    pose proof (align4_bounds (length (WRecord_wire r))).
    destruct fuel as [|fuel]; [lia|]. cbn [parse_nested]. rewrite decide_True by lia.
    unfold slice_from. rewrite decide_True by lia. cbn [obind]. rewrite Hd.
    unfold pad4 at 1. rewrite <-app_assoc, parse_one_wire by done. cbn [obind].
    assert (Nat.ldiff (pos + length (WRecord_wire r) + 3) 3 =
            pos + Nat.ldiff (length (WRecord_wire r) + 3) 3)%nat as ->.
    { rewrite !align4. apply Nat.Div0.mod_divides in Ha as [q ->].
      replace (4 * q + length (WRecord_wire r) + 3)%nat
        with (length (WRecord_wire r) + 3 + q * 4)%nat by lia.
      rewrite Nat.div_add by lia. lia. }
    rewrite IH; [done|done|lia|lia|..].
    + rewrite <-drop_drop, Hd. apply drop_app_length'. by rewrite length_pad4.
    + rewrite align4. apply Nat.Div0.mod_divides in Ha as [q ->].
      rewrite <-Nat.mul_add_distr_l, Nat.mul_comm. apply Nat.Div0.mod_mul.
Qed.

(** A Write request is parsed into its records: a plain record into itself,
    a MultipleWrite container into the container followed by the nested
    records, each padded to the next 4-byte boundary, in request order. *)
Theorem WriteReq_parse_wire outer nested rest :
  wf_WRecord outer → Forall wf_WRecord nested →
  (wr_index outer = INDEX_MULTIPLE_WRITE → wr_data outer = multiple_write_data nested) →
  WriteReq_parse (WRecord_wire outer ++ rest) =
  Ok {| wq_records :=
          outer :: if decide (wr_index outer = INDEX_MULTIPLE_WRITE) then nested else [] |}.
Proof.
  intros Ho Hn Hm. unfold WriteReq_parse. rewrite parse_one_wire by done. cbn [map_err obind].
  case_decide as Hi; [|done]. rewrite (parse_nested_wire _ nested); try done; try lia.
  rewrite drop_0. auto.
Qed.

(** The response mirrors the request: 64 bytes per record. *)
Lemma build_write_res_length {E} req :
  Forall (λ r, wf_uuid (wr_ar_uuid r)) (wq_records req) →
  ∃ bytes, build_write_res (E := E) req = Ok bytes ∧
           length bytes = (64 * length (wq_records req))%nat.
Proof.
  destruct req as [rs]. unfold build_write_res. cbn [wq_records].
  induction 1 as [|r rs Hr _ (out & IH & Hl)]; cbn [build_write_res_records]; [by exists []|].
  unfold write_res_record. pose proof (length_Uuid_wire _ Drep_BIG Hr). rewrite Uuid_write_Ok by done. cbn [obind].
  rewrite IH. cbn [obind]. eexists. split; [done|]. len.
Qed.

Definition sample_record (index : Z) (data : list Z) : WRecord :=
  {| wr_seq := 1; wr_ar_uuid := sample_uuid 7; wr_api := 0; wr_slot := 4; wr_subslot := 1;
     wr_index := index; wr_data := data |}.
Definition sample_nested : list WRecord := [sample_record 123 [1; 2; 3]; sample_record 124 [4]].
Definition sample_multiple : WRecord :=
  sample_record INDEX_MULTIPLE_WRITE (multiple_write_data sample_nested).

Lemma WriteReq_parse_wire_witness :
  WriteReq_parse (WRecord_wire sample_multiple ++ []) =
  Ok {| wq_records := sample_multiple :: sample_nested |}.
Proof.
  apply (WriteReq_parse_wire sample_multiple sample_nested []).
  - unfold wf_WRecord, wf_uuid. by_decide.
  - unfold wf_WRecord, wf_uuid. by_decide.
  - done.
Defined.

(** ** Record reads *)

Lemma safe_ReadReq : safe ReadReq_parser.
Proof. unfold ReadReq_parser. safe_tac. Qed.

Lemma ReadReq_parse_no_panic b : no_panic (ReadReq_parse b).
Proof. unfold ReadReq_parse. np. apply run_parser_no_panic, safe_ReadReq. Qed.
#[export] Hint Resolve ReadReq_parse_no_panic : panics.

Lemma no_panic_write_im_record {E} r model im :
  wf_store im → no_panic (write_im_record (E := E) r model im).
Proof.
  intros Him. unfold write_im_record. destruct (DeviceModel_find _ _ _); [|done].
  pose proof (no_panic_ImStore_write im (wr_index r) (wr_data r) Him).
  destruct (ImStore_write _ _ _) as [[]| |]; done.
Qed.

Lemma wf_write_im_record {E} r model im st im' file :
  wf_store im → write_im_record (E := E) r model im = Ok (st, im', file) → wf_store im'.
Proof.
  intros Him. unfold write_im_record. destruct (DeviceModel_find _ _ _); [|naive_solver].
  destruct (ImStore_write _ _ _) as [[]| |] eqn:Hw; intros [= <- <- <-]; eauto using wf_ImStore_write.
Qed.

Lemma no_panic_build_read_res {E} req data :
  wf_uuid (rq_ar_uuid req) → no_panic (build_read_res (E := E) req data).
Proof. intros Hu. unfold build_read_res. by rewrite Uuid_write_Ok. Qed.

(** A record read is answered exactly on the submodules the model knows,
    for I&M0 with the 60-byte identity and for I&M1-3 with the stored record. *)
Theorem read_record_spec req ctx :
  wf_store (rc_im ctx) →
  (is_Some (read_record req ctx) ↔
   is_Some (DeviceModel_find (rc_model ctx) (rq_slot req) (rq_subslot req)) ∧
   INDEX_IM0 ≤ rq_index req ≤ INDEX_IM3) ∧
  (∀ bytes, read_record req ctx = Some bytes →
     (rq_index req = INDEX_IM0 ∧ length bytes = 60%nat) ∨
     ∃ body, ImStore_body (rc_im ctx) (rq_index req) = Some body ∧
             bytes = im_record (rq_index req) body).
Proof.
  intros Him. unfold read_record.
  destruct (DeviceModel_find _ _ _) as [sm|]; [|split; [split; [by intros []|by intros [[]]]|done]].
  rewrite ImStore_read_body by done.
  destruct (decide (rq_index req = INDEX_IM0)) as [->|].
  { split; [split; [by eauto|done]|]. intros b [= <-]. left. by rewrite length_encode_im0. }
  destruct (decide (INDEX_IM1 ≤ rq_index req ≤ INDEX_IM3)) as [Hi|Hi].
  - assert (is_Some (ImStore_body (rc_im ctx) (rq_index req))) as [body Hb].
    { im_cases; unfold ImStore_body, INDEX_IM1, INDEX_IM2, INDEX_IM3; dec; eauto. }
    rewrite Hb. cbn. split; [split; [|eauto]|].
    + intros _. split; [eauto|]. unfold INDEX_IM0, INDEX_IM1, INDEX_IM3 in *. lia.
    + intros b [= <-]. eauto.
  - split; [split; [by intros []|]|done]. intros [_ ?].
    unfold INDEX_IM0, INDEX_IM1, INDEX_IM3 in *. lia.
Qed.

Lemma read_record_spec_witness :
  let ctx := {| rc_model := sample_model; rc_im0 := Im0_default; rc_im := ImStore_new |} in
  let req := {| rq_seq := 1; rq_ar_uuid := sample_uuid 7; rq_api := 0; rq_slot := 0;
                rq_subslot := 0x8000; rq_index := INDEX_IM0; rq_record_data_length := 64;
                rq_target_ar_uuid := Uuid_NIL |} in
  is_Some (read_record req ctx).
Proof.
  intros ctx req. apply (read_record_spec req ctx); [by_decide|].
  split; [by eexists|]. unfold req, INDEX_IM0, INDEX_IM3; cbn; lia.
Defined.

(** ** Well-formedness of what is parsed *)

Lemma yields_ControlBlock t : yields (ControlBlock_parser t)
  (λ c, cb_block_type c = t ∧ wf_uuid (cb_ar_uuid c) ∧ u16 (cb_session_key c) ∧
        u16 (cb_command c) ∧ u16 (cb_properties c)).
Proof. unfold ControlBlock_parser. yields_tac. by apply yields_ret. Qed.

Lemma wf_ControlBlock_parse b c :
  Forall u8 b → ControlBlock_parse b = Ok c → wf_ControlBlock c.
Proof.
  intros Hb H. unfold ControlBlock_parse in H. ok_inv.
  match goal with H : BlockHeader_parse _ = Ok _ |- _ =>
    destruct (BlockHeader_parse_u8 _ _ _ Hb H) as [_ Hl] end.
  destruct (run_parser_yields _ _ _ _ (yields_ControlBlock _) Hl H) as (Ht & ?).
  split; [|done]. rewrite Ht. by destruct (is_control_type _).
Qed.

Lemma wf_parse_one b r n : Forall u8 b → parse_one b = Ok (r, n) →
  wf_uuid (wr_ar_uuid r) ∧ Forall u8 (wr_data r).
Proof.
  intros Hb H. unfold parse_one in H.
  apply obind_Ok in H as ([h body] & Hp & H). destruct (BlockHeader_parse_u8 _ _ _ Hb Hp) as [_ Hl].
  apply obind_Ok in H as (_ & _ & H). apply obind_Ok in H as ([w len] & Hw & H).
  assert (yields write_body_parser (λ w, wf_uuid (wr_ar_uuid w.1))) as Hy.
  { unfold write_body_parser. yields_tac. by apply yields_ret. }
  apply (run_parser_yields _ _ _ _ Hy Hl) in Hw. case_decide; [done|].
  apply obind_Ok in H as (d & Hd & [= <- <-]). cbn. eauto using slice_u8.
Qed.

Lemma wf_ReadReq_parse b r : Forall u8 b → ReadReq_parse b = Ok r → wf_uuid (rq_ar_uuid r).
Proof.
  intros Hb H. unfold ReadReq_parse in H. ok_inv.
  match goal with H : BlockHeader_parse _ = Ok _ |- _ =>
    destruct (BlockHeader_parse_u8 _ _ _ Hb H) as [_ Hl] end.
  assert (yields ReadReq_parser (λ r, wf_uuid (rq_ar_uuid r))) as Hy.
  { unfold ReadReq_parser. yields_tac. by apply yields_ret. }
  exact (run_parser_yields _ _ _ _ Hy Hl H).
Qed.

(** ** The text accessors *)

(** One encoded character: a step of both the validator and the decoder. *)
Definition utf8_char (c : list Z) : Prop :=
  c ≠ [] ∧ (∀ r, utf8_valid (c ++ r) = utf8_valid r) ∧
  (∀ r, from_utf8_lossy (c ++ r) = c ++ from_utf8_lossy r).

(** Resolve the tests on the first octet. *)
Ltac utf8_range :=
  repeat match goal with |- context [decide (?a ≤ ?x ≤ ?b)] =>
    first [ rewrite (decide_True (P := a ≤ x ≤ b)) by lia
          | rewrite (decide_False (P := a ≤ x ≤ b)) by lia ] end.

(** One step of the functions on a list with a known head. *)
Ltac utf8_unfold :=
  try match goal with |- context [utf8_valid (?x :: ?t)] =>
    let t' := fresh in remember t as t'; cbn [utf8_valid]; subst t'; cbv beta iota end;
  try match goal with |- context [from_utf8_lossy (?x :: ?t)] =>
    let t' := fresh in remember t as t'; cbn [from_utf8_lossy]; subst t'; cbv beta iota end.

Ltac utf8_head :=
  split; [done|split; intros r; cbn [app]; utf8_unfold; utf8_range;
    try match goal with |- context [bool_decide (0xF0 ≤ ?x ≤ 0xF4)] =>
      rewrite (bool_decide_true (0xF0 ≤ x ≤ 0xF4)) by lia end;
    try match goal with H : second3 ?x ?y = true |- _ => fold (second3 x y) end;
    try match goal with H : second4 ?x ?y = true |- _ => fold (second4 x y) end;
    repeat match goal with H : _ = true |- _ => rewrite H; clear H end; done].

Lemma utf8_char1 x : 0 ≤ x ≤ 0x7F → utf8_char [x].
Proof. intros. utf8_head. Qed.

Lemma utf8_char2 x y : 0xC2 ≤ x ≤ 0xDF → cont y = true → utf8_char [x; y].
Proof. intros. utf8_head. Qed.

Lemma utf8_char3 x y z :
  0xE0 ≤ x ≤ 0xEF → second3 x y = true → cont z = true → utf8_char [x; y; z].
Proof. intros. utf8_head. Qed.

Lemma utf8_char4 x y z w :
  0xF0 ≤ x ≤ 0xF4 → second4 x y = true → cont z = true → cont w = true →
  utf8_char [x; y; z; w].
Proof. intros. utf8_head. Qed.

(** The octets before [r] are no character. *)
Ltac utf8_bad r :=
  right; split;
    [ utf8_unfold;
      repeat match goal with |- context [match ?l with [] => _ | _ :: _ => _ end] => destruct l end;
      utf8_range; try done;
      repeat match goal with H : second3 ?x ?y = _ |- _ => progress fold (second3 x y) end;
      repeat match goal with H : second4 ?x ?y = _ |- _ => progress fold (second4 x y) end;
      try match goal with |- context [bool_decide (0xF0 ≤ ?x ≤ 0xF4) && _] =>
            destruct (decide (0xF0 ≤ x ≤ 0xF4));
            [|by rewrite (bool_decide_false (0xF0 ≤ x ≤ 0xF4))] end;
      repeat match goal with H : _ = false |- _ => rewrite H; clear H end;
      by rewrite ?andb_false_r
    | exists r; split;
      [ utf8_unfold; utf8_range; repeat match goal with H : _ = ?b |- _ => first [unify b true | unify b false]; rewrite H; clear H end; done
      | cbn; lia ] ].

(** Octets start with a character or with a part of one that is replaced. *)
Lemma utf8_split b :
  b = [] ∨ (∃ c r, b = c ++ r ∧ utf8_char c) ∨
  (utf8_valid b = false ∧ ∃ r, from_utf8_lossy b = REPLACEMENT ++ from_utf8_lossy r ∧
    (length r < length b)%nat).
Proof.
  destruct b as [|x r]; [by left|right].
  destruct (decide (0 ≤ x ≤ 0x7F)); [left; exists [x], r; by eauto using utf8_char1|].
  destruct (decide (0xC2 ≤ x ≤ 0xDF)).
  { destruct r as [|y r]; [utf8_bad (@nil Z)|].
    destruct (cont y) eqn:Hy; [left; exists [x; y], r; by eauto using utf8_char2|].
    utf8_bad (y :: r). }
  destruct (decide (0xE0 ≤ x ≤ 0xEF)).
  { destruct r as [|y r]; [utf8_bad (@nil Z)|].
    destruct (second3 x y) eqn:Hy; [|utf8_bad (y :: r)].
    destruct r as [|z r]; [utf8_bad (@nil Z)|].
    destruct (cont z) eqn:Hz; [left; exists [x; y; z], r; by eauto using utf8_char3|].
    utf8_bad (z :: r). }
  destruct (decide (0xF0 ≤ x ≤ 0xF4)); [|utf8_bad r].
  destruct r as [|y r]; [utf8_bad (@nil Z)|].
  destruct (second4 x y) eqn:Hy; [|utf8_bad (y :: r)].
  destruct r as [|z r]; [utf8_bad (@nil Z)|].
  destruct (cont z) eqn:Hz; [|utf8_bad (z :: r)].
  destruct r as [|w r]; [utf8_bad (@nil Z)|].
  destruct (cont w) eqn:Hw; [left; exists [x; y; z; w], r; by eauto using utf8_char4|].
  utf8_bad (w :: r).
Qed.

(** Induction on the characters and the replaced parts of octets. *)
Lemma utf8_ind (P : list Z → Prop) :
  P [] →
  (∀ c r, utf8_char c → P r → P (c ++ r)) →
  (∀ b r, utf8_valid b = false → from_utf8_lossy b = REPLACEMENT ++ from_utf8_lossy r →
    P r → P b) →
  ∀ b, P b.
Proof.
  intros H0 Hc Hr b. induction b as [b IH] using (induction_ltof1 _ length). unfold ltof in IH.
  destruct (utf8_split b) as [->|[(c & r & -> & Hch)|(Hv & r & Hl & Hlen)]]; [done|..].
  - apply Hc; [done|]. apply IH. destruct Hch as [? _]. destruct c; [done|].
    rewrite length_app. cbn. lia.
  - eapply Hr; eauto.
Qed.

(** Valid text is decoded as it is, and decoding always gives valid text. *)
Lemma lossy_valid b : utf8_valid b = true → from_utf8_lossy b = b.
Proof.
  induction b as [|c r (_ & Hv & Hl) IH|b r Hv] using utf8_ind; [done|..|congruence].
  rewrite Hv, Hl. intros H. by rewrite IH.
Qed.

Lemma utf8_valid_lossy b : utf8_valid (from_utf8_lossy b) = true.
Proof.
  induction b as [|c r (_ & Hv & Hl) IH|b r _ Hl IH] using utf8_ind; [done|..].
  - by rewrite Hl, Hv.
  - rewrite Hl. by cbn.
Qed.

Lemma utf8_valid_app a b : utf8_valid a = true → utf8_valid (a ++ b) = utf8_valid b.
Proof.
  induction a as [|c r (_ & Hv & _) IH|a r Hv] using utf8_ind; [done|..|congruence].
  rewrite <-app_assoc, !Hv. exact IH.
Qed.

Lemma utf8_valid_ascii s : Forall (λ x, 0 ≤ x ≤ 0x7F) s → utf8_valid s = true.
Proof. induction 1 as [|x s Hx _ IH]; [done|]. cbn [utf8_valid]. by dec. Qed.

(** Text that does not end in padding: what [trim_end] leaves alone. *)
Definition unpadded (s : list Z) : Prop := ∀ x, list.last s = Some x → is_pad x = false.

Lemma trim_end_unpadded s : unpadded s → trim_end s = s.
Proof.
  induction s as [|x s IH]; [done|]. intros H. cbn.
  destruct s as [|y s]; [cbn; by rewrite (H x)|]. rewrite IH; [done|exact H].
Qed.

Lemma trim_end_app s pad : forallb is_pad pad = true → trim_end (s ++ pad) = trim_end s.
Proof.
  intros H. induction s as [|x s IH]; cbn; [|by rewrite IH].
  induction pad as [|x pad IH]; [done|]. cbn in *. apply andb_prop in H as [Hx Hp].
  by rewrite IH, Hx.
Qed.

Lemma unpadded_trim_end s : unpadded (trim_end s).
Proof.
  induction s as [|x s IH]; [done|]. cbn. destruct (trim_end s) as [|y r] eqn:E.
  - destruct (is_pad x) eqn:Hx; [done|]. intros z [= <-]. done.
  - exact IH.
Qed.

(** A field of a record, as a controller pads it, reads back as the text. *)
Lemma trimmed_push_padded s len :
  utf8_valid s = true → unpadded s → (length s ≤ len)%nat → trimmed (push_padded s len) = s.
Proof.
  intros Hv Hs Hl. unfold trimmed, push_padded. rewrite Nat.min_l, take_ge by lia.
  rewrite lossy_valid.
  - rewrite trim_end_app, trim_end_unpadded; [done..|].
    clear. induction (len - length s)%nat; [done|]. by cbn.
  - rewrite utf8_valid_app by done. apply utf8_valid_ascii.
    induction (len - length s)%nat; cbn; constructor; [lia|done].
Qed.

(** The accessors return text without padding for any stored octets. *)
Lemma text_accessors s (f : ImStore → outcome unit (list Z)) :
  wf_store s → f ∈ [tag_function; tag_location; date; descriptor] →
  ∃ t, f s = Ok t ∧ unpadded t.
Proof.
  intros (H1 & H2 & H3) Hf. unfold tag_function, tag_location, date, descriptor in Hf.
  repeat (apply elem_of_cons in Hf as [->|Hf]; [unfold slice; rewrite ?H1, ?H2, ?H3;
    rewrite decide_True by (unfold IM1_LEN, IM2_LEN, IM3_LEN; lia); cbn;
    eauto using unpadded_trim_end|]). by apply not_elem_of_nil in Hf.
Qed.

(** The tags, the date and the descriptor a controller writes are the texts the
    application reads; the other fields keep their texts. *)
Theorem im_text_roundtrip s t1 t2 :
  wf_store s → utf8_valid t1 = true → unpadded t1 → utf8_valid t2 = true → unpadded t2 →
  (length t1 ≤ 32)%nat → (length t2 ≤ 22)%nat →
  ∃ s', ImStore_write s INDEX_IM1 (im_record INDEX_IM1 (push_padded t1 32 ++ push_padded t2 22))
        = Ok (s', ImStore_persist s') ∧
    tag_function (E := unit) s' = Ok t1 ∧ tag_location (E := unit) s' = Ok t2 ∧
    date (E := unit) s' = date s ∧ descriptor (E := unit) s' = descriptor s.
Proof.
  intros Hs Hv1 Hp1 Hv2 Hp2 Hl1 Hl2.
  destruct (ImStore_write_record s INDEX_IM1 (push_padded t1 32 ++ push_padded t2 22))
    as (s' & Hw & Hs' & _ & Hb); [done|by_decide|by rewrite length_app, !length_push_padded|].
  exists s'. split; [done|].
  pose proof (Hb INDEX_IM1) as B1. pose proof (Hb INDEX_IM2) as B2. pose proof (Hb INDEX_IM3) as B3.
  unfold ImStore_body, INDEX_IM1, INDEX_IM2, INDEX_IM3 in B1, B2, B3.
  revert B1 B2 B3. dec. intros [= B1] [= B2] [= B3].
  unfold tag_function, tag_location, date, descriptor. rewrite B1, B2, B3. split_and!; [..|done|done].
  - rewrite (slice_drop _ 0 32 (push_padded t1 32) (push_padded t2 22));
      [|done|lia|by rewrite length_push_padded]. cbn. by rewrite trimmed_push_padded.
  - rewrite (slice_drop _ 32 IM1_LEN (push_padded t2 22) []);
      [|rewrite app_nil_r; apply drop_app_length'; by rewrite length_push_padded
       |rewrite length_app, !length_push_padded; lia|by rewrite length_push_padded].
    cbn. by rewrite trimmed_push_padded.
Qed.
