(* ===== verification/Ar.v ===== *)
(** * Ar: the Application Relationship state machine

    Models [crates/pnio/src/cm/ar.rs]: the AR's states, events and actions,
    and [Ar::on] with its handlers.  Time is an integer number of nanoseconds;
    the log lines of [on] are left out, everything it changes or returns is
    not. *)

From S2P Require Import Prelude Eth Rpc Block Connect Records.
Local Open Scope Z_scope.

(** ** Data *)

(** cm/ar.rs:21-23 APP_READY_TIMEOUT *)
Definition APP_READY_TIMEOUT : Z := 1000000000.
(** cm/ar.rs:24-26 APP_READY_MAX_ATTEMPTS *)
Definition APP_READY_MAX_ATTEMPTS : Z := 3.
(** cm/ar.rs:27-30 ACTIVITY_TIMEOUT_UNIT *)
Definition ACTIVITY_TIMEOUT_UNIT : Z := 100000000.
(** cm/ar.rs:31-32 MAX_RECORDS *)
Definition MAX_RECORDS : nat := 64.
(** cm/ar.rs:33-34 MAX_RECORD_BYTES *)
Definition MAX_RECORD_BYTES : Z := 64 * 1024.

(** cm/ar.rs:36-47 ArState *)
Inductive ArState := Idle | Connected | AppReadySent | Data.

#[global] Instance ArState_eq_dec : EqDecision ArState.
Proof. solve_decision. Defined.

(** cm/ar.rs:49-79 AbortReason *)
Inductive AbortReason :=
| ControllerRelease
| AppReadyFailed
| AppReadyRejected (s : PnioStatus)
| ActivityTimeout
| ControllerReconnect
| RtWatchdog
| External (why : string)
| ControllerErrRta (s : PnioStatus)
| AlarmSendFailed
| RtSocket
| Shutdown.

#[global] Instance AbortReason_eq_dec : EqDecision AbortReason.
Proof. solve_decision. Defined.

(** cm/ar.rs:81-103 Event *)
Inductive Event :=
| EvConnectReq (req : ConnectReq)
| EvWriteReq (req : WriteReq)
| EvPrmEndReq (req : ControlBlock)
| EvReleaseReq (req : ControlBlock)
| EvAppReadyRsp (status : PnioStatus)
| EvTick
| EvAbort (reason : AbortReason).

(** cm/ar.rs:105-117 Event::name *)
Definition Event_name (ev : Event) : string :=
  match ev with
  | EvConnectReq _ => "ConnectReq"
  | EvWriteReq _ => "WriteReq"
  | EvPrmEndReq _ => "PrmEndReq"
  | EvReleaseReq _ => "ReleaseReq"
  | EvAppReadyRsp _ => "AppReadyRsp"
  | EvTick => "Tick"
  | EvAbort _ => "Abort"
  end.

(** cm/ar.rs:119-145 Action *)
Inductive Action :=
| Respond (status : PnioStatus) (blocks : list Z)
| CallController (blocks : list Z)
| Notify (state : ArState) (reason : option AbortReason).

(** cm/ar.rs:147-160 ArContext *)
Record ArContext := {
  cx_params : ArParams;
  cx_records : list WRecord;
  cx_connected_at : Z;
  cx_connect_res : list Z
}.

(** cm/ar.rs:162-171 Ar *)
Record Ar := {
  ar_model : DeviceModel;
  ar_state : ArState;
  ar_ctx : option ArContext;
  ar_app_ready_attempts : Z;
  ar_app_ready_deadline : option Z;
  ar_activity_deadline : option Z
}.

(** cm/ar.rs:174-184 Ar::new *)
Definition Ar_new (model : DeviceModel) : Ar :=
  {| ar_model := model; ar_state := Idle; ar_ctx := None; ar_app_ready_attempts := 0;
     ar_app_ready_deadline := None; ar_activity_deadline := None |}.

(** cm/ar.rs:196-206 Ar::next_deadline *)
Definition Ar_next_deadline (a : Ar) : option Z :=
  match ar_activity_deadline a, ar_app_ready_deadline a with
  | Some x, Some y => Some (Z.min x y)
  | Some x, None => Some x
  | None, Some y => Some y
  | None, None => None
  end.

(** ** Handlers *)

(** cm/ar.rs:481-486 reject *)
Definition reject (status : PnioStatus) : Action := Respond status [].
(** cm/ar.rs:477-479 wrong_state *)
Definition wrong_state : Action := reject control_wrong_state.

Definition data_bytes (rs : list WRecord) : Z :=
  foldr (λ r n, Z.of_nat (length (wr_data r)) + n) 0 rs.

(** cm/ar.rs:488-499 exceeds_record_cap *)
Definition exceeds_record_cap (ctx : ArContext) (incoming : list WRecord) : bool :=
  let count := (length (cx_records ctx) + length incoming)%nat in
  let bytes := data_bytes (cx_records ctx ++ incoming) in
  bool_decide (MAX_RECORDS < count)%nat || bool_decide (MAX_RECORD_BYTES < bytes).

(** cm/ar.rs:462-474 Ar::abort *)
Definition Ar_abort (a : Ar) (reason : AbortReason) : Ar * Action :=
  ({| ar_model := ar_model a; ar_state := Idle; ar_ctx := None; ar_app_ready_attempts := 0;
      ar_app_ready_deadline := None; ar_activity_deadline := None |},
   Notify Idle (Some reason)).

Section handlers.
Context {E : Type}.

(** The [Idle] arm, entered directly or after dropping a stale AR. *)
(** cm/ar.rs:261-289 Ar::handle_connect *)
Definition handle_connect_idle (a : Ar) (req : ConnectReq) (now : Z) :
    outcome E (Ar * list Action) :=
  match validate req (ar_model a) with
  | Ok params =>
    let! connect_res := build_connect_res params (ar_model a) in
    let activity_deadline := now + ACTIVITY_TIMEOUT_UNIT * ap_activity_timeout_factor params in
    Ok ({| ar_model := ar_model a;
           ar_state := Connected;
           ar_ctx := Some {| cx_params := params; cx_records := []; cx_connected_at := now;
                             cx_connect_res := connect_res |};
           ar_app_ready_attempts := ar_app_ready_attempts a;
           ar_app_ready_deadline := ar_app_ready_deadline a;
           ar_activity_deadline := Some activity_deadline |},
        [Respond PnioStatus_OK connect_res; Notify Connected None])
  | Err status => Ok (a, [Respond status []])
  | Panic => Panic
  end.

(** cm/ar.rs:259-320 Ar::handle_connect *)
Definition handle_connect (a : Ar) (req : ConnectReq) (now : Z) : outcome E (Ar * list Action) :=
  match ar_state a with
  | Idle => handle_connect_idle a req now
  | Connected | AppReadySent | Data =>
    let! ctx := expect (ar_ctx a) in
    let same_ar := bool_decide (arb_ar_uuid (cq_ar req) = ap_ar_uuid (cx_params ctx)) in
    let same_session :=
      bool_decide (arb_session_key (cq_ar req) = ap_session_key (cx_params ctx)) in
    let same_initiator :=
      bool_decide (arb_initiator_object_uuid (cq_ar req) =
                   ap_initiator_object_uuid (cx_params ctx)) in
    if same_ar && same_session then
      Ok (a, [Respond PnioStatus_OK (cx_connect_res ctx)])
    else if same_ar || same_initiator then
      let (a', notify) := Ar_abort a ControllerReconnect in
      let! (a'', actions) := handle_connect_idle a' req now in
      Ok (a'', notify :: actions)
    else Ok (a, [Respond connect_ar_already_exists []])
  end.

(** cm/ar.rs:322-354 Ar::handle_write *)
Definition handle_write (a : Ar) (req : WriteReq) (now : Z) : outcome E (Ar * list Action) :=
  match ar_state a with
  | Idle => Ok (a, [wrong_state])
  | Connected | AppReadySent | Data =>
    let! ctx := expect (ar_ctx a) in
    if existsb (λ r, bool_decide (wr_ar_uuid r ≠ ap_ar_uuid (cx_params ctx))) (wq_records req)
    then Ok (a, [reject write_wrong_ar])
    else if exceeds_record_cap ctx (wq_records req)
    then Ok (a, [reject write_resource_unavailable])
    else
      let! blocks := build_write_res req in
      let rearm_activity := bool_decide (ar_state a = Connected) in
      let factor := ap_activity_timeout_factor (cx_params ctx) in
      Ok ({| ar_model := ar_model a;
             ar_state := ar_state a;
             ar_ctx := Some {| cx_params := cx_params ctx;
                               cx_records := cx_records ctx ++ wq_records req;
                               cx_connected_at := cx_connected_at ctx;
                               cx_connect_res := cx_connect_res ctx |};
             ar_app_ready_attempts := ar_app_ready_attempts a;
             ar_app_ready_deadline := ar_app_ready_deadline a;
             ar_activity_deadline :=
               if rearm_activity then Some (now + ACTIVITY_TIMEOUT_UNIT * factor)
               else ar_activity_deadline a |},
          [Respond PnioStatus_OK blocks])
  end.

(** cm/ar.rs:356-396 Ar::handle_prm_end *)
Definition handle_prm_end (a : Ar) (req : ControlBlock) (now : Z) :
    outcome E (Ar * list Action) :=
  match ar_state a with
  | Idle => Ok (a, [wrong_state])
  | Connected =>
    let! ctx := expect (ar_ctx a) in
    if decide (cb_ar_uuid req ≠ ap_ar_uuid (cx_params ctx)) then Ok (a, [wrong_state]) else
    let! respond := ControlBlock_write (prm_end_done req) in
    let! call := ControlBlock_write
                   (app_ready_req (ap_ar_uuid (cx_params ctx)) (ap_session_key (cx_params ctx))) in
    Ok ({| ar_model := ar_model a; ar_state := AppReadySent; ar_ctx := ar_ctx a;
           ar_app_ready_attempts := 1;
           ar_app_ready_deadline := Some (now + APP_READY_TIMEOUT);
           ar_activity_deadline := None |},
        [Respond PnioStatus_OK respond; CallController call])
  | AppReadySent | Data =>
    let! ctx := expect (ar_ctx a) in
    if decide (cb_ar_uuid req ≠ ap_ar_uuid (cx_params ctx)) then Ok (a, [wrong_state]) else
    let! respond := ControlBlock_write (prm_end_done req) in
    Ok (a, [Respond PnioStatus_OK respond])
  end.

(** cm/ar.rs:398-415 Ar::handle_release *)
Definition handle_release (a : Ar) (req : ControlBlock) : outcome E (Ar * list Action) :=
  let! foreign :=
    (if decide (ar_state a ≠ Idle) then
       let! ctx := expect (ar_ctx a) in
       Ok (bool_decide (cb_ar_uuid req ≠ ap_ar_uuid (cx_params ctx)))
     else Ok false) in
  if foreign : bool then Ok (a, [wrong_state]) else
  let! respond := ControlBlock_write (release_done req) in
  if decide (ar_state a ≠ Idle) then
    let (a', notify) := Ar_abort a ControllerRelease in
    Ok (a', [Respond PnioStatus_OK respond; notify])
  else Ok (a, [Respond PnioStatus_OK respond]).

(** cm/ar.rs:417-433 Ar::handle_app_ready_rsp *)
Definition handle_app_ready_rsp (a : Ar) (status : PnioStatus) : Ar * list Action :=
  if decide (ar_state a ≠ AppReadySent) then (a, []) else
  if PnioStatus_is_ok status then
    ({| ar_model := ar_model a; ar_state := Data; ar_ctx := ar_ctx a;
        ar_app_ready_attempts := 0; ar_app_ready_deadline := None;
        ar_activity_deadline := None |},
     [Notify Data None])
  else let (a', notify) := Ar_abort a (AppReadyRejected status) in (a', [notify]).

(** cm/ar.rs:435-460 Ar::handle_tick *)
Definition handle_tick (a : Ar) (now : Z) : outcome E (Ar * list Action) :=
  match ar_state a with
  | Connected =>
    match ar_activity_deadline a with
    | Some deadline =>
      if decide (deadline ≤ now) then
        let (a', notify) := Ar_abort a ActivityTimeout in Ok (a', [notify])
      else Ok (a, [])
    | None => Ok (a, [])
    end
  | AppReadySent =>
    match ar_app_ready_deadline a with
    | Some deadline =>
      if decide (deadline ≤ now) then
        if decide (ar_app_ready_attempts a < APP_READY_MAX_ATTEMPTS) then
          let! ctx := expect (ar_ctx a) in
          let! call := ControlBlock_write
                         (app_ready_req (ap_ar_uuid (cx_params ctx))
                                        (ap_session_key (cx_params ctx))) in
          Ok ({| ar_model := ar_model a; ar_state := ar_state a; ar_ctx := ar_ctx a;
                 ar_app_ready_attempts := wrap8 (ar_app_ready_attempts a + 1);
                 ar_app_ready_deadline := Some (now + APP_READY_TIMEOUT);
                 ar_activity_deadline := ar_activity_deadline a |},
              [CallController call])
        else let (a', notify) := Ar_abort a AppReadyFailed in Ok (a', [notify])
      else Ok (a, [])
    | None => Ok (a, [])
    end
  | Idle | Data => Ok (a, [])
  end.

(** cm/ar.rs:208-257 Ar::on *)
Definition Ar_on (a : Ar) (ev : Event) (now : Z) : outcome E (Ar * list Action) :=
  match ev with
  | EvAbort reason =>
    if decide (ar_state a = Idle) then Ok (a, [])
    else let (a', notify) := Ar_abort a reason in Ok (a', [notify])
  | EvConnectReq req => handle_connect a req now
  | EvWriteReq req => handle_write a req now
  | EvPrmEndReq req => handle_prm_end a req now
  | EvReleaseReq req => handle_release a req
  | EvAppReadyRsp status => Ok (handle_app_ready_rsp a status)
  | EvTick => handle_tick a now
  end.
End handlers.

(** ** The invariant *)

Definition wf_ctx (model : DeviceModel) (c : ArContext) : Prop :=
  wf_params (cx_params c) ∧ params_sound model (cx_params c) ∧
  cx_connect_res c = concat ((λ b, block_wire b.1 b.2) <$> connect_res_blocks (cx_params c) model) ∧
  Forall (λ r, wr_ar_uuid r = ap_ar_uuid (cx_params c)) (cx_records c) ∧
  (length (cx_records c) ≤ MAX_RECORDS)%nat ∧ data_bytes (cx_records c) ≤ MAX_RECORD_BYTES.

(** Which timers run, how many ApplicationReady calls were placed and whether
    there is a context, by state. *)
Definition wf_phase (a : Ar) : Prop :=
  match ar_state a with
  | Idle => ar_ctx a = None ∧ ar_app_ready_attempts a = 0 ∧
            ar_app_ready_deadline a = None ∧ ar_activity_deadline a = None
  | Connected => is_Some (ar_ctx a) ∧ ar_app_ready_attempts a = 0 ∧
                 ar_app_ready_deadline a = None ∧ is_Some (ar_activity_deadline a)
  | AppReadySent => is_Some (ar_ctx a) ∧ 1 ≤ ar_app_ready_attempts a ≤ APP_READY_MAX_ATTEMPTS ∧
                    is_Some (ar_app_ready_deadline a) ∧ ar_activity_deadline a = None
  | Data => is_Some (ar_ctx a) ∧ ar_app_ready_attempts a = 0 ∧
            ar_app_ready_deadline a = None ∧ ar_activity_deadline a = None
  end.

Definition wf_ar (a : Ar) : Prop :=
  wf_model (ar_model a) ∧ wf_phase a ∧ ∀ c, ar_ctx a = Some c → wf_ctx (ar_model a) c.

(** Field types of the requests an event carries. *)
Definition wf_event (ev : Event) : Prop :=
  match ev with
  | EvConnectReq r => wf_ConnectReq r
  | EvReleaseReq c => wf_uuid (cb_ar_uuid c)
  | _ => True
  end.

Lemma wf_Ar_new model : wf_model model → wf_ar (Ar_new model).
Proof. by intros Hm. Qed.

Lemma wf_Ar_abort a reason : wf_ar a → wf_ar (Ar_abort a reason).1.
Proof. by intros (? & _ & _). Qed.

Lemma wf_ar_ctx a : wf_ar a → ar_state a ≠ Idle → ∃ c, ar_ctx a = Some c ∧ wf_ctx (ar_model a) c.
Proof.
  intros (_ & Hp & Hc) Hs. unfold wf_phase in Hp.
  destruct (ar_state a); [done|..]; destruct Hp as ([c Hc'] & _); eauto.
Qed.

(** ** The documented life cycle

    One constructor per transition of the state diagram, with the
    notifications it must produce; [lc_stay] is every event that leaves the
    state alone, which notifies nobody. *)

Inductive lifecycle :
    ArState → Event → ArState → list (ArState * option AbortReason) → Prop :=
| lc_connect r : lifecycle Idle (EvConnectReq r) Connected [(Connected, None)]
| lc_reconnect s r : s ≠ Idle →
    lifecycle s (EvConnectReq r) Connected [(Idle, Some ControllerReconnect); (Connected, None)]
| lc_reconnect_refused s r : s ≠ Idle →
    lifecycle s (EvConnectReq r) Idle [(Idle, Some ControllerReconnect)]
| lc_prm_end c : lifecycle Connected (EvPrmEndReq c) AppReadySent []
| lc_ready st : PnioStatus_is_ok st = true →
    lifecycle AppReadySent (EvAppReadyRsp st) Data [(Data, None)]
| lc_ready_rejected st : PnioStatus_is_ok st = false →
    lifecycle AppReadySent (EvAppReadyRsp st) Idle [(Idle, Some (AppReadyRejected st))]
| lc_activity : lifecycle Connected EvTick Idle [(Idle, Some ActivityTimeout)]
| lc_ready_failed : lifecycle AppReadySent EvTick Idle [(Idle, Some AppReadyFailed)]
| lc_release s c : s ≠ Idle →
    lifecycle s (EvReleaseReq c) Idle [(Idle, Some ControllerRelease)]
| lc_abort s r : s ≠ Idle → lifecycle s (EvAbort r) Idle [(Idle, Some r)]
| lc_stay s ev : lifecycle s ev s [].

(** What the observers are told. *)
Definition notifications (acts : list Action) : list (ArState * option AbortReason) :=
  omap (λ x, match x with Notify s r => Some (s, r) | _ => None end) acts.

(** The answers and the calls among the actions. *)
Definition responses (acts : list Action) : list (PnioStatus * list Z) :=
  omap (λ x, match x with Respond s b => Some (s, b) | _ => None end) acts.
Definition calls (acts : list Action) : list (list Z) :=
  omap (λ x, match x with CallController b => Some b | _ => None end) acts.

(** Events that stand for a request awaiting an answer. *)
Definition is_request (ev : Event) : bool :=
  match ev with
  | EvConnectReq _ | EvWriteReq _ | EvPrmEndReq _ | EvReleaseReq _ => true
  | _ => false
  end.

(** A proper status, and blocks that fit one unfragmented PDU. *)
Definition ok_response (r : PnioStatus * list Z) : Prop :=
  wf_status r.1 ∧ (length r.2 ≤ 4096)%nat.

(** A request gets exactly one answer, anything else none. *)
Definition answered (ev : Event) (acts : list Action) : Prop :=
  length (responses acts) = (if is_request ev then 1 else 0)%nat ∧
  Forall ok_response (responses acts).

(** ApplicationReady is called when entering and while in [AppReadySent]. *)
Definition calling (s : ArState) (ev : Event) (s' : ArState) (acts : list Action) : Prop :=
  (calls acts ≠ [] → s' = AppReadySent ∧ (is_request ev = false → s = AppReadySent)) ∧
  (s' = AppReadySent → s = AppReadySent ∨ calls acts ≠ []) ∧
  Forall (λ b, length b = 32%nat) (calls acts).

(** The step runs and keeps the invariant. *)
Definition steps_ok {E} (m : outcome E (Ar * list Action)) (P : Ar → list Action → Prop) : Prop :=
  ∃ a' acts, m = Ok (a', acts) ∧ wf_ar a' ∧ P a' acts.

Section steps.
Context {E : Type}.
Implicit Types a : Ar.

Lemma handle_connect_idle_ok a req now :
  wf_ar a → ar_state a = Idle → wf_ConnectReq req →
  steps_ok (handle_connect_idle (E := E) a req now) (λ a' acts, ar_model a' = ar_model a ∧ (
    (is_Ok (validate req (ar_model a)) = false ∧ a' = a ∧
     ∃ s, wf_status s ∧ acts = [Respond s []]) ∨
    ∃ p c, validate req (ar_model a) = Ok p ∧ ar_state a' = Connected ∧ ar_ctx a' = Some c ∧
      cx_params c = p ∧ cx_records c = [] ∧
      acts = [Respond PnioStatus_OK (cx_connect_res c); Notify Connected None])).
Proof.
  intros (Hm & Hp & Hc) Hs Hr. unfold handle_connect_idle, steps_ok.
  unfold wf_phase in Hp. rewrite Hs in Hp. destruct Hp as (Hp1 & Hp2 & Hp3 & Hp4).
  pose proof (validate_no_panic req (ar_model a)) as Hnp.
  destruct (validate req (ar_model a)) as [p|s|] eqn:Ev; [| |done].
  - pose proof (validate_wf _ _ _ Hr Hm Ev) as Hwf.
    pose proof (validate_params_sound _ _ _ Ev) as Hsound.
    rewrite build_connect_res_Ok by done. cbn [obind]. do 2 eexists. split; [done|]. split.
    + split; [done|]. split.
      * unfold wf_phase; cbn. eauto.
      * intros c [= <-]. unfold wf_ctx; cbn. split_and!; try done. cbn. lia.
    + split; [done|]. right. do 2 eexists. done.
  - exists a, [Respond s []]. split; [done|]. split.
    + split; [done|]. unfold wf_phase. rewrite Hs. done.
    + split; [done|]. left. split; [done|]. split; [done|].
      exists s. split; [|done]. by eapply validate_status.
Qed.

Lemma data_bytes_app r1 r2 : data_bytes (r1 ++ r2) = data_bytes r1 + data_bytes r2.
Proof.
  unfold data_bytes. induction r1 as [|r r1 IH]; cbn; [done|]. rewrite IH. lia.
Qed.

(** The record cap and the AR's UUID guard what a Write stores. *)
Definition write_accepted (c : ArContext) (rs : list WRecord) : Prop :=
  Forall (λ r, wr_ar_uuid r = ap_ar_uuid (cx_params c)) rs ∧
  (length (cx_records c ++ rs) ≤ MAX_RECORDS)%nat ∧
  data_bytes (cx_records c ++ rs) ≤ MAX_RECORD_BYTES.

#[global] Instance write_accepted_dec c rs : Decision (write_accepted c rs).
Proof. unfold write_accepted. apply _. Defined.

Lemma existsb_foreign (u : Uuid) rs :
  existsb (λ r, bool_decide (wr_ar_uuid r ≠ u)) rs = false ↔
  Forall (λ r, wr_ar_uuid r = u) rs.
Proof.
  induction rs as [|r rs IH]; cbn; [done|].
  rewrite orb_false_iff, bool_decide_eq_false, IH. split.
  - intros [H ?]. constructor; [|done]. by apply dec_stable.
  - intros [? ?]%Forall_cons_1. split; [tauto|done].
Qed.

Lemma exceeds_cap_false c rs :
  exceeds_record_cap c rs = false ↔
  (length (cx_records c ++ rs) ≤ MAX_RECORDS)%nat ∧
  data_bytes (cx_records c ++ rs) ≤ MAX_RECORD_BYTES.
Proof.
  unfold exceeds_record_cap. rewrite orb_false_iff, !bool_decide_eq_false, length_app. lia.
Qed.

Definition follows a (ev : Event) (a' : Ar) (acts : list Action) : Prop :=
  ar_model a' = ar_model a ∧
  lifecycle (ar_state a) ev (ar_state a') (notifications acts) ∧
  answered ev acts ∧ calling (ar_state a) ev (ar_state a') acts.

(** Neither the AR nor the observers notice; nobody is called. *)
Lemma stays a ev acts :
  wf_ar a → notifications acts = [] → calls acts = [] → answered ev acts →
  steps_ok (E := E) (Ok (a, acts)) (follows a ev).
Proof.
  intros Ha Hn Hc Han. exists a, acts. split; [done|]. split; [done|]. split; [done|].
  rewrite Hn. split; [apply lc_stay|]. split; [done|]. unfold calling. rewrite Hc. naive_solver.
Qed.

Lemma answers_one ev st b acts :
  is_request ev = true → responses acts = [(st, b)] → wf_status st → (length b ≤ 4096)%nat →
  answered ev acts.
Proof. unfold answered. intros -> -> ??. split; [done|]. by apply Forall_singleton. Qed.

(** A refusal: the given status and no blocks. *)
Lemma refuses a ev st :
  wf_ar a → is_request ev = true → wf_status st →
  steps_ok (E := E) (Ok (a, [Respond st []])) (follows a ev).
Proof. intros. apply stays; try done. eapply answers_one; try done. cbn; lia. Qed.

Lemma aborts a ev reason pre :
  wf_ar a → notifications pre = [] → calls pre = [] → answered ev pre →
  lifecycle (ar_state a) ev Idle [(Idle, Some reason)] →
  steps_ok (E := E) (Ok ((Ar_abort a reason).1, pre ++ [(Ar_abort a reason).2])) (follows a ev).
Proof.
  intros Ha Hn Hc Han Hl. do 2 eexists. split; [done|]. split; [by apply wf_Ar_abort|].
  split; [done|]. unfold answered, calling, notifications, responses, calls in *.
  rewrite !omap_app, Hn, Hc. cbn. rewrite app_nil_r. naive_solver.
Qed.

Lemma wf_connect_ar_already_exists : wf_status connect_ar_already_exists.
Proof. unfold wf_status. by_decide. Qed.

Lemma handle_connect_ok a req now :
  wf_ar a → wf_ConnectReq req →
  steps_ok (handle_connect (E := E) a req now) (follows a (EvConnectReq req)).
Proof.
  intros Ha Hr. unfold handle_connect.
  destruct (decide (ar_state a = Idle)) as [Hs|Hs].
  { destruct (handle_connect_idle_ok a req now Ha Hs Hr) as (a' & acts & He & Ha' & Hm & Hc).
    rewrite Hs, He. exists a', acts. split; [done|]. split; [done|]. split; [done|].
    destruct Hc as [(_ & -> & s & ? & ->)|(p & c & _ & Hs' & Hc & _ & _ & ->)]; rewrite Hs.
    - split; [apply lc_stay|]. split; [|done]. by eapply answers_one; [|done|done|cbn; lia].
    - rewrite Hs'. split; [apply lc_connect|]. split; [|done].
      eapply answers_one; [done|done|done|].
      destruct Ha' as (Hmod & _ & Hctx). destruct (Hctx c Hc) as (? & _ & -> & _).
      by apply length_connect_res. }
  destruct (wf_ar_ctx a Ha Hs) as (c & Hc & Hwc). rewrite Hc. cbn [expect obind].
  set (same_ar := bool_decide (arb_ar_uuid _ = _)). set (same_session := bool_decide _).
  set (same_initiator := bool_decide _).
  assert (steps_ok (E := E) (Ok (a, [Respond PnioStatus_OK (cx_connect_res c)]))
            (follows a (EvConnectReq req))) as Hsame.
  { apply stays; try done. eapply answers_one; [done..|].
    destruct Ha as (? & _), Hwc as (? & _ & -> & _). by apply length_connect_res. }
  pose proof wf_connect_ar_already_exists as Hex.
  destruct (handle_connect_idle_ok (Ar_abort a ControllerReconnect).1 req now)
    as (a' & acts & He & Ha' & Hm & Hcases); [by apply wf_Ar_abort|done|done|].
  assert (steps_ok (E := E) (Ok (a', Notify Idle (Some ControllerReconnect) :: acts))
            (follows a (EvConnectReq req))) as Hre.
  { do 2 eexists. split; [done|]. split; [done|]. split; [done|].
    destruct Hcases as [(_ & -> & s & ? & ->)|(p & c' & _ & Hs' & Hc' & _ & _ & ->)].
    - split; [by apply lc_reconnect_refused|]. split; [|done].
      by eapply answers_one; [|done|done|cbn; lia].
    - rewrite Hs'. split; [by apply lc_reconnect|]. split; [|done].
      eapply answers_one; [done|done|done|].
      destruct Ha' as (Hmod & _ & Hctx). destruct (Hctx c' Hc') as (? & _ & -> & _).
      by apply length_connect_res. }
  cbn [Ar_abort fst] in He. cbn [Ar_abort]. rewrite He. cbn [obind].
  destruct (ar_state a); [done|..].
  all: destruct (same_ar && same_session); [done|].
  all: by destruct (same_ar || same_initiator); [|apply refuses].
Qed.

(** The AR after storing records: only the context's records change, and the
    activity timer while still in [Connected]. *)
Definition stored a (c : ArContext) (rs : list WRecord) (now : Z) : Ar :=
  {| ar_model := ar_model a; ar_state := ar_state a;
     ar_ctx := Some {| cx_params := cx_params c; cx_records := cx_records c ++ rs;
                       cx_connected_at := cx_connected_at c;
                       cx_connect_res := cx_connect_res c |};
     ar_app_ready_attempts := ar_app_ready_attempts a;
     ar_app_ready_deadline := ar_app_ready_deadline a;
     ar_activity_deadline :=
       if decide (ar_state a = Connected)
       then Some (now + ACTIVITY_TIMEOUT_UNIT * ap_activity_timeout_factor (cx_params c))
       else ar_activity_deadline a |}.

Lemma handle_write_up a req now c :
  wf_ar a → ar_state a ≠ Idle → ar_ctx a = Some c →
  (write_accepted c (wq_records req) →
   ∃ blocks, build_write_res (E := E) req = Ok blocks ∧
     handle_write (E := E) a req now =
     Ok (stored a c (wq_records req) now, [Respond PnioStatus_OK blocks])) ∧
  (¬ write_accepted c (wq_records req) →
   handle_write (E := E) a req now =
   Ok (a, [reject (if decide (Forall (λ r, wr_ar_uuid r = ap_ar_uuid (cx_params c))
                                     (wq_records req))
                   then write_resource_unavailable else write_wrong_ar)])).
Proof.
  intros Ha Hs Hc. destruct (wf_ar_ctx a Ha Hs) as (c' & Hc' & Hwc).
  rewrite Hc in Hc'. injection Hc' as <-.
  assert (∀ o : outcome E (Ar * list Action), o = handle_write a req now → o =
    (if existsb (λ r, bool_decide (wr_ar_uuid r ≠ ap_ar_uuid (cx_params c))) (wq_records req)
     then Ok (a, [reject write_wrong_ar])
     else if exceeds_record_cap c (wq_records req)
     then Ok (a, [reject write_resource_unavailable])
     else let! blocks := build_write_res req in
          Ok (stored a c (wq_records req) now, [Respond PnioStatus_OK blocks]))) as Heq.
  { intros o ->. unfold handle_write, stored. rewrite Hc. cbn [expect obind].
    by destruct (ar_state a). }
  destruct req as [rs]. cbn [wq_records] in *. split.
  - intros (Hu & Hcap). destruct (build_write_res_length (E := E) {| wq_records := rs |}) as (b & Hb & _).
    { eapply Forall_weaken; [done|]. cbv beta. intros r ->. by destruct Hwc as [(? & _) _]. }
    exists b. split; [done|]. rewrite (Heq _ eq_refl).
    rewrite (proj2 (existsb_foreign _ _) Hu), (proj2 (exceeds_cap_false _ _) Hcap), Hb. done.
  - intros Hn. rewrite (Heq _ eq_refl). case_decide as Hu.
    + rewrite (proj2 (existsb_foreign _ _) Hu).
      destruct (exceeds_record_cap c rs) eqn:Hcap; [done|].
      apply exceeds_cap_false in Hcap. by destruct Hn.
    + destruct (existsb _ _) eqn:He; [done|]. by apply existsb_foreign in He.
Qed.

Lemma wf_stored a c rs now :
  wf_ar a → ar_state a ≠ Idle → ar_ctx a = Some c → write_accepted c rs →
  wf_ar (stored a c rs now).
Proof.
  intros (Hm & Hp & Hc) Hs Hctx (Hu & Hl & Hb). destruct (Hc _ Hctx) as (? & ? & ? & Hru & _ & _).
  split; [done|]. split.
  - unfold wf_phase, stored in *; cbn [ar_state ar_ctx ar_app_ready_attempts
      ar_app_ready_deadline ar_activity_deadline] in *.
    destruct (ar_state a); dec; naive_solver eauto.
  - intros c' [= <-]. unfold wf_ctx; cbn. split_and!; try done. by apply Forall_app_2.
Qed.

Lemma wf_wrong_state : wf_status control_wrong_state.
Proof. unfold wf_status. by_decide. Qed.

Lemma handle_write_ok a req now :
  wf_ar a → steps_ok (handle_write (E := E) a req now) (follows a (EvWriteReq req)).
Proof.
  intros Ha. destruct (decide (ar_state a = Idle)) as [Hs|Hs].
  { unfold handle_write. rewrite Hs. apply refuses; auto using wf_wrong_state. }
  destruct (wf_ar_ctx a Ha Hs) as (c & Hc & Hwc).
  destruct (handle_write_up a req now c Ha Hs Hc) as [Hacc Hrej].
  destruct (decide (write_accepted c (wq_records req))) as [Hw|Hw].
  - destruct (Hacc Hw) as (b & Hb & ->). do 2 eexists. split; [done|].
    split; [by apply wf_stored|]. split; [done|]. split; [apply lc_stay|].
    split; [|by split; [|split; [left|]]].
    eapply answers_one; [done..|].
    destruct Hw as (Hu & Hl & _). rewrite length_app in Hl. unfold MAX_RECORDS in Hl.
    destruct (build_write_res_length (E := E) req) as (b' & Hb' & Hlen).
    + eapply Forall_weaken; [done|]. cbv beta. intros r ->. by destruct Hwc as [(? & _) _].
    + rewrite Hb in Hb'. injection Hb' as <-. lia.
  - rewrite (Hrej Hw). apply refuses; [done..|]. unfold wf_status. case_decide; by_decide.
Qed.

Lemma length_control (cb : ControlBlock) :
  wf_uuid (cb_ar_uuid cb) → length (block_wire (cb_block_type cb) (ControlBlock_body cb)) = 32%nat.
Proof. intros. by rewrite length_block_wire, length_ControlBlock_body. Qed.

Lemma handle_prm_end_ok a req now :
  wf_ar a → steps_ok (handle_prm_end (E := E) a req now) (follows a (EvPrmEndReq req)).
Proof.
  intros Ha. unfold handle_prm_end. pose proof wf_wrong_state.
  destruct (decide (ar_state a = Idle)) as [Hs|Hs]; [rewrite Hs; by apply refuses|].
  destruct (wf_ar_ctx a Ha Hs) as (c & Hc & Hwc). rewrite Hc. cbn [expect obind].
  pose proof Hwc as ((Hu & _) & _).
  destruct (decide (cb_ar_uuid req ≠ ap_ar_uuid (cx_params c))) as [|Heq%dec_stable].
  { destruct (ar_state a); by apply refuses. }
  assert (wf_uuid (cb_ar_uuid (prm_end_done req))) as Hu' by (cbn; by rewrite Heq).
  rewrite (ControlBlock_write_Ok (prm_end_done req)) by done.
  rewrite (ControlBlock_write_Ok (app_ready_req _ _)) by done. cbn [obind].
  assert (∀ rest, responses rest = [] → answered (EvPrmEndReq req)
    (Respond PnioStatus_OK (block_wire (cb_block_type (prm_end_done req))
       (ControlBlock_body (prm_end_done req))) :: rest)) as Han.
  { intros rest Hr. set (b := block_wire _ _).
    apply (answers_one _ PnioStatus_OK b); [done| |done|].
    - unfold responses in *. cbn. by rewrite Hr.
    - subst b. rewrite length_control by done. lia. }
  destruct (ar_state a) eqn:Es; [done| |by apply stays; auto..].
  do 2 eexists. split; [done|]. split.
  - destruct Ha as (Hm & Hp & Hctx). split; [done|]. split; [|cbn; by rewrite <-Hc].
    unfold wf_phase; cbn. unfold APP_READY_MAX_ATTEMPTS. split_and!; eauto; lia.
  - split; [done|]. split; [rewrite Es; apply lc_prm_end|]. split; [by apply Han|].
    split; [done|]. split; [by right|]. repeat constructor. by apply length_control.
Qed.

Lemma handle_release_ok a req :
  wf_ar a → wf_uuid (cb_ar_uuid req) →
  steps_ok (handle_release (E := E) a req) (follows a (EvReleaseReq req)).
Proof.
  intros Ha Hu. unfold handle_release.
  rewrite (ControlBlock_write_Ok (release_done req)) by done. cbn [obind].
  assert (answered (EvReleaseReq req) [Respond PnioStatus_OK
    (block_wire (cb_block_type (release_done req)) (ControlBlock_body (release_done req)))]) as Han.
  { set (b := block_wire _ _). apply (answers_one _ PnioStatus_OK b); [done..|].
    subst b. rewrite length_control by done. lia. }
  destruct (decide (ar_state a ≠ Idle)) as [Hs|Hs]; cbn [obind]; [|by apply stays].
  destruct (wf_ar_ctx a Ha Hs) as (c & Hc & _). rewrite Hc. cbn [expect obind].
  destruct (bool_decide _); [apply refuses; auto using wf_wrong_state|].
  apply (aborts a (EvReleaseReq req) ControllerRelease [Respond PnioStatus_OK _]); try done.
  by apply lc_release.
Qed.

Lemma handle_tick_ok a now :
  wf_ar a → steps_ok (handle_tick (E := E) a now) (follows a EvTick).
Proof.
  intros Ha. unfold handle_tick.
  assert (steps_ok (E := E) (Ok (a, [])) (follows a EvTick)) as Hstay by by apply stays.
  destruct (ar_state a) eqn:Es; [done| | |done].
  - destruct (ar_activity_deadline a); [|done]. case_decide; [|done].
    apply (aborts a EvTick ActivityTimeout []); try done. rewrite Es. apply lc_activity.
  - destruct (ar_app_ready_deadline a); [|done]. case_decide; [|done].
    case_decide as Hatt.
    2: { apply (aborts a EvTick AppReadyFailed []); try done. rewrite Es.
         apply lc_ready_failed. }
    destruct (wf_ar_ctx a Ha) as (c & Hc & ((Hu & _) & _)); [by rewrite Es|].
    rewrite Hc. cbn [expect obind]. rewrite ControlBlock_write_Ok by done. cbn [obind].
    do 2 eexists. split; [done|]. split.
    + destruct Ha as (Hm & Hp & Hctx). split; [done|]. unfold wf_phase in Hp.
      rewrite Es in Hp. destruct Hp as (? & ? & ? & ?).
      split; [|cbn; by rewrite <-Hc].
      unfold wf_phase, wrap8; cbn. unfold APP_READY_MAX_ATTEMPTS in *.
      rewrite Z.mod_small by lia. rewrite <-Hc. split_and!; eauto; lia.
    + split; [done|]. split; [rewrite Es; apply lc_stay|]. split; [by split|].
      rewrite Es. split; [done|]. split; [by left|]. repeat constructor. by apply length_control.
Qed.

Lemma Ar_on_ok a ev now :
  wf_ar a → wf_event ev → steps_ok (Ar_on (E := E) a ev now) (follows a ev).
Proof.
  intros Ha Hev. destruct ev as [r|r|r|r|st| |reason]; cbn [Ar_on wf_event] in *.
  - by apply handle_connect_ok.
  - by apply handle_write_ok.
  - by apply handle_prm_end_ok.
  - by apply handle_release_ok.
  - unfold handle_app_ready_rsp.
    destruct (decide (ar_state a ≠ AppReadySent)) as [|Hs%dec_stable]; [by apply stays|].
    destruct (PnioStatus_is_ok st) eqn:Hst.
    + do 2 eexists. split; [done|]. split.
      * pose proof Ha as (Hm & Hp & Hctx). split; [done|]. split; [|done].
        destruct (wf_ar_ctx a Ha) as (c & Hc & _); [by rewrite Hs|]. unfold wf_phase; cbn. eauto.
      * split; [done|]. rewrite Hs. split; [by apply lc_ready|]. split; [done|].
        by split; [|split].
    + apply (aborts a (EvAppReadyRsp st) (AppReadyRejected st) []); try done.
      rewrite Hs. by apply lc_ready_rejected.
  - by apply handle_tick_ok.
  - case_decide; [by apply stays|]. apply (aborts a (EvAbort reason) reason []); try done.
    by apply lc_abort.
Qed.
End steps.

(** ** Runs *)

(** Feed a sequence of timed events; nothing in the machine can fail, so the
    error type is empty and only a panic could stop a run. *)
Fixpoint Ar_run (a : Ar) (evs : list (Event * Z)) : outcome Empty_set (Ar * list Action) :=
  match evs with
  | [] => Ok (a, [])
  | (ev, now) :: evs =>
    let! (a1, acts) := Ar_on a ev now in
    let! (a2, acts') := Ar_run a1 evs in
    Ok (a2, acts ++ acts')
  end.

(** An observer who only keeps the last state it was told. *)
Definition observe (s : ArState) (acts : list Action) : ArState :=
  foldl (λ _ n, n.1) s (notifications acts).

(** The ApplicationReady phase is not announced. *)
Definition announced (s : ArState) : ArState :=
  match s with AppReadySent => Connected | s => s end.

Lemma observe_app s acts acts' : observe s (acts ++ acts') = observe (observe s acts) acts'.
Proof. unfold observe, notifications. by rewrite omap_app, foldl_app. Qed.

Lemma lifecycle_observe s ev s' acts :
  lifecycle s ev s' (notifications acts) → observe (announced s) acts = announced s'.
Proof. unfold observe. by inversion 1; subst. Qed.

Lemma Ar_run_ok evs : ∀ a, wf_ar a → Forall (λ e, wf_event e.1) evs →
  ∃ a' acts, Ar_run a evs = Ok (a', acts) ∧ wf_ar a' ∧ ar_model a' = ar_model a ∧
             observe (announced (ar_state a)) acts = announced (ar_state a').
Proof.
  induction evs as [|[ev now] evs IH]; intros a Ha Hevs; cbn [Ar_run]; [by eauto 10|].
  apply Forall_cons_1 in Hevs as [Hev Hevs].
  destruct (Ar_on_ok (E := Empty_set) a ev now Ha Hev) as (a1 & acts & -> & Ha1 & Hm & Hl & _).
  destruct (IH a1 Ha1 Hevs) as (a2 & acts' & Hrun & Ha2 & Hm2 & Hobs).
  cbn [obind]. rewrite Hrun. cbn [obind]. exists a2, (acts ++ acts').
  split_and!; [done|done|congruence|].
  by rewrite observe_app, (lifecycle_observe _ _ _ _ Hl).
Qed.

(** C7: Whatever sequence of requests, answers, aborts and ticks the AR state
    machine receives, at whatever times, it never panics (no missing context
    is ever unwrapped) and its invariant holds: timers, attempt counter and
    context match the state, stored records belong to the AR and stay within
    both caps, and the accepted parameters are sound for the device. *)
Theorem Ar_run_invariant model evs :
  wf_model model → Forall (λ e, wf_event e.1) evs →
  ∃ a acts, Ar_run (Ar_new model) evs = Ok (a, acts) ∧ wf_ar a ∧ ar_model a = model.
Proof.
  intros Hm Hevs. destruct (Ar_run_ok evs (Ar_new model)) as (a & acts & ? & ? & ? & _);
    [by apply wf_Ar_new|done|]. eauto.
Qed.

(** C20: Every step of the AR follows the documented life cycle, and an observer
    who only hears the notifications knows the state after every run, the
    unannounced ApplicationReady phase counting as Connected. *)
Theorem Ar_run_lifecycle model evs ev now :
  wf_model model → Forall (λ e, wf_event e.1) evs → wf_event ev →
  ∃ a acts a' acts', Ar_run (Ar_new model) evs = Ok (a, acts) ∧
    Ar_on (E := Empty_set) a ev now = Ok (a', acts') ∧
    lifecycle (ar_state a) ev (ar_state a') (notifications acts') ∧
    observe Idle acts = announced (ar_state a).
Proof.
  intros Hm Hevs Hev. destruct (Ar_run_ok evs (Ar_new model)) as (a & acts & ? & Ha & ? & ?);
    [by apply wf_Ar_new|done|].
  destruct (Ar_on_ok (E := Empty_set) a ev now Ha Hev) as (a1 & acts1 & ? & _ & _ & ? & _).
  exists a, acts, a1, acts1. done.
Qed.

(** C26: A parameter Write is all or nothing: outside Idle it is stored exactly
    when every record carries the AR's UUID and both caps still hold, and then
    appends all records in order and answers OK; otherwise the AR is unchanged
    and the answer is the foreign-AR or the resource status.  In Idle it is
    refused. *)
Theorem write_all_or_nothing a req now :
  wf_ar a →
  match ar_ctx a with
  | None => Ar_on (E := Empty_set) a (EvWriteReq req) now = Ok (a, [wrong_state])
  | Some c =>
    if decide (write_accepted c (wq_records req)) then
      ∃ blocks, build_write_res (E := Empty_set) req = Ok blocks ∧
        Ar_on a (EvWriteReq req) now =
        Ok (E := Empty_set) (stored a c (wq_records req) now, [Respond PnioStatus_OK blocks])
    else Ar_on a (EvWriteReq req) now =
         Ok (E := Empty_set)
            (a, [reject (if decide (Forall (λ r, wr_ar_uuid r = ap_ar_uuid (cx_params c))
                                           (wq_records req))
                         then write_resource_unavailable else write_wrong_ar)])
  end.
Proof.
  intros Ha. pose proof Ha as (_ & Hp & _). unfold wf_phase in Hp.
  destruct (ar_ctx a) as [c|] eqn:Hc.
  - assert (ar_state a ≠ Idle) as Hs by (intros E; rewrite E in Hp; naive_solver).
    destruct (handle_write_up (E := Empty_set) a req now c Ha Hs Hc) as [Hacc Hrej].
    destruct (decide (write_accepted _ _)); auto.
  - cbn. unfold handle_write. destruct (ar_state a); [done|..]; by destruct Hp as [[? ?] _].
Qed.

(** A retransmitted Connect (same AR UUID and session key) is answered in
    every non-idle state with the very response of the original, which reads
    back as the negotiated blocks, and changes nothing. *)
Theorem connect_retransmission a req now c :
  wf_ar a → ar_ctx a = Some c →
  arb_ar_uuid (cq_ar req) = ap_ar_uuid (cx_params c) →
  arb_session_key (cq_ar req) = ap_session_key (cx_params c) →
  Ar_on (E := Empty_set) a (EvConnectReq req) now =
    Ok (a, [Respond PnioStatus_OK (cx_connect_res c)]) ∧
  BlockHeader_read_all (cx_connect_res c) =
    Ok (parsed_block <$> connect_res_blocks (cx_params c) (ar_model a)).
Proof.
  intros (Hm & Hp & Hctx) Hc Hu Hk. destruct (Hctx _ Hc) as (Hpar & _ & Hres & _). split.
  - cbn. unfold handle_connect. rewrite Hc. cbn. rewrite !bool_decide_true by done.
    unfold wf_phase in Hp. destruct (ar_state a); [|done..].
    destruct Hp as [Hn _]. by rewrite Hn in Hc.
  - rewrite Hres. rewrite BlockHeader_read_all_wire; [done|]. by apply length_connect_res_blocks.
Qed.

(** ApplicationReady is bounded: after PrmEnd, a controller that never
    answers gets the call exactly three times, one timeout apart at least, and
    the third timeout returns the AR to Idle with [AppReadyFailed]. *)
Theorem app_ready_gives_up a c req t0 t1 t2 t3 :
  wf_ar a → ar_state a = Connected → ar_ctx a = Some c →
  cb_ar_uuid req = ap_ar_uuid (cx_params c) →
  t0 + APP_READY_TIMEOUT ≤ t1 → t1 + APP_READY_TIMEOUT ≤ t2 → t2 + APP_READY_TIMEOUT ≤ t3 →
  ∃ respond call,
    Ar_run a [(EvPrmEndReq req, t0); (EvTick, t1); (EvTick, t2); (EvTick, t3)] =
    Ok (Ar_new (ar_model a),
        [Respond PnioStatus_OK respond; CallController call; CallController call;
         CallController call; Notify Idle (Some AppReadyFailed)]) ∧
    ControlBlock_parse call =
    Ok (app_ready_req (ap_ar_uuid (cx_params c)) (ap_session_key (cx_params c))).
Proof.
  intros Ha Hs Hc Hu Ht1 Ht2 Ht3. pose proof Ha as (_ & _ & Hctx).
  destruct (Hctx _ Hc) as ((Huuid & Hsess & _) & _).
  cbn [Ar_run Ar_on]. unfold handle_prm_end. rewrite Hs, Hc. cbn [expect obind].
  rewrite decide_False by tauto. rewrite ControlBlock_write_Ok by (cbn; by rewrite Hu).
  cbn [obind]. rewrite ControlBlock_write_Ok by done. cbn [obind].
  unfold handle_tick at 1; cbn [ar_state ar_app_ready_deadline ar_app_ready_attempts ar_ctx].
  rewrite decide_True by done. cbn [expect obind].
  rewrite decide_True by done. cbn [expect obind].
  rewrite ControlBlock_write_Ok by done. cbn [obind].
  unfold handle_tick at 1; cbn [ar_state ar_app_ready_deadline ar_app_ready_attempts ar_ctx].
  rewrite decide_True by done. cbn [expect obind].
  rewrite decide_True by done. cbn [expect obind].
  rewrite ControlBlock_write_Ok by done. cbn [obind].
  unfold handle_tick at 1; cbn [ar_state ar_app_ready_deadline ar_app_ready_attempts ar_ctx].
  rewrite decide_True by done. rewrite decide_False by done.
  cbn [Ar_abort obind app ar_model].
  do 2 eexists. split; [done|]. rewrite <-(app_nil_r (block_wire _ _)).
  apply (ControlBlock_parse_wire (app_ready_req _ _)).
  split_and!; try done; range.
Qed.

(** The deadline the AR reports is exactly when it next acts: before it a
    tick changes nothing, from it on a tick acts and re-arms strictly later or
    disarms, so the caller's loop neither misses a timeout nor spins. *)
Theorem next_deadline_exact a now :
  wf_ar a →
  match Ar_next_deadline a with
  | None => Ar_on (E := Empty_set) a EvTick now = Ok (a, [])
  | Some d =>
    if decide (now < d) then Ar_on (E := Empty_set) a EvTick now = Ok (a, [])
    else ∃ a' act, Ar_on (E := Empty_set) a EvTick now = Ok (a', [act]) ∧
                   ∀ d', Ar_next_deadline a' = Some d' → now < d'
  end.
Proof.
  intros Ha. pose proof Ha as (_ & Hp & _). unfold wf_phase in Hp. unfold Ar_next_deadline.
  cbn [Ar_on]. unfold handle_tick.
  destruct (ar_state a) eqn:Es; destruct Hp as (Hc & Hatt & Hr & Hact).
  - by rewrite Hr, Hact.
  - destruct Hact as [d Hd]. rewrite Hr, Hd. 
    destruct (decide (now < d)); [by rewrite decide_False by lia|].
    rewrite decide_True by lia. by do 2 eexists.
  - destruct Hr as [d Hd]. rewrite Hact, Hd. 
    destruct (decide (now < d)); [by rewrite decide_False by lia|].
    rewrite (decide_True (P := d ≤ now)) by lia.
    destruct (decide (_ < APP_READY_MAX_ATTEMPTS)); [|by do 2 eexists].
    destruct (wf_ar_ctx a Ha) as (c & Hc' & ((Hu & _) & _)); [by rewrite Es|].
    rewrite Hc'. cbn [expect obind]. rewrite ControlBlock_write_Ok by done. cbn [obind].
    do 2 eexists. split; [done|]. cbn. intros d' [= <-]. unfold APP_READY_TIMEOUT. lia.
  - by rewrite Hr, Hact.
Qed.

(** ** Witnesses *)

Lemma sample_wf_model : wf_model sample_model.
Proof. unfold wf_model, wf_slot, wf_submodule, wf_mac. by_decide. Qed.

Lemma sample_wf_req : wf_ConnectReq sample_req.
Proof.
  unfold wf_ConnectReq, wf_ArBlockReq, wf_IocrBlockReq, wf_IocrApi, wf_IocrObject,
    wf_AlarmCrBlockReq, wf_uuid, wf_mac. by_decide.
Qed.

Definition sample_control (ty : Z) : ControlBlock :=
  {| cb_block_type := ty; cb_ar_uuid := sample_uuid 7; cb_session_key := 3;
     cb_command := PRM_END; cb_properties := 0 |}.

Definition sample_write : WriteReq := {| wq_records := [sample_record 123 [1; 2; 3]] |}.

(** Connect, Write, PrmEnd, a positive answer, Release. *)
Definition sample_events : list (Event * Z) :=
  [ (EvConnectReq sample_req, 0); (EvWriteReq sample_write, 5);
    (EvPrmEndReq (sample_control IOD_CONTROL_REQ_PRM_END), 10);
    (EvAppReadyRsp PnioStatus_OK, 20);
    (EvReleaseReq (sample_control RELEASE_BLOCK_REQ), 30) ].

Lemma sample_events_wf : Forall (λ e, wf_event e.1) sample_events.
Proof.
  repeat apply List.Forall_cons; try apply List.Forall_nil; cbn [fst wf_event]; try done.
  - apply sample_wf_req.
  - unfold wf_uuid. by_decide.
Qed.

(** The sample AR in [Connected] and its context. *)
Definition sample_up : Ar :=
  match Ar_run (Ar_new sample_model) (take 1 sample_events) with
  | Ok (a, _) => a
  | _ => Ar_new sample_model
  end.
Definition sample_ctx : ArContext :=
  default {| cx_params := default {| ap_ar_uuid := Uuid_NIL; ap_session_key := 0;
      ap_initiator_mac := sample_mac; ap_initiator_object_uuid := Uuid_NIL;
      ap_activity_timeout_factor := 0; ap_input_cr := IocrParams_from_req sample_input;
      ap_output_cr := IocrParams_from_req sample_output; ap_alarm_ref_remote := 0;
      ap_max_alarm_data_length := 0; ap_max_alarm_data_length_remote := 0;
      ap_rta_timeout_factor := 0; ap_rta_retries := 0; ap_alarm_ref_local := 0;
      ap_alarm_tag_high := 0; ap_alarm_tag_low := 0 |} sample_params;
    cx_records := []; cx_connected_at := 0; cx_connect_res := [] |} (ar_ctx sample_up).

Lemma wf_sample_up : wf_ar sample_up.
Proof.
  destruct (Ar_run_ok (take 1 sample_events) (Ar_new sample_model)) as (a & acts & H & Ha & _).
  - apply wf_Ar_new, sample_wf_model.
  - apply Forall_take, sample_events_wf.
  - unfold sample_up. by rewrite H.
Qed.

Lemma sample_up_ctx : ar_ctx sample_up = Some sample_ctx.
Proof. vm_compute. reflexivity. Qed.

Lemma Ar_run_invariant_witness :
  ∃ a acts, Ar_run (Ar_new sample_model) sample_events = Ok (a, acts) ∧ wf_ar a ∧
            ar_model a = sample_model.
Proof.
  apply (Ar_run_invariant sample_model sample_events); [exact sample_wf_model|exact sample_events_wf].
Defined.

Lemma Ar_run_lifecycle_witness :
  ∃ a acts a' acts', Ar_run (Ar_new sample_model) sample_events = Ok (a, acts) ∧
    Ar_on (E := Empty_set) a EvTick 40 = Ok (a', acts') ∧
    lifecycle (ar_state a) EvTick (ar_state a') (notifications acts') ∧
    observe Idle acts = announced (ar_state a).
Proof.
  apply (Ar_run_lifecycle sample_model sample_events EvTick 40);
    [exact sample_wf_model|exact sample_events_wf|exact I].
Defined.

Lemma write_all_or_nothing_witness :
  ∃ blocks, build_write_res (E := Empty_set) sample_write = Ok blocks ∧
    Ar_on sample_up (EvWriteReq sample_write) 5 =
    Ok (E := Empty_set)
       (stored sample_up sample_ctx (wq_records sample_write) 5, [Respond PnioStatus_OK blocks]).
Proof.
  pose proof (write_all_or_nothing sample_up sample_write 5 wf_sample_up) as H.
  rewrite sample_up_ctx in H. rewrite decide_True in H; [exact H|]. by_decide.
Defined.

Lemma connect_retransmission_witness :
  Ar_on (E := Empty_set) sample_up (EvConnectReq sample_req) 9 =
    Ok (sample_up, [Respond PnioStatus_OK (cx_connect_res sample_ctx)]) ∧
  BlockHeader_read_all (cx_connect_res sample_ctx) =
    Ok (parsed_block <$> connect_res_blocks (cx_params sample_ctx) (ar_model sample_up)).
Proof.
  apply (connect_retransmission sample_up sample_req 9 sample_ctx);
    [exact wf_sample_up|exact sample_up_ctx|by vm_compute|by vm_compute].
Defined.

Lemma app_ready_gives_up_witness :
  ∃ respond call,
    Ar_run sample_up [(EvPrmEndReq (sample_control IOD_CONTROL_REQ_PRM_END), 0);
      (EvTick, 1000000000); (EvTick, 2000000000); (EvTick, 3000000000)] =
    Ok (Ar_new (ar_model sample_up),
        [Respond PnioStatus_OK respond; CallController call; CallController call;
         CallController call; Notify Idle (Some AppReadyFailed)]) ∧
    ControlBlock_parse call =
    Ok (app_ready_req (ap_ar_uuid (cx_params sample_ctx)) (ap_session_key (cx_params sample_ctx))).
Proof.
  apply (app_ready_gives_up sample_up sample_ctx _ 0 1000000000 2000000000 3000000000);
    [exact wf_sample_up|by vm_compute|exact sample_up_ctx|by vm_compute|..];
    unfold APP_READY_TIMEOUT; lia.
Defined.

Lemma next_deadline_exact_witness :
  Ar_next_deadline sample_up = Some 60000000000 ∧
  Ar_on (E := Empty_set) sample_up EvTick 59999999999 = Ok (sample_up, []).
Proof.
  pose proof (next_deadline_exact sample_up 59999999999 wf_sample_up) as H.
  assert (Ar_next_deadline sample_up = Some 60000000000) as E by by vm_compute.
  split; [exact E|]. rewrite E in H. rewrite decide_True in H by lia. exact H.
Defined.
