(* ===== verification/Cm.v ===== *)
(** * Cm: RPC datagrams in, RPC datagrams out

    Models the second half of [crates/pnio/src/cm/mod.rs]: [Cm], which parses
    the DCE-RPC/NDR/PNIO envelope of a datagram, drives the AR state machine,
    serves record reads, wraps the resulting actions into PDUs and keeps the
    cache of recent responses.

    [handle_datagram] returns [Err] only before anything is changed, so the
    caller keeps its state then.  The file-system side of an I&M write is
    reported in [co_persist]. *)

From S2P Require Import Prelude Eth Rpc Block Connect Records Ar.
Local Open Scope Z_scope.

(** ** Data *)

(** rpc/mod.rs:19-20 PNIO_UDP_PORT *)
Definition PNIO_UDP_PORT : Z := 34964.
(** cm/mod.rs:90-92 RPC_ARGS_MAX *)
Definition RPC_ARGS_MAX : Z := 1340.
(** cm/mod.rs:94-95 CACHE_CAPACITY *)
Definition CACHE_CAPACITY : nat := 4.

(** [std::net::SocketAddr]: address octets and port. *)
Record SocketAddr := { sa_ip : list Z; sa_port : Z }.

#[global] Instance SocketAddr_eq_dec : EqDecision SocketAddr.
Proof. solve_decision. Defined.

(** cm/mod.rs:97-104 Outgoing *)
Record Outgoing := { og_bytes : list Z; og_to : SocketAddr }.

(** cm/mod.rs:106-115 CmOutput *)
Record CmOutput := {
  co_send : list Outgoing;
  co_notify : list (ArState * option AbortReason);
  co_persist : list (string * list Z)
}.

Definition CmOutput_default : CmOutput :=
  {| co_send := []; co_notify := []; co_persist := [] |}.

Definition push_send (o : CmOutput) (x : Outgoing) : CmOutput :=
  {| co_send := co_send o ++ [x]; co_notify := co_notify o; co_persist := co_persist o |}.
Definition push_notify (o : CmOutput) (n : ArState * option AbortReason) : CmOutput :=
  {| co_send := co_send o; co_notify := co_notify o ++ [n]; co_persist := co_persist o |}.

(** cm/mod.rs:117-127 RespondCtx *)
Record RespondCtx := {
  rx_object : Uuid; rx_interface : Uuid; rx_activity : Uuid; rx_seq_num : Z; rx_opnum : Z;
  rx_args_max : Z; rx_from : SocketAddr
}.

(** cm/mod.rs:156-185 Cm *)
Record Cm := {
  cm_ar : Ar;
  cm_model : DeviceModel;
  cm_im0 : Im0;
  cm_im : ImStore;
  cm_activity_seed : Uuid;
  cm_call_seq : Z;
  cm_current_call_seq : option Z;
  cm_controller_addr : option SocketAddr;
  cm_cache : list ((Uuid * Z) * list Z)
}.

(** cm/mod.rs:188-203 Cm::new *)
Definition Cm_new (model : DeviceModel) (activity_seed : Uuid) : Cm :=
  {| cm_ar := Ar_new model; cm_model := model; cm_im0 := Im0_default; cm_im := ImStore_new;
     cm_activity_seed := activity_seed; cm_call_seq := 0; cm_current_call_seq := None;
     cm_controller_addr := None; cm_cache := [] |}.

(** cm/mod.rs:205-208 Cm::state *)
Definition Cm_state (c : Cm) : ArState := ar_state (cm_ar c).

(** Field updates. *)
Definition with_ar (c : Cm) (a : Ar) : Cm :=
  {| cm_ar := a; cm_model := cm_model c; cm_im0 := cm_im0 c; cm_im := cm_im c;
     cm_activity_seed := cm_activity_seed c; cm_call_seq := cm_call_seq c;
     cm_current_call_seq := cm_current_call_seq c;
     cm_controller_addr := cm_controller_addr c; cm_cache := cm_cache c |}.
Definition with_im (c : Cm) (im : ImStore) : Cm :=
  {| cm_ar := cm_ar c; cm_model := cm_model c; cm_im0 := cm_im0 c; cm_im := im;
     cm_activity_seed := cm_activity_seed c; cm_call_seq := cm_call_seq c;
     cm_current_call_seq := cm_current_call_seq c;
     cm_controller_addr := cm_controller_addr c; cm_cache := cm_cache c |}.
Definition with_cache (c : Cm) (l : list ((Uuid * Z) * list Z)) : Cm :=
  {| cm_ar := cm_ar c; cm_model := cm_model c; cm_im0 := cm_im0 c; cm_im := cm_im c;
     cm_activity_seed := cm_activity_seed c; cm_call_seq := cm_call_seq c;
     cm_current_call_seq := cm_current_call_seq c;
     cm_controller_addr := cm_controller_addr c; cm_cache := l |}.
Definition with_call (c : Cm) (seq : Z) (current : option Z) (addr : option SocketAddr) : Cm :=
  {| cm_ar := cm_ar c; cm_model := cm_model c; cm_im0 := cm_im0 c; cm_im := cm_im c;
     cm_activity_seed := cm_activity_seed c; cm_call_seq := seq;
     cm_current_call_seq := current; cm_controller_addr := addr; cm_cache := cm_cache c |}.

(** cm/mod.rs:221-227 Cm::set_im *)
Definition set_im (c : Cm) (im0 : Im0) (store : ImStore) : Cm :=
  {| cm_ar := cm_ar c; cm_model := cm_model c; cm_im0 := im0; cm_im := store;
     cm_activity_seed := cm_activity_seed c; cm_call_seq := cm_call_seq c;
     cm_current_call_seq := cm_current_call_seq c;
     cm_controller_addr := cm_controller_addr c; cm_cache := cm_cache c |}.

(** ** Helpers *)

(** cm/mod.rs:129-140 error_status *)
Definition error_status (e : CmError) (default : PnioStatus) : PnioStatus :=
  match e with CmReject status => status | CmBlock _ => default end.
(** cm/mod.rs:142-147 respond *)
Definition respond (status : PnioStatus) : list Action := [Respond status []].
(** cm/mod.rs:149-154 respond_ok *)
Definition respond_ok (blocks : list Z) : list Action := [Respond PnioStatus_OK blocks].

(** cm/mod.rs:525-530 Cm::cache_lookup *)
Definition cache_lookup (cache : list ((Uuid * Z) * list Z)) (key : Uuid * Z) : option (list Z) :=
  snd <$> List.find (λ e, bool_decide (e.1 = key)) cache.

(** cm/mod.rs:532-537 Cm::cache_insert *)
Definition cache_insert (cache : list ((Uuid * Z) * list Z)) (key : Uuid * Z) (pdu : list Z) :
    list ((Uuid * Z) * list Z) :=
  (if decide (CACHE_CAPACITY ≤ length cache)%nat then drop 1 cache else cache) ++ [(key, pdu)].

(** cm/mod.rs:540-575 build_response_pdu *)
Definition build_response_pdu {E} (ctx : RespondCtx) (status : PnioStatus) (blocks : list Z) :
    outcome E (list Z) :=
  let out_blocks := if PnioStatus_is_ok status then blocks else [] in
  let len := Z.of_nat (length out_blocks) in
  let! header := RpcHeader_write
    {| rh_ptype := PtResponse; rh_flags1 := Z.lor FLAG1_IDEMPOTENT FLAG1_NO_FACK; rh_flags2 := 0;
       rh_drep := Drep_BIG; rh_serial_hi := 0; rh_object := rx_object ctx;
       rh_interface := rx_interface ctx; rh_activity := rx_activity ctx; rh_server_boot := 0;
       rh_if_version := 1; rh_seq_num := rx_seq_num ctx; rh_opnum := rx_opnum ctx;
       rh_ihint := 0xffff; rh_ahint := 0xffff;
       rh_frag_len := wrap16 (Z.of_nat NdrResponse_LEN + len); rh_frag_num := 0;
       rh_auth_proto := 0; rh_serial_lo := 0 |} in
  let ndr := if PnioStatus_is_ok status then NdrResponse_ok (rx_args_max ctx) (wrap32 len)
             else NdrResponse_error (PnioStatus_to_u32 status) (rx_args_max ctx) in
  Ok (header ++ NdrResponse_write ndr Drep_BIG ++ out_blocks).

Section cm.
Context {E : Type}.

(** cm/mod.rs:456-500 Cm::build_call_pdu *)
Definition build_call_pdu (c : Cm) (blocks : list Z) (is_new : bool) : outcome E (Cm * list Z) :=
  let! ctx := expect (ar_ctx (cm_ar c)) in
  let object := ap_initiator_object_uuid (cx_params ctx) in
  let! (c', seq_num) :=
    (if is_new then
       Ok (with_call c (wrap32 (cm_call_seq c + 1)) (Some (cm_call_seq c)) (cm_controller_addr c),
           cm_call_seq c)
     else let! s := expect (cm_current_call_seq c) in Ok (c, s)) in
  let! header := RpcHeader_write
    {| rh_ptype := PtRequest; rh_flags1 := FLAG1_IDEMPOTENT; rh_flags2 := 0;
       rh_drep := Drep_BIG; rh_serial_hi := 0; rh_object := object;
       rh_interface := PNIO_CONTROLLER_INTERFACE; rh_activity := cm_activity_seed c;
       rh_server_boot := 0; rh_if_version := 1; rh_seq_num := seq_num;
       rh_opnum := Opnum_to_u16 OpControl; rh_ihint := 0xffff; rh_ahint := 0xffff;
       rh_frag_len := wrap16 (Z.of_nat NdrRequest_LEN + Z.of_nat (length blocks));
       rh_frag_num := 0; rh_auth_proto := 0; rh_serial_lo := 0 |} in
  let ndr := NdrRequest_for_blocks RPC_ARGS_MAX (wrap32 (Z.of_nat (length blocks))) in
  Ok (c', header ++ NdrRequest_write ndr Drep_BIG ++ blocks).

(** cm/mod.rs:418-454 Cm::apply *)
Fixpoint Cm_apply (c : Cm) (actions : list Action)
    (resp_ctx : option (RespondCtx * (Uuid * Z))) (call_is_new : bool) (output : CmOutput) :
    outcome E (Cm * CmOutput) :=
  match actions with
  | [] => Ok (c, output)
  | action :: actions =>
    let! (c', output') :=
      match action with
      | Respond status blocks =>
        match resp_ctx with
        | Some (ctx, cache_key) =>
          let! pdu := build_response_pdu ctx status blocks in
          Ok (with_cache c (cache_insert (cm_cache c) cache_key pdu),
              push_send output {| og_bytes := pdu; og_to := rx_from ctx |})
        | None => Ok (c, output)
        end
      | CallController blocks =>
        let! to := expect (cm_controller_addr c) in
        let! (c', pdu) := build_call_pdu c blocks call_is_new in
        Ok (c', push_send output {| og_bytes := pdu; og_to := to |})
      | Notify state reason => Ok (c, push_notify output (state, reason))
      end in
    Cm_apply c' actions resp_ctx call_is_new output'
  end.

(** cm/mod.rs:502-523 Cm::handle_read *)
Definition handle_read (c : Cm) (req : ReadReq) (check_ar : bool) : outcome E (list Action) :=
  let matches_ar :=
    match ar_ctx (cm_ar c) with
    | Some ctx => bool_decide (ap_ar_uuid (cx_params ctx) = rq_ar_uuid req)
    | None => false
    end in
  if check_ar && negb matches_ar then Ok (respond read_wrong_ar) else
  let ctx := {| rc_model := cm_model c; rc_im0 := cm_im0 c; rc_im := cm_im c |} in
  match read_record req ctx with
  | Some data => let! b := build_read_res req data in Ok (respond_ok b)
  | None => Ok (respond read_index_unsupported)
  end.

(** cm/mod.rs:339-353 Cm::handle_datagram *)
Fixpoint write_im_records (model : DeviceModel) (im : ImStore) (records : list WRecord) :
    outcome E (ImStore * list (string * list Z)) :=
  match records with
  | [] => Ok (im, [])
  | r :: records =>
    let! (im1, files) :=
      (if decide (INDEX_IM1 ≤ wr_index r ≤ INDEX_IM3) then
         let! (_, im', file) := write_im_record r model im in Ok (im', option_list file)
       else Ok (im, [])) in
    let! (im2, files') := write_im_records model im1 records in
    Ok (im2, files ++ files')
  end.
End cm.

(** A PNIO block parser in front of its handler: [Err] is answered with the
    error's own status or the opnum's default. *)
Definition or_respond {A} (c : Cm) (m : outcome CmError A) (default : PnioStatus)
    (k : A → outcome RpcError (Cm * list Action * list (string * list Z))) :
    outcome RpcError (Cm * list Action * list (string * list Z)) :=
  match m with
  | Ok a => k a
  | Err e => Ok (c, respond (error_status e default), [])
  | Panic => Panic
  end.

(** Feed the AR and keep the successor. *)
Definition drive (c : Cm) (ev : Event) (now : Z) :
    outcome RpcError (Cm * list Action * list (string * list Z)) :=
  let! (a, actions) := Ar_on (cm_ar c) ev now in Ok (with_ar c a, actions, []).

(** cm/mod.rs:306-314 Cm::handle_datagram *)
Definition establishes (actions : list Action) : bool :=
  existsb (λ a, match a with Notify Connected _ => true | _ => false end) actions.

(** cm/mod.rs:335-337 Cm::handle_datagram *)
Definition accepted (actions : list Action) : bool :=
  existsb (λ a, match a with Respond status _ => PnioStatus_is_ok status | _ => false end) actions.

(** cm/mod.rs:287-384 Cm::handle_datagram *)
Definition serve_request (c : Cm) (opnum : Z) (blocks : list Z) (from : SocketAddr) (now : Z) :
    outcome RpcError (Cm * list Action * list (string * list Z)) :=
  match Opnum_from_u16 opnum with
  | Some OpConnect =>
    let! (c', actions, files) :=
      or_respond c (ConnectReq_parse blocks) (connect_reject CbArBlock 0xfe)
        (λ req, drive c (EvConnectReq req) now) in
    Ok (if establishes actions
        then with_call c' (cm_call_seq c') None
               (Some {| sa_ip := sa_ip from; sa_port := PNIO_UDP_PORT |})
        else c',
        actions, files)
  | Some OpWrite =>
    or_respond c (WriteReq_parse blocks) write_index_unsupported (λ req,
      let! (c', actions, _) := drive c (EvWriteReq req) now in
      if accepted actions then
        let! (im, files) := write_im_records (cm_model c') (cm_im c') (wq_records req) in
        Ok (with_im c' im, actions, files)
      else Ok (c', actions, []))
  | Some OpControl =>
    or_respond c (ControlBlock_parse blocks) control_wrong_state (λ cb,
      if decide (cb_command cb = PRM_END) then drive c (EvPrmEndReq cb) now
      else Ok (c, respond control_wrong_state, []))
  | Some OpRelease =>
    or_respond c (ControlBlock_parse blocks) control_wrong_state (λ cb,
      drive c (EvReleaseReq cb) now)
  | Some OpRead =>
    or_respond c (ReadReq_parse blocks) read_index_unsupported (λ req,
      let! actions := handle_read c req true in Ok (c, actions, []))
  | Some OpReadImplicit =>
    or_respond c (ReadReq_parse blocks) read_index_unsupported (λ req,
      let! actions := handle_read c req false in Ok (c, actions, []))
  | None => Ok (c, respond service_unsupported, [])
  end.

(** cm/mod.rs:235-397 Cm::handle_datagram *)
Definition handle_datagram (c : Cm) (buf : list Z) (from : SocketAddr) (now : Z) :
    outcome RpcError (Cm * CmOutput) :=
  let! h := RpcHeader_parse buf in
  let! body := slice_from buf RpcHeader_LEN in
  if decide (rh_ptype h = PtResponse) then
    let! (n, _) := NdrResponse_parse body (rh_drep h) in
    let! (a, actions) := Ar_on (cm_ar c) (EvAppReadyRsp (MkStatus (nr_status n))) now in
    Cm_apply (with_ar c a) actions None false CmOutput_default
  else if decide (rh_ptype h ≠ PtRequest) then Ok (c, CmOutput_default)
  else if decide (rh_interface h ≠ PNIO_DEVICE_INTERFACE) then Err (BadInterface (rh_interface h))
  else
  let cache_key := (rh_activity h, rh_seq_num h) in
  match cache_lookup (cm_cache c) cache_key with
  | Some bytes => Ok (c, push_send CmOutput_default {| og_bytes := bytes; og_to := from |})
  | None =>
    let! (req, blocks) := NdrRequest_parse body (rh_drep h) in
    let! (c', actions, files) := serve_request c (rh_opnum h) blocks from now in
    let ctx := {| rx_object := rh_object h; rx_interface := rh_interface h;
                  rx_activity := rh_activity h; rx_seq_num := rh_seq_num h;
                  rx_opnum := rh_opnum h; rx_args_max := nq_args_max req; rx_from := from |} in
    Cm_apply c' actions (Some (ctx, cache_key)) true
      {| co_send := []; co_notify := []; co_persist := files |}
  end.

(** cm/mod.rs:399-406 Cm::tick *)
Definition Cm_tick {E} (c : Cm) (now : Z) : outcome E (Cm * CmOutput) :=
  let! (a, actions) := Ar_on (cm_ar c) EvTick now in
  Cm_apply (with_ar c a) actions None false CmOutput_default.

(** cm/mod.rs:408-416 Cm::abort *)
Definition Cm_abort {E} (c : Cm) (reason : AbortReason) (now : Z) : outcome E (Cm * CmOutput) :=
  let! (a, actions) := Ar_on (cm_ar c) (EvAbort reason) now in
  Cm_apply (with_ar c a) actions None false CmOutput_default.

(** ** What the envelope parsers yield *)

Lemma Drep_u16_u16 {E} d b v : Forall u8 b → Drep_u16 (E := E) d b = Ok v → u16 v.
Proof.
  intros Hb H. unfold Drep_u16 in H. ok_inv.
  repeat match goal with H : idx _ _ = Ok _ |- _ => apply (idx_u8 _ _ _ Hb) in H end.
  destruct (little_endian d); unfold u16, u8, from_be16, from_le16 in *; lia.
Qed.

Lemma Drep_u32_u32 {E} d b v : Forall u8 b → Drep_u32 (E := E) d b = Ok v → u32 v.
Proof.
  intros Hb H. unfold Drep_u32 in H. ok_inv.
  repeat match goal with H : idx _ _ = Ok _ |- _ => apply (idx_u8 _ _ _ Hb) in H end.
  destruct (little_endian d); unfold u32, u8, from_be32, from_le32 in *; lia.
Qed.

Lemma drep_u32_at_u32 {E} d b lo v : Forall u8 b → drep_u32_at (E := E) d b lo = Ok v → u32 v.
Proof. intros Hb H. unfold drep_u32_at in H. ok_inv. eauto using Drep_u32_u32, slice_u8. Qed.

Lemma drep_u16_at_u16 {E} d b lo v : Forall u8 b → drep_u16_at (E := E) d b lo = Ok v → u16 v.
Proof. intros Hb H. unfold drep_u16_at in H. ok_inv. eauto using Drep_u16_u16, slice_u8. Qed.

Lemma uuid_at_wf {E} d b lo u : Forall u8 b → uuid_at (E := E) d b lo = Ok u → wf_uuid u.
Proof.
  intros Hb H. unfold uuid_at in H. ok_inv. destruct x0; simplify_eq/=.
  eauto using Uuid_read_wf, slice_u8.
Qed.

(** The header fields a response echoes. *)
Definition wf_echo (h : RpcHeader) : Prop :=
  wf_uuid (rh_object h) ∧ wf_uuid (rh_interface h) ∧ wf_uuid (rh_activity h) ∧
  u32 (rh_seq_num h) ∧ u16 (rh_opnum h).

Lemma RpcHeader_parse_wf buf h :
  Forall u8 buf → RpcHeader_parse buf = Ok h → wf_echo h ∧ (RpcHeader_LEN ≤ length buf)%nat.
Proof.
  intros Hb H. unfold RpcHeader_parse in H. ok_inv. split; [|lia].
  unfold wf_echo; cbn. split_and!; eauto using uuid_at_wf, drep_u32_at_u32, drep_u16_at_u16.
Qed.

Lemma NdrRequest_parse_wf b d n blocks :
  Forall u8 b → NdrRequest_parse b d = Ok (n, blocks) → u32 (nq_args_max n) ∧ Forall u8 blocks.
Proof.
  intros Hb H. unfold NdrRequest_parse in H. ok_inv. simplify_eq. cbn.
  eauto using drep_u32_at_u32, slice_u8.
Qed.

(** ** PDUs read back *)

Definition wf_respond_ctx (x : RespondCtx) : Prop :=
  wf_uuid (rx_object x) ∧ wf_uuid (rx_interface x) ∧ wf_uuid (rx_activity x) ∧
  u32 (rx_seq_num x) ∧ u16 (rx_opnum x) ∧ u32 (rx_args_max x).

(** A response PDU that answers the given request with the given result. *)
Definition answers (x : RespondCtx) (status : PnioStatus) (blocks pdu : list Z) : Prop :=
  ∃ h n, RpcHeader_parse pdu = Ok h ∧
    rh_ptype h = PtResponse ∧ rh_object h = rx_object x ∧ rh_interface h = rx_interface x ∧
    rh_activity h = rx_activity x ∧ rh_seq_num h = rx_seq_num x ∧ rh_opnum h = rx_opnum x ∧
    NdrResponse_parse (drop RpcHeader_LEN pdu) (rh_drep h) =
      Ok (n, if PnioStatus_is_ok status then blocks else []) ∧
    nr_status n = status_word status ∧
    Z.of_nat (length pdu) = Z.of_nat RpcHeader_LEN + rh_frag_len h.

Lemma build_response_pdu_ok {E} x status blocks :
  wf_respond_ctx x → ok_response (status, blocks) →
  ∃ pdu, build_response_pdu (E := E) x status blocks = Ok pdu ∧ answers x status blocks pdu.
Proof.
  intros (Ho & Hi & Ha & Hs & Hop & Hargs) [Hst Hbl]. cbn [fst snd] in *.
  unfold build_response_pdu.
  set (out := if PnioStatus_is_ok status then blocks else []).
  assert (length out ≤ 4096)%nat as Hout by (subst out; destruct (PnioStatus_is_ok status); cbn; lia).
  set (h := {| rh_ptype := PtResponse |}).
  assert (wf_rpc_header h) as Hh.
  { unfold wf_rpc_header, h; cbn. rewrite wrap16_id by (unfold u16, NdrResponse_LEN; lia).
    unfold u16, u32, NdrResponse_LEN in *. split_and!; done || lia. }
  rewrite RpcHeader_write_Ok by done. cbn [obind]. eexists. split; [done|].
  set (n := if PnioStatus_is_ok status then _ else _). exists h, n.
  assert (unfragmented h) as Hf by by vm_compute.
  rewrite RpcHeader_parse_wire by done.
  rewrite drop_app_length' by (by rewrite length_RpcHeader_wire).
  rewrite <-(app_nil_r out) at 1.
  assert (wrap32 (Z.of_nat (length out)) = Z.of_nat (length out)) as Hw
    by (apply wrap32_id; unfold u32; lia).
  assert (nr_status n = status_word status ∧ nr_args_len n = Z.of_nat (length out) ∧
          nr_actual_count n = Z.of_nat (length out) ∧ nr_offset n = 0 ∧
          nr_max_count n = rx_args_max x) as (Hn1 & Hn2 & Hn3 & Hn4 & Hn5).
  { subst n out. unfold PnioStatus_is_ok in *. case_bool_decide; cbn; rewrite ?Hw; done. }
  rewrite NdrResponse_parse_write;
    [|rewrite Hn1; exact Hst|rewrite Hn5; exact Hargs|unfold u32; lia|done..].
  split_and!; try done.
  rewrite !length_app, length_RpcHeader_wire by done. cbn [h rh_frag_len].
  rewrite wrap16_id by (unfold u16, NdrResponse_LEN; lia).
  unfold RpcHeader_LEN, NdrResponse_LEN, NdrResponse_write. len.
Qed.

(** ** The cache *)

(** [key] was answered with [pdu], and exactly [n] other requests since. *)
Definition cached (cache : list ((Uuid * Z) * list Z)) (key : Uuid * Z) (pdu : list Z) (n : nat) :
    Prop :=
  ∃ pre post, cache = pre ++ (key, pdu) :: post ∧ length post = n ∧
    Forall (λ e, e.1 ≠ key) (pre ++ post).

Lemma cached_lookup cache key pdu n : cached cache key pdu n → cache_lookup cache key = Some pdu.
Proof.
  intros (pre & post & -> & _ & [Hpre _]%Forall_app). unfold cache_lookup.
  induction Hpre as [|e pre He _ IH]; cbn.
  - by rewrite bool_decide_true.
  - rewrite bool_decide_false by done. apply IH.
Qed.

Lemma cache_lookup_not_in cache key : Forall (λ e, e.1 ≠ key) cache → cache_lookup cache key = None.
Proof.
  unfold cache_lookup. induction 1 as [|e l He _ IH]; cbn; [done|]. by rewrite bool_decide_false.
Qed.

Lemma cache_lookup_None cache key : cache_lookup cache key = None → Forall (λ e, e.1 ≠ key) cache.
Proof.
  unfold cache_lookup. induction cache as [|e cache IH]; cbn; [done|].
  case_bool_decide; [done|]. intros ?. constructor; auto.
Qed.

Lemma length_cache_insert cache key pdu :
  (length cache ≤ CACHE_CAPACITY)%nat →
  (length (cache_insert cache key pdu) ≤ CACHE_CAPACITY)%nat.
Proof.
  unfold cache_insert, CACHE_CAPACITY. intros. rewrite length_app.
  case_decide; rewrite ?length_drop; cbn; lia.
Qed.

Lemma cache_insert_new cache key pdu :
  cache_lookup cache key = None → cached (cache_insert cache key pdu) key pdu 0.
Proof.
  intros Hn%cache_lookup_None. unfold cache_insert. eexists _, []. split; [done|].
  split; [done|]. rewrite app_nil_r. case_decide; [by apply Forall_drop|done].
Qed.

(** Three further answers do not evict an entry, the fourth does. *)
Lemma cache_insert_other cache key pdu key' pdu' n :
  (length cache ≤ CACHE_CAPACITY)%nat → cached cache key pdu n → cache_lookup cache key' = None →
  if decide (n + 1 < CACHE_CAPACITY)%nat then cached (cache_insert cache key' pdu') key pdu (S n)
  else cache_lookup (cache_insert cache key' pdu') key = None.
Proof.
  intros Hle (pre & post & -> & Hpost & Hkeys) Hnew%cache_lookup_None.
  apply Forall_app in Hkeys as [Hpre Hpo]. apply Forall_app in Hnew as [_ [Hne _]%Forall_cons_1]. cbn in Hne.
  unfold cache_insert, CACHE_CAPACITY in *. rewrite length_app in *. cbn in *.
  assert (Forall (λ e : Uuid * Z * list Z, e.1 ≠ key) (post ++ [(key', pdu')])) as Hpo'.
  { apply Forall_app. split; [done|]. constructor; [by apply not_eq_sym|constructor]. }
  destruct (decide (n + 1 < 4)%nat); case_decide; try lia.
  - destruct pre as [|e pre]; [cbn in *; lia|]. apply Forall_cons_1 in Hpre as [_ Hpre].
    exists pre, (post ++ [(key', pdu')]). rewrite length_app. cbn.
    split; [by rewrite drop_0, <-app_assoc|]. split; [lia|by apply Forall_app].
  - exists pre, (post ++ [(key', pdu')]). rewrite length_app. cbn.
    split; [by rewrite <-app_assoc|]. split; [lia|by apply Forall_app].
  - destruct pre; [|cbn in *; lia]. by apply cache_lookup_not_in.
Qed.

(** ** The invariant *)

Definition wf_base (c : Cm) : Prop :=
  wf_ar (cm_ar c) ∧ ar_model (cm_ar c) = cm_model c ∧ wf_store (cm_im c) ∧
  wf_uuid (cm_activity_seed c) ∧ u32 (cm_call_seq c) ∧
  (∀ s, cm_current_call_seq c = Some s → u32 s) ∧ (length (cm_cache c) ≤ CACHE_CAPACITY)%nat.

(** Outside [Idle] the controller's address is known, and while an
    ApplicationReady call is outstanding so is its sequence number. *)
Definition wf_cm (c : Cm) : Prop :=
  wf_base c ∧ (Cm_state c ≠ Idle → is_Some (cm_controller_addr c)) ∧
  (Cm_state c = AppReadySent → is_Some (cm_current_call_seq c)).

Lemma wf_cm_cache c : wf_cm c → (length (cm_cache c) ≤ CACHE_CAPACITY)%nat.
Proof. intros [(_ & _ & _ & _ & _ & _ & ?) _]. done. Qed.

(** What [apply] needs: the calls among the actions can be placed, and the one
    that opens the ApplicationReady phase is still among them. *)
Definition ready (c : Cm) (acts : list Action) (call_is_new : bool) : Prop :=
  wf_base c ∧ (Cm_state c ≠ Idle → is_Some (cm_controller_addr c)) ∧
  (Cm_state c = AppReadySent →
     is_Some (cm_current_call_seq c) ∨ (calls acts ≠ [] ∧ call_is_new = true)) ∧
  (calls acts ≠ [] → Cm_state c = AppReadySent) ∧
  (call_is_new = false → Cm_state c = AppReadySent → is_Some (cm_current_call_seq c)) ∧
  Forall (λ b, length b = 32%nat) (calls acts) ∧ Forall ok_response (responses acts).

(** A call to the controller. *)
Definition is_call (c : Cm) (o : Outgoing) : Prop :=
  Some (og_to o) = cm_controller_addr c ∧
  ∃ h, RpcHeader_parse (og_bytes o) = Ok h ∧ rh_ptype h = PtRequest ∧
       rh_interface h = PNIO_CONTROLLER_INTERFACE ∧ rh_opnum h = Opnum_to_u16 OpControl ∧
       rh_activity h = cm_activity_seed c.

Lemma wf_controller_interface : wf_uuid PNIO_CONTROLLER_INTERFACE.
Proof. unfold wf_uuid. by_decide. Qed.

Lemma build_call_pdu_ok {E} c blocks is_new :
  wf_base c → Cm_state c = AppReadySent → length blocks = 32%nat →
  (is_new = false → is_Some (cm_current_call_seq c)) → is_Some (cm_controller_addr c) →
  ∃ c' pdu, build_call_pdu (E := E) c blocks is_new = Ok (c', pdu) ∧ wf_base c' ∧
    is_Some (cm_current_call_seq c') ∧ cm_ar c' = cm_ar c ∧ cm_cache c' = cm_cache c ∧
    cm_controller_addr c' = cm_controller_addr c ∧ cm_activity_seed c' = cm_activity_seed c ∧
    ∀ to, Some to = cm_controller_addr c → is_call c {| og_bytes := pdu; og_to := to |}.
Proof.
  intros Hb Hs Hl Hcur Haddr. pose proof Hb as (Har & Hm & Him & Hseed & Hseq & Hcs & Hcache).
  unfold Cm_state in Hs. destruct (wf_ar_ctx (cm_ar c) Har) as (x & Hx & Hwx); [by rewrite Hs|].
  destruct Hwx as ((_ & _ & _ & Hobj & _) & _).
  unfold build_call_pdu. rewrite Hx. cbn [expect obind].
  assert (∃ c' seq, (if is_new then
         Ok (with_call c (wrap32 (cm_call_seq c + 1)) (Some (cm_call_seq c)) (cm_controller_addr c),
             cm_call_seq c)
       else let! s := expect (cm_current_call_seq c) in Ok (c, s)) = Ok (E := E) (c', seq) ∧
       wf_base c' ∧ is_Some (cm_current_call_seq c') ∧ cm_ar c' = cm_ar c ∧
       cm_cache c' = cm_cache c ∧ cm_controller_addr c' = cm_controller_addr c ∧
       cm_activity_seed c' = cm_activity_seed c ∧ u32 seq)
    as (c' & seq & -> & Hb' & Hc' & Ha' & Hca' & Had' & Hse' & Hsq).
  { destruct is_new.
    - do 2 eexists. split; [done|]. cbn. split_and!; eauto.
      unfold wf_base; cbn. do 4 (split; [done|]). split; [apply Z.mod_pos_bound; lia|].
      split; [by intros ? [= <-]|done].
    - destruct (Hcur eq_refl) as [s Hcs']. rewrite Hcs'. cbn. do 2 eexists. split; [done|].
      split_and!; eauto. }
  cbn [obind]. set (h := {| rh_ptype := PtRequest |}).
  assert (wf_rpc_header h) as Hh.
  { unfold wf_rpc_header, h; cbn. rewrite Hl. pose proof wf_controller_interface.
    split_and!; done || by_decide. }
  rewrite RpcHeader_write_Ok by done. cbn [obind]. do 2 eexists. split; [done|].
  split_and!; try done. intros to Hto. split; [done|]. exists h. cbn [og_bytes].
  split; [|done]. apply RpcHeader_parse_wire; [done|]. by vm_compute.
Qed.

Lemma ready_nil c new : ready c [] new → wf_cm c.
Proof. intros (Hb & Ha & Hc & _). split; [done|]. split; [done|]. naive_solver. Qed.

Lemma ready_cache c x acts new cache :
  (calls (x :: acts) = calls acts) → ready c (x :: acts) new →
  (length cache ≤ CACHE_CAPACITY)%nat → ready (with_cache c cache) acts new.
Proof.
  intros Hc ((? & ? & ? & ? & ? & ? & _) & ? & Hcalls & ? & ? & ? & Hr) Hl. rewrite Hc in *.
  split; [done|]. split; [done|]. split; [done|]. split; [done|]. split; [done|]. split; [done|].
  unfold responses in *. destruct x; cbn in Hr; [by apply Forall_cons_1 in Hr as [_ ?]|done|done].
Qed.

Lemma ready_call c b acts new c' :
  ready c (CallController b :: acts) new → wf_base c' → is_Some (cm_current_call_seq c') →
  cm_ar c' = cm_ar c → cm_controller_addr c' = cm_controller_addr c → ready c' acts new.
Proof.
  intros (_ & Ha & _ & Hc & _ & Hl & Hr) Hb' Hcur Har Haddr. unfold Cm_state in *.
  split; [done|]. unfold ready, Cm_state. rewrite Har, Haddr. split; [done|]. split; [auto|].
  split; [intros _; by apply Hc|]. split; [auto|].
  split; [|done]. unfold calls in Hl. cbn in Hl. by apply Forall_cons_1 in Hl as [_ ?].
Qed.

(** [apply] turns the actions into datagrams, cache entries and notifications. *)
(** What a list of actions does: the state apart from the cache and the call,
    the notifications in order, and what is sent, replies and calls. *)
Definition applied c acts (rc : option (RespondCtx * (Uuid * Z))) out c' out' : Prop :=
  ∃ outs replies callouts,
    wf_cm c' ∧ cm_ar c' = cm_ar c ∧
    cm_controller_addr c' = cm_controller_addr c ∧ cm_activity_seed c' = cm_activity_seed c ∧
    co_notify out' = co_notify out ++ notifications acts ∧ co_persist out' = co_persist out ∧
    co_send out' = co_send out ++ outs ∧ outs ≡ₚ replies ++ callouts ∧
    Forall (is_call c) callouts ∧
    match rc with
    | None => replies = [] ∧ cm_cache c' = cm_cache c
    | Some (x, k) =>
      Forall2 (λ r o, og_to o = rx_from x ∧ answers x r.1 r.2 (og_bytes o)) (responses acts) replies ∧
      cm_cache c' = foldl (λ ca o, cache_insert ca k (og_bytes o)) (cm_cache c) replies
    end.

Lemma applied_respond c acts x k status blocks pdu out c' out' :
  answers x status blocks pdu →
  applied (with_cache c (cache_insert (cm_cache c) k pdu)) acts (Some (x, k))
    (push_send out {| og_bytes := pdu; og_to := rx_from x |}) c' out' →
  applied c (Respond status blocks :: acts) (Some (x, k)) out c' out'.
Proof.
  intros Hans (outs & replies & callouts & Hwf & Har & Had & Hse & Hn & Hp & Hsnd & Hperm & Hcalls & HF & Hca).
  exists ({| og_bytes := pdu; og_to := rx_from x |} :: outs),
    ({| og_bytes := pdu; og_to := rx_from x |} :: replies), callouts.
  split_and!; try done.
  - cbn in Hsnd. by rewrite Hsnd, <-app_assoc.
  - cbn. by f_equiv.
  - by constructor.
Qed.

Lemma applied_call c c1 acts rc blocks out o c' out' :
  cm_ar c1 = cm_ar c → cm_cache c1 = cm_cache c → cm_controller_addr c1 = cm_controller_addr c →
  cm_activity_seed c1 = cm_activity_seed c → is_call c o →
  applied c1 acts rc (push_send out o) c' out' →
  applied c (CallController blocks :: acts) rc out c' out'.
Proof.
  intros Har1 Hca1 Had1 Hse1 Hcall
    (outs & replies & callouts & Hwf & Har & Had & Hse & Hn & Hp & Hsnd & Hperm & Hcalls & Hmatch).
  exists (o :: outs), replies, (o :: callouts). split_and!; try done; try congruence.
  - cbn in Hsnd. by rewrite Hsnd, <-app_assoc.
  - rewrite Hperm. by rewrite Permutation_middle.
  - constructor; [done|]. eapply Forall_weaken; [done|].
    intros o'. unfold is_call. by rewrite Had1, Hse1.
  - by rewrite <-Hca1.
Qed.

Lemma applied_notify c acts rc st reason out c' out' :
  applied c acts rc (push_notify out (st, reason)) c' out' →
  applied c (Notify st reason :: acts) rc out c' out'.
Proof.
  intros (outs & replies & callouts & Hwf & Har & Had & Hse & Hn & Hrest).
  exists outs, replies, callouts. split_and!; try apply Hrest; try done.
  cbn in Hn. by rewrite Hn, <-app_assoc.
Qed.

(** An action without a datagram leaves the manager ready for the next. *)
Lemma ready_tail c act acts new :
  calls (act :: acts) = calls acts → ready c (act :: acts) new → ready c acts new.
Proof.
  intros Hc Hready. pose proof Hready as [(_ & _ & _ & _ & _ & _ & ?) _].
  apply (ready_cache _ _ _ _ (cm_cache c)) in Hready; [|done..]. by destruct c.
Qed.

Lemma Cm_apply_applied {E} acts : ∀ c rc new out,
  ready c acts new → (∀ x k, rc = Some (x, k) → wf_respond_ctx x) →
  ∃ c' out', Cm_apply (E := E) c acts rc new out = Ok (c', out') ∧ applied c acts rc out c' out'.
Proof.
  induction acts as [|act acts IH]; intros c rc new out Hready Hrc; cbn [Cm_apply].
  { exists c, out. split; [done|]. exists [], [], []. rewrite !app_nil_r. split_and!; eauto using ready_nil.
    destruct rc as [[x k]|]; by repeat constructor. }
  destruct act as [status blocks|blocks|st reason]; cbn [obind].
  - destruct rc as [[x k]|].
    + destruct (build_response_pdu_ok (E := E) x status blocks) as (pdu & -> & Hans).
      { by eapply Hrc. }
      { destruct Hready as (_ & _ & _ & _ & _ & _ & Hr). by apply Forall_cons_1 in Hr as [? _]. }
      cbn [obind].
      destruct (IH (with_cache c (cache_insert (cm_cache c) k pdu)) (Some (x, k)) new
        (push_send out {| og_bytes := pdu; og_to := rx_from x |})) as (c' & out' & -> & Ha); [|done|].
      { apply (ready_cache _ (Respond status blocks)); [done|done|]. apply length_cache_insert.
        by destruct Hready as [(_ & _ & _ & _ & _ & _ & ?) _]. }
      exists c', out'. split; [done|]. by eapply applied_respond.
    + cbn [obind]. by destruct (IH c None new out) as (c' & out' & -> & Ha);
        [eapply (ready_tail _ (Respond status blocks))|done|exists c', out'].
  - pose proof Hready as (Hb & Haddr & _ & Hst & Hold & Hl & _).
    assert (calls (CallController blocks :: acts) ≠ []) as Hne by done.
    specialize (Hst Hne). destruct (Haddr ltac:(by rewrite Hst)) as [to Hto].
    apply Forall_cons_1 in Hl as [Hl _]. rewrite Hto. cbn [expect obind].
    destruct (build_call_pdu_ok (E := E) c blocks new) as
      (c1 & pdu & -> & Hb1 & Hcur1 & Har1 & Hca1 & Had1 & Hse1 & Hcall); [done..|auto|by rewrite Hto|].
    cbn [obind]. destruct (IH c1 rc new (push_send out {| og_bytes := pdu; og_to := to |}))
      as (c' & out' & -> & Ha); [by eapply ready_call|done|].
    exists c', out'. split; [done|]. eapply (applied_call c c1); try done. by apply Hcall.
  - cbn [obind]. destruct (IH c rc new (push_notify out (st, reason))) as (c' & out' & -> & Ha);
      [by eapply (ready_tail _ (Notify st reason))|done|].
    exists c', out'. split; [done|]. by apply applied_notify.
Qed.

Lemma Cm_apply_ok {E} acts : ∀ c rc new out,
  ready c acts new → (∀ x k, rc = Some (x, k) → wf_respond_ctx x) →
  ∃ c' out' outs replies callouts,
    Cm_apply (E := E) c acts rc new out = Ok (c', out') ∧ wf_cm c' ∧ cm_ar c' = cm_ar c ∧
    cm_controller_addr c' = cm_controller_addr c ∧ cm_activity_seed c' = cm_activity_seed c ∧
    co_notify out' = co_notify out ++ notifications acts ∧ co_persist out' = co_persist out ∧
    co_send out' = co_send out ++ outs ∧ outs ≡ₚ replies ++ callouts ∧
    Forall (is_call c) callouts ∧
    match rc with
    | None => replies = [] ∧ cm_cache c' = cm_cache c
    | Some (x, k) =>
      Forall2 (λ r o, og_to o = rx_from x ∧ answers x r.1 r.2 (og_bytes o)) (responses acts) replies ∧
      cm_cache c' = foldl (λ ca o, cache_insert ca k (og_bytes o)) (cm_cache c) replies
    end.
Proof.
  intros c rc new out Hready Hrc.
  destruct (Cm_apply_applied (E := E) acts c rc new out Hready Hrc) as (c' & out' & -> & outs & rs & cs & Ha).
  by exists c', out', outs, rs, cs.
Qed.

(** ** Serving a request *)

Definition wf_cm_error (e : CmError) : Prop :=
  match e with CmReject s => wf_status s | CmBlock _ => True end.

Lemma errs_block {A} (m : outcome BlockError A) : errs wf_cm_error (map_err CmBlock m).
Proof. intros e. destruct m; cbn; intros [= <-]; done. Qed.

Lemma errs_ConnectReq_parse blocks : errs wf_cm_error (ConnectReq_parse blocks).
Proof.
  unfold ConnectReq_parse. apply errs_bind; [apply errs_block|intros all].
  apply errs_bind.
  - generalize Grouped_empty. induction all as [|[h body] all IH]; intros g; cbn; [errs_tac|].
    apply errs_bind; [|intros; apply IH]. unfold group_block.
    errs_tac; try apply errs_block; cbn; unfold wf_status; by_decide.
  - intros g. errs_tac; cbn; unfold wf_status; by_decide.
Qed.

Lemma errs_WriteReq_parse blocks : errs wf_cm_error (WriteReq_parse blocks).
Proof. unfold WriteReq_parse. errs_tac; apply errs_block. Qed.

Lemma errs_ControlBlock_parse blocks : errs wf_cm_error (ControlBlock_parse blocks).
Proof. unfold ControlBlock_parse. errs_tac; try apply errs_block; done. Qed.

Lemma errs_ReadReq_parse blocks : errs wf_cm_error (ReadReq_parse blocks).
Proof. unfold ReadReq_parse. errs_tac; try apply errs_block; done. Qed.

(** The AR moved along its life cycle and said so. *)
Definition cm_follows (c c' : Cm) (ns : list (ArState * option AbortReason)) : Prop :=
  (∃ ev, lifecycle (Cm_state c) ev (Cm_state c') ns) ∧ ar_model (cm_ar c') = ar_model (cm_ar c).

Lemma cm_follows_stay c c' : cm_ar c' = cm_ar c → cm_follows c c' [].
Proof. intros Ha. unfold cm_follows, Cm_state. rewrite Ha. split; [|done]. exists EvTick. apply lc_stay. Qed.

(** The state in which [apply] takes over: nothing but the AR, the I&M store
    and the call bookkeeping changed, and there is one answer to send. *)
Definition served (c c' : Cm) (acts : list Action) : Prop :=
  ready c' acts true ∧ length (responses acts) = 1%nat ∧ cm_cache c' = cm_cache c ∧
  cm_activity_seed c' = cm_activity_seed c ∧ cm_follows c c' (notifications acts).

Lemma served_same c acts :
  wf_cm c → notifications acts = [] → calls acts = [] → length (responses acts) = 1%nat → Forall ok_response (responses acts) →
  served c c acts.
Proof.
  intros (Hb & Ha & Hc) Hn Hcalls Hr Hok. unfold served. rewrite Hn. split_and!; [|done..|].
  - unfold ready. rewrite Hcalls. split_and!; auto. by intros [].
  - by apply cm_follows_stay.
Qed.

Lemma served_respond c s : wf_cm c → wf_status s → served c c (respond s).
Proof. intros. apply served_same; [done..|]. apply Forall_singleton. split; [done|]. cbn. lia. Qed.

Lemma establishes_spec acts :
  establishes acts = existsb (λ n, bool_decide (n.1 = Connected)) (notifications acts).
Proof.
  induction acts as [|x acts IH]; [done|]. unfold establishes, notifications in *. cbn.
  destruct x as [| |st r]; cbn; [done..|]. destruct st; first [done | cbn; by rewrite IH].
Qed.

(** Only a Connect leaves [Idle], and it says so. *)
Lemma lifecycle_connect s r s' ns :
  lifecycle s (EvConnectReq r) s' ns →
  if existsb (λ n, bool_decide (n.1 = Connected)) ns then s' = Connected
  else s' ≠ Idle → s ≠ Idle.
Proof. inversion 1; subst; cbn; naive_solver. Qed.

Lemma lifecycle_idle ev s' ns :
  lifecycle Idle ev s' ns → (∀ r, ev ≠ EvConnectReq r) → s' = Idle.
Proof. inversion 1; subst; naive_solver. Qed.

Lemma follows_base c ev a acts :
  wf_cm c → wf_ar a → follows (cm_ar c) ev a acts → wf_base (with_ar c a).
Proof.
  intros ((_ & ? & ? & ? & ? & ? & ?) & _) Ha (Hm & _). unfold wf_base; cbn.
  split_and!; try done. congruence.
Qed.

Lemma follows_ready c ev a acts :
  wf_cm c → wf_ar a → follows (cm_ar c) ev a acts → (∀ r, ev ≠ EvConnectReq r) →
  ready (with_ar c a) acts (is_request ev).
Proof.
  intros Hc Ha Hf Hev. pose proof (follows_base _ _ _ _ Hc Ha Hf) as Hb.
  destruct Hc as (_ & Haddr & Hcur), Hf as (_ & Hl & (_ & Hok) & Hc1 & Hc2 & Hc3).
  unfold Cm_state in *. unfold ready, Cm_state; cbn [with_ar cm_ar cm_controller_addr
    cm_current_call_seq].
  split; [done|]. split.
  { intros Hs. apply Haddr. intros Hi. rewrite Hi in Hl. eauto using lifecycle_idle. }
  assert (is_request ev = false → ar_state a = AppReadySent → is_Some (cm_current_call_seq c))
    as Hold by (intros Hr Hs; destruct (Hc2 Hs); [auto|naive_solver]).
  split; [|split_and!; naive_solver].
  intros Hs. destruct (is_request ev) eqn:Hr; [|left; auto].
  destruct (Hc2 Hs); [left; auto|by right].
Qed.

Lemma connect_ready c r a acts from :
  wf_cm c → wf_ar a → follows (cm_ar c) (EvConnectReq r) a acts →
  ready (if establishes acts
         then with_call (with_ar c a) (cm_call_seq c) None (Some from) else with_ar c a) acts true.
Proof.
  intros Hc Ha Hf. pose proof (follows_base _ _ _ _ Hc Ha Hf) as Hb.
  destruct Hc as (_ & Haddr & Hcur), Hf as (_ & Hl & (_ & Hok) & Hc1 & Hc2 & Hc3).
  rewrite establishes_spec. apply lifecycle_connect in Hl. unfold Cm_state in *.
  destruct (existsb _ _).
  - assert (calls acts = []) as Hnc.
    { destruct (calls acts); [done|]. destruct Hc1 as [Hs _]; [done|]. by rewrite Hs in Hl. }
    unfold ready, Cm_state; cbn. rewrite Hl, Hnc.
    split; [by destruct Hb as (? & ? & ? & ? & ? & _ & ?)|]. split_and!; by eauto.
  - unfold ready, Cm_state; cbn [with_ar cm_ar cm_controller_addr cm_current_call_seq].
    split; [done|]. split; [by auto|]. split; [|split_and!; naive_solver].
    intros Hs. destruct (Hc2 Hs); [left; auto|by right].
Qed.

Lemma write_im_records_ok {E} model records : ∀ im, wf_store im →
  ∃ im' files, write_im_records (E := E) model im records = Ok (im', files) ∧ wf_store im'.
Proof.
  induction records as [|r records IH]; intros im Him; cbn [write_im_records]; [by eauto|].
  case_decide.
  - pose proof (no_panic_write_im_record (E := E) r model im Him) as Hnp.
    destruct (write_im_record r model im) as [[[st im1] file]|e|] eqn:Hw; [|exfalso|done].
    + apply (wf_write_im_record (E := E)) in Hw; [|done]. cbn [obind].
      destruct (IH im1 Hw) as (im2 & files & -> & ?). cbn. eauto.
    + unfold write_im_record in Hw. repeat case_match; done.
  - cbn [obind]. destruct (IH im Him) as (im2 & files & -> & ?). cbn. eauto.
Qed.

Lemma length_read_record req ctx b :
  wf_store (rc_im ctx) → read_record req ctx = Some b → (length b ≤ 60)%nat.
Proof.
  intros Him. unfold read_record. destruct (DeviceModel_find _ _ _); [|done].
  rewrite ImStore_read_body by done. destruct Him as (H1 & H2 & H3).
  case_decide; [intros [= <-]; by rewrite length_encode_im0|]. case_decide; [|done].
  unfold ImStore_body. repeat case_decide; try done; intros [= <-]; unfold im_record;
    rewrite length_block_wire, ?H1, ?H2, ?H3; unfold IM1_LEN, IM2_LEN, IM3_LEN; lia.
Qed.

Lemma handle_read_ok {E} c req check :
  wf_cm c → wf_uuid (rq_ar_uuid req) →
  ∃ acts, handle_read (E := E) c req check = Ok acts ∧ served c c acts.
Proof.
  intros Hc Hu. unfold handle_read. destruct (check && _).
  { eexists. split; [done|]. apply served_respond; [done|]. unfold wf_status. by_decide. }
  destruct (read_record _ _) as [data|] eqn:Hr.
  - pose proof Hc as ((_ & _ & Him & _) & _). apply length_read_record in Hr; [|done].
    unfold build_read_res. pose proof (length_Uuid_wire _ Drep_BIG Hu).
    rewrite Uuid_write_Ok by done. cbn [obind]. set (b := BlockHeader_write _ _ ++ _).
    assert (length b ≤ 4096)%nat as Hb by (subst b; len).
    exists (respond_ok b). split; [done|]. apply served_same; [done..|].
    apply Forall_singleton. split; [by_decide || (unfold wf_status; by_decide)|done].
  - eexists. split; [done|]. apply served_respond; [done|]. unfold wf_status. by_decide.
Qed.

Lemma drive_ok {c ev now} :
  wf_cm c → wf_event ev → is_request ev = true →
  ∃ a acts, drive c ev now = Ok (with_ar c a, acts, []) ∧ wf_ar a ∧
    follows (cm_ar c) ev a acts ∧ length (responses acts) = 1%nat.
Proof.
  intros Hc Hev Hr. pose proof Hc as ((Ha & _) & _).
  destruct (Ar_on_ok (E := RpcError) (cm_ar c) ev now Ha Hev) as (a & acts & He & Hwa & Hf).
  exists a, acts. unfold drive. rewrite He. split_and!; [done..|].
  destruct Hf as (_ & _ & (Hl & _) & _). by rewrite Hr in Hl.
Qed.

Lemma drive_served c ev now :
  wf_cm c → wf_event ev → is_request ev = true → (∀ r, ev ≠ EvConnectReq r) →
  ∃ c' acts, drive c ev now = Ok (c', acts, []) ∧ served c c' acts.
Proof.
  intros Hc Hev Hr Hn. destruct (drive_ok (now := now) Hc Hev Hr) as (a & acts & He & Ha & Hf & Hl).
  exists (with_ar c a), acts. split; [done|]. split_and!; [|done..|].
  - rewrite <-Hr. by apply follows_ready.
  - destruct Hf as (Hm & Hlc & _). split; [by exists ev|done].
Qed.

(** A parse failure is answered with the error's own status or the default. *)
Lemma or_respond_ok {A} c (m : outcome CmError A) d k :
  wf_cm c → no_panic m → errs wf_cm_error m → wf_status d →
  (∀ a, m = Ok a → ∃ c' acts files, k a = Ok (c', acts, files) ∧ served c c' acts) →
  ∃ c' acts files, or_respond c m d k = Ok (c', acts, files) ∧ served c c' acts.
Proof.
  intros Hc Hnp Herr Hd Hk. unfold or_respond. destruct m as [a|e|]; [by apply Hk| |done].
  do 3 eexists. split; [done|]. apply served_respond; [done|].
  pose proof (Herr e eq_refl) as He. by destruct e.
Qed.

Lemma with_im_served c c' acts im :
  served c c' acts → wf_store im → served c (with_im c' im) acts.
Proof.
  intros (((? & ? & ? & ? & ? & ? & ?) & Hrest) & ? & ? & ? & ?) Him. split; [|done].
  split; [|done]. done.
Qed.

Lemma serve_request_ok c opnum blocks from now :
  wf_cm c → Forall u8 blocks →
  ∃ c' acts files, serve_request c opnum blocks from now = Ok (c', acts, files) ∧ served c c' acts.
Proof.
  intros Hc Hb. assert (∀ z, u32 z → wf_status (MkStatus z)) as Hst by done.
  unfold serve_request. destruct (Opnum_from_u16 opnum) as [[]|].
  - unfold or_respond. pose proof (ConnectReq_parse_no_panic blocks) as Hnp.
    destruct (ConnectReq_parse blocks) as [req|e|] eqn:Hp; [| |done].
    + apply wf_ConnectReq_parse in Hp; [|done].
      destruct (drive_ok (ev := EvConnectReq req) (now := now) Hc Hp eq_refl)
        as (a & acts & -> & Ha & Hf & Hl). cbn [obind].
      do 3 eexists. split; [done|]. split; [by apply (connect_ready c req)|].
      destruct Hf as (Hm & Hlc & _). assert (cm_follows c (with_ar c a) (notifications acts))
        by (by split; [eexists|]). by destruct (establishes acts).
    + cbn [obind]. do 3 eexists. split; [done|]. cbn [establishes respond existsb orb].
      apply served_respond; [done|]. pose proof (errs_ConnectReq_parse blocks e Hp).
      destruct e; [by_decide || (unfold wf_status; by_decide)|done].
  - apply or_respond_ok; [done|auto with panics|apply errs_ControlBlock_parse|
      unfold wf_status; by_decide|].
    intros cb Hcb%wf_ControlBlock_parse; [|done].
    destruct (drive_served c (EvReleaseReq cb) now) as (c' & acts & ? & ?); try done; [|eauto].
    by destruct Hcb as (_ & ? & _).
  - apply or_respond_ok; [done|auto with panics|apply errs_ReadReq_parse|
      unfold wf_status; by_decide|].
    intros r Hr%wf_ReadReq_parse; [|done].
    destruct (handle_read_ok (E := RpcError) c r true Hc Hr) as (acts & -> & ?). cbn. eauto.
  - apply or_respond_ok; [done|auto with panics|apply errs_WriteReq_parse|
      unfold wf_status; by_decide|].
    intros req _. destruct (drive_served c (EvWriteReq req) now) as (c' & acts & -> & Hs); try done.
    cbn [obind]. destruct (accepted acts); [|by eauto].
    destruct (write_im_records_ok (E := RpcError) (cm_model c') (wq_records req) (cm_im c'))
      as (im & files & -> & Him).
    { by destruct Hs as (((_ & _ & ? & _) & _) & _). }
    cbn [obind]. do 3 eexists. split; [done|]. by apply with_im_served.
  - apply or_respond_ok; [done|auto with panics|apply errs_ControlBlock_parse|
      unfold wf_status; by_decide|].
    intros cb _. case_decide.
    + destruct (drive_served c (EvPrmEndReq cb) now) as (c' & acts & ? & ?); try done. eauto.
    + do 3 eexists. split; [done|]. apply served_respond; [done|]. unfold wf_status. by_decide.
  - apply or_respond_ok; [done|auto with panics|apply errs_ReadReq_parse|
      unfold wf_status; by_decide|].
    intros r Hr%wf_ReadReq_parse; [|done].
    destruct (handle_read_ok (E := RpcError) c r false Hc Hr) as (acts & -> & ?). cbn. eauto.
  - do 3 eexists. split; [done|]. apply served_respond; [done|]. unfold wf_status. by_decide.
Qed.

(** ** Steps and runs *)

(** Everything that drives the CM: a received datagram, the timer, an abort
    from the device. *)
Inductive CmInput :=
| InDatagram (buf : list Z) (from : SocketAddr) (now : Z)
| InTick (now : Z)
| InAbort (reason : AbortReason) (now : Z).

(** Datagrams are made of octets; nothing else is asked of them. *)
Definition wf_input (i : CmInput) : Prop :=
  match i with InDatagram buf _ _ => Forall u8 buf | _ => True end.

Definition Cm_step (c : Cm) (i : CmInput) : outcome RpcError (Cm * CmOutput) :=
  match i with
  | InDatagram buf from now => handle_datagram c buf from now
  | InTick now => Cm_tick c now
  | InAbort reason now => Cm_abort c reason now
  end.

(** A datagram refused with an RPC error is dropped by the caller. *)
Fixpoint Cm_run (c : Cm) (ins : list CmInput) : outcome Empty_set (Cm * list CmOutput) :=
  match ins with
  | [] => Ok (c, [])
  | i :: ins =>
    match Cm_step c i with
    | Ok (c', o) => let! (c'', os) := Cm_run c' ins in Ok (c'', o :: os)
    | Err _ => Cm_run c ins
    | Panic => Panic
    end
  end.

(** A well-formed PNIO request in a datagram. *)
Definition is_pnio_request (buf : list Z) (h : RpcHeader) (n : NdrRequest) (blocks : list Z) : Prop :=
  RpcHeader_parse buf = Ok h ∧ rh_ptype h = PtRequest ∧ rh_interface h = PNIO_DEVICE_INTERFACE ∧
  NdrRequest_parse (drop RpcHeader_LEN buf) (rh_drep h) = Ok (n, blocks).

Definition reply_ctx (h : RpcHeader) (n : NdrRequest) (from : SocketAddr) : RespondCtx :=
  {| rx_object := rh_object h; rx_interface := rh_interface h; rx_activity := rh_activity h;
     rx_seq_num := rh_seq_num h; rx_opnum := rh_opnum h; rx_args_max := nq_args_max n;
     rx_from := from |}.

Lemma Forall2_single {A B} (P : A → B → Prop) l k :
  length l = 1%nat → Forall2 P l k → ∃ a b, l = [a] ∧ k = [b] ∧ P a b.
Proof. destruct 2 as [|a b ? ? ? []]; try done; cbn in *; eauto. Qed.

Lemma request_step c buf from now h n blocks :
  wf_cm c → Forall u8 buf → is_pnio_request buf h n blocks →
  cache_lookup (cm_cache c) (rh_activity h, rh_seq_num h) = None →
  ∃ c' out reply callouts st bs, handle_datagram c buf from now = Ok (c', out) ∧ wf_cm c' ∧
    co_send out ≡ₚ reply :: callouts ∧ og_to reply = from ∧
    answers (reply_ctx h n from) st bs (og_bytes reply) ∧ Forall (is_call c') callouts ∧
    cm_cache c' = cache_insert (cm_cache c) (rh_activity h, rh_seq_num h) (og_bytes reply) ∧
    cm_follows c c' (co_notify out).
Proof.
  intros Hc Hb (Hh & Hpt & Hif & Hn) Hmiss.
  destruct (RpcHeader_parse_wf _ _ Hb Hh) as ((? & ? & ? & ? & ?) & Hlen).
  destruct (NdrRequest_parse_wf _ _ _ _ (Forall_drop _ _ _ Hb) Hn) as [Hargs Hbl].
  unfold handle_datagram. rewrite Hh. cbn [obind]. unfold slice_from.
  rewrite decide_True by done. cbn [obind]. rewrite Hpt, Hif.
  rewrite !decide_False by (done || tauto). rewrite Hmiss, Hn. cbn [obind].
  destruct (serve_request_ok c (rh_opnum h) blocks from now Hc Hbl)
    as (c1 & acts & files & -> & Hready & Hone & Hca & _ & Hfol). cbn [obind].
  set (x := {| rx_object := rh_object h |}).
  assert (wf_respond_ctx x) as Hx by (subst x; unfold wf_respond_ctx; cbn; by rewrite <-Hif).
  destruct (Cm_apply_ok (E := RpcError) acts c1 (Some (x, (rh_activity h, rh_seq_num h))) true
    {| co_send := []; co_notify := []; co_persist := files |})
    as (c' & out & outs & replies & callouts & -> & Hwf & Har & Had & Hse & Hnot & _ & Hsnd & Hperm &
        Hcalls & HF & Hcache); [done|by intros ? ? [= <- <-]|].
  destruct (Forall2_single _ _ _ Hone HF) as ([st bs] & reply & _ & -> & Hto & Hans).
  exists c', out, reply, callouts, st, bs. cbn in Hsnd. rewrite Hsnd. split_and!; try done.
  - subst x. unfold reply_ctx. by rewrite Hif.
  - eapply Forall_weaken; [done|]. intros o. unfold is_call. by rewrite Had, Hse.
  - by rewrite Hcache, Hca.
  - rewrite Hnot. unfold cm_follows, Cm_state in *. by rewrite Har.
Qed.

(** An input that is a well-formed PNIO request without a cached answer. *)
Definition new_request (c : Cm) (i : CmInput) : bool :=
  match i with
  | InDatagram buf _ _ =>
    match RpcHeader_parse buf with
    | Ok h =>
      bool_decide (rh_ptype h = PtRequest ∧ rh_interface h = PNIO_DEVICE_INTERFACE ∧
                   cache_lookup (cm_cache c) (rh_activity h, rh_seq_num h) = None) &&
      is_Ok (NdrRequest_parse (drop RpcHeader_LEN buf) (rh_drep h))
    | _ => false
    end
  | _ => false
  end.

(** The cache after a step: one more answer if it served a new request, and
    unchanged otherwise. *)
Definition cache_step (c : Cm) (i : CmInput) (c' : Cm) : Prop :=
  if new_request c i then
    ∃ k pdu, cache_lookup (cm_cache c) k = None ∧ cm_cache c' = cache_insert (cm_cache c) k pdu
  else cm_cache c' = cm_cache c.

(** A step that is not a request. *)
Lemma silent_step {E} c ev now :
  wf_cm c → wf_event ev → is_request ev = false →
  ∃ c' out,
    (let! (a, acts) := Ar_on (E := E) (cm_ar c) ev now in
     Cm_apply (with_ar c a) acts None false CmOutput_default) = Ok (c', out) ∧
    wf_cm c' ∧ cm_cache c' = cm_cache c ∧ cm_follows c c' (co_notify out).
Proof.
  intros Hc Hev Hr. pose proof Hc as ((Ha & _) & _).
  destruct (Ar_on_ok (E := E) (cm_ar c) ev now Ha Hev) as (a & acts & -> & Hwa & Hf). cbn [obind].
  destruct (Cm_apply_ok (E := E) acts (with_ar c a) None false CmOutput_default)
    as (c' & out & ? & ? & ? & -> & ? & Har & _ & _ & Hnot & _ & _ & _ & _ & _ & ?); [|done|].
  { rewrite <-Hr. apply follows_ready; try done. intros r ->. done. }
  exists c', out. split_and!; [done..|]. destruct Hf as (Hm & Hlc & _). rewrite Hnot.
  unfold cm_follows, Cm_state. rewrite Har. split; [by exists ev|done].
Qed.

Lemma Cm_step_ok c i :
  wf_cm c → wf_input i →
  (∃ e, Cm_step c i = Err e ∧ new_request c i = false) ∨
  ∃ c' out, Cm_step c i = Ok (c', out) ∧ wf_cm c' ∧ cache_step c i c' ∧ cm_follows c c' (co_notify out).
Proof.
  intros Hc Hi. unfold cache_step. destruct i as [buf from now|now|reason now]; cbn [Cm_step new_request].
  2,3: right; edestruct (silent_step (E := RpcError) c) as (c' & out & ? & ? & ? & ?);
    [done| | |by exists c', out; split; [eassumption|]; split_and!]; done.
  destruct (RpcHeader_parse buf) as [h|e|] eqn:Hh; cycle 1.
  { left. unfold handle_datagram. rewrite Hh. by eexists. }
  { by apply RpcHeader_parse_no_panic in Hh. }
  destruct (RpcHeader_parse_wf _ _ Hi Hh) as (_ & Hlen).
  case_bool_decide as Hnew; cbn [andb].
  { destruct Hnew as (Hpt & Hif & Hmiss).
    pose proof (NdrRequest_parse_no_panic (drop RpcHeader_LEN buf) (rh_drep h)) as Hnp.
    destruct (NdrRequest_parse (drop RpcHeader_LEN buf) (rh_drep h)) as [[n blocks]|e|] eqn:Hn;
      [right|left|done]; cbn [is_Ok].
    - destruct (request_step c buf from now h n blocks) as (c' & out & r & co & st & bs & ? & ? & _ &
        _ & _ & _ & ? & ?); [done..|]. exists c', out. split_and!; try done. eauto.
    - unfold handle_datagram. rewrite Hh. cbn [obind]. unfold slice_from.
      rewrite decide_True by done. cbn [obind]. rewrite Hpt, Hif, !decide_False by (done || tauto).
      rewrite Hmiss, Hn. by eexists. }
  unfold handle_datagram. rewrite Hh. cbn [obind]. unfold slice_from.
  rewrite decide_True by done. cbn [obind].
  destruct (decide (rh_ptype h = PtResponse)) as [Hpt|].
  { pose proof (NdrResponse_parse_no_panic (drop RpcHeader_LEN buf) (rh_drep h)) as Hnp.
    destruct (NdrResponse_parse _ _) as [[n bl]|e|]; [right|left; by eexists|done]. cbn [obind].
    destruct (silent_step (E := RpcError) c (EvAppReadyRsp (MkStatus (nr_status n))) now)
      as (c' & out & ? & ? & ? & ?); [done..|]. exists c', out. by split_and!. }
  destruct (decide (rh_ptype h ≠ PtRequest)).
  { right. do 2 eexists. split_and!; [done|done|done|by apply cm_follows_stay]. }
  destruct (decide (rh_interface h ≠ PNIO_DEVICE_INTERFACE)); [left; by eexists|].
  destruct (cache_lookup _ _) eqn:Hl.
  { right. do 2 eexists. split_and!; [done|done|done|by apply cm_follows_stay]. }
  destruct Hnew. split_and!; [by apply dec_stable..|done].
Qed.

(** An abort sends nothing, and is announced unless there was no AR. *)
Lemma Cm_abort_ok {E} c reason now :
  wf_cm c →
  ∃ c', Cm_abort (E := E) c reason now =
      Ok (c', {| co_send := []; co_persist := [];
                 co_notify := if decide (Cm_state c = Idle) then [] else [(Idle, Some reason)] |}) ∧
    wf_cm c' ∧ Cm_state c' = Idle ∧ ar_model (cm_ar c') = ar_model (cm_ar c).
Proof.
  intros Hc. destruct (silent_step (E := E) c (EvAbort reason) now Hc I eq_refl)
    as (c' & out & He & Hc' & _ & _ & Hm). change (Cm_abort (E := E) c reason now = Ok (c', out)) in He.
  exists c'. rewrite He. unfold Cm_abort in He. cbn in He. unfold Cm_state.
  case_decide; cbn in He; injection He as <- <-; split_and!; try done.
Qed.

Lemma wf_Cm_new model seed : wf_model model → wf_uuid seed → wf_cm (Cm_new model seed).
Proof.
  intros Hm Hu. split; [|by split].
  unfold wf_base; cbn. split_and!; try done. cbn. lia.
Qed.

Lemma Cm_run_ok ins : ∀ c, wf_cm c → Forall wf_input ins →
  ∃ c' outs, Cm_run c ins = Ok (c', outs) ∧ wf_cm c'.
Proof.
  induction ins as [|i ins IH]; intros c Hc Hins; cbn [Cm_run]; [by eauto|].
  apply Forall_cons_1 in Hins as [Hi Hins].
  destruct (Cm_step_ok c i Hc Hi) as [(e & -> & _)|(c1 & o & -> & Hc1 & _)]; [by apply IH|].
  destruct (IH c1 Hc1 Hins) as (c2 & os & -> & ?). cbn. eauto.
Qed.

(** C8: The connection manager never panics: from a fresh state, any sequence
    of datagrams of arbitrary octets, timer ticks and aborts runs to
    completion, and afterwards its invariant holds: the AR's own, a response
    cache of at most four entries, the controller's address known outside Idle
    and the outstanding call's sequence number known while one is pending. *)
Theorem Cm_never_panics model seed ins :
  wf_model model → wf_uuid seed → Forall wf_input ins →
  ∃ c outs, Cm_run (Cm_new model seed) ins = Ok (c, outs) ∧ wf_cm c.
Proof. intros Hm Hu Hins. apply Cm_run_ok; [by apply wf_Cm_new|done]. Qed.

(** C24: Every new PNIO request, whatever its opnum and blocks, is answered with
    exactly one response: a PDU sent back to the requester that parses as a
    Response echoing object, interface, activity, sequence number and opnum,
    with a consistent fragment length and NDR header; all else that is sent is
    a call to the controller. *)
Theorem Cm_answers_once c buf from now h n blocks :
  wf_cm c → Forall u8 buf → is_pnio_request buf h n blocks →
  cache_lookup (cm_cache c) (rh_activity h, rh_seq_num h) = None →
  ∃ c' out reply callouts st bs, handle_datagram c buf from now = Ok (c', out) ∧
    co_send out ≡ₚ reply :: callouts ∧ og_to reply = from ∧
    answers (reply_ctx h n from) st bs (og_bytes reply) ∧ Forall (is_call c') callouts.
Proof.
  intros Hc Hb Hr Hmiss.
  destruct (request_step c buf from now h n blocks) as (c' & out & r & co & st & bs & ? & _ & ? & ? &
    ? & ? & _); [done..|]. by exists c', out, r, co, st, bs.
Qed.

(** The new requests a sequence of inputs brings. *)
Fixpoint new_requests (c : Cm) (ins : list CmInput) : nat :=
  match ins with
  | [] => 0
  | i :: ins =>
    let c' := match Cm_step c i with Ok (c', _) => c' | _ => c end in
    if new_request c i then S (new_requests c' ins) else new_requests c' ins
  end.

(** Without new requests the cache stays. *)
Lemma Cm_run_fresh key ins : ∀ c, wf_cm c → Forall wf_input ins → cache_lookup (cm_cache c) key = None →
  ∃ c' outs, Cm_run c ins = Ok (c', outs) ∧ wf_cm c' ∧
    (new_requests c ins = 0%nat → cache_lookup (cm_cache c') key = None).
Proof.
  induction ins as [|i ins IH]; intros c Hc Hins Hl; cbn [Cm_run new_requests]; [by exists c, []|].
  apply Forall_cons_1 in Hins as [Hi Hins].
  destruct (Cm_step_ok c i Hc Hi) as [(e & -> & ->)|(c1 & o & -> & Hc1 & Hcs & _)]; [by apply IH|].
  unfold cache_step in Hcs. destruct (new_request c i).
  - destruct (Cm_run_ok ins c1 Hc1 Hins) as (c2 & os & -> & ?). by exists c2, (o :: os).
  - rewrite <-Hcs in Hl. destruct (IH c1 Hc1 Hins Hl) as (c2 & os & -> & ?). by exists c2, (o :: os).
Qed.

(** The entry survives up to three further new requests, and no fourth. *)
Lemma Cm_run_cached key pdu ins : ∀ c k, wf_cm c → Forall wf_input ins →
  (k < CACHE_CAPACITY)%nat → cached (cm_cache c) key pdu k →
  ∃ c' outs, Cm_run c ins = Ok (c', outs) ∧ wf_cm c' ∧
    ((k + new_requests c ins < CACHE_CAPACITY)%nat → cached (cm_cache c') key pdu (k + new_requests c ins)) ∧
    ((k + new_requests c ins = CACHE_CAPACITY)%nat → cache_lookup (cm_cache c') key = None).
Proof.
  induction ins as [|i ins IH]; intros c k Hc Hins Hk Hca; cbn [Cm_run new_requests].
  { exists c, []. rewrite Nat.add_0_r. by split_and!; [| | |lia]. }
  apply Forall_cons_1 in Hins as [Hi Hins].
  destruct (Cm_step_ok c i Hc Hi) as [(e & -> & ->)|(c1 & o & -> & Hc1 & Hcs & _)]; [by apply IH|].
  unfold cache_step in Hcs. destruct (new_request c i).
  2: { destruct (IH c1 k) as (c2 & os & -> & ?); [done..|by rewrite Hcs|]. by exists c2, (o :: os). }
  destruct Hcs as (k1 & p1 & Hnew & Heq).
  pose proof (cache_insert_other _ _ _ _ p1 _ (wf_cm_cache c Hc) Hca Hnew) as Hoth. rewrite <-Heq in Hoth.
  case_decide as Hlt.
  - destruct (IH c1 (S k)) as (c2 & os & -> & ?); [done..|lia|done|].
    exists c2, (o :: os). rewrite Nat.add_succ_r. by split.
  - destruct (Cm_run_fresh key ins c1 Hc1 Hins Hoth) as (c2 & os & -> & ? & Hf).
    exists c2, (o :: os). split_and!; [done|done|lia|]. intros Hn. apply Hf. lia.
Qed.

(** C31: A retransmitted request is answered from the cache until four other
    requests have been served.  After the first answer and any further inputs,
    however many, that bring at most three new requests (ticks, aborts,
    responses, malformed datagrams and retransmissions do not count), the same
    datagram, from whatever address, gets the byte-identical response and
    changes nothing, so it takes no second effect.  The bound is exact: after a
    fourth new request the entry is gone, and the datagram would be served as a
    new one. *)
Theorem Cm_retransmission c buf from now h n blocks ins from' now' :
  wf_cm c → Forall u8 buf → is_pnio_request buf h n blocks →
  cache_lookup (cm_cache c) (rh_activity h, rh_seq_num h) = None → Forall wf_input ins →
  ∃ c1 out reply c2 outs,
    handle_datagram c buf from now = Ok (c1, out) ∧
    {| og_bytes := reply; og_to := from |} ∈ co_send out ∧
    Cm_run c1 ins = Ok (c2, outs) ∧
    ((new_requests c1 ins < CACHE_CAPACITY)%nat →
     handle_datagram c2 buf from' now' =
       Ok (c2, {| co_send := [{| og_bytes := reply; og_to := from' |}]; co_notify := [];
                  co_persist := [] |})) ∧
    (new_requests c1 ins = CACHE_CAPACITY → new_request c2 (InDatagram buf from' now') = true).
Proof.
  intros Hc Hb Hr Hmiss Hins.
  destruct (request_step c buf from now h n blocks) as (c1 & out & r & co & st & bs & Hd & Hc1 & Hperm &
    Hto & _ & _ & Hca & _); [done..|].
  destruct (Cm_run_cached (rh_activity h, rh_seq_num h) (og_bytes r) ins c1 0)
    as (c2 & outs & Hrun & _ & Hcached & Hgone); [done..|unfold CACHE_CAPACITY; lia| |].
  { rewrite Hca. by apply cache_insert_new. }
  exists c1, out, (og_bytes r), c2, outs. destruct Hr as (Hh & Hpt & Hif & Hn). split_and!; try done.
  - rewrite Hperm. destruct r; cbn in Hto; subst. by left.
  - intros Hlt. destruct (RpcHeader_parse_wf _ _ Hb Hh) as (_ & Hlen).
    unfold handle_datagram. rewrite Hh. cbn [obind]. unfold slice_from.
    rewrite decide_True by done. cbn [obind]. rewrite Hpt, Hif, !decide_False by (done || tauto).
    by rewrite (cached_lookup _ _ _ _ (Hcached Hlt)).
  - intros Heq. cbn [new_request]. rewrite Hh, Hn, bool_decide_true; [done|]. by rewrite Hgone.
Qed.

(** ** Witnesses *)

Definition sample_seed : Uuid := sample_uuid 99.
Definition sample_from : SocketAddr := {| sa_ip := [10; 0; 0; 2]; sa_port := 50000 |}.

(** A Request datagram with the given opnum, sequence number and blocks. *)
Definition sample_header (opnum seq : Z) (blocks : list Z) : RpcHeader :=
  {| rh_ptype := PtRequest; rh_flags1 := FLAG1_IDEMPOTENT; rh_flags2 := 0; rh_drep := Drep_LITTLE;
     rh_serial_hi := 0; rh_object := sample_uuid 1; rh_interface := PNIO_DEVICE_INTERFACE;
     rh_activity := sample_uuid 2; rh_server_boot := 0; rh_if_version := 1; rh_seq_num := seq;
     rh_opnum := opnum; rh_ihint := 0xffff; rh_ahint := 0xffff;
     rh_frag_len := 20 + Z.of_nat (length blocks); rh_frag_num := 0; rh_auth_proto := 0;
     rh_serial_lo := 0 |}.
Definition sample_ndr (blocks : list Z) : NdrRequest :=
  NdrRequest_for_blocks 1340 (Z.of_nat (length blocks)).
Definition sample_datagram (opnum seq : Z) (blocks : list Z) : list Z :=
  RpcHeader_wire (sample_header opnum seq blocks)
  ++ NdrRequest_write (sample_ndr blocks) Drep_LITTLE ++ blocks.

Definition connect_blocks : list Z := connect_wire sample_blocks.
Definition prm_end_blocks : list Z :=
  block_wire IOD_CONTROL_REQ_PRM_END (ControlBlock_body (sample_control IOD_CONTROL_REQ_PRM_END)).
Definition sample_connect : list Z := sample_datagram 0 1 connect_blocks.
Definition sample_prm_end : list Z := sample_datagram 4 2 prm_end_blocks.

Lemma Cm_never_panics_witness :
  ∃ c outs, Cm_run (Cm_new sample_model sample_seed)
    [InDatagram sample_connect sample_from 0; InDatagram sample_prm_end sample_from 5;
     InTick 2000000000; InDatagram [1; 2; 3] sample_from 6; InAbort Shutdown 7] = Ok (c, outs) ∧
    wf_cm c.
Proof.
  apply (Cm_never_panics sample_model sample_seed).
  - exact sample_wf_model.
  - unfold wf_uuid. by_decide.
  - repeat apply List.Forall_cons; try apply List.Forall_nil; cbn [wf_input]; try exact I; by_decide.
Defined.

Lemma sample_connect_request :
  is_pnio_request sample_connect (sample_header 0 1 connect_blocks) (sample_ndr connect_blocks)
    connect_blocks.
Proof. unfold is_pnio_request. split_and!; by vm_compute. Qed.

Lemma Cm_answers_once_witness :
  ∃ c' out reply callouts st bs,
    handle_datagram (Cm_new sample_model sample_seed) sample_connect sample_from 0 = Ok (c', out) ∧
    co_send out ≡ₚ reply :: callouts ∧ og_to reply = sample_from ∧
    answers (reply_ctx (sample_header 0 1 connect_blocks) (sample_ndr connect_blocks) sample_from)
      st bs (og_bytes reply) ∧ Forall (is_call c') callouts.
Proof.
  apply (Cm_answers_once _ sample_connect sample_from 0 (sample_header 0 1 connect_blocks)
    (sample_ndr connect_blocks) connect_blocks).
  - apply wf_Cm_new; [exact sample_wf_model|unfold wf_uuid; by_decide].
  - by_decide.
  - exact sample_connect_request.
  - reflexivity.
Defined.

(** Three further requests of other kinds, among ticks, garbage and a repeated
    datagram; a fourth evicts the answer. *)
Definition sample_others : list CmInput :=
  [InDatagram sample_prm_end sample_from 5; InTick 6; InDatagram [1; 2; 3] sample_from 6;
   InDatagram (sample_datagram 2 3 []) sample_from 7; InDatagram sample_prm_end sample_from 7;
   InDatagram (sample_datagram 5 4 []) sample_from 8; InTick 9].
Definition sample_connected : Cm :=
  match handle_datagram (Cm_new sample_model sample_seed) sample_connect sample_from 0 with
  | Ok (c, _) => c
  | _ => Cm_new sample_model sample_seed
  end.

Lemma Cm_retransmission_witness :
  (∃ out reply c2 outs,
    {| og_bytes := reply; og_to := sample_from |} ∈ co_send out ∧
    Cm_run sample_connected sample_others = Ok (c2, outs) ∧
    handle_datagram c2 sample_connect sample_from 10 =
      Ok (c2, {| co_send := [{| og_bytes := reply; og_to := sample_from |}]; co_notify := [];
                 co_persist := [] |})) ∧
  new_requests sample_connected (sample_others ++ [InDatagram (sample_datagram 2 9 []) sample_from 11])
    = CACHE_CAPACITY.
Proof.
  split; [|vm_compute; reflexivity].
  destruct (Cm_retransmission (Cm_new sample_model sample_seed) sample_connect sample_from 0
    (sample_header 0 1 connect_blocks) (sample_ndr connect_blocks) connect_blocks sample_others sample_from 10)
    as (c1 & out & reply & c2 & outs & Hd & Hin & Hrun & Hcached & _).
  - apply wf_Cm_new; [exact sample_wf_model|unfold wf_uuid; by_decide].
  - by_decide.
  - exact sample_connect_request.
  - reflexivity.
  - repeat apply List.Forall_cons; try apply List.Forall_nil; cbn [wf_input]; try exact I; by_decide.
  - assert (sample_connected = c1) as <- by (unfold sample_connected; by rewrite Hd).
    exists out, reply, c2, outs. split; [exact Hin|]. split; [exact Hrun|].
    apply Hcached. apply (bool_decide_eq_true_1 _). vm_compute. reflexivity.
Defined.
