(* ===== verification/Rta.v ===== *)
(** * Rta: the alarm transport PDU codec

    Models [crates/pnio/src/alarm/rta.rs]: the RTA header, the packed
    AlarmSpecifier and ChannelProperties words, the AlarmNotification and
    AlarmAck blocks, and whole alarm frames. *)

From S2P Require Import Prelude Eth Rpc Block.
Local Open Scope Z_scope.

(** ** Constants *)

(** alarm/rta.rs:16-17 FRAME_ID_HIGH *)
Definition FRAME_ID_HIGH : Z := 0xFC01.
(** alarm/rta.rs:18-19 FRAME_ID_LOW *)
Definition FRAME_ID_LOW : Z := 0xFE01.
(** alarm/rta.rs:20-21 TCI_HIGH *)
Definition TCI_HIGH : Z := 0xC000.
(** alarm/rta.rs:22-23 TCI_LOW *)
Definition TCI_LOW : Z := 0xA000.
(** alarm/rta.rs:24-25 SEQ_INIT *)
Definition SEQ_INIT : Z := 0xFFFF.
(** alarm/rta.rs:26-27 SEQ_NONE *)
Definition SEQ_NONE : Z := 0xFFFE.
(** alarm/rta.rs:28-29 USI_CHANNEL_DIAG *)
Definition USI_CHANNEL_DIAG : Z := 0x8000.
(** alarm/rta.rs:30-31 USI_EXT_CHANNEL_DIAG *)
Definition USI_EXT_CHANNEL_DIAG : Z := 0x8002.

(** ** Header *)

(** alarm/rta.rs:37-45 Priority *)
Inductive Priority := High | Low.

#[global] Instance Priority_eq_dec : EqDecision Priority.
Proof. solve_decision. Defined.

(** alarm/rta.rs:48-54 Priority::frame_id *)
Definition Priority_frame_id (p : Priority) : Z :=
  match p with High => FRAME_ID_HIGH | Low => FRAME_ID_LOW end.
(** alarm/rta.rs:56-62 Priority::tci *)
Definition Priority_tci (p : Priority) : Z := match p with High => TCI_HIGH | Low => TCI_LOW end.

(** alarm/rta.rs:65-76 PduType *)
Inductive PduType := PduData | PduNack | PduAck | PduErr.
#[global] Instance PduType_eq_dec : EqDecision PduType.
Proof. solve_decision. Defined.

(** The discriminant, [pdu_type as u8]. *)
Definition PduType_to_u8 (t : PduType) : Z :=
  match t with PduData => 1 | PduNack => 2 | PduAck => 3 | PduErr => 4 end.

(** alarm/rta.rs:78-95 RtaHeader *)
Record RtaHeader := {
  rt_dst_ref : Z; rt_src_ref : Z; rt_pdu_type : PduType; rt_tack : bool; rt_send_seq : Z;
  rt_ack_seq : Z
}.

(** alarm/rta.rs:501-531 RtaError *)
Inductive RtaError :=
| RtaEth (e : EthError)
| NotAlarm
| RtaTooShort
| BadPduType (t : Z)
| RtaBadVersion (v : Z)
| RtaBlock (e : BlockError)
| BadVarPartLen (declared : Z) (available : nat).

(** alarm/rta.rs:98-99 RtaHeader::LEN *)
Definition RtaHeader_LEN : nat := 12.

(** alarm/rta.rs:101-129 RtaHeader::parse *)
Definition RtaHeader_parse (buf : list Z) : outcome RtaError (RtaHeader * Z) :=
  if decide (length buf < RtaHeader_LEN)%nat then Err RtaTooShort else
  let! b4 := idx buf 4 in
  let version := Z.shiftr b4 4 in
  let ty := Z.land b4 0x0F in
  if decide (version ≠ 1) then Err (RtaBadVersion version) else
  let! pdu_type :=
    match ty with
    | 1 => Ok PduData
    | 2 => Ok PduNack
    | 3 => Ok PduAck
    | 4 => Ok PduErr
    | t => Err (BadPduType t)
    end in
  let! dst_ref := be16_at buf 0 in
  let! src_ref := be16_at buf 2 in
  let! b5 := idx buf 5 in
  let! send_seq := be16_at buf 6 in
  let! ack_seq := be16_at buf 8 in
  let! var_part_len := be16_at buf 10 in
  Ok ({| rt_dst_ref := dst_ref; rt_src_ref := src_ref; rt_pdu_type := pdu_type;
         rt_tack := bool_decide (Z.land b5 0x10 ≠ 0); rt_send_seq := send_seq;
         rt_ack_seq := ack_seq |}, var_part_len).

(** alarm/rta.rs:131-140 RtaHeader::write *)
Definition RtaHeader_write (h : RtaHeader) (var_part_len : Z) : list Z :=
  be16 (rt_dst_ref h) ++ be16 (rt_src_ref h)
  ++ [Z.lor 0x10 (PduType_to_u8 (rt_pdu_type h))]
  ++ [Z.lor 0x01 (if rt_tack h then 0x10 else 0)]
  ++ be16 (rt_send_seq h) ++ be16 (rt_ack_seq h) ++ be16 var_part_len.

(** ** Alarm types *)

(** alarm/rta.rs:147-176 AlarmType *)
Inductive AlarmType :=
| AtDiagnosis | AtProcess | AtPull | AtPlug | AtStatus | AtUpdate | AtRedundancy
| AtControlledBySupervisor | AtReleased | AtPlugWrongSubmodule | AtReturnOfSubmodule
| AtDiagnosisDisappears
| AtOther (v : Z).

#[global] Instance AlarmType_eq_dec : EqDecision AlarmType.
Proof. solve_decision. Defined.

(** alarm/rta.rs:179-196 AlarmType::from_u16 *)
Definition AlarmType_from_u16 (v : Z) : AlarmType :=
  match v with
  | 0x0001 => AtDiagnosis
  | 0x0002 => AtProcess
  | 0x0003 => AtPull
  | 0x0004 => AtPlug
  | 0x0005 => AtStatus
  | 0x0006 => AtUpdate
  | 0x0007 => AtRedundancy
  | 0x0008 => AtControlledBySupervisor
  | 0x0009 => AtReleased
  | 0x000A => AtPlugWrongSubmodule
  | 0x000B => AtReturnOfSubmodule
  | 0x000C => AtDiagnosisDisappears
  | other => AtOther other
  end.

(** alarm/rta.rs:198-215 AlarmType::to_u16 *)
Definition AlarmType_to_u16 (t : AlarmType) : Z :=
  match t with
  | AtDiagnosis => 0x0001
  | AtProcess => 0x0002
  | AtPull => 0x0003
  | AtPlug => 0x0004
  | AtStatus => 0x0005
  | AtUpdate => 0x0006
  | AtRedundancy => 0x0007
  | AtControlledBySupervisor => 0x0008
  | AtReleased => 0x0009
  | AtPlugWrongSubmodule => 0x000A
  | AtReturnOfSubmodule => 0x000B
  | AtDiagnosisDisappears => 0x000C
  | AtOther v => v
  end.

(** ** AlarmSpecifier *)

(** alarm/rta.rs:222-235 AlarmSpecifier *)
Record AlarmSpecifier := {
  as_sequence : Z; as_channel_diag : bool; as_manufacturer_diag : bool;
  as_submodule_diag : bool; as_ar_diag : bool
}.

#[global] Instance AlarmSpecifier_eq_dec : EqDecision AlarmSpecifier.
Proof. solve_decision. Defined.

Definition bit_set (raw mask : Z) : bool := bool_decide (Z.land raw mask ≠ 0).

(** alarm/rta.rs:238-247 AlarmSpecifier::from_u16 *)
Definition AlarmSpecifier_from_u16 (raw : Z) : AlarmSpecifier :=
  {| as_sequence := Z.land raw 0x07FF;
     as_channel_diag := bit_set raw 0x0800;
     as_manufacturer_diag := bit_set raw 0x1000;
     as_submodule_diag := bit_set raw 0x2000;
     as_ar_diag := bit_set raw 0x8000 |}.

Definition flag (b : bool) (n : Z) : Z := Z.shiftl (Z.b2z b) n.

(** alarm/rta.rs:249-256 AlarmSpecifier::to_u16 *)
Definition AlarmSpecifier_to_u16 (s : AlarmSpecifier) : Z :=
  Z.lor (Z.lor (Z.lor (Z.lor (Z.land (as_sequence s) 0x07FF) (flag (as_channel_diag s) 11))
                      (flag (as_manufacturer_diag s) 12))
               (flag (as_submodule_diag s) 13))
        (flag (as_ar_diag s) 15).

(** ** Channel diagnosis *)

(** alarm/rta.rs:263-274 Maintenance *)
Inductive Maintenance := MtFault | MtRequired | MtDemanded | MtQualified.
Definition Maintenance_to_u16 (m : Maintenance) : Z :=
  match m with MtFault => 0 | MtRequired => 1 | MtDemanded => 2 | MtQualified => 3 end.
(** alarm/rta.rs:276-288 Specifier *)
Inductive Specifier := SpAllDisappear | SpAppears | SpDisappears | SpDisappearsOthersRemain.
Definition Specifier_to_u16 (s : Specifier) : Z :=
  match s with
  | SpAllDisappear => 0 | SpAppears => 1 | SpDisappears => 2 | SpDisappearsOthersRemain => 3
  end.

#[global] Instance Maintenance_eq_dec : EqDecision Maintenance.
Proof. solve_decision. Defined.
#[global] Instance Specifier_eq_dec : EqDecision Specifier.
Proof. solve_decision. Defined.

(** alarm/rta.rs:290-303 ChannelProperties *)
Record ChannelProperties := {
  cp_type : Z; cp_accumulative : bool; cp_maintenance : Maintenance; cp_specifier : Specifier;
  cp_direction : Z
}.

#[global] Instance ChannelProperties_eq_dec : EqDecision ChannelProperties.
Proof. solve_decision. Defined.

(** alarm/rta.rs:306-327 ChannelProperties::from_u16 *)
Definition ChannelProperties_from_u16 (raw : Z) : ChannelProperties :=
  {| cp_type := Z.land raw 0x00FF;
     cp_accumulative := bit_set raw 0x0100;
     cp_maintenance :=
       match Z.land (Z.shiftr raw 9) 0x3 with
       | 0 => MtFault | 1 => MtRequired | 2 => MtDemanded | _ => MtQualified
       end;
     cp_specifier :=
       match Z.land (Z.shiftr raw 11) 0x3 with
       | 0 => SpAllDisappear | 1 => SpAppears | 2 => SpDisappears | _ => SpDisappearsOthersRemain
       end;
     cp_direction := Z.land (Z.shiftr raw 13) 0x7 |}.

(** alarm/rta.rs:329-336 ChannelProperties::to_u16 *)
Definition ChannelProperties_to_u16 (p : ChannelProperties) : Z :=
  Z.lor (Z.lor (Z.lor (Z.lor (cp_type p) (flag (cp_accumulative p) 8))
                      (Z.shiftl (Maintenance_to_u16 (cp_maintenance p)) 9))
               (Z.shiftl (Specifier_to_u16 (cp_specifier p)) 11))
        (wrap16 (Z.shiftl (cp_direction p) 13)).

(** alarm/rta.rs:339-348 ChannelDiagnosis *)
Record ChannelDiagnosis := {
  cd_channel : Z; cd_properties : ChannelProperties; cd_error_type : Z
}.

(** alarm/rta.rs:351-357 ChannelDiagnosis::parse *)
Definition ChannelDiagnosis_parse {E} (b : list Z) : outcome E ChannelDiagnosis :=
  let! channel := be16_at b 0 in
  let! properties := be16_at b 2 in
  let! error_type := be16_at b 4 in
  Ok {| cd_channel := channel; cd_properties := ChannelProperties_from_u16 properties;
        cd_error_type := error_type |}.

(** alarm/rta.rs:359-363 ChannelDiagnosis::write *)
Definition ChannelDiagnosis_write (d : ChannelDiagnosis) : list Z :=
  be16 (cd_channel d) ++ be16 (ChannelProperties_to_u16 (cd_properties d))
  ++ be16 (cd_error_type d).

(** alarm/rta.rs:366-380 ExtChannelDiagnosis *)
Record ExtChannelDiagnosis := {
  xd_channel : Z; xd_properties : ChannelProperties; xd_error_type : Z;
  xd_ext_error_type : Z; xd_ext_add_value : Z
}.

(** alarm/rta.rs:383-391 ExtChannelDiagnosis::parse *)
Definition ExtChannelDiagnosis_parse {E} (b : list Z) : outcome E ExtChannelDiagnosis :=
  let! channel := be16_at b 0 in
  let! properties := be16_at b 2 in
  let! error_type := be16_at b 4 in
  let! ext_error_type := be16_at b 6 in
  let! ext_add_value := be32_at b 8 in
  Ok {| xd_channel := channel; xd_properties := ChannelProperties_from_u16 properties;
        xd_error_type := error_type; xd_ext_error_type := ext_error_type;
        xd_ext_add_value := ext_add_value |}.

(** alarm/rta.rs:393-399 ExtChannelDiagnosis::write *)
Definition ExtChannelDiagnosis_write (d : ExtChannelDiagnosis) : list Z :=
  be16 (xd_channel d) ++ be16 (ChannelProperties_to_u16 (xd_properties d))
  ++ be16 (xd_error_type d) ++ be16 (xd_ext_error_type d) ++ be32 (xd_ext_add_value d).

(** alarm/rta.rs:402-411 UserData *)
Inductive UserData :=
| UdChannel (d : ChannelDiagnosis)
| UdExtChannel (d : ExtChannelDiagnosis)
| UdRaw (b : list Z).

(** ** Notification, acknowledgement, PDU *)

(** alarm/rta.rs:417-438 AlarmNotification *)
Record AlarmNotification := {
  an_alarm_type : AlarmType; an_api : Z; an_slot : Z; an_subslot : Z; an_module_ident : Z;
  an_submodule_ident : Z; an_specifier : AlarmSpecifier; an_usi : Z; an_data : UserData
}.
(** alarm/rta.rs:440-455 AlarmAck *)
Record AlarmAck := {
  aa_alarm_type : AlarmType; aa_api : Z; aa_slot : Z; aa_subslot : Z;
  aa_specifier : AlarmSpecifier; aa_status : PnioStatus
}.
(** alarm/rta.rs:457-471 RtaData *)
Inductive RtaData :=
| RdNotification (n : AlarmNotification)
| RdAck (a : AlarmAck)
| RdUnknown (block_type : Z) (body : list Z).
(** alarm/rta.rs:473-484 RtaBody *)
Inductive RtaBody := RbData (d : RtaData) | RbAck | RbNack | RbErr (s : PnioStatus).
(** alarm/rta.rs:486-495 RtaPdu *)
Record RtaPdu := { rp_priority : Priority; rp_header : RtaHeader; rp_body : RtaBody }.

(** [c.remaining()] as a read. *)
Definition p_remaining : parser nat := λ c, Ok (Cursor_remaining c, c).
Definition p_lift {A} (m : outcome BlockError A) : parser A := λ c, let! a := m in Ok (a, c).

(** alarm/rta.rs:616-624 parse_notification *)
Definition parse_user_data {E} (usi : Z) (data_bytes : list Z) : outcome E UserData :=
  if decide (usi = USI_CHANNEL_DIAG ∧ length data_bytes = 6%nat) then
    let! d := ChannelDiagnosis_parse data_bytes in Ok (UdChannel d)
  else if decide (usi = USI_EXT_CHANNEL_DIAG ∧ length data_bytes = 12%nat) then
    let! d := ExtChannelDiagnosis_parse data_bytes in Ok (UdExtChannel d)
  else Ok (UdRaw data_bytes).

(** alarm/rta.rs:604-636 parse_notification *)
Definition notification_parser : parser AlarmNotification :=
  read! alarm_type := Cursor_u16 in
  read! api := Cursor_u32 in
  read! slot := Cursor_u16 in
  read! subslot := Cursor_u16 in
  read! module_ident := Cursor_u32 in
  read! submodule_ident := Cursor_u32 in
  read! specifier := Cursor_u16 in
  read! usi := Cursor_u16 in
  read! n := p_remaining in
  read! data_bytes := Cursor_bytes n in
  read! data := p_lift (parse_user_data usi data_bytes) in
  p_ret {| an_alarm_type := AlarmType_from_u16 alarm_type; an_api := api; an_slot := slot;
           an_subslot := subslot; an_module_ident := module_ident;
           an_submodule_ident := submodule_ident;
           an_specifier := AlarmSpecifier_from_u16 specifier; an_usi := usi; an_data := data |}.

(** alarm/rta.rs:638-654 parse_ack *)
Definition ack_parser : parser AlarmAck :=
  read! alarm_type := Cursor_u16 in
  read! api := Cursor_u32 in
  read! slot := Cursor_u16 in
  read! subslot := Cursor_u16 in
  read! specifier := Cursor_u16 in
  read! status := Cursor_u32 in
  p_ret {| aa_alarm_type := AlarmType_from_u16 alarm_type; aa_api := api; aa_slot := slot;
           aa_subslot := subslot; aa_specifier := AlarmSpecifier_from_u16 specifier;
           aa_status := MkStatus status |}.

(** alarm/rta.rs:593-602 parse_rta_data *)
Definition parse_rta_data (block_type : Z) (body : list Z) : outcome RtaError RtaData :=
  if decide (block_type = 0x0001 ∨ block_type = 0x0002) then
    let! n := map_err RtaBlock (run_parser notification_parser body) in Ok (RdNotification n)
  else if decide (block_type = 0x8001 ∨ block_type = 0x8002) then
    let! a := map_err RtaBlock (run_parser ack_parser body) in Ok (RdAck a)
  else Ok (RdUnknown block_type body).

(** alarm/rta.rs:537-591 parse_frame *)
Definition parse_frame (frame : list Z) : outcome RtaError RtaPdu :=
  let! (eth, off) := map_err RtaEth (EthHeader_parse frame) in
  if decide (eth_ethertype eth ≠ ETHERTYPE_PROFINET) then Err NotAlarm else
  if decide (length frame < off + 2)%nat then Err RtaTooShort else
  let! frame_id := be16_at frame off in
  let! priority :=
    (if decide (frame_id = FRAME_ID_HIGH) then Ok High
     else if decide (frame_id = FRAME_ID_LOW) then Ok Low
     else Err NotAlarm) in
  let rta_off := (off + 2)%nat in
  let! rest := slice_from frame rta_off in
  let! (header, var_part_len) := RtaHeader_parse rest in
  let var_off := (rta_off + RtaHeader_LEN)%nat in
  let available := (length frame - var_off)%nat in
  if decide (Z.of_nat available < var_part_len) then Err (BadVarPartLen var_part_len available)
  else
  let! var_part := slice frame var_off (var_off + Z.to_nat var_part_len) in
  let! body :=
    match rt_pdu_type header with
    | PduAck => Ok RbAck
    | PduNack => Ok RbNack
    | PduErr =>
      if decide (length var_part < 4)%nat then Err RtaTooShort else
      let! s := be32_at var_part 0 in Ok (RbErr (MkStatus s))
    | PduData =>
      let! (bh, body_bytes) := map_err RtaBlock (BlockHeader_parse var_part) in
      let! d := parse_rta_data (bh_block_type bh) body_bytes in
      Ok (RbData d)
    end in
  Ok {| rp_priority := priority; rp_header := header; rp_body := body |}.

(** alarm/rta.rs:705-709 write_notification *)
Definition write_user_data (d : UserData) : list Z :=
  match d with
  | UdChannel d => ChannelDiagnosis_write d
  | UdExtChannel d => ExtChannelDiagnosis_write d
  | UdRaw bytes => bytes
  end.

(** alarm/rta.rs:691-712 write_notification *)
Definition write_notification (n : AlarmNotification) (priority : Priority) : list Z :=
  let block_type := match priority with High => 0x0001 | Low => 0x0002 end in
  let body := be16 (AlarmType_to_u16 (an_alarm_type n)) ++ be32 (an_api n) ++ be16 (an_slot n)
    ++ be16 (an_subslot n) ++ be32 (an_module_ident n) ++ be32 (an_submodule_ident n)
    ++ be16 (AlarmSpecifier_to_u16 (an_specifier n)) ++ be16 (an_usi n)
    ++ write_user_data (an_data n) in
  BlockHeader_write block_type (wrap16 (Z.of_nat (length body))) ++ body.

(** alarm/rta.rs:714-728 write_ack *)
Definition write_ack (a : AlarmAck) (priority : Priority) : list Z :=
  let block_type := match priority with High => 0x8001 | Low => 0x8002 end in
  let body := be16 (AlarmType_to_u16 (aa_alarm_type a)) ++ be32 (aa_api a) ++ be16 (aa_slot a)
    ++ be16 (aa_subslot a) ++ be16 (AlarmSpecifier_to_u16 (aa_specifier a))
    ++ be32 (PnioStatus_to_u32 (aa_status a)) in
  BlockHeader_write block_type (wrap16 (Z.of_nat (length body))) ++ body.

(** alarm/rta.rs:680-689 write_rta_data *)
Definition write_rta_data (d : RtaData) (priority : Priority) : list Z :=
  match d with
  | RdNotification n => write_notification n priority
  | RdAck a => write_ack a priority
  | RdUnknown block_type body =>
      BlockHeader_write block_type (wrap16 (Z.of_nat (length body))) ++ body
  end.

(** alarm/rta.rs:656-678 build_frame *)
Definition build_frame (dst src : MacAddr) (pdu : RtaPdu) : list Z :=
  let var_part :=
    match rp_body pdu with
    | RbAck | RbNack => []
    | RbErr status => be32 (PnioStatus_to_u32 status)
    | RbData data => write_rta_data data (rp_priority pdu)
    end in
  let eth := {| eth_dst := dst; eth_src := src; eth_vlan := Some (Priority_tci (rp_priority pdu));
                eth_ethertype := ETHERTYPE_PROFINET |} in
  EthHeader_write eth ++ be16 (Priority_frame_id (rp_priority pdu))
  ++ RtaHeader_write (rp_header pdu) (wrap16 (Z.of_nat (length var_part))) ++ var_part.

(** alarm/rta.rs:730-744 is_alarm_frame *)
Definition is_alarm_frame {E} (frame : list Z) : outcome E bool :=
  match EthHeader_parse frame with
  | Ok (eth, off) =>
    if decide (eth_ethertype eth = ETHERTYPE_PROFINET ∧ (off + 2 ≤ length frame)%nat) then
      let! id := be16_at frame off in
      Ok (bool_decide (id = FRAME_ID_HIGH ∨ id = FRAME_ID_LOW))
    else Ok false
  | Err _ => Ok false
  | Panic => Panic
  end.

(** ** Packed words *)

Definition wf_specifier (s : AlarmSpecifier) : Prop := 0 ≤ as_sequence s < 2048.
Definition wf_props (p : ChannelProperties) : Prop := u8 (cp_type p) ∧ 0 ≤ cp_direction p < 8.

(** A low field [x] of [w] bits under a constant with those bits clear. *)
Lemma lor_field w x c :
  0 ≤ w → 0 ≤ x < 2 ^ w → Z.land (Z.ones w) c = 0 →
  Z.lor x c = x + c ∧ Z.land (Z.lor x c) (Z.ones w) = x ∧
  (∀ m, Z.land (Z.ones w) m = 0 → Z.land (Z.lor x c) m = Z.land c m) ∧
  (∀ n, w ≤ n → Z.shiftr (Z.lor x c) n = Z.shiftr c n).
Proof.
  intros Hw Hx Hc.
  assert (Z.land x (Z.ones w) = x) as Hxw by (rewrite Z.land_ones, Z.mod_small; lia).
  assert (∀ m, Z.land (Z.ones w) m = 0 → Z.land x m = 0) as Hm
    by (intros m Hm; by rewrite <-Hxw, <-Z.land_assoc, Hm, Z.land_0_r).
  split_and!.
  - rewrite <-Z.lxor_lor, <-Z.add_nocarry_lxor by auto. done.
  - by rewrite Z.land_lor_distr_l, Hxw, (Z.land_comm c), Hc, Z.lor_0_r.
  - intros m Hm'. by rewrite Z.land_lor_distr_l, Hm, Z.lor_0_l.
  - intros n Hn. rewrite Z.shiftr_lor. replace (Z.shiftr x n) with 0; [by rewrite Z.lor_0_l|].
    rewrite Z.shiftr_div_pow2 by lia. symmetry. apply Z.div_small.
    pose proof (Z.pow_le_mono_r 2 w n). lia.
Qed.

Ltac eval_summand :=
  match goal with
  | |- context [_ + ?x] => let v := eval vm_compute in x in change x with v
  end.

Lemma AlarmSpecifier_roundtrip s :
  wf_specifier s →
  u16 (AlarmSpecifier_to_u16 s) ∧ AlarmSpecifier_from_u16 (AlarmSpecifier_to_u16 s) = s.
Proof.
  destruct s as [seq b1 b2 b3 b4]. intros Hs. unfold wf_specifier in Hs. cbn in Hs.
  unfold AlarmSpecifier_to_u16, AlarmSpecifier_from_u16, bit_set.
  cbn [as_sequence as_channel_diag as_manufacturer_diag as_submodule_diag as_ar_diag].
  change 0x07FF with (Z.ones 11). rewrite Z.land_ones, Z.mod_small, <-!Z.lor_assoc by lia.
  match goal with |- context [Z.lor seq ?x] => set (c := x) end.
  assert (Z.land (Z.ones 11) c = 0) as Hc by (subst c; by destruct b1, b2, b3, b4).
  destruct (lor_field 11 seq c) as (Hadd & Hseq & Hm & _); [lia|lia|done|].
  rewrite Hseq, !Hm by done. rewrite Hadd. subst c.
  destruct b1, b2, b3, b4; (split; [eval_summand; unfold u16; lia|done]).
Qed.

Lemma ChannelProperties_roundtrip p :
  wf_props p →
  u16 (ChannelProperties_to_u16 p) ∧ ChannelProperties_from_u16 (ChannelProperties_to_u16 p) = p.
Proof.
  destruct p as [ty acc m s d]. intros [Hty Hd]. cbn in Hty, Hd. unfold u8 in Hty.
  assert (d ∈ zrange 0 8) as Hd' by (cbn; set_unfold; lia).
  unfold ChannelProperties_to_u16, ChannelProperties_from_u16, bit_set.
  cbn [cp_type cp_accumulative cp_maintenance cp_specifier cp_direction].
  rewrite <-!Z.lor_assoc. match goal with |- context [Z.lor ty ?x] => set (c := x) end.
  assert (Z.land (Z.ones 8) c = 0) as Hc.
  { clear -Hd'. subst c. cbn in Hd'. set_unfold in Hd'.
    destruct_or!; subst d; destruct acc, m, s; done. }
  destruct (lor_field 8 ty c) as (Hadd & Hlow & Hm & Hsh); [lia|lia|done|].
  change 0x00FF with (Z.ones 8). rewrite Hlow, Hm, !Hsh by done. rewrite Hadd.
  subst c. clear Hc Hadd Hlow Hm Hsh. cbn in Hd'. set_unfold in Hd'.
  destruct_or!; subst d; destruct acc, m, s; (split; [eval_summand; unfold u16; lia|done]).
Qed.

Lemma AlarmType_to_from v : AlarmType_to_u16 (AlarmType_from_u16 v) = v.
Proof.
  destruct (decide (1 ≤ v ≤ 12)) as [Hv|Hv].
  - assert (∃ n, v = Z.of_nat n ∧ (1 ≤ n ≤ 12)%nat) as (n & -> & ?)
      by (exists (Z.to_nat v); lia).
    do 13 (destruct n as [|n]; [done|]). lia.
  - destruct v as [|q|q]; [done| |done]. cbn.
    repeat (destruct q as [q|q|]; try done; try lia).
Qed.

(** ** Reads that run to the end of the buffer *)

(** [p] reads exactly the rest of the buffer, [bs], and returns [a]. *)
Definition reads_end {A} (p : parser A) (bs : list Z) (a : A) : Prop :=
  ∀ buf pos, (pos ≤ length buf)%nat → drop pos buf = bs →
    ∃ c, p {| cur_buf := buf; cur_pos := pos |} = Ok (a, c).

Lemma reads_end_bind {A B} (p : parser A) (k : A → parser B) bs1 bs2 a b :
  reads p bs1 a → reads_end (k a) bs2 b → reads_end (p_bind p k) (bs1 ++ bs2) b.
Proof.
  intros H1 H2 buf pos Hp Hd. pose proof (reads_drop_length _ _ _ _ Hp Hd).
  unfold p_bind. rewrite (H1 _ _ _ Hp Hd). cbn. apply H2; [lia|].
  by rewrite <-drop_drop, Hd, drop_app_length.
Qed.

Lemma reads_end_remaining {B} (k : nat → parser B) bs b :
  reads_end (k (length bs)) bs b → reads_end (p_bind p_remaining k) bs b.
Proof.
  intros H buf pos Hp Hd. unfold p_bind, p_remaining, Cursor_remaining. cbn.
  replace (_ - _)%nat with (length bs) by (by rewrite <-Hd, length_drop). by apply H.
Qed.

Lemma reads_end_ret {A} (a : A) : reads_end (p_ret a) [] a.
Proof. intros buf pos _ _. by eexists. Qed.

Lemma reads_lift {A} (m : outcome BlockError A) a : m = Ok a → reads (p_lift m) [] a.
Proof. intros -> buf pos rest Hp Hd. unfold p_lift. cbn. by rewrite Nat.add_0_r. Qed.

Lemma run_parser_reads_end {A} (p : parser A) bs a :
  reads_end p bs a → run_parser p bs = Ok a.
Proof.
  intros H. unfold run_parser, Cursor_new. destruct (H bs 0%nat) as [c ->]; [lia|done|done].
Qed.

Lemma safe_remaining : safe p_remaining.
Proof. intros c Hc. split; [done|]. by intros ? ? [= <- <-]. Qed.

Lemma safe_lift {A} (m : outcome BlockError A) : no_panic m → safe (p_lift m).
Proof.
  intros Hm c Hc. unfold p_lift. split; [np; done|]. intros a c' H. ok_inv. by simplify_eq.
Qed.

(** ** Well-formed PDUs *)

Definition wf_alarm_type (t : AlarmType) : Prop :=
  u16 (AlarmType_to_u16 t) ∧ AlarmType_from_u16 (AlarmType_to_u16 t) = t.

(** The user data is what its User Structure Identifier announces. *)
Definition wf_user_data (usi : Z) (d : UserData) : Prop :=
  match d with
  | UdChannel d =>
      usi = USI_CHANNEL_DIAG ∧ u16 (cd_channel d) ∧ wf_props (cd_properties d) ∧
      u16 (cd_error_type d)
  | UdExtChannel d =>
      usi = USI_EXT_CHANNEL_DIAG ∧ u16 (xd_channel d) ∧ wf_props (xd_properties d) ∧
      u16 (xd_error_type d) ∧ u16 (xd_ext_error_type d) ∧ u32 (xd_ext_add_value d)
  | UdRaw b =>
      ¬ (usi = USI_CHANNEL_DIAG ∧ length b = 6%nat) ∧
      ¬ (usi = USI_EXT_CHANNEL_DIAG ∧ length b = 12%nat)
  end.

Definition wf_notification (n : AlarmNotification) : Prop :=
  wf_alarm_type (an_alarm_type n) ∧ u32 (an_api n) ∧ u16 (an_slot n) ∧ u16 (an_subslot n) ∧
  u32 (an_module_ident n) ∧ u32 (an_submodule_ident n) ∧ wf_specifier (an_specifier n) ∧
  u16 (an_usi n) ∧ wf_user_data (an_usi n) (an_data n).

Definition wf_ack (a : AlarmAck) : Prop :=
  wf_alarm_type (aa_alarm_type a) ∧ u32 (aa_api a) ∧ u16 (aa_slot a) ∧ u16 (aa_subslot a) ∧
  wf_specifier (aa_specifier a) ∧ wf_status (aa_status a).

Definition wf_data (d : RtaData) : Prop :=
  match d with
  | RdNotification n => wf_notification n
  | RdAck a => wf_ack a
  | RdUnknown block_type _ =>
      u16 block_type ∧ block_type ∉ [0x0001; 0x0002; 0x8001; 0x8002]
  end.

Definition wf_header (h : RtaHeader) : Prop :=
  u16 (rt_dst_ref h) ∧ u16 (rt_src_ref h) ∧ u16 (rt_send_seq h) ∧ u16 (rt_ack_seq h).

Definition body_type (b : RtaBody) : PduType :=
  match b with RbData _ => PduData | RbAck => PduAck | RbNack => PduNack | RbErr _ => PduErr end.

(** The header's type is the body's, every field is in range, and the
    variable part fits its 16-bit length. *)
Definition wf_pdu (p : RtaPdu) : Prop :=
  wf_header (rp_header p) ∧ rt_pdu_type (rp_header p) = body_type (rp_body p) ∧
  match rp_body p with
  | RbData d => wf_data d ∧ Z.of_nat (length (write_rta_data d (rp_priority p))) < 65536
  | RbErr s => wf_status s
  | RbAck | RbNack => True
  end.

(** ** The parser inverts the serializer *)

Lemma length_ChannelDiagnosis_write d : length (ChannelDiagnosis_write d) = 6%nat.
Proof. unfold ChannelDiagnosis_write. len. Qed.
Lemma length_ExtChannelDiagnosis_write d : length (ExtChannelDiagnosis_write d) = 12%nat.
Proof. unfold ExtChannelDiagnosis_write. len. Qed.

(** Read one field of a buffer written as a concatenation. *)
Ltac field lem := erewrite lem by (done || reflexivity); cbn [obind].

Lemma parse_user_data_write {E} usi d :
  wf_user_data usi d → parse_user_data (E := E) usi (write_user_data d) = Ok d.
Proof.
  destruct d as [[ch p et]|[ch p et xt xv]|b]; unfold parse_user_data;
    cbn [wf_user_data write_user_data cd_channel cd_properties cd_error_type xd_channel
         xd_properties xd_error_type xd_ext_error_type xd_ext_add_value].
  - intros (-> & ? & Hp & ?). destruct (ChannelProperties_roundtrip p Hp) as [? Hrt].
    rewrite decide_True by done. unfold ChannelDiagnosis_parse, ChannelDiagnosis_write.
    cbn [cd_channel cd_properties cd_error_type].
    set (w := ChannelProperties_to_u16 p) in *. set (b := be16 ch ++ _).
    field (be16_at_drop (E := E) b 0 ch). field (be16_at_drop (E := E) b 2 w).
    field (be16_at_drop (E := E) b 4 et). by rewrite Hrt.
  - intros (-> & ? & Hp & ? & ? & ?). destruct (ChannelProperties_roundtrip p Hp) as [? Hrt].
    rewrite decide_False, decide_True by (done || intros [? _]; done).
    unfold ExtChannelDiagnosis_parse, ExtChannelDiagnosis_write.
    cbn [xd_channel xd_properties xd_error_type xd_ext_error_type xd_ext_add_value].
    set (w := ChannelProperties_to_u16 p) in *. set (b := be16 ch ++ _).
    field (be16_at_drop (E := E) b 0 ch). field (be16_at_drop (E := E) b 2 w).
    field (be16_at_drop (E := E) b 4 et). field (be16_at_drop (E := E) b 6 xt).
    field (be32_at_drop (E := E) b 8 xv). by rewrite Hrt.
  - intros [? ?]. by rewrite !decide_False.
Qed.

Definition notification_body (n : AlarmNotification) : list Z :=
  be16 (AlarmType_to_u16 (an_alarm_type n)) ++ be32 (an_api n) ++ be16 (an_slot n)
  ++ be16 (an_subslot n) ++ be32 (an_module_ident n) ++ be32 (an_submodule_ident n)
  ++ be16 (AlarmSpecifier_to_u16 (an_specifier n)) ++ be16 (an_usi n)
  ++ write_user_data (an_data n).

Definition ack_body (a : AlarmAck) : list Z :=
  be16 (AlarmType_to_u16 (aa_alarm_type a)) ++ be32 (aa_api a) ++ be16 (aa_slot a)
  ++ be16 (aa_subslot a) ++ be16 (AlarmSpecifier_to_u16 (aa_specifier a))
  ++ be32 (PnioStatus_to_u32 (aa_status a)).

Lemma notification_parser_body n :
  wf_notification n → run_parser notification_parser (notification_body n) = Ok n.
Proof.
  intros ([? Hty] & ? & ? & ? & ? & ? & Hs & ? & Hd).
  destruct (AlarmSpecifier_roundtrip _ Hs) as [? Hsp].
  apply run_parser_reads_end. unfold notification_parser, notification_body.
  do 8 (eapply reads_end_bind; [solve [eauto with parsers]|]; cbv beta).
  apply reads_end_remaining. rewrite <-(app_nil_r (write_user_data _)) at 2.
  eapply reads_end_bind; [by apply reads_bytes|]. cbv beta.
  eapply (reads_end_bind _ _ [] []); [by apply reads_lift, parse_user_data_write|]. cbv beta.
  rewrite Hty, Hsp. destruct n. apply reads_end_ret.
Qed.

Lemma ack_parser_body a : wf_ack a → run_parser ack_parser (ack_body a) = Ok a.
Proof.
  intros ([? Hty] & ? & ? & ? & Hs & Hst). destruct (AlarmSpecifier_roundtrip _ Hs) as [? Hsp].
  rewrite <-(app_nil_r (ack_body a)). apply run_parser_reads.
  unfold ack_parser, ack_body. unfold wf_status in Hst. reads_tac.
  rewrite Hty, Hsp. destruct a as [? ? ? ? ? []]. apply reads_ret.
Qed.

(** The block carrying an RTA-PDU body, as [write_rta_data] frames it. *)
Definition data_block (d : RtaData) (p : Priority) : Z * list Z :=
  match d, p with
  | RdNotification n, High => (0x0001, notification_body n)
  | RdNotification n, Low => (0x0002, notification_body n)
  | RdAck a, High => (0x8001, ack_body a)
  | RdAck a, Low => (0x8002, ack_body a)
  | RdUnknown ty b, _ => (ty, b)
  end.

Lemma write_rta_data_block d p :
  Z.of_nat (length (write_rta_data d p)) < 65536 →
  write_rta_data d p = block_wire (data_block d p).1 (data_block d p).2.
Proof.
  assert (∀ ty body, Z.of_nat (length (BlockHeader_write ty (wrap16 (Z.of_nat (length body))) ++ body))
      < 65536 → BlockHeader_write ty (wrap16 (Z.of_nat (length body))) ++ body = block_wire ty body)
    as Hw.
  { intros ty body Hl. rewrite length_app, length_BlockHeader_write in Hl.
    unfold block_wire. by rewrite wrap16_id by (unfold u16; lia). }
  destruct d as [n|a|ty b], p; apply Hw.
Qed.

Lemma data_block_wf d p : wf_data d → u16 (data_block d p).1.
Proof. destruct d, p; cbn; intros; (range || naive_solver). Qed.

Lemma parse_rta_data_block d p :
  wf_data d → parse_rta_data (data_block d p).1 (data_block d p).2 = Ok d.
Proof.
  intros Hd. unfold parse_rta_data.
  destruct d as [n|a|ty b]; cbn in Hd.
  - destruct p; cbn [data_block fst snd]; dec; by rewrite notification_parser_body.
  - destruct p; cbn [data_block fst snd]; dec; by rewrite ack_parser_body.
  - destruct Hd as [_ Hd]. cbn [data_block fst snd].
    rewrite !decide_False by (intros [->| ->]; apply Hd; set_solver). done.
Qed.

Lemma length_RtaHeader_write h n : length (RtaHeader_write h n) = 12%nat.
Proof. done. Qed.
#[export] Hint Rewrite length_RtaHeader_write : len.

Lemma RtaHeader_parse_write h n rest :
  wf_header h → u16 n → RtaHeader_parse (RtaHeader_write h n ++ rest) = Ok (h, n).
Proof.
  destruct h as [d s ty ta ss sa]. intros (? & ? & ? & ?) ?. unfold RtaHeader_parse.
  rewrite decide_False by (unfold RtaHeader_LEN; len). unfold RtaHeader_write.
  cbn [rt_dst_ref rt_src_ref rt_pdu_type rt_tack rt_send_seq rt_ack_seq] in *.
  rewrite <-!app_assoc. set (b := be16 d ++ _).
  rewrite (idx_drop b 4 (Z.lor 16 (PduType_to_u8 ty))
    (drop 5 b)) by reflexivity. cbn [obind].
  rewrite (idx_drop b 5 (Z.lor 1 (if ta then 16 else 0))
    (drop 6 b)) by reflexivity.
  field (be16_at_drop (E := RtaError) b 0 d).
  field (be16_at_drop (E := RtaError) b 2 s).
  field (be16_at_drop (E := RtaError) b 6 ss).
  field (be16_at_drop (E := RtaError) b 8 sa).
  field (be16_at_drop (E := RtaError) b 10 n).
  destruct ty, ta; done.
Qed.

Definition var_part (pdu : RtaPdu) : list Z :=
  match rp_body pdu with
  | RbAck | RbNack => []
  | RbErr status => be32 (PnioStatus_to_u32 status)
  | RbData data => write_rta_data data (rp_priority pdu)
  end.

Definition alarm_eth (dst src : MacAddr) (p : Priority) : EthHeader :=
  {| eth_dst := dst; eth_src := src; eth_vlan := Some (Priority_tci p);
     eth_ethertype := ETHERTYPE_PROFINET |}.

Lemma build_frame_parts dst src pdu :
  build_frame dst src pdu =
  EthHeader_write (alarm_eth dst src (rp_priority pdu)) ++ be16 (Priority_frame_id (rp_priority pdu))
  ++ RtaHeader_write (rp_header pdu) (wrap16 (Z.of_nat (length (var_part pdu)))) ++ var_part pdu.
Proof. done. Qed.

Lemma wf_alarm_eth dst src p : wf_mac dst → wf_mac src → wf_eth (alarm_eth dst src p).
Proof.
  intros ? ?. split_and!; [done|done| |cbn; range]. cbn. by intros ? [= <-]; destruct p.
Qed.

Lemma var_part_len pdu : wf_pdu pdu → u16 (Z.of_nat (length (var_part pdu))).
Proof.
  intros (_ & _ & Hb). unfold var_part, u16. destruct (rp_body pdu); cbn [length be32]; lia.
Qed.

Lemma BlockHeader_parse_data d p :
  wf_data d → Z.of_nat (length (write_rta_data d p)) < 65536 →
  ∃ bh, BlockHeader_parse (write_rta_data d p) = Ok (bh, (data_block d p).2) ∧
        bh_block_type bh = (data_block d p).1.
Proof.
  intros Hd Hl. pose proof (data_block_wf _ p Hd) as Hty.
  pose proof (write_rta_data_block _ _ Hl) as Hw. rewrite Hw in *.
  rewrite length_block_wire in Hl.
  rewrite <-(app_nil_r (block_wire _ _)), BlockHeader_parse_write by (done || lia).
  by eexists.
Qed.

Lemma RtaHeader_parse_no_panic buf : no_panic (RtaHeader_parse buf).
Proof. unfold RtaHeader_parse, RtaHeader_LEN. np. Qed.

Lemma RtaHeader_parse_len buf r : RtaHeader_parse buf = Ok r → (RtaHeader_LEN ≤ length buf)%nat.
Proof. unfold RtaHeader_parse. intros H. case_decide; [done|lia]. Qed.

Lemma parse_user_data_no_panic {E} usi b : no_panic (parse_user_data (E := E) usi b).
Proof.
  unfold parse_user_data, ChannelDiagnosis_parse, ExtChannelDiagnosis_parse. np; lia.
Qed.

Lemma parse_rta_data_no_panic ty b : no_panic (parse_rta_data ty b).
Proof.
  unfold parse_rta_data. np; apply run_parser_no_panic.
  - unfold notification_parser.
    repeat (apply safe_bind; [|intros ?]);
      auto using safe_remaining, safe_lift, parse_user_data_no_panic with parsers.
  - unfold ack_parser. safe_tac.
Qed.

Lemma parse_frame_no_panic frame : no_panic (parse_frame frame).
Proof.
  unfold parse_frame. np; auto using RtaHeader_parse_no_panic, parse_rta_data_no_panic.
  { unfold slice_from, no_panic. by rewrite decide_True by lia. }
  all: match goal with H : RtaHeader_parse _ = _ |- _ => apply RtaHeader_parse_len in H end.
  all: unfold slice_from in *; ok_inv; rewrite ?length_drop in *; lia.
Qed.

Lemma parse_frame_at dst src pdu rest (frame := build_frame dst src pdu ++ rest) :
  wf_mac dst → wf_mac src → wf_pdu pdu → parse_frame frame = Ok pdu.
Proof.
  intros Hd Hs Hp. unfold parse_frame. subst frame. rewrite build_frame_parts, <-!app_assoc.
  pose proof (var_part_len _ Hp) as Hn. rewrite wrap16_id by done.
  set (eth := alarm_eth _ _ _). set (prio := rp_priority pdu).
  rewrite EthHeader_parse_write by (done || by apply wf_alarm_eth). cbn [map_err obind].
  assert (length (EthHeader_write eth) = 18%nat) as Hle
    by (apply length_EthHeader_write; by apply wf_alarm_eth).
  rewrite decide_False by (cbn; tauto). rewrite Hle.
  set (frame := EthHeader_write eth ++ _).
  assert (length frame = 32 + length (var_part pdu) + length rest)%nat as Hlf by (subst frame; len).
  assert (drop 18 frame = be16 (Priority_frame_id prio) ++
    RtaHeader_write (rp_header pdu) (Z.of_nat (length (var_part pdu))) ++ var_part pdu ++ rest)
    as H18 by (subst frame; by rewrite drop_app_ge, Hle, drop_0 by lia).
  rewrite decide_False by lia.
  rewrite (be16_at_drop frame 18 (Priority_frame_id prio) _ ltac:(by destruct prio) H18). cbn [obind].
  set (mp := if decide _ then Ok High else _).
  assert (mp = Ok prio) as -> by (subst mp; by destruct prio). cbn [obind].
  unfold slice_from. rewrite decide_True by lia. cbn [obind].
  rewrite <-(drop_drop frame 2 18), H18, (drop_app_length (be16 _)).
  rewrite RtaHeader_parse_write by (done || apply Hp). cbn [obind].
  rewrite decide_False by (unfold RtaHeader_LEN; lia).
  rewrite Nat2Z.id, (slice_drop frame _ _ (var_part pdu) rest);
    [|change (18 + 2 + RtaHeader_LEN)%nat with (18 + 14)%nat; by rewrite <-drop_drop, H18|unfold RtaHeader_LEN; lia|done].
  cbn [obind]. destruct Hp as (_ & Hty & Hb). rewrite Hty.
  enough (∀ m : outcome RtaError RtaBody, m = Ok (rp_body pdu) →
    (let! body := m in Ok {| rp_priority := prio; rp_header := rp_header pdu; rp_body := body |})
    = Ok pdu) as Hk.
  { apply Hk. unfold var_part. destruct (rp_body pdu) as [d| | |[s]]; cbn [body_type]; try done.
    - destruct Hb as [Hd' Hl]. destruct (BlockHeader_parse_data _ _ Hd' Hl) as (bh & -> & Hbt).
      cbn [map_err obind]. by rewrite Hbt, parse_rta_data_block.
    - rewrite decide_False by (cbn; lia). cbn [PnioStatus_to_u32].
      by rewrite (be32_at_drop _ 0 s []). }
  intros m ->. by destruct pdu.
Qed.

Lemma is_alarm_frame_parsed {E} frame pdu :
  parse_frame frame = Ok pdu → is_alarm_frame (E := E) frame = Ok true.
Proof.
  unfold parse_frame, is_alarm_frame. intros H.
  destruct (EthHeader_parse frame) as [[eth off]| |]; [|done|done]. cbn [map_err obind] in H.
  destruct (decide (eth_ethertype eth ≠ ETHERTYPE_PROFINET)) as [|He]; [done|].
  apply dec_stable in He. destruct (decide (length frame < off + 2)%nat); [done|].
  rewrite decide_True by (split; [done|lia]).
  unfold be16_at, idx in *. destruct (frame !! off) as [h|]; [|done].
  destruct (frame !! (off + 1)%nat) as [l|]; [|done]. cbn [obind] in *.
  f_equal. apply bool_decide_eq_true. apply obind_Ok in H as (pr & H & _).
  destruct (decide (from_be16 h l = FRAME_ID_HIGH)); [by left|]. case_decide; [by right|done].
Qed.

(** ** Claims *)

(** An alarm frame built by [build_frame] from any well-formed PDU
    (notification, acknowledgement, unknown block, ACK, NACK or ERR, at either
    priority), with any padding behind it, is recognised by [is_alarm_frame]
    and parsed back by [parse_frame] to the same PDU. *)
Theorem alarm_frame_roundtrip dst src pdu padding :
  wf_mac dst → wf_mac src → wf_pdu pdu →
  parse_frame (build_frame dst src pdu ++ padding) = Ok pdu ∧
  is_alarm_frame (E := RtaError) (build_frame dst src pdu ++ padding) = Ok true.
Proof.
  intros Hd Hs Hp. pose proof (parse_frame_at dst src pdu padding Hd Hs Hp) as H.
  split; [done|]. by eapply is_alarm_frame_parsed.
Qed.

Definition sample_mac_a : MacAddr := Mac [0x02; 0; 0; 0; 0; 0x01].
Definition sample_mac_b : MacAddr := Mac [0x02; 0; 0; 0; 0; 0x02].

Definition sample_notification : AlarmNotification := {|
  an_alarm_type := AtDiagnosis; an_api := 0; an_slot := 1; an_subslot := 1;
  an_module_ident := 0x10; an_submodule_ident := 0x11;
  an_specifier := {| as_sequence := 7; as_channel_diag := true; as_manufacturer_diag := false;
                     as_submodule_diag := true; as_ar_diag := true |};
  an_usi := USI_CHANNEL_DIAG;
  an_data := UdChannel {| cd_channel := 0x8000;
    cd_properties := {| cp_type := 5; cp_accumulative := false; cp_maintenance := MtDemanded;
                        cp_specifier := SpAppears; cp_direction := 2 |};
    cd_error_type := 6 |} |}.

Definition sample_data_pdu : RtaPdu := {|
  rp_priority := Low;
  rp_header := {| rt_dst_ref := 3; rt_src_ref := 1; rt_pdu_type := PduData; rt_tack := true;
                  rt_send_seq := 0xFFFF; rt_ack_seq := 0xFFFE |};
  rp_body := RbData (RdNotification sample_notification) |}.

Lemma wf_sample_mac_a : wf_mac sample_mac_a.
Proof. unfold wf_mac. by_decide. Qed.
Lemma wf_sample_mac_b : wf_mac sample_mac_b.
Proof. unfold wf_mac. by_decide. Qed.
Lemma wf_sample_data_pdu : wf_pdu sample_data_pdu.
Proof.
  unfold wf_pdu, wf_header, wf_data, wf_notification, wf_alarm_type, wf_specifier, wf_user_data,
    wf_props. cbn -[write_rta_data]. by_decide.
Qed.

Lemma alarm_frame_roundtrip_witness :
  parse_frame (build_frame sample_mac_a sample_mac_b sample_data_pdu ++ [0; 0; 0]) =
    Ok sample_data_pdu ∧
  is_alarm_frame (E := RtaError)
    (build_frame sample_mac_a sample_mac_b sample_data_pdu ++ [0; 0; 0]) = Ok true.
Proof.
  apply (alarm_frame_roundtrip sample_mac_a sample_mac_b sample_data_pdu [0; 0; 0]).
  - apply wf_sample_mac_a.
  - apply wf_sample_mac_b.
  - apply wf_sample_data_pdu.
Defined.
