(* ===== verification/AlarmChannel.v ===== *)
(** * AlarmChannel: the one-alarm-in-flight sender and receiver

    Models [crates/pnio/src/alarm/channel.rs]: the state of one alarm
    priority channel and every operation on it.  An instant is a number of
    nanoseconds.  The operations return the new channel and the actions for
    the caller; the two [unreachable!] arms are [Panic].

    The channel is proved to implement an abstract sender, [sender_step]: a
    queue of alarms whose head is the one in flight, finished one at a time
    in the order they were accepted. *)

From S2P Require Import Prelude Eth Rpc Block Connect Records Ar Rta.
Local Open Scope Z_scope.

(** ** Data *)

(** alarm/channel.rs:16-19 NOTIFICATION_FIXED_LEN *)
Definition NOTIFICATION_FIXED_LEN : nat := 24.
(** alarm/channel.rs:21-26 ALARM_ACK_TIMEOUT_FACTOR *)
Definition ALARM_ACK_TIMEOUT_FACTOR : Z := 10.

(** alarm/channel.rs:28-46 AlarmChannelConfig *)
Record AlarmChannelConfig := {
  ac_local_ref : Z; ac_remote_ref : Z; ac_rta_timeout : Z; ac_rta_retries : Z;
  ac_max_alarm_data_length : Z; ac_peer_mac : MacAddr; ac_our_mac : MacAddr
}.

(** alarm/channel.rs:48-58 AlarmReq *)
Record AlarmReq := { ar_id : Z; ar_priority : Priority; ar_notification : AlarmNotification }.

(** alarm/channel.rs:60-78 AlarmAction *)
Inductive AlarmAction :=
| AaSend (frame : list Z)
| AaAcked (id : Z) (status : PnioStatus)
| AaAbort (reason : AbortReason)
| AaUnexpectedRx.

(** alarm/channel.rs:80-92 AlarmError *)
Inductive AlarmError := TooLong (len : nat) (max : Z).

(** alarm/channel.rs:94-112 AlarmStats *)
Record AlarmStats := {
  st_sent : Z; st_acked : Z; st_retries : Z; st_unexpected_rx : Z; st_send_failures : Z;
  st_ack_timeouts : Z; st_rx_err_rta : Z
}.
Definition AlarmStats_default : AlarmStats := {|
  st_sent := 0; st_acked := 0; st_retries := 0; st_unexpected_rx := 0; st_send_failures := 0;
  st_ack_timeouts := 0; st_rx_err_rta := 0 |}.

(** alarm/channel.rs:114-134 State *)
Inductive ChState :=
| ChIdle
| SentData (req : AlarmReq) (seq : Z) (frame : list Z) (deadline : Z)
| AwaitAlarmAck (req : AlarmReq) (deadline : Z).

(** alarm/channel.rs:136-158 AlarmChannel *)
Record AlarmChannel := {
  ch_cfg : AlarmChannelConfig;
  ch_state : ChState;
  ch_queue : list AlarmReq;
  ch_next_send_seq : Z;
  ch_last_sent_seq : Z;
  ch_last_rx_seq : Z;
  ch_attempt : Z;
  ch_stats : AlarmStats;
  ch_specifier_seq : Z
}.

(** Field assignments [self.f = v]. *)
Definition set_state (c : AlarmChannel) (s : ChState) : AlarmChannel :=
  {| ch_cfg := ch_cfg c; ch_state := s; ch_queue := ch_queue c;
     ch_next_send_seq := ch_next_send_seq c; ch_last_sent_seq := ch_last_sent_seq c;
     ch_last_rx_seq := ch_last_rx_seq c; ch_attempt := ch_attempt c; ch_stats := ch_stats c;
     ch_specifier_seq := ch_specifier_seq c |}.
Definition set_queue (c : AlarmChannel) (q : list AlarmReq) : AlarmChannel :=
  {| ch_cfg := ch_cfg c; ch_state := ch_state c; ch_queue := q;
     ch_next_send_seq := ch_next_send_seq c; ch_last_sent_seq := ch_last_sent_seq c;
     ch_last_rx_seq := ch_last_rx_seq c; ch_attempt := ch_attempt c; ch_stats := ch_stats c;
     ch_specifier_seq := ch_specifier_seq c |}.
Definition set_last_rx_seq (c : AlarmChannel) (v : Z) : AlarmChannel :=
  {| ch_cfg := ch_cfg c; ch_state := ch_state c; ch_queue := ch_queue c;
     ch_next_send_seq := ch_next_send_seq c; ch_last_sent_seq := ch_last_sent_seq c;
     ch_last_rx_seq := v; ch_attempt := ch_attempt c; ch_stats := ch_stats c;
     ch_specifier_seq := ch_specifier_seq c |}.
Definition set_attempt (c : AlarmChannel) (v : Z) : AlarmChannel :=
  {| ch_cfg := ch_cfg c; ch_state := ch_state c; ch_queue := ch_queue c;
     ch_next_send_seq := ch_next_send_seq c; ch_last_sent_seq := ch_last_sent_seq c;
     ch_last_rx_seq := ch_last_rx_seq c; ch_attempt := v; ch_stats := ch_stats c;
     ch_specifier_seq := ch_specifier_seq c |}.
Definition set_stats (c : AlarmChannel) (v : AlarmStats) : AlarmChannel :=
  {| ch_cfg := ch_cfg c; ch_state := ch_state c; ch_queue := ch_queue c;
     ch_next_send_seq := ch_next_send_seq c; ch_last_sent_seq := ch_last_sent_seq c;
     ch_last_rx_seq := ch_last_rx_seq c; ch_attempt := ch_attempt c; ch_stats := v;
     ch_specifier_seq := ch_specifier_seq c |}.
Definition set_specifier_seq (c : AlarmChannel) (v : Z) : AlarmChannel :=
  {| ch_cfg := ch_cfg c; ch_state := ch_state c; ch_queue := ch_queue c;
     ch_next_send_seq := ch_next_send_seq c; ch_last_sent_seq := ch_last_sent_seq c;
     ch_last_rx_seq := ch_last_rx_seq c; ch_attempt := ch_attempt c; ch_stats := ch_stats c;
     ch_specifier_seq := v |}.

(** The counter bumps [self.stats.x += 1]. *)
Inductive Counter := CtSent | CtAcked | CtRetries | CtUnexpectedRx | CtSendFailures
  | CtAckTimeouts | CtRxErrRta.
#[global] Instance Counter_eq_dec : EqDecision Counter.
Proof. solve_decision. Defined.
Definition bump (k : Counter) (c : AlarmChannel) : AlarmChannel :=
  let s := ch_stats c in
  let inc k' x := if decide (k = k') then inc64 x else x in
  set_stats c {|
    st_sent := inc CtSent (st_sent s); st_acked := inc CtAcked (st_acked s);
    st_retries := inc CtRetries (st_retries s);
    st_unexpected_rx := inc CtUnexpectedRx (st_unexpected_rx s);
    st_send_failures := inc CtSendFailures (st_send_failures s);
    st_ack_timeouts := inc CtAckTimeouts (st_ack_timeouts s);
    st_rx_err_rta := inc CtRxErrRta (st_rx_err_rta s) |}.

(** alarm/channel.rs:163-175 AlarmChannel::new *)
Definition AlarmChannel_new (cfg : AlarmChannelConfig) : AlarmChannel := {|
  ch_cfg := cfg; ch_state := ChIdle; ch_queue := []; ch_next_send_seq := SEQ_INIT;
  ch_last_sent_seq := SEQ_NONE; ch_last_rx_seq := SEQ_NONE; ch_attempt := 0;
  ch_stats := AlarmStats_default; ch_specifier_seq := 0 |}.

(** ** Frames *)

(** alarm/channel.rs:486-500 build_data_frame *)
Definition data_pdu (cfg : AlarmChannelConfig) (req : AlarmReq) (seq ack_seq : Z) : RtaPdu := {|
  rp_priority := ar_priority req;
  rp_header := {| rt_dst_ref := ac_remote_ref cfg; rt_src_ref := ac_local_ref cfg;
                  rt_pdu_type := PduData; rt_tack := true; rt_send_seq := seq;
                  rt_ack_seq := ack_seq |};
  rp_body := RbData (RdNotification (ar_notification req)) |}.
(** alarm/channel.rs:486-500 build_data_frame *)
Definition build_data_frame (cfg : AlarmChannelConfig) (req : AlarmReq) (seq ack_seq : Z) :
    list Z :=
  build_frame (ac_peer_mac cfg) (ac_our_mac cfg) (data_pdu cfg req seq ack_seq).

(** alarm/channel.rs:469-483 AlarmChannel::build_ack_rta *)
Definition ack_pdu (c : AlarmChannel) (priority : Priority) (received_seq : Z) : RtaPdu := {|
  rp_priority := priority;
  rp_header := {| rt_dst_ref := ac_remote_ref (ch_cfg c); rt_src_ref := ac_local_ref (ch_cfg c);
                  rt_pdu_type := PduAck; rt_tack := false; rt_send_seq := ch_last_sent_seq c;
                  rt_ack_seq := received_seq |};
  rp_body := RbAck |}.
(** alarm/channel.rs:469-483 AlarmChannel::build_ack_rta *)
Definition build_ack_rta (c : AlarmChannel) (priority : Priority) (received_seq : Z) : list Z :=
  build_frame (ac_peer_mac (ch_cfg c)) (ac_our_mac (ch_cfg c)) (ack_pdu c priority received_seq).

(** alarm/channel.rs:262-278 AlarmChannel::err_rta *)
Definition err_pdu (c : AlarmChannel) (status : PnioStatus) : RtaPdu := {|
  rp_priority := Low;
  rp_header := {| rt_dst_ref := ac_remote_ref (ch_cfg c); rt_src_ref := ac_local_ref (ch_cfg c);
                  rt_pdu_type := PduErr; rt_tack := false; rt_send_seq := ch_last_sent_seq c;
                  rt_ack_seq := ch_last_rx_seq c |};
  rp_body := RbErr status |}.
(** alarm/channel.rs:262-278 AlarmChannel::err_rta *)
Definition err_rta (c : AlarmChannel) (status : PnioStatus) : list Z :=
  build_frame (ac_peer_mac (ch_cfg c)) (ac_our_mac (ch_cfg c)) (err_pdu c status).

(** alarm/channel.rs:502-509 data_len *)
Definition data_len (d : UserData) : nat :=
  match d with UdRaw v => length v | UdChannel _ => 6 | UdExtChannel _ => 12 end.

(** ** Operations *)

(** alarm/channel.rs:308-335 AlarmChannel::send_next *)
Definition send_next (c : AlarmChannel) (now : Z) : AlarmChannel * list AlarmAction :=
  match ch_state c with
  | ChIdle =>
    match ch_queue c with
    | [] => (c, [])
    | req :: queue =>
      let seq := ch_next_send_seq c in
      let frame := build_data_frame (ch_cfg c) req seq (ch_last_rx_seq c) in
      let next := if decide (seq = SEQ_INIT) then 0 else Z.land (wrap16 (seq + 1)) 0x7FFF in
      let deadline := now + ac_rta_timeout (ch_cfg c) in
      let c' := {| ch_cfg := ch_cfg c; ch_state := SentData req seq frame deadline;
                   ch_queue := queue; ch_next_send_seq := next; ch_last_sent_seq := seq;
                   ch_last_rx_seq := ch_last_rx_seq c; ch_attempt := 0; ch_stats := ch_stats c;
                   ch_specifier_seq := ch_specifier_seq c |} in
      (bump CtSent c', [AaSend frame])
    end
  | _ => (c, [])
  end.

(** alarm/channel.rs:177-190 AlarmChannel::enqueue *)
Definition enqueue (c : AlarmChannel) (req : AlarmReq) (now : Z) :
    outcome AlarmError (AlarmChannel * list AlarmAction) :=
  let len := (NOTIFICATION_FIXED_LEN + data_len (an_data (ar_notification req)))%nat in
  if decide (ac_max_alarm_data_length (ch_cfg c) < Z.of_nat len)
  then Err (TooLong len (ac_max_alarm_data_length (ch_cfg c))) else
  Ok (send_next (set_queue c (ch_queue c ++ [req])) now).

(** alarm/channel.rs:337-354 AlarmChannel::on_transport_ack *)
Definition on_transport_ack (c : AlarmChannel) (ack_seq now : Z) :
    AlarmChannel * list AlarmAction :=
  match ch_state c with
  | SentData req seq _ _ =>
    if decide (ack_seq = seq) then
      (set_state c (AwaitAlarmAck req
         (now + ac_rta_timeout (ch_cfg c) * ALARM_ACK_TIMEOUT_FACTOR)), [])
    else (bump CtUnexpectedRx c, [])
  | _ => (bump CtUnexpectedRx c, [])
  end.

(** The request in flight, in either waiting state. *)
Definition in_flight_req (c : AlarmChannel) : option AlarmReq :=
  match ch_state c with
  | SentData req _ _ _ | AwaitAlarmAck req _ => Some req
  | ChIdle => None
  end.

(** alarm/channel.rs:380-386 AlarmChannel::on_data *)
Definition acks (a : AlarmAck) (req : AlarmReq) : bool :=
  bool_decide (an_alarm_type (ar_notification req) = aa_alarm_type a ∧
               an_slot (ar_notification req) = aa_slot a ∧
               an_subslot (ar_notification req) = aa_subslot a).

(** alarm/channel.rs:356-408 AlarmChannel::on_data *)
Definition on_data (c : AlarmChannel) (header : RtaHeader) (priority : Priority) (data : RtaData)
    (now : Z) : AlarmChannel * list AlarmAction :=
  if decide (rt_send_seq header = ch_last_rx_seq c) then
    (c, [AaSend (build_ack_rta c priority (rt_send_seq header))])
  else
  let c := set_last_rx_seq c (rt_send_seq header) in
  let actions := [AaSend (build_ack_rta c priority (rt_send_seq header))] in
  match data with
  | RdAck a =>
    match in_flight_req c with
    | Some req =>
      if acks a req then
        let c := bump CtAcked (set_state c ChIdle) in
        let (c, more) := send_next c now in
        (c, actions ++ [AaAcked (ar_id req) (aa_status a)] ++ more)
      else (bump CtUnexpectedRx c, actions ++ [AaUnexpectedRx])
    | None => (bump CtUnexpectedRx c, actions ++ [AaUnexpectedRx])
    end
  | RdNotification _ | RdUnknown _ _ => (bump CtUnexpectedRx c, actions ++ [AaUnexpectedRx])
  end.

(** alarm/channel.rs:410-415 AlarmChannel::on_err_rta *)
Definition on_err_rta (c : AlarmChannel) (status : PnioStatus) :
    AlarmChannel * list AlarmAction :=
  (set_queue (set_state (bump CtRxErrRta c) ChIdle) [], [AaAbort (ControllerErrRta status)]).

(** alarm/channel.rs:192-222 AlarmChannel::on_frame *)
Definition on_frame {E} (c : AlarmChannel) (frame : list Z) (now : Z) :
    outcome E (AlarmChannel * list AlarmAction) :=
  let unexpected := Ok (bump CtUnexpectedRx c, [AaUnexpectedRx]) in
  match parse_frame frame with
  | Panic => Panic
  | Err _ => unexpected
  | Ok pdu =>
    match EthHeader_parse frame with
    | Panic => Panic
    | Err _ => unexpected
    | Ok (h, _) =>
      if decide (eth_src h ≠ ac_peer_mac (ch_cfg c)) then unexpected else
      match rp_body pdu with
      | RbAck => Ok (on_transport_ack c (rt_ack_seq (rp_header pdu)) now)
      | RbData data => Ok (on_data c (rp_header pdu) (rp_priority pdu) data now)
      | RbErr status => Ok (on_err_rta c status)
      | RbNack => unexpected
      end
    end
  end.

(** alarm/channel.rs:417-445 AlarmChannel::retry_or_abort *)
Definition retry_or_abort {E} (c : AlarmChannel) (now : Z) :
    outcome E (AlarmChannel * list AlarmAction) :=
  if decide (ch_attempt c < ac_rta_retries (ch_cfg c)) then
    let c := bump CtRetries (set_attempt c (wrap16 (ch_attempt c + 1))) in
    match ch_state c with
    | SentData req seq frame _ =>
      Ok (set_state c (SentData req seq frame (now + ac_rta_timeout (ch_cfg c))), [AaSend frame])
    | ChIdle | AwaitAlarmAck _ _ => Panic
    end
  else Ok (set_queue (set_state (bump CtSendFailures c) ChIdle) [], [AaAbort AlarmSendFailed]).

(** alarm/channel.rs:447-467 AlarmChannel::drop_unacknowledged *)
Definition drop_unacknowledged {E} (c : AlarmChannel) (now : Z) :
    outcome E (AlarmChannel * list AlarmAction) :=
  match ch_state c with
  | AwaitAlarmAck _ _ => Ok (send_next (bump CtAckTimeouts (set_state c ChIdle)) now)
  | _ => Panic
  end.

(** alarm/channel.rs:224-249 AlarmChannel::on_tick *)
Definition on_tick {E} (c : AlarmChannel) (now : Z) : outcome E (AlarmChannel * list AlarmAction) :=
  match ch_state c with
  | SentData _ _ _ deadline =>
    if decide (now < deadline) then Ok (c, []) else retry_or_abort c now
  | AwaitAlarmAck _ deadline =>
    if decide (now < deadline) then Ok (c, []) else drop_unacknowledged c now
  | ChIdle => Ok (c, [])
  end.

(** alarm/channel.rs:251-260 AlarmChannel::next_deadline *)
Definition AlarmChannel_next_deadline (c : AlarmChannel) : option Z :=
  match ch_state c with
  | SentData _ _ _ deadline | AwaitAlarmAck _ deadline => Some deadline
  | ChIdle => None
  end.

(** alarm/channel.rs:280-286 AlarmChannel::in_flight *)
Definition in_flight (c : AlarmChannel) : option Z := ar_id <$> in_flight_req c.
(** alarm/channel.rs:288-291 AlarmChannel::queued *)
Definition queued (c : AlarmChannel) : nat := length (ch_queue c).
(** alarm/channel.rs:298-304 AlarmChannel::next_specifier_sequence *)
Definition next_specifier_sequence (c : AlarmChannel) : AlarmChannel * Z :=
  (set_specifier_seq c (Z.land (wrap16 (ch_specifier_seq c + 1)) 0x07FF), ch_specifier_seq c).

(** ** Runs of a channel *)

(** What the device loop does to a channel. *)
Inductive ChOp :=
| OpEnqueue (req : AlarmReq) (now : Z)
| OpFrame (frame : list Z) (now : Z)
| OpTick (now : Z)
| OpSpecifier.

(** One call.  A refused [enqueue] leaves the channel as it was. *)
Definition ch_step (c : AlarmChannel) (op : ChOp) :
    outcome Empty_set (AlarmChannel * list AlarmAction) :=
  match op with
  | OpEnqueue req now =>
    match enqueue c req now with
    | Ok r => Ok r
    | Err _ => Ok (c, [])
    | Panic => Panic
    end
  | OpFrame frame now => on_frame c frame now
  | OpTick now => on_tick c now
  | OpSpecifier => Ok ((next_specifier_sequence c).1, [])
  end.

Fixpoint ch_run (c : AlarmChannel) (ops : list ChOp) :
    outcome Empty_set (AlarmChannel * list AlarmAction) :=
  match ops with
  | [] => Ok (c, [])
  | op :: ops =>
    let! (c, acts) := ch_step c op in
    let! (c, more) := ch_run c ops in
    Ok (c, acts ++ more)
  end.

Definition wf_op (op : ChOp) : Prop :=
  match op with OpFrame frame _ => Forall u8 frame | _ => True end.

Definition wf_cfg (cfg : AlarmChannelConfig) : Prop :=
  u16 (ac_local_ref cfg) ∧ u16 (ac_remote_ref cfg) ∧ u16 (ac_rta_retries cfg) ∧
  u16 (ac_max_alarm_data_length cfg) ∧ wf_mac (ac_peer_mac cfg) ∧ wf_mac (ac_our_mac cfg).

(** ** The abstract sender *)

(** The alarms accepted and not finished, oldest first, and whether the
    oldest is known to have reached the controller. *)
Record Sender := MkSender { sn_pending : list AlarmReq; sn_delivered : bool }.

Inductive SenderEvent :=
| SeAccept (req : AlarmReq)
| SeDeliver
| SeAck (status : PnioStatus)
| SeDrop
| SeAbort (reason : AbortReason)
| SeNothing.

(** Only the oldest alarm is ever delivered, acknowledged or dropped; it is
    dropped unacknowledged only once delivered; an abort clears everything. *)
Definition sender_step (s : Sender) (ev : SenderEvent) : option (Sender * list AlarmAction) :=
  match ev, sn_pending s, sn_delivered s with
  | SeAccept req, p, d => Some (MkSender (p ++ [req]) d, [])
  | SeDeliver, r :: p, false => Some (MkSender (r :: p) true, [])
  | SeAck status, r :: p, _ => Some (MkSender p false, [AaAcked (ar_id r) status])
  | SeDrop, r :: p, true => Some (MkSender p false, [])
  | SeAbort reason, _, _ => Some (MkSender [] false, [AaAbort reason])
  | SeNothing, _, _ => Some (s, [])
  | _, _, _ => None
  end.

Fixpoint sender_run (s : Sender) (evs : list SenderEvent) : option (Sender * list AlarmAction) :=
  match evs with
  | [] => Some (s, [])
  | ev :: evs =>
    '(s, acts) ← sender_step s ev;
    '(s, more) ← sender_run s evs;
    Some (s, acts ++ more)
  end.

Definition accepts_of (evs : list SenderEvent) : list AlarmReq :=
  omap (λ ev, match ev with SeAccept r => Some r | _ => None end) evs.

(** What a channel looks like to the sender's user. *)
Definition ch_pending (c : AlarmChannel) : list AlarmReq :=
  match in_flight_req c with Some r => [r] | None => [] end ++ ch_queue c.
Definition ch_abs (c : AlarmChannel) : Sender :=
  MkSender (ch_pending c) (match ch_state c with AwaitAlarmAck _ _ => true | _ => false end).

(** The actions the user sees; the others are frames and bookkeeping. *)
Definition upper (acts : list AlarmAction) : list AlarmAction :=
  omap (λ a, match a with AaAcked _ _ | AaAbort _ => Some a | _ => None end) acts.

(** [enqueue]'s length check. *)
Definition fits (cfg : AlarmChannelConfig) (req : AlarmReq) : Prop :=
  Z.of_nat (NOTIFICATION_FIXED_LEN + data_len (an_data (ar_notification req)))
  ≤ ac_max_alarm_data_length cfg.
#[global] Instance fits_dec cfg req : Decision (fits cfg req).
Proof. unfold fits. apply _. Defined.

(** The requests of a run that are accepted, in order. *)
Definition accepted_reqs (cfg : AlarmChannelConfig) (ops : list ChOp) : list AlarmReq :=
  omap (λ op, match op with
              | OpEnqueue r _ => if decide (fits cfg r) then Some r else None
              | _ => None
              end) ops.

(** ** The channel's invariant *)

(** The send sequence: [SEQ_INIT], then 0, 1, ... modulo 0x8000. *)
Definition seq_ok (last next : Z) : Prop :=
  (last = SEQ_NONE ∧ next = SEQ_INIT) ∨
  (last = SEQ_INIT ∧ next = 0) ∨
  (0 ≤ last < 0x8000 ∧ next = (last + 1) mod 0x8000).

Record ch_core (c : AlarmChannel) : Prop := {
  ci_attempt : 0 ≤ ch_attempt c ≤ ac_rta_retries (ch_cfg c);
  ci_seq : seq_ok (ch_last_sent_seq c) (ch_next_send_seq c);
  ci_sent : ∀ req seq frame dl, ch_state c = SentData req seq frame dl →
    seq = ch_last_sent_seq c ∧
    ∃ ack, u16 ack ∧ frame = build_data_frame (ch_cfg c) req seq ack;
  ci_fits : Forall (fits (ch_cfg c)) (ch_pending c);
  ci_rx : u16 (ch_last_rx_seq c);
  ci_spec : 0 ≤ ch_specifier_seq c < 0x800
}.

(** Between calls, moreover, an idle channel has nothing queued. *)
Definition ch_inv (c : AlarmChannel) : Prop :=
  ch_core c ∧ (ch_state c = ChIdle → ch_queue c = []).

Lemma seq_ok_next seq last :
  seq_ok last seq →
  seq_ok seq (if decide (seq = SEQ_INIT) then 0 else Z.land (wrap16 (seq + 1)) 0x7FFF).
Proof.
  intros H. unfold seq_ok, SEQ_INIT, SEQ_NONE in *. destruct (decide (seq = 0xFFFF)); [lia|].
  right. right. assert (0 ≤ seq < 0x8000) as Hs.
  { destruct H as [|[|[? ->]]]; try lia. apply Z.mod_pos_bound. lia. }
  split; [done|]. change 0x7FFF with (Z.ones 15). rewrite Z.land_ones by lia.
  unfold wrap16. by rewrite (Z.mod_small _ 65536) by lia.
Qed.

(** Consecutive notifications never carry the same sequence number, so the
    peer's duplicate detection does not swallow one. *)
Lemma seq_ok_fresh last next : seq_ok last next → u16 last ∧ u16 next ∧ last ≠ next.
Proof.
  unfold seq_ok, SEQ_NONE, SEQ_INIT, u16. intros [[-> ->]|[[-> ->]|[? ->]]]; [lia|lia|].
  pose proof (Z.mod_pos_bound (last + 1) 0x8000). split_and!; try lia.
  destruct (decide (last = 0x7FFF)) as [->|]; [done|]. rewrite Z.mod_small by lia. lia.
Qed.

Lemma ch_inv_new cfg : wf_cfg cfg → ch_inv (AlarmChannel_new cfg).
Proof.
  intros (_ & _ & Hr & _). split; [split; cbn; try done|done].
  - unfold u16 in Hr. lia.
  - by left.
Qed.

(** *** Every operation keeps the invariant and refines the sender *)

Lemma send_next_inv c now :
  ch_core c → 0 ≤ ac_rta_retries (ch_cfg c) → ch_inv (send_next c now).1.
Proof.
  intros Hc Hr. unfold send_next. destruct (ch_state c) eqn:Hst; [|by split; [|cbn; congruence]..].
  destruct (ch_queue c) as [|req q] eqn:Hq; [done|]. cbn [fst].
  destruct Hc as [_ Hseq _ Hfits Hrx Hspec]. split; [|done].
  split; cbn; [lia|by eapply seq_ok_next| |  |done|done].
  - intros ? ? ? ? [= <- <- <- <-]. eauto.
  - unfold ch_pending, in_flight_req in Hfits. rewrite Hst, Hq in Hfits. done.
Qed.

Lemma send_next_abs c now : ch_abs (send_next c now).1 = ch_abs c.
Proof.
  unfold send_next. destruct (ch_state c) eqn:Hst; [|done..].
  destruct (ch_queue c) as [|req q] eqn:Hq; [done|].
  unfold ch_abs, ch_pending, in_flight_req. cbn. by rewrite Hst, Hq.
Qed.

Lemma send_next_upper c now : upper (send_next c now).2 = [].
Proof. unfold send_next. by destruct (ch_state c), (ch_queue c). Qed.

Lemma send_next_cfg c now : ch_cfg (send_next c now).1 = ch_cfg c.
Proof. unfold send_next. by destruct (ch_state c), (ch_queue c). Qed.

Lemma upper_app a b : upper (a ++ b) = upper a ++ upper b.
Proof. apply omap_app. Qed.

(** Updates that leave the sender's view alone. *)
Lemma bump_core k c : ch_core c → ch_core (bump k c).
Proof. by intros []. Qed.
Lemma bump_inv k c : ch_inv c → ch_inv (bump k c).
Proof. intros [? ?]. split; [by apply bump_core|done]. Qed.
Lemma last_rx_core v c : ch_core c → u16 v → ch_core (set_last_rx_seq c v).
Proof. by intros [] ?. Qed.

Lemma RtaHeader_parse_send_seq buf h n :
  Forall u8 buf → RtaHeader_parse buf = Ok (h, n) → u16 (rt_send_seq h).
Proof.
  intros Hb H. unfold RtaHeader_parse in H. case_decide; [done|]. do 8 ok_step.
  all: ok_inv; simplify_eq; cbn; by eapply be16_at_u16.
Qed.

Lemma parse_frame_send_seq frame pdu :
  Forall u8 frame → parse_frame frame = Ok pdu → u16 (rt_send_seq (rp_header pdu)).
Proof.
  intros Hb H. unfold parse_frame in H. ok_inv; cbn [rp_header];
    (eapply RtaHeader_parse_send_seq; [|eassumption]); unfold slice_from in *; ok_inv;
    by apply Forall_drop.
Qed.

(** A call that behaves as the sender's event [ev]. *)
Definition refines (c : AlarmChannel) (ev : SenderEvent) (r : AlarmChannel * list AlarmAction) :
    Prop :=
  ch_inv r.1 ∧ ch_cfg r.1 = ch_cfg c ∧ sender_step (ch_abs c) ev = Some (ch_abs r.1, upper r.2).

(** The events each call may be. *)
Definition event_of (cfg : AlarmChannelConfig) (op : ChOp) (ev : SenderEvent) : Prop :=
  match op, ev with
  | OpEnqueue r _, SeAccept r' => r = r' ∧ fits cfg r
  | OpEnqueue r _, SeNothing => ¬ fits cfg r
  | OpFrame _ _, (SeDeliver | SeAck _ | SeNothing) => True
  | OpFrame _ _, SeAbort reason => ∃ status, reason = ControllerErrRta status
  | OpTick _, (SeDrop | SeNothing) => True
  | OpTick _, SeAbort reason => reason = AlarmSendFailed
  | OpSpecifier, SeNothing => True
  | _, _ => False
  end.

Lemma refines_nothing c r :
  ch_inv r.1 → ch_cfg r.1 = ch_cfg c → ch_abs r.1 = ch_abs c → upper r.2 = [] →
  refines c SeNothing r.
Proof. intros ? ? Ha Hu. split_and!; [done..|]. cbn. by rewrite Ha, Hu. Qed.

Section channel.
Context (c : AlarmChannel) (Hinv : ch_inv c) (Hcfg : wf_cfg (ch_cfg c)).

Lemma retries_nonneg : 0 ≤ ac_rta_retries (ch_cfg c).
Proof using Hcfg. destruct Hcfg as (_ & _ & [? _] & _). done. Qed.

Lemma enqueue_refines req now :
  fits (ch_cfg c) req → ∃ r, enqueue c req now = Ok r ∧ refines c (SeAccept req) r.
Proof using Hinv Hcfg.
  intros Hf. unfold enqueue. rewrite decide_False by (unfold fits in Hf; lia).
  eexists. split; [done|]. set (c' := set_queue _ _).
  assert (ch_abs c' = MkSender (ch_pending c ++ [req]) (sn_delivered (ch_abs c))) as Ha.
  { unfold ch_abs, ch_pending, in_flight_req. cbn. by rewrite app_assoc. }
  split_and!.
  - apply send_next_inv; [|apply retries_nonneg]. destruct Hinv as [[] _].
    split; [done..| |done|done]. change (ch_pending c') with (sn_pending (ch_abs c')).
    rewrite Ha. cbn. apply Forall_app_2; [done|by constructor].
  - by rewrite send_next_cfg.
  - by rewrite send_next_upper, send_next_abs, Ha.
Qed.

Lemma enqueue_refused req now : ¬ fits (ch_cfg c) req → ∃ e, enqueue c req now = Err e.
Proof. intros Hf. unfold enqueue. rewrite decide_True by (unfold fits in Hf; lia). eauto. Qed.

Lemma unexpected_refines acts :
  upper acts = [] → refines c SeNothing (bump CtUnexpectedRx c, acts).
Proof using Hinv. intros. apply refines_nothing; [by apply bump_inv|done..]. Qed.

Lemma on_transport_ack_refines ack_seq now :
  ∃ ev, (ev = SeDeliver ∨ ev = SeNothing) ∧ refines c ev (on_transport_ack c ack_seq now).
Proof using Hinv.
  unfold on_transport_ack.
  destruct (ch_state c) as [|req seq frame dl|req dl] eqn:Hst;
    [exists SeNothing; split; [by right|by apply unexpected_refines]
    | |exists SeNothing; split; [by right|by apply unexpected_refines]].
  destruct (decide _); [|exists SeNothing; split; [by right|by apply unexpected_refines]].
  exists SeDeliver. split; [by left|]. destruct Hinv as [[Ha Hs _ Hf Hr Hsp] _].
  unfold ch_pending, in_flight_req in Hf. rewrite Hst in Hf.
  split_and!; [split; [by split|done]|done|].
  unfold sender_step, ch_abs, ch_pending, in_flight_req. cbn. by rewrite Hst.
Qed.

Lemma on_err_rta_refines status :
  refines c (SeAbort (ControllerErrRta status)) (on_err_rta c status).
Proof using Hinv.
  destruct Hinv as [[Ha Hs _ Hf Hr Hsp] _].
  split_and!; [split; [split; cbn; try done|done]|done|done]; constructor.
Qed.

Lemma on_data_refines header priority data now :
  u16 (rt_send_seq header) →
  ∃ ev, (ev = SeNothing ∨ ∃ status, ev = SeAck status) ∧
        refines c ev (on_data c header priority data now).
Proof using Hinv Hcfg.
  intros Hseq. unfold on_data. destruct (decide _) as [|_].
  { exists SeNothing. split; [by left|]. by apply refines_nothing. }
  set (c1 := set_last_rx_seq c _).
  assert (ch_inv c1) as H1 by (destruct Hinv; split; [by apply last_rx_core|done]).
  assert (refines c SeNothing (bump CtUnexpectedRx c1,
    [AaSend (build_ack_rta c1 priority (rt_send_seq header))] ++ [AaUnexpectedRx])) as Hno
    by (apply refines_nothing; [by apply bump_inv|done..]).
  destruct data as [n|a|ty b]; [by eauto| |by eauto].
  destruct (in_flight_req c1) as [req|] eqn:Hfl; [|by eauto].
  destruct (acks a req); [|by eauto].
  set (c2 := bump CtAcked _). exists (SeAck (aa_status a)). split; [by eauto|].
  assert (ch_abs c2 = MkSender (ch_queue c) false) as Ha by done.
  pose proof (send_next_inv c2 now) as Hsi. pose proof (send_next_abs c2 now) as Hsa.
  pose proof (send_next_upper c2 now) as Hsu. pose proof (send_next_cfg c2 now) as Hsc.
  destruct (send_next c2 now) as [c3 more]. cbn [fst snd] in *. split_and!.
  - apply Hsi; [|apply retries_nonneg]. destruct H1 as [[? ? ? Hf ? ?] _].
    split; [done..| |done|done]. unfold ch_pending in Hf. rewrite Hfl in Hf.
    by apply Forall_cons_1 in Hf as [_ ?].
  - cbn [fst]. by rewrite Hsc.
  - cbn [fst snd]. rewrite !upper_app, Hsu, Hsa, Ha. unfold sender_step, ch_abs, ch_pending. cbn.
    change (in_flight_req c) with (in_flight_req c1). by rewrite Hfl.
Qed.

Lemma on_tick_refines {E} now :
  ∃ ev r, event_of (ch_cfg c) (OpTick now) ev ∧ on_tick (E := E) c now = Ok r ∧ refines c ev r.
Proof using Hinv Hcfg.
  assert (∃ ev r, event_of (ch_cfg c) (OpTick now) ev ∧ Ok (E := E) (c, []) = Ok r ∧ refines c ev r)
    as Hno by (exists SeNothing, (c, []); split_and!; [done..|by apply refines_nothing]).
  unfold on_tick. destruct (ch_state c) as [|req seq frame dl|req dl] eqn:Hst; [done| |].
  - destruct (decide _); [done|]. unfold retry_or_abort.
    destruct Hinv as [[Ha Hs Hsent Hf Hr Hsp] _]. destruct (decide _).
    + cbn [bump set_attempt set_stats ch_state]. rewrite Hst. exists SeNothing.
      eexists. split_and!; [done|done|]. apply refines_nothing; [|done|..|done].
      * split; [|done]. destruct Hcfg as (_ & _ & Hre & _). unfold u16 in Hre.
        split; cbn; [rewrite wrap16_id; unfold u16; lia|done| | |done|done].
        -- intros ? ? ? ? [= <- <- <- <-]. by eapply Hsent.
        -- unfold ch_pending, in_flight_req in *. by rewrite Hst in Hf.
      * unfold ch_abs, ch_pending, in_flight_req. cbn. by rewrite Hst.
    + exists (SeAbort AlarmSendFailed). eexists. split_and!; [done|done|].
      split_and!; [split; [split; cbn; try done|done]|done|done]; constructor.
  - destruct (decide _); [done|]. unfold drop_unacknowledged. rewrite Hst.
    exists SeDrop. eexists. split_and!; [done|done|].
    destruct Hinv as [[Ha Hs Hsent Hf Hr Hsp] _]. split_and!.
    + apply send_next_inv; [|apply retries_nonneg]. split; try done.
      unfold ch_pending, in_flight_req in *. rewrite Hst in Hf.
      by apply Forall_cons_1 in Hf as [_ ?].
    + by rewrite send_next_cfg.
    + rewrite send_next_upper, send_next_abs. unfold sender_step, ch_abs, ch_pending, in_flight_req.
      cbn. by rewrite Hst.
Qed.

Lemma on_frame_refines {E} frame now :
  Forall u8 frame →
  ∃ ev r, event_of (ch_cfg c) (OpFrame frame now) ev ∧ on_frame (E := E) c frame now = Ok r ∧
          refines c ev r.
Proof using Hinv Hcfg.
  intros Hb. pose proof (unexpected_refines [AaUnexpectedRx] eq_refl) as Hno. unfold on_frame.
  pose proof (parse_frame_no_panic frame) as Hnp.
  destruct (parse_frame frame) as [pdu|e|] eqn:Hp; [|by exists SeNothing; eexists|done].
  pose proof (EthHeader_parse_no_panic frame) as Hnp'.
  destruct (EthHeader_parse frame) as [[h off]|e|]; [|by exists SeNothing; eexists|done].
  destruct (decide _); [by exists SeNothing; eexists|].
  destruct (rp_body pdu) as [d| | |st].
  - destruct (on_data_refines (rp_header pdu) (rp_priority pdu) d now) as (ev & Hev & H).
    { by eapply parse_frame_send_seq. }
    exists ev. eexists. split_and!; [|done|done]. by destruct Hev as [->|[? ->]].
  - destruct (on_transport_ack_refines (rt_ack_seq (rp_header pdu)) now) as (ev & Hev & H).
    exists ev. eexists. split_and!; [|done|done]. by destruct Hev as [->| ->].
  - by exists SeNothing; eexists.
  - exists (SeAbort (ControllerErrRta st)). eexists. split_and!; [by eexists|done|].
    apply on_err_rta_refines.
Qed.

Lemma ch_step_refines op :
  wf_op op → ∃ ev r, event_of (ch_cfg c) op ev ∧ ch_step c op = Ok r ∧ refines c ev r.
Proof using Hinv Hcfg.
  destruct op as [req now|frame now|now|]; intros Hop.
  - cbn [ch_step]. destruct (decide (fits (ch_cfg c) req)) as [Hf|Hf].
    + destruct (enqueue_refines req now Hf) as (r & -> & ?). exists (SeAccept req), r. by split_and!.
    + destruct (enqueue_refused req now Hf) as (e & ->). exists SeNothing. eexists.
      split_and!; [done|done|]. by apply refines_nothing.
  - by apply on_frame_refines.
  - apply on_tick_refines.
  - exists SeNothing. eexists. split_and!; [done|done|]. apply refines_nothing; try done.
    destruct Hinv as [[] ?]. split; [|done]. split; try done. cbn.
    change 0x7FF with (Z.ones 11). rewrite Z.land_ones by lia. by apply Z.mod_pos_bound.
Qed.
End channel.

(** *** Whole runs *)

Lemma ch_run_refines ops : ∀ c,
  ch_inv c → wf_cfg (ch_cfg c) → Forall wf_op ops →
  ∃ c' acts evs, ch_run c ops = Ok (c', acts) ∧ ch_inv c' ∧ ch_cfg c' = ch_cfg c ∧
    sender_run (ch_abs c) evs = Some (ch_abs c', upper acts) ∧
    Forall2 (event_of (ch_cfg c)) ops evs.
Proof.
  induction ops as [|op ops IH]; intros c Hi Hw Ho.
  { exists c, [], []. by split_and!. }
  apply Forall_cons_1 in Ho as [Hop Ho].
  destruct (ch_step_refines c Hi Hw op Hop) as (ev & [c1 a1] & Hev & Hs & Hi1 & Hc1 & Hst).
  cbn [fst snd] in *.
  destruct (IH c1) as (c2 & a2 & evs & Hr & Hi2 & Hc2 & Hst2 & Hevs); [done|by rewrite Hc1|done|].
  exists c2, (a1 ++ a2), (ev :: evs). split_and!; [|done|congruence| |].
  - cbn. by rewrite Hs; cbn; rewrite Hr.
  - cbn. by rewrite Hst; cbn; rewrite Hst2, upper_app.
  - constructor; [done|]. by rewrite Hc1 in Hevs.
Qed.

Lemma accepts_of_accepted cfg ops evs :
  Forall2 (event_of cfg) ops evs → accepts_of evs = accepted_reqs cfg ops.
Proof.
  unfold accepts_of, accepted_reqs.
  induction 1 as [|op ev ops evs He _ IH]; [done|]. cbn. rewrite IH.
  destruct op, ev; cbn in He; try done.
  - destruct He as [<- ?]. by rewrite decide_True.
  - by rewrite decide_False.
Qed.

Definition acked_ids (acts : list AlarmAction) : list Z :=
  omap (λ a, match a with AaAcked id _ => Some id | _ => None end) acts.

Lemma acked_ids_upper acts : acked_ids (upper acts) = acked_ids acts.
Proof. induction acts as [|[] acts IH]; cbn; unfold upper, acked_ids in *; by rewrite ?IH. Qed.

Lemma acked_ids_app a b : acked_ids (a ++ b) = acked_ids a ++ acked_ids b.
Proof. apply omap_app. Qed.

(** The abstract sender acknowledges each accepted alarm at most once, in the
    order of acceptance. *)
Lemma sender_run_order evs : ∀ s s' acts,
  sender_run s evs = Some (s', acts) →
  acked_ids acts ++ (ar_id <$> sn_pending s') `sublist_of`
    (ar_id <$> sn_pending s) ++ (ar_id <$> accepts_of evs).
Proof.
  induction evs as [|ev evs IH]; intros [p d] s' acts H; cbn in H.
  { injection H as <- <-. cbn. by rewrite app_nil_r. }
  apply bind_Some in H as ([s1 a1] & H1 & H). apply bind_Some in H as ([s2 a2] & H2 & H).
  injection H as <- <-. specialize (IH _ _ _ H2). rewrite acked_ids_app.
  destruct ev; cbn in H1; repeat (case_match; simplify_eq); simplify_eq; cbn in *; try done.
  - by rewrite fmap_app, <-app_assoc in IH.
  - by constructor.
  - by constructor.
  - etrans; [done|]. by apply sublist_inserts_l.
Qed.

(** *** Frames the channel sends *)

Lemma ack_frame_parses c priority seq :
  ch_inv c → wf_cfg (ch_cfg c) → u16 seq →
  parse_frame (build_ack_rta c priority seq) = Ok (ack_pdu c priority seq).
Proof.
  intros [[_ Hs _ _ _ _] _] (Hl & Hr & _ & _ & Hp & Ho) Hseq.
  rewrite <-(app_nil_r (build_ack_rta _ _ _)). apply parse_frame_at; [done..|].
  apply seq_ok_fresh in Hs as [? _]. split_and!; [|done|done]. by split_and!.
Qed.

(** The length [enqueue] checks is the [BlockLength] the notification's block
    will carry: its body and the two version octets. *)
Lemma enqueue_len n :
  (NOTIFICATION_FIXED_LEN + data_len (an_data n))%nat = (length (notification_body n) + 2)%nat.
Proof.
  unfold notification_body, NOTIFICATION_FIXED_LEN. destruct (an_data n); cbn; lia.
Qed.

Lemma data_frame_parses c req seq ack :
  wf_cfg (ch_cfg c) → fits (ch_cfg c) req → wf_notification (ar_notification req) →
  ac_max_alarm_data_length (ch_cfg c) ≤ 65531 → u16 seq → u16 ack →
  parse_frame (build_data_frame (ch_cfg c) req seq ack) = Ok (data_pdu (ch_cfg c) req seq ack).
Proof.
  intros (Hl & Hr & _ & Hm & Hp & Ho) Hf Hn Hmax Hseq Hack.
  rewrite <-(app_nil_r (build_data_frame _ _ _ _)). apply parse_frame_at; [done..|].
  unfold fits in Hf. rewrite enqueue_len in Hf. split_and!; [by split_and!|done|].
  cbn [rp_body data_pdu rp_priority]. split; [done|].
  cbn [write_rta_data]. unfold write_notification. fold (notification_body (ar_notification req)).
  rewrite length_app, length_BlockHeader_write. lia.
Qed.

(** ** Claims *)

(** C18: whatever requests, frames, ticks and specifier draws a fresh alarm
    channel is given, it does not panic and it behaves as the abstract sender:
    there is a matching run of the sender that accepts exactly the requests
    whose length passes the check, that ends with the channel's in-flight
    alarm followed by its queue, and that shows the application exactly the
    acknowledgements and aborts the channel returned. *)
Theorem channel_refines_sender cfg ops :
  wf_cfg cfg → Forall wf_op ops →
  ∃ c acts evs, ch_run (AlarmChannel_new cfg) ops = Ok (c, acts) ∧
    sender_run (MkSender [] false) evs = Some (ch_abs c, upper acts) ∧
    Forall2 (event_of cfg) ops evs ∧ accepts_of evs = accepted_reqs cfg ops.
Proof.
  intros Hw Ho.
  destruct (ch_run_refines ops (AlarmChannel_new cfg) (ch_inv_new _ Hw) Hw Ho)
    as (c & acts & evs & Hr & _ & _ & Hs & Hev).
  exists c, acts, evs. split_and!; [done..|]. by apply accepts_of_accepted.
Qed.

(** Alarms are acknowledged to the application in the order they were
    accepted, each at most once, and the alarms in flight or queued come after
    every acknowledged one. *)
Theorem acks_in_order cfg ops c acts :
  wf_cfg cfg → Forall wf_op ops → ch_run (AlarmChannel_new cfg) ops = Ok (c, acts) →
  acked_ids acts ++ (ar_id <$> ch_pending c) `sublist_of` (ar_id <$> accepted_reqs cfg ops).
Proof.
  intros Hw Ho H.
  destruct (ch_run_refines ops (AlarmChannel_new cfg) (ch_inv_new _ Hw) Hw Ho)
    as (c' & acts' & evs & Hr & _ & _ & Hs & Hev).
  rewrite Hr in H. injection H as -> ->. apply sender_run_order in Hs.
  rewrite acked_ids_upper, (accepts_of_accepted _ _ _ Hev) in Hs. done.
Qed.

(** Ticks that each find the current deadline expired. *)
Fixpoint expiring (deadline timeout : Z) (ts : list Z) : Prop :=
  match ts with
  | [] => True
  | t :: ts => deadline ≤ t ∧ expiring (t + timeout) timeout ts
  end.

Lemma on_tick_resends {E} c req seq frame dl now :
  ch_state c = SentData req seq frame dl → dl ≤ now →
  0 ≤ ch_attempt c < ac_rta_retries (ch_cfg c) → u16 (ac_rta_retries (ch_cfg c)) →
  ∃ c', on_tick (E := E) c now = Ok (c', [AaSend frame]) ∧ ch_cfg c' = ch_cfg c ∧
    ch_state c' = SentData req seq frame (now + ac_rta_timeout (ch_cfg c)) ∧
    ch_queue c' = ch_queue c ∧ ch_attempt c' = ch_attempt c + 1.
Proof.
  intros Hst Hdl Ha [_ Hu]. unfold on_tick, retry_or_abort. rewrite Hst.
  rewrite decide_False, decide_True by lia. cbn [bump set_attempt set_stats ch_state].
  rewrite Hst. eexists. split_and!; [done..|]. cbn. apply wrap16_id. unfold u16. lia.
Qed.

Lemma ticks_exhaust n : ∀ c req seq frame dl ts,
  ch_state c = SentData req seq frame dl → u16 (ac_rta_retries (ch_cfg c)) →
  0 ≤ ch_attempt c → ac_rta_retries (ch_cfg c) = ch_attempt c + Z.of_nat n →
  length ts = S n → expiring dl (ac_rta_timeout (ch_cfg c)) ts →
  ∃ c', ch_run c (OpTick <$> ts) =
    Ok (c', replicate n (AaSend frame) ++ [AaAbort AlarmSendFailed]) ∧ ch_pending c' = [].
Proof.
  induction n as [|n IH]; intros c req seq frame dl [|t ts] Hst Hu Ha Hn Hl He; try done;
    destruct He as [Hdl He].
  - destruct ts; [|done]. cbn. unfold on_tick, retry_or_abort. rewrite Hst.
    rewrite !decide_False by lia. cbn. by eexists.
  - destruct (on_tick_resends (E := Empty_set) c req seq frame dl t)
      as (c1 & Hr & Hc & Hs1 & _ & Ha1); [done..|lia|done|].
    destruct (IH c1 req seq frame (t + ac_rta_timeout (ch_cfg c)) ts) as (c2 & Hr2 & Hp2);
      rewrite ?Hc; try (done || lia).
    { by injection Hl. }
    exists c2. split; [|done]. cbn. by rewrite Hr; cbn; rewrite Hr2.
Qed.

(** C32: a notification that is never acknowledged is retransmitted bounded
    many times.  From the state just after its transmission, if ticks keep
    finding the deadline expired, the first [rta_retries] of them resend the
    very same frame and the next one aborts the AR with [AlarmSendFailed],
    leaving nothing in flight and nothing queued. *)
Theorem retransmission_bounded c req seq frame dl ts :
  wf_cfg (ch_cfg c) → ch_state c = SentData req seq frame dl → ch_attempt c = 0 →
  length ts = S (Z.to_nat (ac_rta_retries (ch_cfg c))) →
  expiring dl (ac_rta_timeout (ch_cfg c)) ts →
  ∃ c', ch_run c (OpTick <$> ts) =
    Ok (c', replicate (Z.to_nat (ac_rta_retries (ch_cfg c))) (AaSend frame)
            ++ [AaAbort AlarmSendFailed]) ∧
    ch_pending c' = [].
Proof.
  intros (_ & _ & Hu & _) Hst Ha Hl He. unfold u16 in Hu.
  eapply ticks_exhaust; [done|unfold u16; lia|lia|lia|done|done].
Qed.

Lemma send_next_last_rx c now : ch_last_rx_seq (send_next c now).1 = ch_last_rx_seq c.
Proof. unfold send_next. by destruct (ch_state c), (ch_queue c). Qed.

(** A DATA is first acknowledged; a repeated one is only acknowledged. *)
Lemma on_data_acks c header priority data now :
  ch_inv c → wf_cfg (ch_cfg c) → u16 (rt_send_seq header) →
  ∃ c' more, on_data c header priority data now =
      (c', AaSend (build_ack_rta c priority (rt_send_seq header)) :: more) ∧
    ch_last_rx_seq c' = rt_send_seq header ∧ ch_cfg c' = ch_cfg c ∧ ch_inv c' ∧
    (rt_send_seq header = ch_last_rx_seq c → c' = c ∧ more = []).
Proof.
  intros Hi Hw Hs. destruct (on_data_refines c Hi Hw header priority data now Hs)
    as (ev & _ & Hi' & Hc' & _).
  revert Hi' Hc'. unfold on_data. destruct (decide _) as [He|Hne].
  { cbn [fst]. intros _ _. exists c, []. by split_and!. }
  destruct data as [n|a|ty b]; cbn [fst app];
    [by intros ? ?; do 2 eexists; split_and!| |by intros ? ?; do 2 eexists; split_and!].
  destruct (in_flight_req _) as [req|]; cbn [fst app];
    [|by intros ? ?; do 2 eexists; split_and!].
  destruct (acks a req); cbn [fst app]; [|by intros ? ?; do 2 eexists; split_and!].
  set (c2 := bump CtAcked _). pose proof (send_next_last_rx c2 now) as Hl.
  destruct (send_next c2 now) as [c3 more]. cbn in *. intros ? ?.
  do 2 eexists. split_and!; [done..|]. intros. done.
Qed.

(** A data frame of the controller, as it arrives. *)
Lemma on_frame_data {E} c pdu d padding now :
  wf_cfg (ch_cfg c) → wf_pdu pdu → rp_body pdu = RbData d →
  on_frame (E := E) c
    (build_frame (ac_our_mac (ch_cfg c)) (ac_peer_mac (ch_cfg c)) pdu ++ padding) now =
  Ok (on_data c (rp_header pdu) (rp_priority pdu) d now).
Proof.
  intros (_ & _ & _ & _ & Hp & Ho) Hpdu Hb. unfold on_frame.
  rewrite parse_frame_at by done. rewrite build_frame_parts, <-app_assoc.
  rewrite EthHeader_parse_write by (done || by apply wf_alarm_eth).
  cbn [eth_src alarm_eth]. rewrite decide_False by (intros H; by apply H). by rewrite Hb.
Qed.

(** Every data frame the controller sends is acknowledged.  The first
    action is an ACK frame whose bytes parse back to an acknowledgement of
    exactly the frame's sequence number, addressed to the controller's alarm
    reference, at the priority of the frame; and the same frame received again
    is acknowledged again and changes nothing. *)
Theorem data_acknowledged c pdu d padding now now' :
  ch_inv c → wf_cfg (ch_cfg c) → wf_pdu pdu → rp_body pdu = RbData d →
  let frame := build_frame (ac_our_mac (ch_cfg c)) (ac_peer_mac (ch_cfg c)) pdu ++ padding in
  let seq := rt_send_seq (rp_header pdu) in
  ∃ c' ack more ack',
    ch_step c (OpFrame frame now) = Ok (c', AaSend ack :: more) ∧
    parse_frame ack = Ok (ack_pdu c (rp_priority pdu) seq) ∧
    ch_step c' (OpFrame frame now') = Ok (c', [AaSend ack']) ∧
    parse_frame ack' = Ok (ack_pdu c' (rp_priority pdu) seq).
Proof.
  intros Hi Hw Hpdu Hb. cbn zeta. assert (u16 (rt_send_seq (rp_header pdu))) as Hs by apply Hpdu.
  destruct (on_data_acks c (rp_header pdu) (rp_priority pdu) d now Hi Hw Hs)
    as (c' & more & H1 & Hl & Hc & Hi' & _).
  assert (wf_cfg (ch_cfg c')) as Hw' by by rewrite Hc.
  destruct (on_data_acks c' (rp_header pdu) (rp_priority pdu) d now' Hi' Hw' Hs)
    as (c2 & more2 & H2 & _ & _ & _ & Hdup). destruct (Hdup (eq_sym Hl)) as [-> ->].
  exists c'. do 3 eexists. split_and!.
  - cbn [ch_step]. by rewrite (on_frame_data c pdu d padding now Hw Hpdu Hb), H1.
  - by apply ack_frame_parses.
  - cbn [ch_step]. rewrite <-Hc. by rewrite (on_frame_data c' pdu d padding now' Hw' Hpdu Hb), H2.
  - by apply ack_frame_parses.
Qed.

(** On an idle channel [enqueue] either refuses the alarm, exactly when
    the block length its notification would carry exceeds the negotiated
    maximum, or sends at once a single frame that parses back to this very
    notification under the next sequence number (one the previous notification
    did not use), and arms the retransmission timer. *)
Theorem enqueue_transmits c req now :
  ch_inv c → wf_cfg (ch_cfg c) → ch_state c = ChIdle → wf_notification (ar_notification req) →
  ac_max_alarm_data_length (ch_cfg c) ≤ 65531 →
  let block_length := (length (notification_body (ar_notification req)) + 2)%nat in
  match enqueue c req now with
  | Err (TooLong len max) => len = block_length ∧ max = ac_max_alarm_data_length (ch_cfg c) ∧
                             max < Z.of_nat len
  | Ok (c', acts) =>
    Z.of_nat block_length ≤ ac_max_alarm_data_length (ch_cfg c) ∧
    ch_next_send_seq c ≠ ch_last_sent_seq c ∧
    (∃ f, acts = [AaSend f] ∧
      parse_frame f = Ok (data_pdu (ch_cfg c) req (ch_next_send_seq c) (ch_last_rx_seq c))) ∧
    in_flight c' = Some (ar_id req) ∧ queued c' = 0%nat ∧
    AlarmChannel_next_deadline c' = Some (now + ac_rta_timeout (ch_cfg c))
  | Panic => False
  end.
Proof.
  intros [[_ Hs _ _ Hrx _] Hq] Hw Hst Hn Hmax. cbn zeta. rewrite <-enqueue_len. unfold enqueue.
  destruct (decide _) as [|Hfit]; [by split_and!|]. unfold send_next. cbn [ch_state set_queue].
  rewrite Hst. cbn [ch_queue]. rewrite (Hq Hst). cbn [app].
  apply seq_ok_fresh in Hs as (_ & Hu & Hne). split_and!; [lia|done| |done..].
  eexists. split; [done|]. apply (data_frame_parses c); try done. unfold fits. lia.
Qed.

(** ** Witnesses *)

Definition sample_cfg : AlarmChannelConfig := {|
  ac_local_ref := 1; ac_remote_ref := 3; ac_rta_timeout := 100000000; ac_rta_retries := 3;
  ac_max_alarm_data_length := 200; ac_peer_mac := sample_mac_b; ac_our_mac := sample_mac_a |}.

Definition sample_alarm_req (id : Z) : AlarmReq :=
  {| ar_id := id; ar_priority := Low; ar_notification := sample_notification |}.

Lemma wf_sample_cfg : wf_cfg sample_cfg.
Proof. unfold wf_cfg, wf_mac. by_decide. Qed.

(** A channel with one alarm just sent. *)
Definition sample_channel : AlarmChannel :=
  (send_next (set_queue (AlarmChannel_new sample_cfg) [sample_alarm_req 7]) 0).1.

Lemma sample_channel_inv : ch_inv sample_channel.
Proof.
  apply send_next_inv; [|done]. destruct (ch_inv_new sample_cfg wf_sample_cfg) as [[] _].
  split; try done. repeat constructor. by_decide.
Qed.

Definition alarm_ack_pdu (send_seq : Z) : RtaPdu := {|
  rp_priority := Low;
  rp_header := {| rt_dst_ref := 1; rt_src_ref := 3; rt_pdu_type := PduData; rt_tack := true;
                  rt_send_seq := send_seq; rt_ack_seq := 0xFFFF |};
  rp_body := RbData (RdAck {| aa_alarm_type := AtDiagnosis; aa_api := 0; aa_slot := 1;
    aa_subslot := 1; aa_specifier := an_specifier sample_notification;
    aa_status := PnioStatus_OK |}) |}.

Lemma wf_alarm_ack_pdu : wf_pdu (alarm_ack_pdu 0xFFFF).
Proof.
  unfold wf_pdu, wf_header, wf_data, wf_ack, wf_alarm_type, wf_specifier, wf_status.
  cbn -[write_rta_data]. by_decide.
Qed.

Definition sample_ops : list ChOp :=
  [OpEnqueue (sample_alarm_req 7) 0; OpEnqueue (sample_alarm_req 8) 1;
   OpFrame (build_frame sample_mac_a sample_mac_b (alarm_ack_pdu 0xFFFF)) 2; OpTick 3].

Lemma wf_sample_ops : Forall wf_op sample_ops.
Proof. repeat constructor; unfold wf_op; by_decide. Qed.

Lemma channel_refines_sender_witness :
  ∃ c acts evs, ch_run (AlarmChannel_new sample_cfg) sample_ops = Ok (c, acts) ∧
    sender_run (MkSender [] false) evs = Some (ch_abs c, upper acts) ∧
    Forall2 (event_of sample_cfg) sample_ops evs ∧
    accepts_of evs = accepted_reqs sample_cfg sample_ops.
Proof. apply channel_refines_sender; [apply wf_sample_cfg|apply wf_sample_ops]. Defined.

Lemma acks_in_order_witness :
  match ch_run (AlarmChannel_new sample_cfg) sample_ops with
  | Ok (c, acts) =>
    acked_ids acts = [7] ∧
    acked_ids acts ++ (ar_id <$> ch_pending c) `sublist_of` (ar_id <$> accepted_reqs sample_cfg sample_ops)
  | _ => False
  end.
Proof.
  destruct (ch_run (AlarmChannel_new sample_cfg) sample_ops) as [[c acts]| |] eqn:H.
  - split; [revert H; vm_compute; by intros [= <- <-]|].
    apply (acks_in_order sample_cfg sample_ops c acts);
      [apply wf_sample_cfg|apply wf_sample_ops|exact H].
  - vm_compute in H. discriminate H.
  - vm_compute in H. discriminate H.
Defined.

Lemma retransmission_bounded_witness :
  ∃ c', ch_run sample_channel (OpTick <$> [100000000; 200000000; 350000000; 500000000]) =
    Ok (c', replicate 3 (AaSend (build_data_frame sample_cfg (sample_alarm_req 7) SEQ_INIT SEQ_NONE))
            ++ [AaAbort AlarmSendFailed]) ∧
    ch_pending c' = [].
Proof.
  apply (retransmission_bounded sample_channel (sample_alarm_req 7) SEQ_INIT
    (build_data_frame sample_cfg (sample_alarm_req 7) SEQ_INIT SEQ_NONE) 100000000
    [100000000; 200000000; 350000000; 500000000]).
  - apply wf_sample_cfg.
  - reflexivity.
  - reflexivity.
  - reflexivity.
  - cbn. lia.
Defined.

Lemma data_acknowledged_witness :
  let frame := build_frame sample_mac_a sample_mac_b (alarm_ack_pdu 0xFFFF) ++ [0; 0] in
  ∃ c' ack more ack',
    ch_step sample_channel (OpFrame frame 5) = Ok (c', AaSend ack :: more) ∧
    parse_frame ack = Ok (ack_pdu sample_channel Low 0xFFFF) ∧
    ch_step c' (OpFrame frame 6) = Ok (c', [AaSend ack']) ∧
    parse_frame ack' = Ok (ack_pdu c' Low 0xFFFF).
Proof.
  apply (data_acknowledged sample_channel (alarm_ack_pdu 0xFFFF)
    (RdAck {| aa_alarm_type := AtDiagnosis; aa_api := 0; aa_slot := 1; aa_subslot := 1;
              aa_specifier := an_specifier sample_notification; aa_status := PnioStatus_OK |})
    [0; 0] 5 6).
  - apply sample_channel_inv.
  - apply wf_sample_cfg.
  - apply wf_alarm_ack_pdu.
  - reflexivity.
Defined.

Lemma enqueue_transmits_witness :
  let c := AlarmChannel_new sample_cfg in
  ∃ c' acts, enqueue c (sample_alarm_req 9) 0 = Ok (c', acts) ∧
    Z.of_nat (length (notification_body sample_notification) + 2) ≤ 200 ∧
    ch_next_send_seq c ≠ ch_last_sent_seq c ∧
    (∃ f, acts = [AaSend f] ∧
      parse_frame f = Ok (data_pdu sample_cfg (sample_alarm_req 9) (ch_next_send_seq c) (ch_last_rx_seq c))) ∧
    in_flight c' = Some 9 ∧ queued c' = 0%nat ∧
    AlarmChannel_next_deadline c' = Some 100000000.
Proof.
  cbn zeta. do 2 eexists. split; [reflexivity|].
  apply (enqueue_transmits (AlarmChannel_new sample_cfg) (sample_alarm_req 9) 0).
  - apply ch_inv_new, wf_sample_cfg.
  - apply wf_sample_cfg.
  - reflexivity.
  - apply wf_sample_data_pdu.
  - cbn. lia.
Defined.
