(* ===== verification/Diag.v ===== *)
(** * Diag: the channel-diagnosis store

    Models [crates/pnio/src/diag.rs]: the set of active diagnoses, the alarm
    notifications its changes produce, and the station problem indicator.
    The [BTreeMap] is a finite map; where its iteration order shows, the
    entries are sorted by key. *)

From stdpp Require Import gmap sorting.
From S2P Require Import Prelude Eth Rpc Block Connect Rta.
Local Open Scope Z_scope.

(** ** Data *)

(** diag.rs:14-37 ChannelError *)
Inductive ChannelError :=
| ShortCircuit | Undervoltage | Overvoltage | Overload | Overtemperature | LineBreak
| UpperLimitExceeded | LowerLimitExceeded | CeError.

(** diag.rs:39-43 ChannelError::code *)
Definition ChannelError_code (e : ChannelError) : Z :=
  match e with
  | ShortCircuit => 0x0001 | Undervoltage => 0x0002 | Overvoltage => 0x0003 | Overload => 0x0004
  | Overtemperature => 0x0005 | LineBreak => 0x0006 | UpperLimitExceeded => 0x0007
  | LowerLimitExceeded => 0x0008 | CeError => 0x0009
  end.

(** diag.rs:45-60 ChannelError::from_code *)
Definition ChannelError_from_code (c : Z) : option ChannelError :=
  match c with
  | 0x0001 => Some ShortCircuit
  | 0x0002 => Some Undervoltage
  | 0x0003 => Some Overvoltage
  | 0x0004 => Some Overload
  | 0x0005 => Some Overtemperature
  | 0x0006 => Some LineBreak
  | 0x0007 => Some UpperLimitExceeded
  | 0x0008 => Some LowerLimitExceeded
  | 0x0009 => Some CeError
  | _ => None
  end.

(** diag.rs:62-77 ChannelError::names *)
Definition ChannelError_names : list string :=
  ["short-circuit"; "undervoltage"; "overvoltage"; "overload"; "overtemperature"; "line-break";
   "upper-limit"; "lower-limit"; "error"]%string.

(** diag.rs:79-85 ChannelError::from_name *)
Definition ChannelError_from_name (s : string) : option ChannelError :=
  '(idx, _) ← list_find (λ n, n = s) ChannelError_names;
  ChannelError_from_code (Z.of_nat idx + 1).

(** diag.rs:88-98 Severity *)
Inductive Severity := SvFault | SvMaintenanceRequired | SvMaintenanceDemanded.
#[global] Instance Severity_eq_dec : EqDecision Severity.
Proof. solve_decision. Defined.
#[global] Instance ChannelError_eq_dec : EqDecision ChannelError.
Proof. solve_decision. Defined.

(** diag.rs:100-101 WHOLE_SUBMODULE *)
Definition WHOLE_SUBMODULE : Z := 0x8000.

(** config.rs:20-30 Direction *)
Inductive Direction := DrInput | DrOutput | DrInputOutput.
#[global] Instance Direction_eq_dec : EqDecision Direction.
Proof. solve_decision. Defined.

(** diag.rs:103-117 Diagnosis *)
Record Diagnosis := {
  dg_slot : Z; dg_channel : Z; dg_error : ChannelError; dg_severity : Severity;
  dg_direction : Direction
}.

(** diag.rs:119-133 SubmoduleInfo *)
Record SubmoduleInfo := {
  si_slot : Z; si_subslot : Z; si_module_ident : Z; si_submodule_ident : Z;
  si_direction : Direction
}.

(** diag.rs:135-140 DiagStore *)
Record DiagStore := {
  ds_submodules : list SubmoduleInfo; ds_active : gmap (Z * Z * Z) Diagnosis
}.

(** ** Operations *)

(** diag.rs:142-149 DiagStore::new *)
Definition DiagStore_new (submodules : list SubmoduleInfo) : DiagStore :=
  {| ds_submodules := submodules; ds_active := ∅ |}.

(** diag.rs:159-175 DiagStore::from_model *)
Definition slot_info (slot : SlotModel) : option SubmoduleInfo :=
  sm ← List.find (λ sm, bool_decide (sm_subslot sm = 1)) (sl_submodules slot);
  let direction :=
    if decide (sm_output_len sm = 0 ∧ 0 < sm_input_len sm) then DrInput
    else if decide (sm_input_len sm = 0 ∧ 0 < sm_output_len sm) then DrOutput
    else DrInputOutput in
  Some {| si_slot := sl_slot slot; si_subslot := 1; si_module_ident := sl_module_ident slot;
          si_submodule_ident := sm_submodule_ident sm; si_direction := direction |}.

(** diag.rs:151-178 DiagStore::from_model *)
Definition DiagStore_from_model (model : DeviceModel) : DiagStore :=
  DiagStore_new (omap slot_info (filter (λ s, 0 < sl_slot s) (dm_slots model))).

(** diag.rs:180-182 DiagStore::info *)
Definition ds_info (st : DiagStore) (slot : Z) : option SubmoduleInfo :=
  List.find (λ s, bool_decide (si_slot s = slot)) (ds_submodules st).
(** diag.rs:184-187 DiagStore::knows *)
Definition ds_knows (st : DiagStore) (slot : Z) : bool := bool_decide (is_Some (ds_info st slot)).

(** diag.rs:258-262 DiagStore::build_notification *)
Definition severity_maintenance (s : Severity) : Maintenance :=
  match s with
  | SvFault => MtFault
  | SvMaintenanceRequired => MtRequired
  | SvMaintenanceDemanded => MtDemanded
  end.

(** diag.rs:263-267 DiagStore::build_notification *)
Definition direction_code (d : Direction) : Z :=
  match d with DrInput => 1 | DrOutput => 2 | DrInputOutput => 3 end.

(** [self.active.keys().any(p)] *)
Definition any_key (m : gmap (Z * Z * Z) Diagnosis) (p : Z * Z * Z → bool) : bool :=
  existsb (λ kv, p kv.1) (map_to_list m).

(** diag.rs:249-295 DiagStore::build_notification *)
Definition build_notification (st : DiagStore) (info : SubmoduleInfo) (d : Diagnosis)
    (alarm_type : AlarmType) (specifier : Specifier) : AlarmNotification :=
  let channel_diag := any_key (ds_active st) (λ '(slot, _, _), bool_decide (slot = dg_slot d)) in
  let ar_diag := negb (bool_decide (ds_active st = ∅)) in
  {| an_alarm_type := alarm_type; an_api := 0; an_slot := si_slot info;
     an_subslot := si_subslot info; an_module_ident := si_module_ident info;
     an_submodule_ident := si_submodule_ident info;
     an_specifier := {| as_sequence := 0; as_channel_diag := channel_diag;
                        as_manufacturer_diag := false; as_submodule_diag := channel_diag;
                        as_ar_diag := ar_diag |};
     an_usi := USI_CHANNEL_DIAG;
     an_data := UdChannel {| cd_channel := dg_channel d;
       cd_properties := {| cp_type := 0; cp_accumulative := false;
         cp_maintenance := severity_maintenance (dg_severity d); cp_specifier := specifier;
         cp_direction := direction_code (si_direction info) |};
       cd_error_type := ChannelError_code (dg_error d) |} |}.

Definition set_active (st : DiagStore) (m : gmap (Z * Z * Z) Diagnosis) : DiagStore :=
  {| ds_submodules := ds_submodules st; ds_active := m |}.

(** diag.rs:189-203 DiagStore::raise *)
Definition ds_raise (st : DiagStore) (d : Diagnosis) : DiagStore * option AlarmNotification :=
  match ds_info st (dg_slot d) with
  | None => (st, None)
  | Some info =>
    let d := {| dg_slot := dg_slot d; dg_channel := dg_channel d; dg_error := dg_error d;
                dg_severity := dg_severity d; dg_direction := si_direction info |} in
    let key := (dg_slot d, dg_channel d, ChannelError_code (dg_error d)) in
    let identical :=
      match ds_active st !! key with
      | Some existing => bool_decide (dg_severity existing = dg_severity d)
      | None => false
      end in
    if identical then (st, None) else
    let st := set_active st (<[key := d]> (ds_active st)) in
    (st, Some (build_notification st info d AtDiagnosis SpAppears))
  end.

(** diag.rs:205-225 DiagStore::clear *)
Definition ds_clear (st : DiagStore) (slot channel : Z) (error : ChannelError) :
    DiagStore * option AlarmNotification :=
  let key := (slot, channel, ChannelError_code error) in
  match ds_active st !! key with
  | None => (st, None)
  | Some removed =>
    let st := set_active st (delete key (ds_active st)) in
    match ds_info st slot with
    | None => (st, None)
    | Some info =>
      let others_on_channel :=
        any_key (ds_active st) (λ '(s, ch, _), bool_decide (s = slot ∧ ch = channel)) in
      let specifier := if others_on_channel then SpDisappearsOthersRemain else SpDisappears in
      (st, Some (build_notification st info removed AtDiagnosisDisappears specifier))
    end
  end.

(** diag.rs:227-230 DiagStore::problem_indicator *)
Definition problem_indicator (st : DiagStore) : bool :=
  existsb (λ kv, bool_decide (dg_severity kv.2 = SvFault)) (map_to_list (ds_active st)).

(** The order of the map's keys. *)
Definition key_le (a b : (Z * Z * Z) * Diagnosis) : Prop :=
  let '(a1, a2, a3) := a.1 in
  let '(b1, b2, b3) := b.1 in
  a1 < b1 ∨ (a1 = b1 ∧ (a2 < b2 ∨ (a2 = b2 ∧ a3 ≤ b3))).
#[global] Instance key_le_dec : RelDecision key_le.
Proof. intros [[[a1 a2] a3] v] [[[b1 b2] b3] w]. cbn. apply _. Defined.

(** diag.rs:232-235 DiagStore::active *)
Definition ds_active_list (st : DiagStore) : list Diagnosis :=
  snd <$> merge_sort key_le (map_to_list (ds_active st)).

(** diag.rs:237-247 DiagStore::replay *)
Definition ds_replay (st : DiagStore) : list AlarmNotification :=
  omap (λ d, info ← ds_info st (dg_slot d);
             Some (build_notification st info d AtDiagnosis SpAppears)) (ds_active_list st).

(** ** What a controller learns from the notifications *)

(** The controller's picture: the maintenance state of every channel error
    it has been told of and not told the end of. *)
Notation view := (gmap (Z * Z * Z) Maintenance).

Definition learn (v : view) (n : AlarmNotification) : view :=
  match an_data n with
  | UdChannel cd =>
    let key := (an_slot n, cd_channel cd, cd_error_type cd) in
    match cp_specifier (cd_properties cd) with
    | SpAppears => <[key := cp_maintenance (cd_properties cd)]> v
    | SpDisappears | SpDisappearsOthersRemain => delete key v
    | SpAllDisappear => v
    end
  | _ => v
  end.

(** The picture the controller should have. *)
Definition store_view (st : DiagStore) : view :=
  (λ d, severity_maintenance (dg_severity d)) <$> ds_active st.

Definition dg_key (d : Diagnosis) : Z * Z * Z :=
  (dg_slot d, dg_channel d, ChannelError_code (dg_error d)).

(** Entries sit under their own key, and only for known slots. *)
Definition dg_inv (st : DiagStore) : Prop :=
  ∀ key d, ds_active st !! key = Some d → key = dg_key d ∧ is_Some (ds_info st (dg_slot d)).

Inductive DgOp := DgRaise (d : Diagnosis) | DgClear (slot channel : Z) (error : ChannelError).

Definition dg_step (st : DiagStore) (op : DgOp) : DiagStore * option AlarmNotification :=
  match op with
  | DgRaise d => ds_raise st d
  | DgClear slot channel error => ds_clear st slot channel error
  end.

Fixpoint dg_run (st : DiagStore) (ops : list DgOp) : DiagStore * list AlarmNotification :=
  match ops with
  | [] => (st, [])
  | op :: ops =>
    let (st, n) := dg_step st op in
    let (st, ns) := dg_run st ops in
    (st, match n with Some n => n :: ns | None => ns end)
  end.

Lemma ds_info_slot st slot info : ds_info st slot = Some info → si_slot info = slot.
Proof. intros [_ H]%find_some. by apply bool_decide_eq_true in H. Qed.

Lemma learn_appears st info d v :
  si_slot info = dg_slot d →
  learn v (build_notification st info d AtDiagnosis SpAppears) =
  <[dg_key d := severity_maintenance (dg_severity d)]> v.
Proof. intros H. unfold learn, dg_key. cbn. by rewrite H. Qed.

Lemma ds_raise_spec st d :
  dg_inv st → let (st', n) := ds_raise st d in
  dg_inv st' ∧ ds_submodules st' = ds_submodules st ∧
  store_view st' = match n with Some n => learn (store_view st) n | None => store_view st end.
Proof.
  intros Hinv. unfold ds_raise. destruct (ds_info st (dg_slot d)) as [info|] eqn:Hi; [|done].
  set (d' := {| dg_slot := dg_slot d |}). set (key := (dg_slot d', _, _)).
  destruct (match ds_active st !! key with Some _ => _ | None => _ end); [done|].
  split; [|split; [done|]].
  - intros k x. cbn. destruct (decide (k = key)) as [->|Hne].
    + rewrite lookup_insert_eq. intros [= <-]. split; [done|]. by exists info.
    + rewrite lookup_insert_ne by done. apply Hinv.
  - rewrite learn_appears by (by rewrite (ds_info_slot _ _ _ Hi)).
    unfold store_view. cbn. by rewrite fmap_insert.
Qed.

Lemma ds_clear_spec st slot channel error :
  dg_inv st → let (st', n) := ds_clear st slot channel error in
  dg_inv st' ∧ ds_submodules st' = ds_submodules st ∧
  store_view st' = match n with Some n => learn (store_view st) n | None => store_view st end.
Proof.
  intros Hinv. unfold ds_clear. set (key := (slot, channel, _)).
  destruct (ds_active st !! key) as [d|] eqn:Hd; [|done].
  destruct (Hinv _ _ Hd) as [Hk [info Hi]]. injection Hk as -> -> Hc.
  change (ds_info (set_active st _) (dg_slot d)) with (ds_info st (dg_slot d)). rewrite Hi.
  split; [|split; [done|]].
  - intros k x. cbn. rewrite lookup_delete_Some. intros [_ ?]. by apply Hinv.
  - unfold learn. cbn -[key]. rewrite (ds_info_slot _ _ _ Hi).
    assert ((dg_slot d, dg_channel d, ChannelError_code (dg_error d)) = key) as ->
      by (subst key; by rewrite Hc).
    unfold store_view. cbn. destruct (any_key _ _); by rewrite fmap_delete.
Qed.

Lemma dg_run_spec ops : ∀ st,
  dg_inv st → let (st', ns) := dg_run st ops in
  dg_inv st' ∧ ds_submodules st' = ds_submodules st ∧
  store_view st' = foldl learn (store_view st) ns.
Proof.
  induction ops as [|op ops IH]; intros st Hinv; [done|]. cbn [dg_run].
  assert (let (st1, n) := dg_step st op in
    dg_inv st1 ∧ ds_submodules st1 = ds_submodules st ∧
    store_view st1 = match n with Some n => learn (store_view st) n | None => store_view st end)
    as H1 by (destruct op; [by apply ds_raise_spec|by apply ds_clear_spec]).
  destruct (dg_step st op) as [st1 n]. destruct H1 as (Hi1 & Hs1 & Hv1).
  specialize (IH st1 Hi1). destruct (dg_run st1 ops) as [st2 ns].
  destruct IH as (Hi2 & Hs2 & Hv2). split_and!; [done|congruence|].
  rewrite Hv2, Hv1. by destruct n.
Qed.

(** ** Replay *)

Lemma foldl_insert_lookup {A} (l : list ((Z * Z * Z) * A)) : ∀ (m : gmap (Z * Z * Z) A) k,
  NoDup l.*1 →
  foldl (λ m kv, <[kv.1 := kv.2]> m) m l !! k =
  match (list_to_map l : gmap _ A) !! k with Some a => Some a | None => m !! k end.
Proof.
  induction l as [|[k' a] l IH]; intros m k Hnd; cbn [foldl]; [done|].
  cbn in Hnd. apply list.NoDup_cons in Hnd as [Hk Hnd]. rewrite IH by done. cbn.
  destruct (decide (k = k')) as [->|Hne].
  - rewrite lookup_insert_eq, not_elem_of_list_to_map_1 by done. by rewrite lookup_insert_eq.
  - by rewrite !lookup_insert_ne.
Qed.

Lemma replay_learns st :
  dg_inv st → foldl learn ∅ (ds_replay st) = store_view st.
Proof.
  intros Hinv. set (l := merge_sort key_le (map_to_list (ds_active st))).
  assert (l ≡ₚ map_to_list (ds_active st)) as Hp by apply merge_sort_Permutation.
  assert (∀ v (l' : list ((Z * Z * Z) * Diagnosis)), l' ⊆ l →
    foldl learn v (omap (λ d, info ← ds_info st (dg_slot d);
      Some (build_notification st info d AtDiagnosis SpAppears)) (snd <$> l')) =
    foldl (λ m kv, <[kv.1 := kv.2]> m) v
      (prod_map id (λ d, severity_maintenance (dg_severity d)) <$> l')) as Hfold.
  { intros v l'. revert v. induction l' as [|[k d] l' IH]; intros v Hsub; [done|].
    assert (ds_active st !! k = Some d) as Hk.
    { apply elem_of_map_to_list. rewrite <-Hp. apply Hsub. by left. }
    destruct (Hinv _ _ Hk) as [-> [info Hi]]. cbn. rewrite Hi. cbn [mbind option_bind foldl].
    rewrite learn_appears by by rewrite (ds_info_slot _ _ _ Hi). apply IH.
    intros x Hx. apply Hsub. by right. }
  unfold ds_replay, ds_active_list. fold l. rewrite Hfold by done.
  apply map_eq. intros k. etrans; [apply foldl_insert_lookup|].
  - rewrite <-list_fmap_compose. change (fst ∘ _) with (@fst (Z * Z * Z) Diagnosis).
    rewrite Hp. apply NoDup_fst_map_to_list.
  - rewrite list_to_map_fmap. unfold store_view.
    assert ((list_to_map l : gmap _ Diagnosis) = ds_active st) as ->
      by (rewrite <-(list_to_map_to_list (ds_active st)); apply list_to_map_proper;
          [|done]; rewrite Hp; apply NoDup_fst_map_to_list).
    destruct (_ !! k); [done|apply lookup_empty].
Qed.

Lemma problem_indicator_iff st :
  problem_indicator st = true ↔
  ∃ key, store_view st !! key = Some MtFault.
Proof.
  unfold problem_indicator, store_view. rewrite existsb_exists. split.
  - intros ([k d] & Hin & Hf). apply list_elem_of_In, elem_of_map_to_list in Hin.
    apply bool_decide_eq_true in Hf. exists k. rewrite lookup_fmap, Hin. cbn in *. by rewrite Hf.
  - intros (k & Hk). rewrite lookup_fmap in Hk. apply fmap_Some in Hk as (d & Hd & Hm).
    exists (k, d). split; [by apply list_elem_of_In, elem_of_map_to_list|].
    apply bool_decide_eq_true. cbn. by destruct (dg_severity d).
Qed.

(** ** Claims *)

(** C33: the notifications keep the controller's picture exact.  Whatever
    diagnoses are raised and cleared, a controller that applies the emitted
    notifications in order knows exactly the active diagnoses and their
    severities; a controller that connects later and only gets the replay
    learns the same picture; and the station problem indicator is set exactly
    when that picture contains a fault. *)
Theorem diagnosis_view submodules ops :
  let (st, ns) := dg_run (DiagStore_new submodules) ops in
  foldl learn ∅ ns = store_view st ∧
  foldl learn ∅ (ds_replay st) = store_view st ∧
  (problem_indicator st = true ↔ ∃ key, foldl learn ∅ ns !! key = Some MtFault).
Proof.
  assert (dg_inv (DiagStore_new submodules)) as H0
    by (intros k d; cbn; by rewrite lookup_empty).
  pose proof (dg_run_spec ops (DiagStore_new submodules) H0) as H.
  destruct (dg_run _ ops) as [st ns]. destruct H as (Hi & _ & Hv).
  assert (store_view (DiagStore_new submodules) = ∅) as He
    by (unfold store_view; cbn; apply fmap_empty).
  rewrite He in Hv. rewrite <-Hv. split_and!; [done|by apply replay_learns|].
  apply problem_indicator_iff.
Qed.

(** A run: two faults on one channel, one of them cleared. *)
Lemma diagnosis_view_example :
  let d e := {| dg_slot := 1; dg_channel := 3; dg_error := e; dg_severity := SvFault;
                dg_direction := DrInputOutput |} in
  let (st, ns) := dg_run (DiagStore_from_model (pnet_sample (Mac [])))
    [DgRaise (d LineBreak); DgRaise (d Overload); DgRaise (d Overload);
     DgClear 1 3 LineBreak; DgClear 1 3 LineBreak] in
  length ns = 3%nat ∧ problem_indicator st = true ∧ length (ds_replay st) = 1%nat.
Proof. vm_compute. done. Qed.
