(* ===== verification/Dcp.v ===== *)
(** * Dcp: discovery and configuration

    Models [crates/pnio/src/dcp/]: the TLV block codec ([block.rs]), the
    acyclic header ([frame.rs]), Identify ([identify.rs]), Set ([set.rs]) and
    the frame handler ([mod.rs]).  [debug_assert!]s are left out (release
    build); the lengths they guard wrap at 16 bits as the code's casts do. *)

From S2P Require Import Prelude Eth Rpc Block.
Local Open Scope Z_scope.

(** ** Errors *)

(** dcp/mod.rs:19-39 DcpError *)
Inductive DcpError :=
| DcpTooShort (need have : nat)
| BadServiceId (v : Z)
| BadServiceType (v : Z)
| DcpMalformed (msg : string).

(** ** TLV blocks *)

(** dcp/block.rs:5-19 DcpBlock *)
Record DcpBlock := {
  db_option : Z; db_suboption : Z; db_block_info : option Z; db_value : list Z
}.

#[global] Instance DcpBlock_eq_dec : EqDecision DcpBlock.
Proof. solve_decision. Defined.

(** The loop of [parse_blocks]: every iteration moves past the four header
    octets, so the buffer's length is fuel enough; running out would be a
    [Panic], which [parse_blocks_no_panic] excludes. *)
(** dcp/block.rs:27-62 parse_blocks *)
Fixpoint parse_blocks_from (fuel : nat) (buf : list Z) (has_block_info : bool) (p : nat) :
    outcome DcpError (list DcpBlock) :=
  if decide (p < length buf)%nat then
    match fuel with
    | O => Panic
    | S fuel =>
      if decide (length buf < p + 4)%nat then Err (DcpTooShort (p + 4) (length buf)) else
      let! option := idx buf p in
      let! suboption := idx buf (p + 1) in
      let! len := be16_at buf (p + 2) in
      let block_len := Z.to_nat len in
      let body_start := (p + 4)%nat in
      let body_end := (body_start + block_len)%nat in
      if decide (length buf < body_end)%nat then Err (DcpTooShort body_end (length buf)) else
      let! (block_info, value) :=
        (if has_block_info then
           if decide (block_len < 2)%nat then Err (DcpMalformed "block too short for BlockInfo")
           else
           let! info := be16_at buf body_start in
           let! v := slice buf (body_start + 2) body_end in
           Ok (Some info, v)
         else
           let! v := slice buf body_start body_end in
           Ok (None, v)) in
      let! rest :=
        parse_blocks_from fuel buf has_block_info (body_end + Nat.land block_len 1) in
      Ok ({| db_option := option; db_suboption := suboption; db_block_info := block_info;
             db_value := value |} :: rest)
    end
  else Ok [].

(** dcp/block.rs:21-64 parse_blocks *)
Definition parse_blocks (buf : list Z) (has_block_info : bool) : outcome DcpError (list DcpBlock) :=
  parse_blocks_from (length buf) buf has_block_info 0.

(** dcp/block.rs:69-70 write_blocks *)
Definition block_len (b : DcpBlock) : nat :=
  (match db_block_info b with Some _ => 2 | None => 0 end + length (db_value b))%nat.

(** dcp/block.rs:68-85 write_blocks *)
Definition write_block (b : DcpBlock) : list Z :=
  [db_option b; db_suboption b] ++ be16 (wrap16 (Z.of_nat (block_len b)))
  ++ match db_block_info b with Some info => be16 info | None => [] end
  ++ db_value b
  ++ (if decide (Nat.land (block_len b) 1 = 1%nat) then [0x00] else []).

(** dcp/block.rs:66-86 write_blocks *)
Definition write_blocks (blocks : list DcpBlock) : list Z := concat (write_block <$> blocks).

(** dcp/block.rs:90-95 blocks_encoded_len *)
Definition blocks_total_len (blocks : list DcpBlock) : nat :=
  foldl (λ total b, total + (4 + block_len b + Nat.land (block_len b) 1))%nat 0%nat blocks.

(** dcp/block.rs:88-101 blocks_encoded_len *)
Definition blocks_encoded_len (blocks : list DcpBlock) : Z :=
  wrap16 (Z.of_nat (blocks_total_len blocks)).

(** ** Frame ids and the header *)

(** dcp/frame.rs:9-20 FrameId *)
Inductive FrameId := IdentifyRequest | IdentifyResponse | GetSet | FiHello.

(** dcp/frame.rs:23-32 FrameId::from_u16 *)
Definition FrameId_from_u16 (v : Z) : option FrameId :=
  match v with
  | 0xfefe => Some IdentifyRequest
  | 0xfeff => Some IdentifyResponse
  | 0xfefd => Some GetSet
  | 0xfefc => Some FiHello
  | _ => None
  end.

(** dcp/frame.rs:34-42 FrameId::to_u16 *)
Definition FrameId_to_u16 (f : FrameId) : Z :=
  match f with
  | IdentifyRequest => 0xfefe | IdentifyResponse => 0xfeff | GetSet => 0xfefd | FiHello => 0xfefc
  end.

(** dcp/frame.rs:45-56 ServiceId *)
Inductive ServiceId := SiGet | SiSet | SiIdentify | SiHello.
#[global] Instance ServiceId_eq_dec : EqDecision ServiceId.
Proof. solve_decision. Defined.

(** dcp/frame.rs:59-68 ServiceId::from_u8 *)
Definition ServiceId_from_u8 (v : Z) : outcome DcpError ServiceId :=
  match v with
  | 3 => Ok SiGet
  | 4 => Ok SiSet
  | 5 => Ok SiIdentify
  | 6 => Ok SiHello
  | other => Err (BadServiceId other)
  end.
(** dcp/frame.rs:69-77 ServiceId::to_u8 *)
Definition ServiceId_to_u8 (s : ServiceId) : Z :=
  match s with SiGet => 3 | SiSet => 4 | SiIdentify => 5 | SiHello => 6 end.

(** dcp/frame.rs:80-87 ServiceType *)
Inductive ServiceType := StRequest | StResponseSuccess.
#[global] Instance ServiceType_eq_dec : EqDecision ServiceType.
Proof. solve_decision. Defined.

(** dcp/frame.rs:90-97 ServiceType::from_u8 *)
Definition ServiceType_from_u8 (v : Z) : outcome DcpError ServiceType :=
  match v with
  | 0 => Ok StRequest
  | 1 => Ok StResponseSuccess
  | other => Err (BadServiceType other)
  end.
(** dcp/frame.rs:98-104 ServiceType::to_u8 *)
Definition ServiceType_to_u8 (s : ServiceType) : Z :=
  match s with StRequest => 0 | StResponseSuccess => 1 end.

(** dcp/frame.rs:107-121 DcpHeader *)
Record DcpHeader := {
  dh_service_id : ServiceId; dh_service_type : ServiceType; dh_xid : Z; dh_response_delay : Z;
  dh_data_length : Z
}.

(** dcp/frame.rs:124-148 DcpHeader::parse *)
Definition DcpHeader_parse (buf : list Z) : outcome DcpError (DcpHeader * list Z) :=
  if decide (length buf < 10)%nat then Err (DcpTooShort 10 (length buf)) else
  let! b0 := idx buf 0 in
  let! service_id := ServiceId_from_u8 b0 in
  let! b1 := idx buf 1 in
  let! service_type := ServiceType_from_u8 b1 in
  let! xid := be32_at buf 2 in
  let! response_delay := be16_at buf 6 in
  let! data_length := be16_at buf 8 in
  let need := (10 + Z.to_nat data_length)%nat in
  if decide (length buf < need)%nat then Err (DcpTooShort need (length buf)) else
  let! blocks := slice buf 10 need in
  Ok ({| dh_service_id := service_id; dh_service_type := service_type; dh_xid := xid;
         dh_response_delay := response_delay; dh_data_length := data_length |}, blocks).

(** dcp/frame.rs:150-158 DcpHeader::write *)
Definition DcpHeader_write (h : DcpHeader) : list Z :=
  [ServiceId_to_u8 (dh_service_id h); ServiceType_to_u8 (dh_service_type h)]
  ++ be32 (dh_xid h) ++ be16 (dh_response_delay h) ++ be16 (dh_data_length h).

(** ** Identify *)

(** dcp/identify.rs:8-17 IdentifyFilter *)
Record IdentifyFilter := {
  if_name_of_station : option (list Z); if_all_selector : bool; if_other_filters : list (Z * Z)
}.
Definition IdentifyFilter_default : IdentifyFilter :=
  {| if_name_of_station := None; if_all_selector := false; if_other_filters := [] |}.

(** dcp/identify.rs:24-32 parse_identify_request *)
Definition filter_block (f : IdentifyFilter) (b : DcpBlock) : outcome DcpError IdentifyFilter :=
  match db_option b, db_suboption b with
  | 2, 2 =>
    let! name := ok_or (from_utf8 (db_value b)) (DcpMalformed "NameOfStation not UTF-8") in
    Ok {| if_name_of_station := Some name; if_all_selector := if_all_selector f;
          if_other_filters := if_other_filters f |}
  | 0xff, 0xff =>
    Ok {| if_name_of_station := if_name_of_station f; if_all_selector := true;
          if_other_filters := if_other_filters f |}
  | o, s =>
    Ok {| if_name_of_station := if_name_of_station f; if_all_selector := if_all_selector f;
          if_other_filters := if_other_filters f ++ [(o, s)] |}
  end.

(** dcp/identify.rs:22-34 parse_identify_request *)
Fixpoint filter_blocks (f : IdentifyFilter) (bs : list DcpBlock) :
    outcome DcpError IdentifyFilter :=
  match bs with
  | [] => Ok f
  | b :: bs => let! f := filter_block f b in filter_blocks f bs
  end.

(** dcp/identify.rs:19-35 parse_identify_request *)
Definition parse_identify_request (block_bytes : list Z) : outcome DcpError IdentifyFilter :=
  let! blocks := parse_blocks block_bytes false in
  filter_blocks IdentifyFilter_default blocks.

(** dcp/identify.rs:37-63 DeviceProperties *)
Record DeviceProperties := {
  dp_name_of_station : list Z; dp_type_of_station : list Z; dp_vendor_id : Z; dp_device_id : Z;
  dp_device_role : Z; dp_device_instance : Z; dp_device_options : list Z; dp_ip : list Z;
  dp_subnet : list Z; dp_gateway : list Z; dp_ip_block_info : Z
}.

(** dcp/identify.rs:72-124 build_identify_response *)
Definition identify_blocks (props : DeviceProperties) : list DcpBlock := [
  {| db_option := 2; db_suboption := 2; db_block_info := Some 0;
     db_value := dp_name_of_station props |};
  {| db_option := 2; db_suboption := 5; db_block_info := Some 0;
     db_value := dp_device_options props |};
  {| db_option := 2; db_suboption := 1; db_block_info := Some 0;
     db_value := dp_type_of_station props |};
  {| db_option := 2; db_suboption := 3; db_block_info := Some 0;
     db_value := be16 (dp_vendor_id props) ++ be16 (dp_device_id props) |};
  {| db_option := 2; db_suboption := 4; db_block_info := Some 0;
     db_value := be16 (dp_device_role props) |};
  {| db_option := 2; db_suboption := 7; db_block_info := Some 0;
     db_value := be16 (dp_device_instance props) |};
  {| db_option := 1; db_suboption := 2; db_block_info := Some (dp_ip_block_info props);
     db_value := dp_ip props ++ dp_subnet props ++ dp_gateway props |}].

(** The common tail of both responses: an untagged PROFINET frame, the
    FrameID, a success header echoing [xid], the blocks. *)
(** dcp/identify.rs:126-145 build_identify_response *)
Definition dcp_response (dst src : MacAddr) (fid : FrameId) (sid : ServiceId) (xid : Z)
    (blocks : list DcpBlock) : list Z :=
  EthHeader_write {| eth_dst := dst; eth_src := src; eth_vlan := None;
                     eth_ethertype := ETHERTYPE_PROFINET |}
  ++ be16 (FrameId_to_u16 fid)
  ++ DcpHeader_write {| dh_service_id := sid; dh_service_type := StResponseSuccess; dh_xid := xid;
                        dh_response_delay := 0; dh_data_length := blocks_encoded_len blocks |}
  ++ write_blocks blocks.

(** dcp/identify.rs:65-146 build_identify_response *)
Definition build_identify_response (dst src : MacAddr) (xid : Z) (props : DeviceProperties) :
    list Z :=
  dcp_response dst src IdentifyResponse SiIdentify xid (identify_blocks props).

(** ** Set *)

(** dcp/set.rs:13-34 SetBlock *)
Inductive SetBlock :=
| IpSuite (qualifier : Z) (ip subnet gateway : list Z)
| SbOther (option suboption : Z).

(** dcp/set.rs:43-60 SetBlockError *)
Inductive SetBlockError :=
| SbOk | OptionNotSupported | SuboptionNotSupported | SuboptionNotSet | ResourceError
| SetNotPossible.
Definition SetBlockError_to_u8 (e : SetBlockError) : Z :=
  match e with
  | SbOk => 0 | OptionNotSupported => 1 | SuboptionNotSupported => 2 | SuboptionNotSet => 3
  | ResourceError => 4 | SetNotPossible => 5
  end.

(** dcp/set.rs:69-91 parse_set_request *)
Definition set_block (b : DcpBlock) : outcome DcpError SetBlock :=
  let! qualifier := expect (db_block_info b) in
  match db_option b, db_suboption b with
  | 1, 2 =>
    if decide (length (db_value b) ≠ 12%nat)
    then Err (DcpMalformed "IPParameter value must be 12 bytes") else
    let! ip := slice (db_value b) 0 4 in
    let! subnet := slice (db_value b) 4 8 in
    let! gateway := slice (db_value b) 8 12 in
    Ok (IpSuite qualifier ip subnet gateway)
  | o, s => Ok (SbOther o s)
  end.

(** dcp/set.rs:68-93 parse_set_request *)
Fixpoint set_blocks (bs : list DcpBlock) : outcome DcpError (list SetBlock) :=
  match bs with
  | [] => Ok []
  | b :: bs =>
    let! s := set_block b in
    let! rest := set_blocks bs in
    Ok (s :: rest)
  end.

(** dcp/set.rs:62-94 parse_set_request *)
Definition parse_set_request (block_bytes : list Z) : outcome DcpError (list SetBlock) :=
  let! blocks := parse_blocks block_bytes true in set_blocks blocks.

(** dcp/set.rs:104-117 decide_set *)
Definition decide_block (current : DeviceProperties) (b : SetBlock) : Z * Z * SetBlockError :=
  match b with
  | IpSuite _ ip subnet gateway =>
    if decide (ip = dp_ip current ∧ subnet = dp_subnet current ∧ gateway = dp_gateway current)
    then (1, 2, SbOk) else (1, 2, SetNotPossible)
  | SbOther option suboption => (option, suboption, SuboptionNotSupported)
  end.

(** dcp/set.rs:96-119 decide_set *)
Definition decide_set (req : list SetBlock) (current : DeviceProperties) :
    list (Z * Z * SetBlockError) := decide_block current <$> req.

(** dcp/set.rs:129-137 build_set_response *)
Definition result_block (r : Z * Z * SetBlockError) : DcpBlock :=
  let '(option, suboption, err) := r in
  {| db_option := 5; db_suboption := 4; db_block_info := None;
     db_value := [option; suboption; SetBlockError_to_u8 err] |}.

(** dcp/set.rs:121-159 build_set_response *)
Definition build_set_response (dst src : MacAddr) (xid : Z)
    (results : list (Z * Z * SetBlockError)) : list Z :=
  dcp_response dst src GetSet SiSet xid (result_block <$> results).

(** ** The handler *)

(** dcp/mod.rs:43-51 DcpConfig *)
Record DcpConfig := { dc_mac : MacAddr; dc_properties : DeviceProperties }.

(** dcp/mod.rs:76-82 handle_dcp_frame *)
Definition should_respond (filter : IdentifyFilter) (props : DeviceProperties) : bool :=
  match if_other_filters filter with
  | _ :: _ => false
  | [] =>
    match if_name_of_station filter with
    | Some name => bool_decide (name = dp_name_of_station props)
    | None => if_all_selector filter
    end
  end.

(** dcp/mod.rs:53-115 handle_dcp_frame *)
Definition handle_dcp_frame (frame : list Z) (cfg : DcpConfig) :
    outcome DcpError (option (list Z)) :=
  let! (eth, payload_off) :=
    map_err (λ _, DcpMalformed "bad Ethernet header") (EthHeader_parse frame) in
  if decide (eth_ethertype eth ≠ ETHERTYPE_PROFINET) then Ok None else
  let! payload := slice_from frame payload_off in
  if decide (length payload < 2)%nat
  then Err (DcpTooShort (payload_off + 2) (length frame)) else
  let! frame_id := be16_at payload 0 in
  match FrameId_from_u16 frame_id with
  | Some IdentifyRequest =>
    let! rest := slice_from payload 2 in
    let! (header, blocks) := DcpHeader_parse rest in
    let! filter := parse_identify_request blocks in
    if should_respond filter (dc_properties cfg)
    then Ok (Some (build_identify_response (eth_src eth) (dc_mac cfg) (dh_xid header)
                     (dc_properties cfg)))
    else Ok None
  | Some GetSet =>
    let! rest := slice_from payload 2 in
    let! (header, blocks) := DcpHeader_parse rest in
    if decide (dh_service_id header ≠ SiSet ∨ dh_service_type header ≠ StRequest) then Ok None else
    let! req := parse_set_request blocks in
    Ok (Some (build_set_response (eth_src eth) (dc_mac cfg) (dh_xid header)
                (decide_set req (dc_properties cfg))))
  | _ => Ok None
  end.

(** ** The block codec *)

(** A block of the kind the parser is told to expect, short enough for its
    16-bit length. *)
Definition wf_block (has_block_info : bool) (b : DcpBlock) : Prop :=
  match db_block_info b with
  | Some info => has_block_info = true ∧ u16 info
  | None => has_block_info = false
  end ∧ Z.of_nat (block_len b) < 65536.

Lemma land1 n : Nat.land n 1 = 0%nat ∨ Nat.land n 1 = 1%nat.
Proof.
  change (Nat.land n 1) with (Nat.land n (Nat.ones 1)). rewrite Nat.land_ones.
  pose proof (Nat.mod_upper_bound n 2). cbn [Nat.pow Nat.mul Nat.add]. lia.
Qed.

Lemma length_write_block b :
  length (write_block b) = (4 + block_len b + Nat.land (block_len b) 1)%nat.
Proof.
  unfold write_block. rewrite !length_app, length_be16. cbn [length].
  assert (length (match db_block_info b with Some info => be16 info | None => [] end
                  ++ db_value b) = block_len b) as Hb
    by (unfold block_len; rewrite length_app; by destruct (db_block_info b)).
  rewrite length_app in Hb.
  destruct (land1 (block_len b)) as [Hl|Hl]; rewrite Hl;
    [rewrite decide_False by done|rewrite decide_True by done]; cbn [length]; lia.
Qed.

Lemma blocks_total_len_from bs : ∀ n,
  foldl (λ total b, total + (4 + block_len b + Nat.land (block_len b) 1))%nat n bs =
  (n + length (write_blocks bs))%nat.
Proof.
  unfold write_blocks. induction bs as [|b bs IH]; intros n; cbn [foldl fmap list_fmap concat].
  - cbn. lia.
  - rewrite IH, length_app, length_write_block. lia.
Qed.

Lemma blocks_total_len_write bs : blocks_total_len bs = length (write_blocks bs).
Proof. apply blocks_total_len_from. Qed.

(** One iteration of the parser's loop, on a block followed by anything. *)
Lemma parse_blocks_step has b fuel buf p rest :
  wf_block has b → (p ≤ length buf)%nat → drop p buf = write_block b ++ rest →
  parse_blocks_from (S fuel) buf has p =
  (let! bs := parse_blocks_from fuel buf has (p + length (write_block b)) in Ok (b :: bs)).
Proof.
  intros [Hinfo Hlen] Hp Hd. pose proof (reads_drop_length _ _ _ _ Hp Hd) as Hl.
  rewrite length_write_block in *. cbn [parse_blocks_from].
  rewrite decide_True, decide_False by lia.
  unfold write_block in Hd. rewrite wrap16_id in Hd by (unfold u16; lia).
  rewrite <-!app_assoc in Hd.
  assert (∀ k, drop (p + k) buf = drop k ([db_option b; db_suboption b]
    ++ be16 (Z.of_nat (block_len b))
    ++ match db_block_info b with Some info => be16 info | None => [] end
    ++ db_value b
    ++ (if decide (Nat.land (block_len b) 1 = 1%nat) then [0x00] else []) ++ rest)) as Hk
    by (intros k; by rewrite <-drop_drop, Hd).
  rewrite (idx_drop buf p (db_option b) _ Hd). cbn [obind].
  rewrite (idx_drop buf (p + 1) (db_suboption b) _ (Hk 1%nat)). cbn [obind].
  rewrite (be16_at_drop buf (p + 2) (Z.of_nat (block_len b)) _ ltac:(unfold u16; lia) (Hk 2%nat)).
  cbn [obind]. rewrite Nat2Z.id. rewrite decide_False by lia.
  specialize (Hk 4%nat) as H4. cbn [app be16 drop] in H4. specialize (Hk 6%nat) as H6.
  destruct b as [o s [info|] v]; unfold block_len in *; cbn [db_block_info db_value db_option db_suboption] in *.
  - destruct Hinfo as [-> Hi]. rewrite decide_False by lia.
    rewrite (be16_at_drop buf (p + 4) info _ Hi H4). cbn [obind].
    replace (p + 4 + 2)%nat with (p + 6)%nat by lia.
    rewrite (slice_drop buf (p + 6) _ v _ H6) by lia. cbn [obind]. by rewrite !Nat.add_assoc.
  - subst has. rewrite (slice_drop buf (p + 4) _ v _ H4) by lia.
    cbn [obind]. by rewrite !Nat.add_assoc.
Qed.

Lemma parse_blocks_from_write has bs : ∀ fuel buf p,
  Forall (wf_block has) bs → (p ≤ length buf)%nat → drop p buf = write_blocks bs →
  (length bs ≤ fuel)%nat → parse_blocks_from fuel buf has p = Ok bs.
Proof.
  induction bs as [|b bs IH]; intros fuel buf p Hwf Hp Hd Hf.
  - assert (length buf = p).
    { apply (f_equal length) in Hd. rewrite length_drop in Hd. cbn in Hd. lia. }
    destruct fuel; cbn [parse_blocks_from]; by rewrite decide_False by lia.
  - change (write_blocks (b :: bs)) with (write_block b ++ write_blocks bs) in Hd.
    apply Forall_cons_1 in Hwf as [Hb Hwf]. cbn in Hf. destruct fuel as [|fuel]; [lia|].
    pose proof (reads_drop_length (write_block b) (write_blocks bs) _ _ Hp Hd).
    rewrite (parse_blocks_step has b fuel buf p (write_blocks bs)) by done.
    rewrite IH; [done|done|done| |lia]. by rewrite <-drop_drop, Hd, drop_app_length.
Qed.

Lemma length_write_blocks bs : (length bs ≤ length (write_blocks bs))%nat.
Proof.
  induction bs as [|b bs IH]; [done|]. unfold write_blocks in *. cbn [fmap list_fmap concat].
  rewrite length_app, length_write_block. cbn [length]. lia.
Qed.

Lemma parse_write_blocks has bs :
  Forall (wf_block has) bs → parse_blocks (write_blocks bs) has = Ok bs.
Proof.
  intros. apply parse_blocks_from_write; [done|lia|done|apply length_write_blocks].
Qed.

Lemma parse_blocks_from_no_panic has buf : ∀ fuel p,
  (length buf ≤ p + fuel)%nat → no_panic (parse_blocks_from fuel buf has p).
Proof.
  induction fuel as [|fuel IH]; intros p Hf; cbn [parse_blocks_from]; np; try lia.
  all: apply IH; lia.
Qed.

Lemma parse_blocks_no_panic buf has : no_panic (parse_blocks buf has).
Proof. apply parse_blocks_from_no_panic. lia. Qed.
#[export] Hint Resolve parse_blocks_no_panic : panics.

(** ** Headers and responses *)

Definition wf_dcp_header (h : DcpHeader) : Prop :=
  u32 (dh_xid h) ∧ u16 (dh_response_delay h) ∧ u16 (dh_data_length h).

Lemma length_DcpHeader_write h : length (DcpHeader_write h) = 10%nat.
Proof. done. Qed.
#[export] Hint Rewrite length_DcpHeader_write : len.

Lemma DcpHeader_parse_write h blocks padding :
  wf_dcp_header h → dh_data_length h = Z.of_nat (length blocks) →
  DcpHeader_parse (DcpHeader_write h ++ blocks ++ padding) = Ok (h, blocks).
Proof.
  destruct h as [sid sty xid delay dl]. unfold wf_dcp_header.
  cbn [dh_xid dh_response_delay dh_data_length]. intros (Hx & Hd & Hl) ->. unfold DcpHeader_parse.
  rewrite decide_False by len. unfold DcpHeader_write.
  cbn [dh_service_id dh_service_type dh_xid dh_response_delay dh_data_length] in *.
  rewrite <-!app_assoc. set (b := [_; _] ++ _).
  assert (length b = 10 + length blocks + length padding)%nat as Hlb by (subst b; len).
  rewrite (idx_drop b 0 (ServiceId_to_u8 sid) (drop 1 b)) by reflexivity. cbn [obind].
  rewrite (idx_drop b 1 (ServiceType_to_u8 sty) (drop 2 b)) by reflexivity. cbn [obind].
  erewrite (be32_at_drop b 2 xid) by (done || reflexivity).
  erewrite (be16_at_drop b 6 delay) by (done || reflexivity).
  erewrite (be16_at_drop b 8 (Z.of_nat (length blocks))) by (done || reflexivity).
  assert (ServiceId_from_u8 (ServiceId_to_u8 sid) = Ok sid) as -> by by destruct sid.
  assert (ServiceType_from_u8 (ServiceType_to_u8 sty) = Ok sty) as -> by by destruct sty.
  cbn [obind]. rewrite Nat2Z.id, decide_False by lia.
  rewrite (slice_drop b 10 _ blocks padding) by (reflexivity || lia). done.
Qed.

Definition dcp_eth (dst src : MacAddr) : EthHeader :=
  {| eth_dst := dst; eth_src := src; eth_vlan := None; eth_ethertype := ETHERTYPE_PROFINET |}.

Lemma wf_dcp_eth dst src : wf_mac dst → wf_mac src → wf_eth (dcp_eth dst src).
Proof. intros. by split_and!. Qed.

(** What the requester gets when it parses [frame]: a success response from
    [src] to [dst], echoing [xid], with these blocks. *)
Definition carries (frame : list Z) (dst src : MacAddr) (fid : FrameId) (sid : ServiceId) (xid : Z)
    (has_block_info : bool) (blocks : list DcpBlock) : Prop :=
  ∃ h bytes, EthHeader_parse frame = Ok (dcp_eth dst src, 14%nat) ∧
    be16_at (E := DcpError) frame 14 = Ok (FrameId_to_u16 fid) ∧
    DcpHeader_parse (drop 16 frame) = Ok (h, bytes) ∧
    dh_service_id h = sid ∧ dh_service_type h = StResponseSuccess ∧ dh_xid h = xid ∧
    parse_blocks bytes has_block_info = Ok blocks.

Lemma dcp_response_carries dst src fid sid xid has blocks :
  wf_mac dst → wf_mac src → u32 xid → Forall (wf_block has) blocks →
  Z.of_nat (length (write_blocks blocks)) < 65536 →
  carries (dcp_response dst src fid sid xid blocks) dst src fid sid xid has blocks.
Proof.
  intros Hd Hs Hx Hb Hl. unfold dcp_response, carries. fold (dcp_eth dst src).
  unfold blocks_encoded_len. rewrite blocks_total_len_write, wrap16_id by (unfold u16; lia).
  set (h := {| dh_service_id := sid |}). pose proof (wf_dcp_eth _ _ Hd Hs) as He.
  pose proof (length_EthHeader_write _ He) as Hle. cbn in Hle.
  exists h, (write_blocks blocks). split_and!; try done.
  - rewrite EthHeader_parse_write by done. by rewrite Hle.
  - eapply be16_at_drop; [by destruct fid|]. by rewrite drop_app_ge, Hle, drop_0 by lia.
  - rewrite drop_app_ge by lia. rewrite Hle. cbn [Nat.sub].
    change (drop 2 ?l) with (drop (length (be16 (FrameId_to_u16 fid))) l).
    rewrite drop_app_length. rewrite <-(app_nil_r (write_blocks blocks)) at 1.
    apply DcpHeader_parse_write; [|done]. split_and!; [done|done|]. cbn. unfold u16. lia.
  - by apply parse_write_blocks.
Qed.

(** A request frame as it arrives: any tagging, any padding. *)
Definition dcp_request (eth : EthHeader) (fid : FrameId) (h : DcpHeader) (bs : list DcpBlock)
    (padding : list Z) : list Z :=
  EthHeader_write eth ++ be16 (FrameId_to_u16 fid) ++ DcpHeader_write h ++ write_blocks bs
  ++ padding.

Definition wf_request (eth : EthHeader) (h : DcpHeader) (has : bool) (bs : list DcpBlock) : Prop :=
  wf_eth eth ∧ eth_ethertype eth = ETHERTYPE_PROFINET ∧ wf_dcp_header h ∧
  dh_data_length h = Z.of_nat (length (write_blocks bs)) ∧ Forall (wf_block has) bs.

(** The handler's dispatch on a request frame. *)
Lemma handle_dcp_request eth fid h has bs padding cfg :
  wf_request eth h has bs →
  handle_dcp_frame (dcp_request eth fid h bs padding) cfg =
  match fid with
  | IdentifyRequest =>
    let! filter := parse_identify_request (write_blocks bs) in
    if should_respond filter (dc_properties cfg)
    then Ok (Some (build_identify_response (eth_src eth) (dc_mac cfg) (dh_xid h)
                     (dc_properties cfg)))
    else Ok None
  | GetSet =>
    if decide (dh_service_id h ≠ SiSet ∨ dh_service_type h ≠ StRequest) then Ok None else
    let! req := parse_set_request (write_blocks bs) in
    Ok (Some (build_set_response (eth_src eth) (dc_mac cfg) (dh_xid h)
                (decide_set req (dc_properties cfg))))
  | _ => Ok None
  end.
Proof.
  intros (He & Het & Hh & Hl & _). unfold handle_dcp_frame, dcp_request.
  rewrite EthHeader_parse_write by (done || by intros ?; rewrite Het). cbn [map_err obind].
  rewrite decide_False by (intros H; by apply H). unfold slice_from.
  rewrite decide_True by len. cbn [obind]. rewrite drop_app_length.
  rewrite decide_False by len.
  erewrite (be16_at_drop _ 0 (FrameId_to_u16 fid)) by (reflexivity || by destruct fid).
  cbn [obind]. assert (FrameId_from_u16 (FrameId_to_u16 fid) = Some fid) as -> by by destruct fid.
  rewrite decide_True by len. cbn [obind].
  change (drop 2 ?l) with (drop (length (be16 (FrameId_to_u16 fid))) l).
  rewrite drop_app_length, DcpHeader_parse_write by done. cbn [obind]. by destruct fid.
Qed.

(** ** Safety of the handler *)

Lemma filter_blocks_no_panic bs : ∀ f, no_panic (filter_blocks f bs).
Proof.
  induction bs as [|b bs IH]; intros f; [done|]. cbn. apply no_panic_bind; [|auto].
  unfold filter_block. np.
Qed.

Lemma parse_blocks_from_info buf : ∀ fuel p bs,
  parse_blocks_from fuel buf true p = Ok bs → Forall (λ b, is_Some (db_block_info b)) bs.
Proof.
  induction fuel as [|fuel IH]; intros p bs H; cbn [parse_blocks_from] in H.
  - case_decide; [done|]. by injection H as <-.
  - case_decide; [|by injection H as <-]. ok_inv.
    match goal with H : (Some _, _) = _ |- _ => injection H as <- <- end.
    constructor; [by eexists|by eapply IH].
Qed.

Lemma set_blocks_no_panic bs :
  Forall (λ b, is_Some (db_block_info b)) bs → no_panic (set_blocks bs).
Proof.
  induction 1 as [|b bs [q Hq] _ IH]; [done|]. cbn [set_blocks]. np.
  unfold set_block. rewrite Hq. cbn [expect obind]. np.
Qed.

Lemma DcpHeader_parse_no_panic buf : no_panic (DcpHeader_parse buf).
Proof. unfold DcpHeader_parse, ServiceId_from_u8, ServiceType_from_u8. np. Qed.

Lemma slice_from_no_panic {E} (b : list Z) lo :
  (lo ≤ length b)%nat → no_panic (slice_from (E := E) b lo).
Proof. intros. unfold slice_from, no_panic. by rewrite decide_True. Qed.

Lemma handle_dcp_frame_no_panic frame cfg : no_panic (handle_dcp_frame frame cfg).
Proof.
  unfold handle_dcp_frame, parse_identify_request, parse_set_request.
  np; auto using DcpHeader_parse_no_panic, filter_blocks_no_panic.
  all: try (apply set_blocks_no_panic; by eapply parse_blocks_from_info).
  all: apply slice_from_no_panic.
  all: repeat match goal with H : EthHeader_parse _ = Ok _ |- _ => apply EthHeader_parse_off in H
    | H : map_err _ _ = Ok _ |- _ => apply map_err_Ok in H end; try lia.
Qed.

(** ** Identify, against its specification *)

Definition is_name (b : DcpBlock) : Prop := db_option b = 2 ∧ db_suboption b = 2.
Definition is_all (b : DcpBlock) : Prop := db_option b = 0xff ∧ db_suboption b = 0xff.
#[global] Instance is_name_dec b : Decision (is_name b).
Proof. unfold is_name. apply _. Defined.
#[global] Instance is_all_dec b : Decision (is_all b).
Proof. unfold is_all. apply _. Defined.

Definition filter_names (bs : list DcpBlock) : list (list Z) :=
  omap (λ b, if decide (is_name b) then Some (db_value b) else None) bs.

(** The device is addressed by name, or by the AllSelector when no name is
    given, and by nothing it cannot check. *)
Definition identify_match (props : DeviceProperties) (bs : list DcpBlock) : Prop :=
  Forall (λ b, is_name b ∨ is_all b) bs ∧
  match list.last (filter_names bs) with
  | Some name => name = dp_name_of_station props
  | None => Exists is_all bs
  end.
#[global] Instance identify_match_dec props bs : Decision (identify_match props bs).
Proof. unfold identify_match. destruct (list.last _); apply _. Defined.

Lemma filter_block_cases f b :
  (is_name b ∧ filter_block f b =
     (let! name := ok_or (from_utf8 (db_value b)) (DcpMalformed "NameOfStation not UTF-8") in
      Ok {| if_name_of_station := Some name; if_all_selector := if_all_selector f;
            if_other_filters := if_other_filters f |})) ∨
  (is_all b ∧ filter_block f b =
     Ok {| if_name_of_station := if_name_of_station f; if_all_selector := true;
           if_other_filters := if_other_filters f |}) ∨
  (¬ is_name b ∧ ¬ is_all b ∧ filter_block f b =
     Ok {| if_name_of_station := if_name_of_station f; if_all_selector := if_all_selector f;
           if_other_filters := if_other_filters f ++ [(db_option b, db_suboption b)] |}).
Proof.
  unfold is_name, is_all, filter_block. destruct b as [o s i v].
  cbn [db_option db_suboption db_value].
  destruct (decide (o = 2 ∧ s = 2)) as [[-> ->]|Hn]; [by left|].
  destruct (decide (o = 255 ∧ s = 255)) as [[-> ->]|Ha]; [by right; left|]. right. right.
  split_and!; [done..|].
  destruct o as [|o|o]; [done| |done].
  repeat (destruct o as [o|o|]; try done).
  all: destruct s as [|s|s]; [done| |done]; repeat (destruct s as [s|s|]; try done).
  all: exfalso; tauto.
Qed.

Definition names_utf8 (bs : list DcpBlock) : Prop :=
  Forall (λ b, is_name b → utf8_valid (db_value b) = true) bs.

Lemma name_not_all b : is_name b → ¬ is_all b.
Proof. unfold is_name, is_all. lia. Qed.

Lemma filter_blocks_spec bs : ∀ f,
  names_utf8 bs →
  ∃ f', filter_blocks f bs = Ok f' ∧
    if_name_of_station f' =
      match list.last (filter_names bs) with
      | Some n => Some n
      | None => if_name_of_station f
      end ∧
    (if_all_selector f' = true ↔ if_all_selector f = true ∨ Exists is_all bs) ∧
    (if_other_filters f' = [] ↔ if_other_filters f = [] ∧ Forall (λ b, is_name b ∨ is_all b) bs).
Proof.
  induction bs as [|b bs IH]; intros f Hu.
  { exists f. split_and!; [done|done| |]; rewrite ?Exists_nil; naive_solver. }
  apply Forall_cons_1 in Hu as [Hb Hu]. cbn [filter_blocks filter_names omap list_omap].
  destruct (filter_block_cases f b) as [[Hn ->]|[[Ha ->]|(Hn & Ha & ->)]].
  - pose proof (name_not_all _ Hn). unfold from_utf8. rewrite (Hb Hn). cbn [ok_or obind].
    edestruct IH as (f' & -> & Hname & Hall & Hoth); [done|]. cbn in *. exists f'.
    rewrite Exists_cons, Forall_cons_iff.
    rewrite decide_True by done. rewrite last_cons, Hname. fold (filter_names bs).
    split_and!; [done|by destruct (list.last _)|tauto|tauto].
  - assert (¬ is_name b) by (intros ?%name_not_all; done). cbn [obind].
    edestruct IH as (f' & -> & Hname & Hall & Hoth); [done|]. cbn in *. exists f'.
    rewrite Exists_cons, Forall_cons_iff.
    rewrite decide_False by done. fold (filter_names bs). split_and!; [done|done|tauto|tauto].
  - cbn [obind]. edestruct IH as (f' & -> & Hname & Hall & Hoth); [done|]. cbn in *. exists f'.
    rewrite Exists_cons, Forall_cons_iff.
    rewrite decide_False by done. fold (filter_names bs). split_and!; [done|done|tauto|].
    rewrite Hoth. split; [|tauto]. intros [[]%app_nil _]; done.
Qed.

Lemma should_respond_spec props bs :
  names_utf8 bs →
  ∃ f, filter_blocks IdentifyFilter_default bs = Ok f ∧
       should_respond f props = bool_decide (identify_match props bs).
Proof.
  intros Hu. destruct (filter_blocks_spec bs IdentifyFilter_default Hu)
    as (f & Hf & Hname & Hall & Hoth). exists f. split; [done|]. cbn in Hname, Hall, Hoth.
  apply eq_true_iff_eq. rewrite bool_decide_eq_true.
  unfold should_respond, identify_match. rewrite Hname.
  destruct (if_other_filters f) as [|o os].
  - destruct (proj1 Hoth eq_refl) as [_ Hk]. destruct (list.last (filter_names bs)) as [n|].
    + rewrite bool_decide_eq_true. tauto.
    + rewrite Hall. naive_solver.
  - split; [done|]. intros [Hk _]. discriminate (proj2 Hoth (conj eq_refl Hk)).
Qed.

(** What the device's properties must satisfy to be encodable. *)
Definition wf_properties (p : DeviceProperties) : Prop :=
  u16 (dp_ip_block_info p) ∧ length (dp_ip p) = 4%nat ∧ length (dp_subnet p) = 4%nat ∧
  length (dp_gateway p) = 4%nat ∧ Z.of_nat (length (write_blocks (identify_blocks p))) < 65536.

Lemma wf_block_of_total has bs b :
  b ∈ bs → Z.of_nat (length (write_blocks bs)) < 65536 →
  match db_block_info b with
  | Some info => has = true ∧ u16 info
  | None => has = false
  end → wf_block has b.
Proof.
  intros Hb Hl Hi. split; [done|]. enough (block_len b ≤ length (write_blocks bs))%nat by lia.
  clear Hl Hi. induction Hb as [b bs|b b' bs _ IH];
    change (write_blocks (?x :: bs)) with (write_block x ++ write_blocks bs);
    rewrite length_app, length_write_block; lia.
Qed.

(** ** Claims *)

(** A sequence of DCP blocks, with or without BlockInfo, odd or even in
    length, is read back unchanged from what [write_blocks] produces, and the
    data length announced for it is the number of octets written. *)
Theorem dcp_blocks_roundtrip has bs :
  Forall (wf_block has) bs →
  parse_blocks (write_blocks bs) has = Ok bs ∧
  blocks_encoded_len bs = wrap16 (Z.of_nat (length (write_blocks bs))).
Proof.
  intros Hb. split; [by apply parse_write_blocks|].
  unfold blocks_encoded_len. by rewrite blocks_total_len_write.
Qed.

(** C36: an Identify request with readable name filters is answered exactly
    when it addresses this device: every filter block is a NameOfStation or an
    AllSelector, and the (last) name given is ours, or no name is given and
    the AllSelector is present.  The answer then parses, for the requester, to
    a success response with the request's transaction id and the device's
    seven property blocks; otherwise the device stays silent. *)
Theorem identify_answers eth h bs padding cfg :
  wf_request eth h false bs → names_utf8 bs → wf_mac (dc_mac cfg) →
  wf_properties (dc_properties cfg) →
  if decide (identify_match (dc_properties cfg) bs) then
    ∃ resp, handle_dcp_frame (dcp_request eth IdentifyRequest h bs padding) cfg = Ok (Some resp) ∧
      carries resp (eth_src eth) (dc_mac cfg) IdentifyResponse SiIdentify (dh_xid h) true
        (identify_blocks (dc_properties cfg))
  else handle_dcp_frame (dcp_request eth IdentifyRequest h bs padding) cfg = Ok None.
Proof.
  intros Hr Hu Hm Hp. pose proof (handle_dcp_request eth IdentifyRequest h false bs padding cfg Hr)
    as Hh. cbv beta iota in Hh. destruct Hr as (He & _ & Hhd & _ & Hb).
  unfold parse_identify_request in Hh. rewrite parse_write_blocks in Hh by done.
  cbn [obind] in Hh. destruct (should_respond_spec (dc_properties cfg) bs Hu) as (f & Hf & Hsr).
  rewrite Hf in Hh. cbn [obind] in Hh. rewrite Hsr in Hh.
  destruct (decide (identify_match _ bs)); [|by rewrite bool_decide_false in Hh].
  rewrite bool_decide_true in Hh by done. eexists. split; [done|].
  apply dcp_response_carries; [apply He|done|apply Hhd| |apply Hp].
  apply list.Forall_forall. intros b Hin. eapply wf_block_of_total; [done|apply Hp|].
  destruct Hp as (Hi & _). unfold identify_blocks in Hin. set_unfold in Hin.
  destruct_or! Hin; subst b; cbn; (split; [done|]); (done || range).
Qed.

(** The verdict on one block of a Set request. *)
Definition set_verdict (props : DeviceProperties) (b : DcpBlock) : Z * Z * SetBlockError :=
  if decide (db_option b = 1 ∧ db_suboption b = 2) then
    (1, 2, if decide (db_value b = dp_ip props ++ dp_subnet props ++ dp_gateway props)
           then SbOk else SetNotPossible)
  else (db_option b, db_suboption b, SuboptionNotSupported).

Definition ip_blocks_sized (bs : list DcpBlock) : Prop :=
  Forall (λ b, db_option b = 1 → db_suboption b = 2 → length (db_value b) = 12%nat) bs.

Lemma set_block_verdict props b :
  wf_block true b → (db_option b = 1 → db_suboption b = 2 → length (db_value b) = 12%nat) →
  wf_properties props →
  ∃ s, set_block b = Ok s ∧ decide_block props s = set_verdict props b.
Proof.
  intros [Hi _] Hlen (_ & H1 & H2 & H3 & _). unfold set_block, set_verdict.
  destruct b as [o su [q|] v]; cbn [db_block_info db_option db_suboption db_value] in *; [|done].
  cbn [expect obind]. destruct (decide (o = 1 ∧ su = 2)) as [[-> ->]|Hn].
  - specialize (Hlen eq_refl eq_refl). rewrite decide_False by tauto.
    assert (v = take 4 v ++ take 4 (drop 4 v) ++ take 4 (drop 8 v)) as Hv.
    { list_elements v Hlen. done. }
    unfold slice. rewrite !decide_True by lia. cbn [obind Nat.sub]. rewrite drop_0.
    eexists. split; [done|]. cbn [decide_block].
    assert (v = dp_ip props ++ dp_subnet props ++ dp_gateway props ↔
      take 4 v = dp_ip props ∧ take 4 (drop 4 v) = dp_subnet props ∧
      take 4 (drop 8 v) = dp_gateway props) as Hiff.
    { split; [intros ->|intros (<- & <- & <-); done].
      generalize dependent (dp_gateway props). generalize dependent (dp_subnet props).
      generalize dependent (dp_ip props). intros a Ha b Hb c Hc. intros.
      list_elements a Ha. list_elements b Hb. list_elements c Hc. done. }
    destruct (decide (v = _)); [rewrite decide_True by tauto|rewrite decide_False by tauto]; done.
  - exists (SbOther o su). split; [|done].
    destruct o as [|[o|o|]|]; try done. destruct su as [|[su|[]|]|]; try done. exfalso; tauto.
Qed.

Lemma set_blocks_verdict props bs :
  Forall (wf_block true) bs → ip_blocks_sized bs → wf_properties props →
  ∃ ss, set_blocks bs = Ok ss ∧ decide_set ss props = set_verdict props <$> bs.
Proof.
  intros Hb Hs Hp. induction Hb as [|b bs Hb _ IH]; [by exists []|].
  apply Forall_cons_1 in Hs as [Hs1 Hs]. destruct (IH Hs) as (ss & Hss & Hv).
  destruct (set_block_verdict props b Hb Hs1 Hp) as (s & He & Hd).
  exists (s :: ss). cbn [set_blocks]. rewrite He, Hss. split; [done|].
  cbn. rewrite Hd. by f_equal.
Qed.

(** C35: a Set request is answered block by block, in order, and never changes
    an address: the verdict on an IPParameter block is success exactly when
    the whole requested suite (address, mask and gateway) is the one the
    device already has, any other option is refused as unsupported, and the
    requester parses these verdicts, under its own transaction id, out of the
    frame sent back. *)
Theorem set_answers eth h bs padding cfg :
  wf_request eth h true bs → dh_service_id h = SiSet → dh_service_type h = StRequest →
  ip_blocks_sized bs → wf_mac (dc_mac cfg) → wf_properties (dc_properties cfg) →
  Z.of_nat (8 * length bs) < 65536 →
  ∃ resp, handle_dcp_frame (dcp_request eth GetSet h bs padding) cfg = Ok (Some resp) ∧
    carries resp (eth_src eth) (dc_mac cfg) GetSet SiSet (dh_xid h) false
      (result_block <$> (set_verdict (dc_properties cfg) <$> bs)).
Proof.
  intros Hr Hs Ht Hip Hm Hp Hn.
  pose proof (handle_dcp_request eth GetSet h true bs padding cfg Hr) as Hh.
  cbv beta iota in Hh. destruct Hr as (He & _ & Hhd & _ & Hb).
  rewrite decide_False in Hh by tauto. unfold parse_set_request in Hh.
  rewrite parse_write_blocks in Hh by done. cbn [obind] in Hh.
  destruct (set_blocks_verdict (dc_properties cfg) bs Hb Hip Hp) as (ss & Hss & Hv).
  rewrite Hss in Hh. cbn [obind] in Hh. rewrite Hv in Hh. eexists. split; [exact Hh|].
  apply dcp_response_carries; [apply He|done|apply Hhd|..].
  - apply Forall_fmap, Forall_true. intros [[o s] e]. by split.
  - enough (∀ rs, length (write_blocks (result_block <$> rs)) = 8 * length rs)%nat as ->
      by (rewrite length_fmap; lia).
    clear. induction rs as [|[[o s] e] rs IH]; [done|].
    change (write_blocks (result_block <$> (o, s, e) :: rs)) with
      (write_block (result_block (o, s, e)) ++ write_blocks (result_block <$> rs)).
    rewrite length_app, IH. cbn [length]. change (length (write_block _)) with 8%nat. lia.
Qed.

(** ** Witnesses *)

Definition sample_props : DeviceProperties := {|
  dp_name_of_station := ascii_bytes "edge"; dp_type_of_station := ascii_bytes "pnio";
  dp_vendor_id := 0x0493; dp_device_id := 2; dp_device_role := 0x0100; dp_device_instance := 1;
  dp_device_options := [1; 2; 2; 2]; dp_ip := [192; 168; 0; 5]; dp_subnet := [255; 255; 255; 0];
  dp_gateway := [192; 168; 0; 1]; dp_ip_block_info := 1 |}.
Definition sample_dcp_cfg : DcpConfig :=
  {| dc_mac := Mac [2; 0; 0; 0; 0; 9]; dc_properties := sample_props |}.
Definition sample_dcp_eth : EthHeader :=
  {| eth_dst := Mac [1; 14; 207; 0; 0; 0]; eth_src := Mac [2; 0; 0; 0; 0; 7]; eth_vlan := Some 0;
     eth_ethertype := ETHERTYPE_PROFINET |}.
Definition name_filter : list DcpBlock :=
  [{| db_option := 2; db_suboption := 2; db_block_info := None;
      db_value := ascii_bytes "edge" |}].
Definition set_ip (suite : list Z) : list DcpBlock :=
  [{| db_option := 1; db_suboption := 2; db_block_info := Some 1; db_value := suite |};
   {| db_option := 3; db_suboption := 1; db_block_info := Some 0; db_value := [7] |}].
Definition sample_dcp_header (sid : ServiceId) (bs : list DcpBlock) : DcpHeader :=
  {| dh_service_id := sid; dh_service_type := StRequest; dh_xid := 77; dh_response_delay := 0;
     dh_data_length := Z.of_nat (length (write_blocks bs)) |}.
Definition sample_suite : list Z := [192; 168; 0; 5; 255; 255; 255; 0; 192; 168; 0; 1].

Ltac wf_request_tac :=
  split_and!; [ | reflexivity | unfold wf_dcp_header; by_decide | reflexivity | ];
  [ split_and!; [unfold wf_mac; by_decide..|by intros ? [= <-]|done]
  | repeat constructor; (done || by_decide) ].

Lemma wf_name_request : wf_request sample_dcp_eth (sample_dcp_header SiIdentify name_filter) false
  name_filter.
Proof. wf_request_tac. Qed.

Lemma wf_set_request :
  wf_request sample_dcp_eth (sample_dcp_header SiSet (set_ip sample_suite)) true
    (set_ip sample_suite).
Proof. wf_request_tac. Qed.

Lemma wf_sample_props : wf_properties sample_props.
Proof. unfold wf_properties. by_decide. Qed.

Lemma dcp_blocks_roundtrip_witness :
  parse_blocks (write_blocks (set_ip sample_suite)) true = Ok (set_ip sample_suite) ∧
  blocks_encoded_len (set_ip sample_suite) =
    wrap16 (Z.of_nat (length (write_blocks (set_ip sample_suite)))).
Proof. apply (dcp_blocks_roundtrip true (set_ip sample_suite)). apply wf_set_request. Defined.

Lemma identify_answers_witness :
  ∃ resp, handle_dcp_frame (dcp_request sample_dcp_eth IdentifyRequest
      (sample_dcp_header SiIdentify name_filter) name_filter [0; 0; 0]) sample_dcp_cfg =
      Ok (Some resp) ∧
    carries resp (Mac [2; 0; 0; 0; 0; 7]) (Mac [2; 0; 0; 0; 0; 9]) IdentifyResponse SiIdentify 77
      true (identify_blocks sample_props).
Proof.
  pose proof (identify_answers sample_dcp_eth (sample_dcp_header SiIdentify name_filter)
    name_filter [0; 0; 0] sample_dcp_cfg wf_name_request) as H.
  rewrite decide_True in H by by_decide. apply H.
  - repeat constructor.
  - unfold wf_mac. by_decide.
  - apply wf_sample_props.
Defined.

Lemma set_answers_witness :
  ∃ resp, handle_dcp_frame (dcp_request sample_dcp_eth GetSet
      (sample_dcp_header SiSet (set_ip sample_suite)) (set_ip sample_suite) []) sample_dcp_cfg =
      Ok (Some resp) ∧
    carries resp (Mac [2; 0; 0; 0; 0; 7]) (Mac [2; 0; 0; 0; 0; 9]) GetSet SiSet 77 false
      (result_block <$> [(1, 2, SbOk); (3, 1, SuboptionNotSupported)]).
Proof.
  apply (set_answers sample_dcp_eth (sample_dcp_header SiSet (set_ip sample_suite))
    (set_ip sample_suite) [] sample_dcp_cfg).
  - apply wf_set_request.
  - reflexivity.
  - reflexivity.
  - repeat constructor; done.
  - unfold wf_mac. by_decide.
  - apply wf_sample_props.
  - cbn. lia.
Defined.
