(* ===== verification/Data.v ===== *)
(** * Data: process values and their octets

    Models [crates/pnio/src/data.rs].  An [i16]/[i32] is a [Z] in its signed
    range, an [f32] its 32-bit pattern (the codecs only move the bits).  A
    function writing through [&mut [u8]] returns the new buffer. *)

From S2P Require Import Prelude.
Local Open Scope Z_scope.

(** ** Data *)

(** data.rs:10-23 FieldType *)
Inductive FieldType := FtBool | FtInt | FtWord | FtDint | FtReal.
#[global] Instance FieldType_eq_dec : EqDecision FieldType.
Proof. solve_decision. Defined.

(** data.rs:26-33 FieldType::byte_len *)
Definition byte_len (ty : FieldType) : option nat :=
  match ty with
  | FtBool => None
  | FtInt | FtWord => Some 2%nat
  | FtDint | FtReal => Some 4%nat
  end.

(** data.rs:36-49 Value *)
Inductive Value :=
| VBool (b : bool)
| VInt (v : Z)
| VWord (v : Z)
| VDint (v : Z)
| VReal (bits : Z).
#[global] Instance Value_eq_dec : EqDecision Value.
Proof. solve_decision. Defined.

(** data.rs:52-61 Value::field_type *)
Definition field_type (v : Value) : FieldType :=
  match v with
  | VBool _ => FtBool
  | VInt _ => FtInt
  | VWord _ => FtWord
  | VDint _ => FtDint
  | VReal _ => FtReal
  end.

(** data.rs:98-118 CodecError *)
Inductive CodecError :=
| CeTooShort (need have : nat)
| CeBitOutOfRange (bit bytes : nat).

(** The ranges of the Rust types. *)
Definition i16 (x : Z) : Prop := -32768 ≤ x < 32768.
Definition i32 (x : Z) : Prop := -2147483648 ≤ x < 2147483648.
#[global] Instance i16_dec x : Decision (i16 x) := decide (-32768 ≤ x < 32768).
#[global] Instance i32_dec x : Decision (i32 x) := decide (-2147483648 ≤ x < 2147483648).

Definition wf_value (v : Value) : Prop :=
  match v with
  | VBool _ => True
  | VInt v => i16 v
  | VWord v => u16 v
  | VDint v => i32 v
  | VReal v => u32 v
  end.
#[global] Instance wf_value_dec v : Decision (wf_value v).
Proof. destruct v; apply _. Defined.

(** Two's complement: the value of an [iN] with the given bits. *)
Definition signed16 (x : Z) : Z := if decide (x < 32768) then x else x - 65536.
Definition signed32 (x : Z) : Z := if decide (x < 2147483648) then x else x - 4294967296.

(** ** Codecs *)

(** data.rs:120-123 encode_i16 *)
Definition encode_i16 (v : Z) : list Z := be16 (wrap16 v).
(** data.rs:124-127 encode_u16 *)
Definition encode_u16 (v : Z) : list Z := be16 v.
(** data.rs:128-131 encode_i32 *)
Definition encode_i32 (v : Z) : list Z := be32 (wrap32 v).
(** data.rs:132-135 encode_f32 *)
Definition encode_f32 (v : Z) : list Z := be32 v.

(** data.rs:162-173 take *)
Definition take_n (n : nat) (b : list Z) : outcome CodecError (list Z) :=
  if decide (length b < n)%nat then Err (CeTooShort n (length b)) else slice b 0 n.

(** data.rs:137-142 decode_i16 *)
Definition decode_i16 (b : list Z) : outcome CodecError Z :=
  let! a := take_n 2 b in let! x := be16_at a 0 in Ok (signed16 x).
(** data.rs:143-148 decode_u16 *)
Definition decode_u16 (b : list Z) : outcome CodecError Z :=
  let! a := take_n 2 b in be16_at a 0.
(** data.rs:149-154 decode_i32 *)
Definition decode_i32 (b : list Z) : outcome CodecError Z :=
  let! a := take_n 4 b in let! x := be32_at a 0 in Ok (signed32 x).
(** data.rs:155-160 decode_f32 *)
Definition decode_f32 (b : list Z) : outcome CodecError Z :=
  let! a := take_n 4 b in be32_at a 0.

(** data.rs:175-185 get_bit *)
Definition get_bit (buf : list Z) (bit : nat) : outcome CodecError bool :=
  let byte := (bit / 8)%nat in
  if decide (length buf ≤ byte)%nat then Err (CeBitOutOfRange bit (length buf)) else
  let! b := idx buf byte in
  Ok (bool_decide (Z.land (Z.shiftr b (Z.of_nat (bit mod 8))) 1 = 1)).

(** data.rs:187-203 set_bit *)
Definition set_bit (buf : list Z) (bit : nat) (value : bool) : outcome CodecError (list Z) :=
  let byte := (bit / 8)%nat in
  if decide (length buf ≤ byte)%nat then Err (CeBitOutOfRange bit (length buf)) else
  let mask := Z.shiftl 1 (Z.of_nat (bit mod 8)) in
  let! b := idx buf byte in
  set_at buf byte (if value then Z.lor b mask else Z.land b (wrap8 (Z.lnot mask))).

(** data.rs:66-75 Value::encode *)
Definition put (dst : list Z) (bytes : list Z) : outcome CodecError (list Z) :=
  if decide (length dst < length bytes)%nat then Err (CeTooShort (length bytes) (length dst))
  else copy_at dst 0 bytes.

(** data.rs:63-83 Value::encode *)
Definition encode (v : Value) (dst : list Z) (bit : nat) : outcome CodecError (list Z) :=
  match v with
  | VBool b => set_bit dst bit b
  | VInt v => put dst (encode_i16 v)
  | VWord v => put dst (encode_u16 v)
  | VDint v => put dst (encode_i32 v)
  | VReal v => put dst (encode_f32 v)
  end.

(** data.rs:85-95 Value::decode *)
Definition decode (ty : FieldType) (src : list Z) (bit : nat) : outcome CodecError Value :=
  match ty with
  | FtBool => let! b := get_bit src bit in Ok (VBool b)
  | FtInt => let! v := decode_i16 src in Ok (VInt v)
  | FtWord => let! v := decode_u16 src in Ok (VWord v)
  | FtDint => let! v := decode_i32 src in Ok (VDint v)
  | FtReal => let! v := decode_f32 src in Ok (VReal v)
  end.

(** ** Bits of an octet *)

Lemma bit_test b k : 0 ≤ k → bool_decide (Z.land (Z.shiftr b k) 1 = 1) = Z.testbit b k.
Proof.
  intros Hk. rewrite (Z.land_ones _ 1) by lia. change (2 ^ 1) with 2.
  rewrite Zmod_odd, <-Z.bit0_odd, Z.shiftr_spec, Z.add_0_l by lia. by destruct (Z.testbit b k).
Qed.

Lemma testbit_u8_high b i : u8 b → 8 ≤ i → Z.testbit b i = false.
Proof.
  unfold u8. intros Hb Hi. destruct (decide (b = 0)) as [->|]; [apply Z.testbit_0_l|].
  apply Z.bits_above_log2; [lia|]. assert (Z.log2 b < 8); [|lia]. apply Z.log2_lt_pow2; lia.
Qed.

(** Setting or clearing one bit of an octet. *)
Definition with_bit (value : bool) (b k : Z) : Z :=
  let mask := Z.shiftl 1 k in
  if value then Z.lor b mask else Z.land b (wrap8 (Z.lnot mask)).

Lemma with_bit_spec value b k i :
  u8 b → 0 ≤ k < 8 → 0 ≤ i →
  Z.testbit (with_bit value b k) i = if decide (i = k) then value else Z.testbit b i.
Proof.
  intros Hb Hk Hi. assert (Z.testbit (Z.shiftl 1 k) i = bool_decide (i = k)) as Hm.
  { rewrite Z.shiftl_spec by lia. destruct (decide (i = k)) as [->|Hne].
    - by rewrite Z.sub_diag, bool_decide_eq_true_2.
    - rewrite bool_decide_eq_false_2 by done. destruct (decide (i < k)).
      + by rewrite Z.testbit_neg_r by lia.
      + apply Z.bits_above_log2; cbn; lia. }
  unfold with_bit. destruct value.
  - rewrite Z.lor_spec, Hm. case_decide; subst; [by rewrite bool_decide_eq_true_2, orb_true_r|].
    by rewrite bool_decide_eq_false_2, orb_false_r.
  - rewrite Z.land_spec. unfold wrap8. destruct (decide (i < 8)).
    + change 256 with (2 ^ 8). rewrite Z.mod_pow2_bits_low, Z.lnot_spec, Hm by lia.
      case_decide; subst; [by rewrite bool_decide_eq_true_2, andb_false_r|].
      by rewrite bool_decide_eq_false_2, andb_true_r.
    + rewrite testbit_u8_high by (done || lia). rewrite decide_False by lia. done.
Qed.

Lemma with_bit_u8 value b k : u8 b → 0 ≤ k < 8 → u8 (with_bit value b k).
Proof.
  intros Hb Hk.
  assert (with_bit value b k = with_bit value b k mod 2 ^ 8) as ->; [|apply Z.mod_pos_bound; lia].
  apply Z.bits_inj'. intros i Hi. destruct (decide (i < 8)).
  - by rewrite Z.mod_pow2_bits_low by lia.
  - rewrite Z.mod_pow2_bits_high by lia. rewrite with_bit_spec by (done || lia).
    rewrite decide_False by lia. apply testbit_u8_high; [done|lia].
Qed.

(** ** The codecs, as reads and writes of whole buffers *)

(** The octets a value of the type touches at the front of a buffer. *)
Definition width (ty : FieldType) : nat := default 1%nat (byte_len ty).

Lemma signed16_wrap v : i16 v → signed16 (wrap16 v) = v.
Proof.
  unfold i16, signed16, wrap16. intros. case_decide; Z.div_mod_to_equations; lia.
Qed.

Lemma signed32_wrap v : i32 v → signed32 (wrap32 v) = v.
Proof.
  unfold i32, signed32, wrap32. intros. case_decide; Z.div_mod_to_equations; lia.
Qed.

Lemma wrap32_u32 x : u32 (wrap32 x).
Proof. unfold u32, wrap32. apply Z.mod_pos_bound. lia. Qed.

Lemma signed16_i16 x : u16 x → i16 (signed16 x).
Proof. unfold u16, i16, signed16. case_decide; lia. Qed.

Lemma signed32_i32 x : u32 x → i32 (signed32 x).
Proof. unfold u32, i32, signed32. case_decide; lia. Qed.

Lemma take_n_Ok n b a : take_n n b = Ok a ↔ (n ≤ length b)%nat ∧ a = take n b.
Proof.
  unfold take_n, slice. case_decide; [split; [done|lia]|].
  rewrite decide_True by lia. rewrite drop_0, Nat.sub_0_r. naive_solver lia.
Qed.

Lemma take_n_short n b : (length b < n)%nat → take_n n b = Err (CeTooShort n (length b)).
Proof. intros. unfold take_n. by rewrite decide_True. Qed.

Lemma take_n_fits n b : (n ≤ length b)%nat → take_n n b = Ok (take n b).
Proof. intros. by apply take_n_Ok. Qed.

Lemma put_Ok dst bytes dst' :
  put dst bytes = Ok dst' ↔
  (length bytes ≤ length dst)%nat ∧ dst' = bytes ++ drop (length bytes) dst.
Proof.
  unfold put, copy_at. case_decide; [split; [done|lia]|].
  rewrite decide_True by (cbn; lia). rewrite take_0. cbn. naive_solver lia.
Qed.

Lemma put_take dst bytes dst' : put dst bytes = Ok dst' → take (length bytes) dst' = bytes.
Proof. intros [_ ->]%put_Ok. by rewrite take_app_length. Qed.

Lemma put_length dst bytes dst' : put dst bytes = Ok dst' → length dst' = length dst.
Proof. intros [? ->]%put_Ok. rewrite length_app, length_drop. lia. Qed.

Lemma put_lookup dst bytes dst' i :
  put dst bytes = Ok dst' → (length bytes ≤ i)%nat → dst' !! i = dst !! i.
Proof.
  intros [? ->]%put_Ok Hi. rewrite lookup_app_r by done. rewrite lookup_drop. f_equal. lia.
Qed.

Lemma put_take_n dst bytes dst' n :
  put dst bytes = Ok dst' → length bytes = n → take_n n dst' = Ok bytes.
Proof.
  intros Hp <-. apply take_n_Ok. rewrite (put_take _ _ _ Hp), (put_length _ _ _ Hp).
  apply put_Ok in Hp as [? _]. done.
Qed.

Lemma be16_at_be16 {E} x : u16 x → be16_at (E := E) (be16 x) 0 = Ok x.
Proof. intros. eapply be16_at_drop; [done|]. by rewrite drop_0, app_nil_r. Qed.

Lemma be32_at_be32 {E} x : u32 x → be32_at (E := E) (be32 x) 0 = Ok x.
Proof. intros. eapply be32_at_drop; [done|]. by rewrite drop_0, app_nil_r. Qed.

(** The single octet a bit index below 8 names. *)
Lemma get_bit_front b rest k :
  (k < 8)%nat → get_bit (b :: rest) k = Ok (Z.testbit b (Z.of_nat k)).
Proof.
  intros Hk. unfold get_bit, idx. rewrite Nat.div_small, Nat.mod_small by done.
  rewrite decide_False by (cbn; lia). cbn [lookup list_lookup obind].
  by rewrite bit_test by lia.
Qed.

Lemma set_bit_front b rest k v :
  (k < 8)%nat → set_bit (b :: rest) k v = Ok (with_bit v b (Z.of_nat k) :: rest).
Proof.
  intros Hk. unfold set_bit, idx, set_at. rewrite Nat.div_small, Nat.mod_small by done.
  rewrite decide_False by (cbn; lia). cbn [lookup list_lookup obind].
  rewrite decide_True by (cbn; lia). done.
Qed.

(** A value always fits a buffer of its width, and nothing else does. *)
Lemma encode_Ok v dst bit :
  (bit < 8)%nat → (width (field_type v) ≤ length dst)%nat ↔ is_Ok (encode v dst bit) = true.
Proof.
  intros Hb. destruct v; cbn [encode field_type width byte_len default id];
    try (unfold put; rewrite ?length_be16, ?length_be32; case_decide;
         [split; [cbn in *; lia|done]|];
         unfold copy_at; rewrite decide_True by (cbn in *; lia); split; [done|cbn in *; lia]).
  destruct dst as [|x rest].
  - unfold set_bit. rewrite decide_True by (cbn; lia). split; [cbn; lia|done].
  - rewrite set_bit_front by done. split; [done|cbn; lia].
Qed.

(** Writing a value and reading it back. *)
Lemma decode_encode v dst bit dst' :
  wf_value v → (bit < 8)%nat → Forall u8 dst → encode v dst bit = Ok dst' →
  decode (field_type v) dst' bit = Ok v.
Proof.
  intros Hv Hb Hd. destruct v as [b|v|v|v|v]; cbn [encode decode field_type wf_value] in *.
  - destruct dst as [|x rest]; [unfold set_bit; by rewrite decide_True by (cbn; lia)|].
    rewrite set_bit_front by done. intros [= <-]. rewrite get_bit_front by done. cbn [obind].
    apply Forall_cons_1 in Hd as [Hx _]. rewrite with_bit_spec by (done || lia).
    by rewrite decide_True.
  - intros Hp. unfold decode_i16. rewrite (put_take_n _ _ _ 2 Hp) by done. cbn [obind].
    unfold encode_i16. rewrite be16_at_be16 by auto. cbn [obind]. by rewrite signed16_wrap.
  - intros Hp. unfold decode_u16. rewrite (put_take_n _ _ _ 2 Hp) by done. cbn [obind].
    unfold encode_u16. by rewrite be16_at_be16.
  - intros Hp. unfold decode_i32. rewrite (put_take_n _ _ _ 4 Hp) by done. cbn [obind].
    unfold encode_i32. rewrite be32_at_be32 by apply wrap32_u32. cbn [obind].
    by rewrite signed32_wrap.
  - intros Hp. unfold decode_f32. rewrite (put_take_n _ _ _ 4 Hp) by done. cbn [obind].
    unfold encode_f32. by rewrite be32_at_be32.
Qed.

(** A write leaves the length and every octet behind the field alone. *)
Lemma encode_outside v dst bit dst' :
  (bit < 8)%nat → encode v dst bit = Ok dst' →
  length dst' = length dst ∧ ∀ i, (width (field_type v) ≤ i)%nat → dst' !! i = dst !! i.
Proof.
  intros Hb. destruct v; cbn [encode field_type width byte_len default id];
    try (intros Hp; split; [by eapply put_length|intros; eapply put_lookup; [done|cbn; lia]]).
  destruct dst as [|x rest]; [unfold set_bit; by rewrite decide_True by (cbn; lia)|].
  rewrite set_bit_front by done. intros [= <-]. split; [done|]. intros [|i] ?; [lia|done].
Qed.

(** A read depends only on the octets of its field. *)
Lemma decode_ext ty src src' bit :
  (bit < 8)%nat → length src = length src' →
  (∀ i, (i < width ty)%nat → src !! i = src' !! i) →
  decode ty src bit = decode ty src' bit.
Proof.
  intros Hb Hl Hi.
  assert (take (width ty) src = take (width ty) src') as Ht.
  { apply list_eq. intros i. destruct (decide (i < width ty)%nat).
    - rewrite !lookup_take_lt by done. auto.
    - by rewrite !lookup_take_ge by lia. }
  assert (∀ n, width ty = n → take_n n src = take_n n src') as Hn.
  { intros n <-. destruct (decide (width ty ≤ length src)%nat).
    - rewrite !take_n_fits by lia. by rewrite Ht.
    - rewrite !take_n_short by lia. by rewrite Hl. }
  destruct ty; cbn [decode]; unfold decode_i16, decode_u16, decode_i32, decode_f32;
    try (by rewrite (Hn 2%nat eq_refl)); try (by rewrite (Hn 4%nat eq_refl)).
  specialize (Hi 0%nat ltac:(cbn; lia)). destruct src, src'; try done.
  injection Hi as ->. by rewrite !get_bit_front.
Qed.

(** A read returns a value of the type asked for, in range. *)
Lemma decode_typed ty src bit v :
  Forall u8 src → decode ty src bit = Ok v → field_type v = ty ∧ wf_value v.
Proof.
  intros Hs. destruct ty; cbn [decode]; unfold decode_i16, decode_u16, decode_i32, decode_f32;
    intros H; ok_inv; (split; [done|]); cbn [wf_value]; try done;
    repeat match goal with H : take_n _ _ = Ok _ |- _ => apply take_n_Ok in H as [? ->] end;
    first [ apply signed16_i16; by eapply be16_at_u16; [apply Forall_take|]
          | apply signed32_i32; by eapply be32_at_u32; [apply Forall_take|]
          | by eapply be16_at_u16; [apply Forall_take|]
          | by eapply be32_at_u32; [apply Forall_take|] ].
Qed.

(** A read of a field that is there succeeds. *)
Lemma decode_Ok ty src bit :
  (bit < 8)%nat → (width ty ≤ length src)%nat → ∃ v, decode ty src bit = Ok v.
Proof.
  intros Hb Hl. destruct ty; cbn [decode width byte_len default id] in *;
    unfold decode_i16, decode_u16, decode_i32, decode_f32.
  1: { destruct src as [|x src]; [cbn in Hl; lia|]. rewrite get_bit_front by done. by eexists. }
  all: destruct src as [|x0 [|x1 src]]; try (cbn in Hl; lia);
    try (rewrite take_n_fits by done; by eexists).
  all: destruct src as [|x2 [|x3 src]]; try (cbn in Hl; lia);
    rewrite take_n_fits by done; by eexists.
Qed.
