(* ===== verification/RtFrame.v ===== *)
(** * RtFrame: the cyclic frame codec

    Models [crates/pnio/src/rt/frame.rs]: the APDU status, the parser of an
    RTC1 frame and the in-place serializer, which writes into a caller's
    buffer one field after another. *)

From S2P Require Import Prelude Eth.
Local Open Scope Z_scope.

(** ** Constants and data *)

(** rt/frame.rs:17-18 TCI_RT *)
Definition TCI_RT : Z := 0xC000.
(** rt/frame.rs:19-20 CSDU_MIN *)
Definition CSDU_MIN : nat := 40.
(** rt/frame.rs:21-22 APDU_LEN *)
Definition APDU_LEN : nat := 4.
(** rt/frame.rs:23-24 CYCLE_UNIT *)
Definition CYCLE_UNIT : Z := 31250.

(** rt/frame.rs:26-48 FrameError *)
Inductive FrameError :=
| FrTooShort (need have : nat)
| NotProfinet
| BufferTooSmall (need have : nat).

(** rt/frame.rs:50-52 DataStatus *)
Record DataStatus := MkDataStatus { ds_byte : Z }.

(** rt/frame.rs:55-56 DataStatus::RUN_PRIMARY_VALID_OK *)
Definition RUN_PRIMARY_VALID_OK : DataStatus := MkDataStatus 0x35.
(** rt/frame.rs:58-60 DataStatus::RUN_PRIMARY_VALID_PROBLEM *)
Definition RUN_PRIMARY_VALID_PROBLEM : DataStatus := MkDataStatus 0x15.

(** rt/frame.rs:62-65 DataStatus::primary *)
Definition ds_primary (d : DataStatus) : bool := bool_decide (Z.land (ds_byte d) 0x01 ≠ 0).
(** rt/frame.rs:67-70 DataStatus::redundancy *)
Definition ds_redundancy (d : DataStatus) : bool := bool_decide (Z.land (ds_byte d) 0x02 ≠ 0).
(** rt/frame.rs:72-75 DataStatus::data_valid *)
Definition ds_data_valid (d : DataStatus) : bool := bool_decide (Z.land (ds_byte d) 0x04 ≠ 0).
(** rt/frame.rs:77-80 DataStatus::provider_run *)
Definition ds_provider_run (d : DataStatus) : bool := bool_decide (Z.land (ds_byte d) 0x10 ≠ 0).
(** rt/frame.rs:82-85 DataStatus::station_ok *)
Definition ds_station_ok (d : DataStatus) : bool := bool_decide (Z.land (ds_byte d) 0x20 ≠ 0).

(** rt/frame.rs:88-101 RtFrame *)
Record RtFrame := {
  rf_frame_id : Z; rf_csdu : list Z; rf_cycle_counter : Z; rf_data_status : DataStatus;
  rf_transfer_status : Z
}.

(** rt/frame.rs:103-107 frame_len *)
Definition frame_len (csdu_len : nat) : nat := 18 + 2 + Nat.max csdu_len CSDU_MIN + APDU_LEN.

(** ** Parsing *)

(** The header length guessed for the error value when no header could be
    parsed. *)
(** rt/frame.rs:112-124 RtFrame::parse *)
Definition short_need (frame : list Z) : outcome FrameError nat :=
  if decide (14 ≤ length frame)%nat then
    let! tag := slice frame 12 14 in
    Ok ((if decide (tag = [0x81; 0x00]%Z) then 18 else 14) + 2 + CSDU_MIN + APDU_LEN)%nat
  else Ok (14 + 2 + CSDU_MIN + APDU_LEN)%nat.

(** rt/frame.rs:110-156 RtFrame::parse *)
Definition RtFrame_parse (frame : list Z) : outcome FrameError (EthHeader * RtFrame) :=
  match EthHeader_parse frame with
  | Panic => Panic
  | Err _ => let! need := short_need frame in Err (FrTooShort need (length frame))
  | Ok (eth, off) =>
    if decide (eth_ethertype eth ≠ ETHERTYPE_PROFINET) then Err NotProfinet else
    let need := (off + 2 + CSDU_MIN + APDU_LEN)%nat in
    if decide (length frame < need)%nat then Err (FrTooShort need (length frame)) else
    let! frame_id := be16_at frame off in
    let apdu_off := (length frame - APDU_LEN)%nat in
    let! csdu := slice frame (off + 2) apdu_off in
    let! apdu := slice_from frame apdu_off in
    let! cycle_counter := be16_at apdu 0 in
    let! status := idx apdu 2 in
    let! transfer_status := idx apdu 3 in
    Ok (eth, {| rf_frame_id := frame_id; rf_csdu := csdu; rf_cycle_counter := cycle_counter;
                rf_data_status := MkDataStatus status; rf_transfer_status := transfer_status |})
  end.

(** ** Writing *)

(** The buffer is threaded through the writes; the result is its new
    contents and the number of octets written. *)
(** rt/frame.rs:158-193 RtFrame::write *)
Definition RtFrame_write (f : RtFrame) (out : list Z) (dst src : MacAddr) :
    outcome FrameError (list Z * nat) :=
  let csdu_len := Nat.max (length (rf_csdu f)) CSDU_MIN in
  let need := frame_len (length (rf_csdu f)) in
  if decide (length out < need)%nat then Err (BufferTooSmall need (length out)) else
  let! out := copy_at out 0 (mac_octets dst) in
  let! out := copy_at out 6 (mac_octets src) in
  let! out := copy_at out 12 (be16 ETHERTYPE_VLAN) in
  let! out := copy_at out 14 (be16 TCI_RT) in
  let! out := copy_at out 16 (be16 ETHERTYPE_PROFINET) in
  let! out := copy_at out 18 (be16 (rf_frame_id f)) in
  let csdu_start := 20%nat in
  let csdu_end := (csdu_start + length (rf_csdu f))%nat in
  let! out := copy_at out csdu_start (rf_csdu f) in
  let! out := copy_at out csdu_end (replicate (csdu_start + csdu_len - csdu_end) 0) in
  let apdu_off := (csdu_start + csdu_len)%nat in
  let! out := copy_at out apdu_off (be16 (rf_cycle_counter f)) in
  let! out := set_at out (apdu_off + 2) (ds_byte (rf_data_status f)) in
  let! out := set_at out (apdu_off + 3) (rf_transfer_status f) in
  Ok (out, need).

(** ** Lemmas *)

Lemma RtFrame_parse_no_panic frame : no_panic (RtFrame_parse frame).
Proof.
  unfold RtFrame_parse, short_need, CSDU_MIN, APDU_LEN.
  pose proof (EthHeader_parse_no_panic frame).
  destruct (EthHeader_parse frame) as [[eth off]| |] eqn:He; [|np|done].
  apply EthHeader_parse_off in He as [_ ?].
  np; try lia.
  all: unfold slice_from in *; try (unfold no_panic; rewrite decide_True by lia; done).
  all: ok_inv; rewrite ?length_drop in *; lia.
Qed.

Lemma RtFrame_parse_u8 frame eth rt :
  Forall u8 frame → RtFrame_parse frame = Ok (eth, rt) → Forall u8 (rf_csdu rt).
Proof.
  intros Hf. unfold RtFrame_parse. destruct (EthHeader_parse frame) as [[h off]| |];
    [|intros H; by apply obind_Ok in H as (? & _ & ?)|done].
  do 2 (case_decide; [done|]). intros Hx. apply obind_Ok in Hx as (? & _ & Hx).
  apply obind_Ok in Hx as (csdu & Hc & Hx). repeat apply obind_Ok in Hx as (? & _ & Hx).
  injection Hx as _ <-. apply slice_Ok in Hc as [_ ->]. by apply Forall_take, Forall_drop.
Qed.

(** A write just after what has been written so far. *)
Lemma copy_at_next {E} (done rest src : list Z) off :
  off = length done → (length src ≤ length rest)%nat →
  copy_at (E := E) (done ++ rest) off src = Ok ((done ++ src) ++ drop (length src) rest).
Proof.
  intros -> Hl. apply copy_at_Ok. rewrite length_app. split; [lia|].
  rewrite take_app_length, <-app_assoc. do 2 f_equal.
  rewrite drop_app_ge by lia. f_equal. lia.
Qed.

Lemma set_at_next {E} (done rest : list Z) x off :
  off = length done → (1 ≤ length rest)%nat →
  set_at (E := E) (done ++ rest) off x = Ok ((done ++ [x]) ++ drop 1 rest).
Proof.
  intros -> Hl. apply set_at_Ok. rewrite length_app. split; [lia|].
  destruct rest as [|y rest]; [cbn in Hl; lia|].
  rewrite insert_app_r_alt, Nat.sub_diag by lia. cbn. by rewrite drop_0, <-app_assoc.
Qed.

(** The octets of a frame: the C-SDU padded to its minimum. *)
Definition padded (csdu : list Z) : list Z := csdu ++ replicate (CSDU_MIN - length csdu) 0.

Definition rt_eth (dst src : MacAddr) : EthHeader :=
  {| eth_dst := dst; eth_src := src; eth_vlan := Some TCI_RT;
     eth_ethertype := ETHERTYPE_PROFINET |}.

Definition RtFrame_wire (f : RtFrame) (dst src : MacAddr) : list Z :=
  EthHeader_write (rt_eth dst src) ++ be16 (rf_frame_id f) ++ padded (rf_csdu f)
  ++ be16 (rf_cycle_counter f) ++ [ds_byte (rf_data_status f); rf_transfer_status f].

Lemma length_padded csdu : length (padded csdu) = Nat.max (length csdu) CSDU_MIN.
Proof. unfold padded. rewrite length_app, length_replicate. lia. Qed.

Lemma wf_rt_eth dst src : wf_mac dst → wf_mac src → wf_eth (rt_eth dst src).
Proof. intros. split_and!; [done..| |done]. by intros ? [= <-]. Qed.

Lemma length_RtFrame_wire f dst src :
  wf_mac dst → wf_mac src → length (RtFrame_wire f dst src) = frame_len (length (rf_csdu f)).
Proof.
  intros Hd Hs. unfold RtFrame_wire, frame_len, APDU_LEN.
  pose proof (length_EthHeader_write _ (wf_rt_eth _ _ Hd Hs)) as He. cbn in He.
  rewrite !length_app, He, length_padded, !length_be16. cbn [length]. lia.
Qed.

(** The serializer overwrites exactly the front of the buffer. *)
Lemma RtFrame_write_wire f out dst src :
  wf_mac dst → wf_mac src → (frame_len (length (rf_csdu f)) ≤ length out)%nat →
  RtFrame_write f out dst src =
  Ok (RtFrame_wire f dst src ++ drop (frame_len (length (rf_csdu f))) out,
      frame_len (length (rf_csdu f))).
Proof.
  intros [Hd _] [Hs _] Hl. unfold RtFrame_write. rewrite decide_False by lia.
  set (n := length (rf_csdu f)) in *. unfold frame_len, APDU_LEN in Hl.
  replace (20 + Nat.max n CSDU_MIN - (20 + n))%nat with (CSDU_MIN - n)%nat by lia.
  change out with ([] ++ out) at 1.
  repeat (first [erewrite copy_at_next|erewrite set_at_next];
    [cbn [obind]
    |rewrite ?length_app, ?Hd, ?Hs, ?length_be16, ?length_replicate; cbn [length]; lia
    |rewrite ?length_drop, ?Hd, ?Hs, ?length_be16, ?length_replicate; lia]).
  rewrite !drop_drop, Hd, Hs, !length_be16, length_replicate. do 2 f_equal. f_equal.
  - unfold RtFrame_wire, padded, EthHeader_write. cbn [rt_eth eth_dst eth_src eth_vlan eth_ethertype].
    by rewrite <-!app_assoc.
  - f_equal. unfold frame_len, APDU_LEN. lia.
Qed.

(** What the Rust types guarantee of a frame. *)
Definition wf_rt_frame (f : RtFrame) : Prop := u16 (rf_frame_id f) ∧ u16 (rf_cycle_counter f).

Lemma RtFrame_parse_wire f dst src :
  wf_mac dst → wf_mac src → wf_rt_frame f →
  RtFrame_parse (RtFrame_wire f dst src) =
  Ok (rt_eth dst src, {| rf_frame_id := rf_frame_id f; rf_csdu := padded (rf_csdu f);
                         rf_cycle_counter := rf_cycle_counter f;
                         rf_data_status := rf_data_status f;
                         rf_transfer_status := rf_transfer_status f |}).
Proof.
  intros Hd Hs [Hf Hc]. pose proof (wf_rt_eth _ _ Hd Hs) as He.
  pose proof (length_EthHeader_write _ He) as Hle. cbn in Hle.
  pose proof (length_RtFrame_wire f _ _ Hd Hs) as Hl. unfold RtFrame_parse.
  assert (drop 18 (RtFrame_wire f dst src) = be16 (rf_frame_id f) ++ padded (rf_csdu f)
    ++ be16 (rf_cycle_counter f) ++ [ds_byte (rf_data_status f); rf_transfer_status f]) as H18
    by (unfold RtFrame_wire; by rewrite drop_app_ge, Hle, drop_0 by lia).
  assert (EthHeader_parse (RtFrame_wire f dst src) = Ok (rt_eth dst src, 18%nat)) as ->
    by (unfold RtFrame_wire; rewrite EthHeader_parse_write by done; by rewrite Hle).
  rewrite decide_False by (intros H; by apply H).
  unfold frame_len in Hl. rewrite <-length_padded in Hl.
  assert (CSDU_MIN ≤ length (padded (rf_csdu f)))%nat by (rewrite length_padded; lia).
  rewrite decide_False by lia.
  rewrite (be16_at_drop _ 18 (rf_frame_id f) _ Hf H18). cbn [obind].
  assert (drop 20 (RtFrame_wire f dst src) = padded (rf_csdu f)
    ++ be16 (rf_cycle_counter f) ++ [ds_byte (rf_data_status f); rf_transfer_status f]) as H20
    by (change 20%nat with (18 + 2)%nat; by rewrite <-drop_drop, H18).
  rewrite (slice_drop _ _ _ _ _ H20) by (unfold APDU_LEN in *; lia). cbn [obind].
  unfold slice_from. rewrite decide_True by lia. cbn [obind].
  replace (drop _ _) with
    (be16 (rf_cycle_counter f) ++ [ds_byte (rf_data_status f); rf_transfer_status f]).
  - rewrite (be16_at_drop _ 0 (rf_cycle_counter f) _ Hc eq_refl). cbn. by destruct (rf_data_status f).
  - replace (_ - _)%nat with (20 + length (padded (rf_csdu f)))%nat by (unfold APDU_LEN in *; lia).
    by rewrite <-drop_drop, H20, drop_app_length.
Qed.

(** ** Claims *)

(** A cyclic frame written into any buffer large enough overwrites
    exactly its first [frame_len] octets and leaves the rest alone, and those
    octets parse back to the same frame, its C-SDU zero-padded to the 40-octet
    minimum; a buffer that is too small is refused. *)
Theorem rt_frame_roundtrip f out dst src :
  wf_mac dst → wf_mac src → wf_rt_frame f →
  let n := frame_len (length (rf_csdu f)) in
  if decide (n ≤ length out)%nat then
    ∃ out', RtFrame_write f out dst src = Ok (out', n) ∧ length out' = length out ∧
      drop n out' = drop n out ∧
      RtFrame_parse (take n out') =
        Ok (rt_eth dst src, {| rf_frame_id := rf_frame_id f; rf_csdu := padded (rf_csdu f);
                               rf_cycle_counter := rf_cycle_counter f;
                               rf_data_status := rf_data_status f;
                               rf_transfer_status := rf_transfer_status f |})
  else RtFrame_write f out dst src = Err (BufferTooSmall n (length out)).
Proof.
  intros Hd Hs Hf. cbn zeta. destruct (decide _) as [Hn|Hn].
  - eexists. split; [by apply RtFrame_write_wire|].
    pose proof (length_RtFrame_wire f _ _ Hd Hs) as Hl. rewrite <-Hl in *.
    rewrite length_app, length_drop, drop_app_length, take_app_length.
    split_and!; [lia|done|]. by apply RtFrame_parse_wire.
  - unfold RtFrame_write. by rewrite decide_True by lia.
Qed.

Definition sample_rt_frame : RtFrame := {|
  rf_frame_id := 0x8000; rf_csdu := [1; 2; 3]; rf_cycle_counter := 0x1234;
  rf_data_status := RUN_PRIMARY_VALID_OK; rf_transfer_status := 0 |}.

Lemma rt_frame_roundtrip_witness :
  ∃ out', RtFrame_write sample_rt_frame (replicate 70 255) (Mac [2; 0; 0; 0; 0; 1])
      (Mac [2; 0; 0; 0; 0; 2]) = Ok (out', 64%nat) ∧
    length out' = 70%nat ∧ drop 64 out' = replicate 6 255 ∧
    RtFrame_parse (take 64 out') =
      Ok (rt_eth (Mac [2; 0; 0; 0; 0; 1]) (Mac [2; 0; 0; 0; 0; 2]),
          {| rf_frame_id := 0x8000; rf_csdu := [1; 2; 3] ++ replicate 37 0;
             rf_cycle_counter := 0x1234; rf_data_status := RUN_PRIMARY_VALID_OK;
             rf_transfer_status := 0 |}).
Proof.
  pose proof (rt_frame_roundtrip sample_rt_frame (replicate 70 255) (Mac [2; 0; 0; 0; 0; 1])
    (Mac [2; 0; 0; 0; 0; 2])) as H.
  cbv zeta in H. rewrite decide_True in H by (vm_compute; lia). apply H.
  - unfold wf_mac. by_decide.
  - unfold wf_mac. by_decide.
  - unfold wf_rt_frame. by_decide.
Defined.
