(* ===== verification/Layout.v ===== *)
(** * Layout: the C-SDU plan of an AR

    Models [crates/pnio/src/rt/layout.rs]: the serialization table of each
    Communication Relationship, built from the parameters agreed at Connect
    and the device model, with its bounds and overlap checks, and the
    per-submodule cell index. *)

From S2P Require Import Prelude Eth Rpc Block Connect RtFrame.
Local Open Scope Z_scope.

(** ** Data *)

(** rt/layout.rs:13-26 IoObject *)
Record IoObject := {
  ob_slot : Z; ob_subslot : Z; ob_data_off : nat; ob_data_len : nat; ob_iops_off : nat
}.
(** rt/layout.rs:28-38 CsObject *)
Record CsObject := { cs_slot : Z; cs_subslot : Z; cs_iocs_off : nat }.
(** rt/layout.rs:40-55 CrLayout *)
Record CrLayout := {
  cl_frame_id : Z; cl_data_length : nat; cl_cycle_step : Z; cl_watchdog : Z;
  cl_objects : list IoObject; cl_iocs : list CsObject
}.
(** rt/layout.rs:57-62 CrLayout::period *)
Definition CrLayout_period (l : CrLayout) : Z := CYCLE_UNIT * cl_cycle_step l.

(** rt/layout.rs:64-79 Cell *)
Record Cell := {
  ce_slot : Z; ce_subslot : Z; ce_input_len : nat; ce_output_len : nat;
  ce_input_off : option nat; ce_output_off : option nat
}.
(** rt/layout.rs:81-90 Layout *)
Record Layout := { la_input_cr : CrLayout; la_output_cr : CrLayout; la_cells : list Cell }.

(** rt/layout.rs:92-125 LayoutError *)
Inductive LayoutError :=
| LyUnknownSubmodule (slot subslot : Z)
| LyOutOfBounds (slot subslot : Z) (end_ data_length : nat)
| LyOverlap (slot subslot : Z).

(** rt/layout.rs:127-133 Dir *)
Inductive Dir := DirInput | DirOutput.

#[global] Instance IoObject_eq_dec : EqDecision IoObject.
Proof. solve_decision. Defined.
#[global] Instance CsObject_eq_dec : EqDecision CsObject.
Proof. solve_decision. Defined.
#[global] Instance CrLayout_eq_dec : EqDecision CrLayout.
Proof. solve_decision. Defined.
#[global] Instance Cell_eq_dec : EqDecision Cell.
Proof. solve_decision. Defined.
#[global] Instance Layout_eq_dec : EqDecision Layout.
Proof. solve_decision. Defined.
#[global] Instance LayoutError_eq_dec : EqDecision LayoutError.
Proof. solve_decision. Defined.

(** ** Building one CR *)

(** rt/layout.rs:178-184 mark *)
Fixpoint mark_from (occupied : list bool) (off len : nat) (slot subslot : Z) :
    outcome LayoutError (list bool) :=
  match len with
  | O => Ok occupied
  | S len =>
    let! b := idx occupied off in
    if (b : bool) then Err (LyOverlap slot subslot) else
    let! occupied := set_at occupied off true in
    mark_from occupied (S off) len slot subslot
  end.

(** rt/layout.rs:169-185 mark *)
Definition mark (occupied : list bool) (off len : nat) (slot subslot : Z) :
    outcome LayoutError (list bool) :=
  let! _ := slice occupied off (off + len) in
  mark_from occupied off len slot subslot.

(** rt/layout.rs:213-216 build_cr *)
Definition dir_len (dir : Dir) (sm : SubmoduleModel) : nat :=
  Z.to_nat (match dir with DirInput => sm_input_len sm | DirOutput => sm_output_len sm end).

(** rt/layout.rs:206-237 build_cr *)
Fixpoint place_objects (model : DeviceModel) (dir : Dir) (data_length : nat)
    (occupied : list bool) (objs : list IocrObject) :
    outcome LayoutError (list bool * list IoObject) :=
  match objs with
  | [] => Ok (occupied, [])
  | obj :: objs =>
    let slot := io_slot obj in
    let subslot := io_subslot obj in
    let! sm := ok_or (DeviceModel_find model slot subslot) (LyUnknownSubmodule slot subslot) in
    let len := dir_len dir sm in
    let data_off := Z.to_nat (io_frame_offset obj) in
    let iops_off := (data_off + len)%nat in
    let end_ := (iops_off + 1)%nat in
    if decide (data_length < end_)%nat then Err (LyOutOfBounds slot subslot end_ data_length) else
    let! occupied := mark occupied data_off len slot subslot in
    let! occupied := mark occupied iops_off 1 slot subslot in
    let! (occupied, rest) := place_objects model dir data_length occupied objs in
    Ok (occupied, {| ob_slot := slot; ob_subslot := subslot; ob_data_off := data_off;
                     ob_data_len := len; ob_iops_off := iops_off |} :: rest)
  end.

(** rt/layout.rs:240-257 build_cr *)
Fixpoint place_iocs (data_length : nat) (occupied : list bool) (objs : list IocrObject) :
    outcome LayoutError (list bool * list CsObject) :=
  match objs with
  | [] => Ok (occupied, [])
  | obj :: objs =>
    let iocs_off := Z.to_nat (io_frame_offset obj) in
    let end_ := (iocs_off + 1)%nat in
    if decide (data_length < end_)%nat
    then Err (LyOutOfBounds (io_slot obj) (io_subslot obj) end_ data_length) else
    let! occupied := mark occupied iocs_off 1 (io_slot obj) (io_subslot obj) in
    let! (occupied, rest) := place_iocs data_length occupied objs in
    Ok (occupied, {| cs_slot := io_slot obj; cs_subslot := io_subslot obj;
                     cs_iocs_off := iocs_off |} :: rest)
  end.

(** rt/layout.rs:187-267 build_cr *)
Definition build_cr (cr : IocrParams) (model : DeviceModel) (dir : Dir) :
    outcome LayoutError CrLayout :=
  let data_length := Z.to_nat (ip_data_length cr) in
  let product := ip_send_clock_factor cr * ip_reduction_ratio cr in
  let! cycle_step := ok_or (if decide (product < 65536) then Some product else None)
                           (LyOutOfBounds 0 0 (Z.to_nat 65535) data_length) in
  let watchdog := ip_data_hold_factor cr * cycle_step * CYCLE_UNIT in
  let occupied := replicate data_length false in
  let! (occupied, objects) := place_objects model dir data_length occupied (ip_io_data cr) in
  let! (_, iocs) := place_iocs data_length occupied (ip_iocs cr) in
  Ok {| cl_frame_id := ip_frame_id cr; cl_data_length := data_length;
        cl_cycle_step := cycle_step; cl_watchdog := watchdog; cl_objects := objects;
        cl_iocs := iocs |}.

(** ** The plan of both CRs *)

(** rt/layout.rs:144-149 Layout::from_ar *)
Definition find_off (cr : CrLayout) (slot subslot : Z) : option nat :=
  ob_data_off <$>
    List.find (λ o, bool_decide (ob_slot o = slot ∧ ob_subslot o = subslot)) (cl_objects cr).

(** rt/layout.rs:141-159 Layout::from_ar *)
Definition make_cells (input_cr output_cr : CrLayout) (model : DeviceModel) : list Cell :=
  concat ((λ slot,
    (λ sm, {| ce_slot := sl_slot slot; ce_subslot := sm_subslot sm;
              ce_input_len := Z.to_nat (sm_input_len sm);
              ce_output_len := Z.to_nat (sm_output_len sm);
              ce_input_off := find_off input_cr (sl_slot slot) (sm_subslot sm);
              ce_output_off := find_off output_cr (sl_slot slot) (sm_subslot sm) |})
    <$> sl_submodules slot) <$> dm_slots model).

(** rt/layout.rs:136-166 Layout::from_ar *)
Definition Layout_from_ar (params : ArParams) (model : DeviceModel) : outcome LayoutError Layout :=
  let! input_cr := build_cr (ap_input_cr params) model DirInput in
  let! output_cr := build_cr (ap_output_cr params) model DirOutput in
  Ok {| la_input_cr := input_cr; la_output_cr := output_cr;
        la_cells := make_cells input_cr output_cr model |}.

(** ** The octets an object occupies *)

(** Data and the IOPS octet behind it. *)
Definition object_bytes (o : IoObject) : list nat := seq (ob_data_off o) (S (ob_data_len o)).

Definition footprint (objects : list IoObject) (iocs : list CsObject) : list nat :=
  concat (object_bytes <$> objects) ++ (cs_iocs_off <$> iocs).

(** The occupancy map records the octets in [fp]. *)
Definition records_of (occupied : list bool) (fp : list nat) : Prop :=
  ∀ i, occupied !! i = Some true ↔ i ∈ fp.

Lemma records_of_empty n : records_of (replicate n false) [].
Proof.
  intros i. split; [|by intros ?%elem_of_nil].
  intros [? _]%lookup_replicate. done.
Qed.

Lemma mark_from_spec slot subslot len : ∀ off occ fp,
  records_of occ fp → (off + len ≤ length occ)%nat →
  match mark_from occ off len slot subslot with
  | Ok occ' => length occ' = length occ ∧ records_of occ' (fp ++ seq off len) ∧
               (∀ i, i ∈ seq off len → i ∉ fp)
  | Err e => e = LyOverlap slot subslot ∧ ∃ i, i ∈ seq off len ∧ i ∈ fp
  | Panic => False
  end.
Proof.
  induction len as [|len IH]; intros off occ fp Hr Hl; cbn [mark_from seq].
  { rewrite app_nil_r. split_and!; [done..|]. by intros i ?%elem_of_nil. }
  destruct (lookup_lt_is_Some_2 occ off) as [b Hb]; [lia|].
  rewrite (proj2 (idx_Ok occ off b) Hb). cbn [obind]. destruct b.
  { split; [done|]. exists off. split; [left|]. by apply Hr. }
  unfold set_at. rewrite decide_True by lia. cbn [obind].
  assert (off ∉ fp) as Hoff by (intros ?%Hr; congruence).
  specialize (IH (S off) (<[off := true]> occ) (fp ++ [off])).
  assert (records_of (<[off := true]> occ) (fp ++ [off])) as Hr'.
  { intros i. rewrite elem_of_app, list_elem_of_singleton. destruct (decide (i = off)) as [->|Hi].
    - rewrite list_lookup_insert_eq by lia. tauto.
    - rewrite list_lookup_insert_ne by done. rewrite (Hr i). tauto. }
  rewrite length_insert in IH. specialize (IH Hr' ltac:(lia)).
  destruct (mark_from _ _ _ _ _) as [occ'|e|]; [| |done].
  - destruct IH as (H1 & H2 & H3). split_and!; [done| |].
    + intros i. rewrite (H2 i), !elem_of_app. set_solver.
    + intros i [->|Hi]%elem_of_cons; [done|]. apply H3 in Hi. rewrite elem_of_app in Hi. tauto.
  - destruct IH as (-> & i & Hi & Hf). split; [done|]. apply elem_of_app in Hf as [Hf|Hf].
    + exists i. split; [by right|done].
    + apply list_elem_of_singleton in Hf as ->. apply elem_of_seq in Hi. lia.
Qed.

Lemma mark_spec slot subslot off len occ fp :
  records_of occ fp → (off + len ≤ length occ)%nat →
  match mark occ off len slot subslot with
  | Ok occ' => length occ' = length occ ∧ records_of occ' (fp ++ seq off len) ∧
               (∀ i, i ∈ seq off len → i ∉ fp)
  | Err e => e = LyOverlap slot subslot ∧ ∃ i, i ∈ seq off len ∧ i ∈ fp
  | Panic => False
  end.
Proof.
  intros Hr Hl. unfold mark, slice. rewrite decide_True by lia. by apply mark_from_spec.
Qed.

(** Marking the data and then the IOPS octet is marking the object. *)
Lemma mark_object_spec slot subslot off len occ fp :
  records_of occ fp → (off + len + 1 ≤ length occ)%nat →
  match (let! occ := mark occ off len slot subslot in mark occ (off + len) 1 slot subslot) with
  | Ok occ' => length occ' = length occ ∧ records_of occ' (fp ++ seq off (S len)) ∧
               (∀ i, i ∈ seq off (S len) → i ∉ fp)
  | Err e => e = LyOverlap slot subslot ∧ ∃ i, i ∈ seq off (S len) ∧ i ∈ fp
  | Panic => False
  end.
Proof.
  intros Hr Hl. rewrite (seq_S len off).
  pose proof (mark_spec slot subslot off len occ fp Hr ltac:(lia)) as H1.
  destruct (mark occ off len slot subslot) as [occ1|e|]; [|set_solver|done].
  destruct H1 as (Hl1 & Hr1 & Hd1). cbn [obind].
  pose proof (mark_spec slot subslot (off + len) 1 occ1 _ Hr1 ltac:(lia)) as H2.
  destruct (mark occ1 (off + len) 1 slot subslot) as [occ2|e|]; [| |done]; cbn [seq] in H2.
  - destruct H2 as (Hl2 & Hr2 & Hd2). rewrite app_assoc. split_and!; [congruence|done|].
    intros i [Hi|Hi]%elem_of_app; [by apply Hd1|]. set_solver.
  - destruct H2 as (-> & i & Hi & Hf). split; [done|]. exists i.
    apply elem_of_app in Hf as [Hf|Hf]; [set_solver|].
    apply elem_of_seq in Hf. set_unfold in Hi. lia.
Qed.

(** ** What [build_cr] accepts *)

Section build.
Context (model : DeviceModel) (dir : Dir) (data_length : nat).

(** The entry planned for one requested object. *)
Definition planned (obj : IocrObject) : option IoObject :=
  sm ← DeviceModel_find model (io_slot obj) (io_subslot obj);
  let off := Z.to_nat (io_frame_offset obj) in
  Some {| ob_slot := io_slot obj; ob_subslot := io_subslot obj; ob_data_off := off;
          ob_data_len := dir_len dir sm; ob_iops_off := off + dir_len dir sm |}.

Definition planned_cs (obj : IocrObject) : CsObject :=
  {| cs_slot := io_slot obj; cs_subslot := io_subslot obj;
     cs_iocs_off := Z.to_nat (io_frame_offset obj) |}.

Definition in_cr (i : nat) : Prop := (i < data_length)%nat.

Lemma object_bytes_bounds o :
  Forall in_cr (object_bytes o) ↔ (ob_data_off o + ob_data_len o < data_length)%nat.
Proof.
  unfold object_bytes, in_cr. rewrite list.Forall_forall. split.
  - intros H. apply H. apply elem_of_seq. lia.
  - intros H i Hi%elem_of_seq. lia.
Qed.

Lemma place_objects_spec objs : ∀ occ fp,
  records_of occ fp → length occ = data_length → NoDup fp →
  match place_objects model dir data_length occ objs with
  | Ok (occ', os) =>
      mapM planned objs = Some os ∧ length occ' = data_length ∧
      records_of occ' (fp ++ concat (object_bytes <$> os)) ∧
      NoDup (fp ++ concat (object_bytes <$> os)) ∧
      Forall in_cr (concat (object_bytes <$> os))
  | Err _ => ∀ os, mapM planned objs = Some os →
      ¬ (NoDup (fp ++ concat (object_bytes <$> os)) ∧
         Forall in_cr (concat (object_bytes <$> os)))
  | Panic => False
  end.
Proof.
  induction objs as [|obj objs IH]; intros occ fp Hr Hlen Hnd; cbn [place_objects].
  { cbn. rewrite app_nil_r. by split_and!. }
  assert (mapM planned (obj :: objs) = (o ← planned obj; os ← mapM planned objs; Some (o :: os)))
    as Hmap by done. rewrite Hmap. clear Hmap.
  destruct (DeviceModel_find model (io_slot obj) (io_subslot obj)) as [sm|] eqn:Hfind;
    [|assert (planned obj = None) as -> by (unfold planned; by rewrite Hfind); by intros os].
  assert (planned obj = Some {| ob_slot := io_slot obj; ob_subslot := io_subslot obj;
    ob_data_off := Z.to_nat (io_frame_offset obj); ob_data_len := dir_len dir sm;
    ob_iops_off := Z.to_nat (io_frame_offset obj) + dir_len dir sm |}) as ->
    by (unfold planned; by rewrite Hfind).
  cbn [ok_or obind mbind option_bind].
  set (off := Z.to_nat (io_frame_offset obj)). set (len := dir_len dir sm).
  set (o := {| ob_slot := io_slot obj |}).
  destruct (decide (data_length < off + len + 1)%nat) as [Hb|Hb].
  { intros os Hos. destruct (mapM planned objs) as [os'|]; [|done]. injection Hos as <-.
    intros [_ Ho]. apply Forall_app in Ho as [Ho _]. apply (object_bytes_bounds o) in Ho.
    cbn in Ho. lia. }
  pose proof (mark_object_spec (io_slot obj) (io_subslot obj) off len occ fp Hr ltac:(lia)) as Hm.
  rewrite <-obind_assoc.
  destruct (let! occ := mark occ off len _ _ in mark occ (off + len) 1 _ _) as [occ1|e|];
    [| |done]; cbn [obind].
  - destruct Hm as (Hl1 & Hr1 & Hd1).
    assert (NoDup (fp ++ object_bytes o)) as Hnd1
      by (apply list.NoDup_app; split_and!; [done|intros i Hi ?; by eapply Hd1|apply NoDup_seq]).
    specialize (IH occ1 (fp ++ object_bytes o) Hr1 ltac:(lia) Hnd1).
    destruct (place_objects _ _ _ _ _) as [[occ2 os]|e|]; [| |done]; cbn [obind].
    + destruct IH as (-> & Hl2 & Hr2 & Hnd2 & Hin). cbn [mbind option_bind fmap list_fmap concat].
      rewrite app_assoc. split_and!; [done..|]. apply Forall_app. split; [|done].
      apply object_bytes_bounds. cbn. lia.
    + intros os Hos. destruct (mapM planned objs) as [os'|]; [|done]. injection Hos as <-.
      cbn [fmap list_fmap concat]. rewrite app_assoc. intros [? [_ ?]%Forall_app]. by eapply IH.
  - destruct Hm as (_ & i & Hi & Hf). intros os Hos.
    destruct (mapM planned objs) as [os'|]; [|done]. injection Hos as <-.
    cbn [fmap list_fmap concat]. intros [(_ & Hd & _)%list.NoDup_app _]. apply (Hd i Hf).
    apply elem_of_app. by left.
Qed.

Lemma place_iocs_spec objs : ∀ occ fp,
  records_of occ fp → length occ = data_length → NoDup fp →
  match place_iocs data_length occ objs with
  | Ok (occ', cs) =>
      cs = planned_cs <$> objs ∧ NoDup (fp ++ (cs_iocs_off <$> cs)) ∧
      Forall in_cr (cs_iocs_off <$> cs)
  | Err _ =>
      ¬ (NoDup (fp ++ (cs_iocs_off <$> (planned_cs <$> objs))) ∧
         Forall in_cr (cs_iocs_off <$> (planned_cs <$> objs)))
  | Panic => False
  end.
Proof.
  induction objs as [|obj objs IH]; intros occ fp Hr Hlen Hnd; cbn [place_iocs].
  { cbn. rewrite app_nil_r. by split_and!. }
  set (off := Z.to_nat (io_frame_offset obj)).
  destruct (decide (data_length < off + 1)%nat) as [Hb|Hb].
  { cbn. fold off. intros [_ Ho]. apply Forall_cons_1 in Ho as [Ho _]. unfold in_cr in Ho. lia. }
  pose proof (mark_spec (io_slot obj) (io_subslot obj) off 1 occ fp Hr ltac:(lia)) as Hm.
  destruct (mark _ _ _ _ _) as [occ1|e|]; [| |done]; cbn [obind]; cbn [seq] in Hm.
  - destruct Hm as (Hl1 & Hr1 & Hd1).
    assert (NoDup (fp ++ [off])) as Hnd1
      by (apply list.NoDup_app; split_and!; [done|set_solver|apply NoDup_singleton]).
    specialize (IH occ1 (fp ++ [off]) Hr1 ltac:(lia) Hnd1).
    destruct (place_iocs _ _ _) as [[occ2 cs]|e|]; [| |done]; cbn [obind].
    + destruct IH as (-> & Hnd2 & Hin). cbn. fold off. rewrite <-app_assoc in Hnd2.
      split_and!; [done..|]. constructor; [unfold in_cr; lia|done].
    + cbn. fold off. rewrite <-app_assoc in IH. intros [? [_ ?]%Forall_cons_1]. by apply IH.
  - destruct Hm as (_ & i & Hi & Hf). cbn. fold off. intros [(_ & Hd & _)%list.NoDup_app _].
    apply (Hd i Hf). set_solver.
Qed.
End build.

(** The table [build_cr] returns for the planned [objects]. *)
Definition cr_plan (cr : IocrParams) (objects : list IoObject) : CrLayout :=
  let step := ip_send_clock_factor cr * ip_reduction_ratio cr in
  {| cl_frame_id := ip_frame_id cr; cl_data_length := Z.to_nat (ip_data_length cr);
     cl_cycle_step := step; cl_watchdog := ip_data_hold_factor cr * step * CYCLE_UNIT;
     cl_objects := objects; cl_iocs := planned_cs <$> ip_iocs cr |}.

(** A table whose objects lie inside the C-SDU and never share an octet. *)
Definition plan_fits (l : CrLayout) : Prop :=
  NoDup (footprint (cl_objects l) (cl_iocs l)) ∧
  Forall (in_cr (cl_data_length l)) (footprint (cl_objects l) (cl_iocs l)).

Lemma build_cr_cases cr model dir :
  match build_cr cr model dir with
  | Ok l => ip_send_clock_factor cr * ip_reduction_ratio cr < 65536 ∧
            ∃ os, mapM (planned model dir) (ip_io_data cr) = Some os ∧ l = cr_plan cr os ∧
                  plan_fits l
  | Err _ => ip_send_clock_factor cr * ip_reduction_ratio cr < 65536 →
             ∀ os, mapM (planned model dir) (ip_io_data cr) = Some os → ¬ plan_fits (cr_plan cr os)
  | Panic => False
  end.
Proof.
  unfold build_cr. set (n := Z.to_nat (ip_data_length cr)).
  destruct (decide (_ < 65536)) as [Hp|Hp]; cbn [ok_or obind]; [|done].
  pose proof (place_objects_spec model dir n (ip_io_data cr) (replicate n false) []
    (records_of_empty n) (length_replicate n false) (NoDup_nil_2)) as H1.
  destruct (place_objects _ _ _ _ _) as [[occ os]|e|]; [| |done]; cbn [obind].
  - cbn [app] in H1. destruct H1 as (Hos & Hl & Hr & Hnd & Hin).
    pose proof (place_iocs_spec n (ip_iocs cr) occ _ Hr Hl Hnd) as H2.
    destruct (place_iocs _ _ _) as [[occ' cs]|e|]; [| |done]; cbn [obind].
    + destruct H2 as (-> & Hnd2 & Hin2). split; [done|]. exists os. split_and!; [done|done|].
      split; [done|]. by apply Forall_app.
    + intros _ os' Hos'. rewrite Hos in Hos'. injection Hos' as <-. intros [Hnd2 Hin2].
      apply Forall_app in Hin2 as [_ ?]. by apply H2.
  - intros _ os Hos [Hnd Hin]. cbn in H1. apply list.NoDup_app in Hnd as (? & _).
    apply Forall_app in Hin as [? _]. by eapply H1.
Qed.

Lemma build_cr_no_panic cr model dir : no_panic (build_cr cr model dir).
Proof. pose proof (build_cr_cases cr model dir) as H. by destruct (build_cr cr model dir). Qed.

Lemma Layout_from_ar_no_panic params model : no_panic (Layout_from_ar params model).
Proof.
  unfold Layout_from_ar. apply no_panic_bind; [apply build_cr_no_panic|]. intros icr _.
  apply no_panic_bind; [apply build_cr_no_panic|]. by intros ocr _.
Qed.

Lemma build_cr_fits cr model dir l : build_cr cr model dir = Ok l → plan_fits l.
Proof.
  pose proof (build_cr_cases cr model dir) as H. intros E. rewrite E in H. naive_solver.
Qed.

(** ** The cell index *)

(** Slots are numbered once, and subslots once within a slot. *)
Definition unique_keys (model : DeviceModel) : Prop :=
  NoDup (sl_slot <$> dm_slots model) ∧
  Forall (λ s, NoDup (sm_subslot <$> sl_submodules s)) (dm_slots model).

Lemma find_NoDup {A} (key : A → Z) (l : list A) a :
  NoDup (key <$> l) → a ∈ l → List.find (λ x, bool_decide (key x = key a)) l = Some a.
Proof.
  induction l as [|b l IH]; intros Hnd Ha; [by apply not_elem_of_nil in Ha|].
  cbn in Hnd. apply list.NoDup_cons in Hnd as [Hb Hnd]. cbn [List.find].
  apply elem_of_cons in Ha as [->|Ha]; [by rewrite bool_decide_true|].
  rewrite bool_decide_false; [by apply IH|].
  intros E. apply Hb. rewrite E. by apply list_elem_of_fmap_2.
Qed.

Lemma DeviceModel_find_unique model s sm :
  unique_keys model → s ∈ dm_slots model → sm ∈ sl_submodules s →
  DeviceModel_find model (sl_slot s) (sm_subslot sm) = Some sm.
Proof.
  intros [Hs Hsub] Hin Hsm. unfold DeviceModel_find, find_slot.
  rewrite (find_NoDup sl_slot _ s Hs Hin). rewrite list.Forall_forall in Hsub.
  by apply (find_NoDup sm_subslot), Hsm; apply Hsub.
Qed.

Lemma object_bytes_disjoint os : ∀ a b,
  NoDup (concat (object_bytes <$> os)) → a ∈ os → b ∈ os → a ≠ b →
  object_bytes a ## object_bytes b.
Proof.
  induction os as [|o os IH]; intros a b Hnd Ha Hb Hab; [by apply not_elem_of_nil in Ha|].
  cbn [fmap list_fmap concat] in Hnd. apply list.NoDup_app in Hnd as (_ & Hd & Hnd).
  assert (∀ c, c ∈ os → object_bytes o ## object_bytes c) as Ho.
  { intros c Hc i Hi Hi'. apply (Hd i Hi). apply list_elem_of_In, in_concat.
    exists (object_bytes c). split; apply list_elem_of_In; [|done]. by apply list_elem_of_fmap_2. }
  apply elem_of_cons in Ha as [->|Ha]; apply elem_of_cons in Hb as [->|Hb];
    [done|by apply Ho|intros i ? ?; by eapply (Ho a Ha i)|by apply IH].
Qed.

Lemma find_off_object cr slot subslot off :
  find_off cr slot subslot = Some off →
  ∃ o, o ∈ cl_objects cr ∧ ob_slot o = slot ∧ ob_subslot o = subslot ∧ ob_data_off o = off.
Proof.
  unfold find_off. destruct (List.find _ _) as [o|] eqn:Hf; [|done]. intros [= <-].
  apply find_some in Hf as [Hin Hk]. apply bool_decide_eq_true in Hk as [? ?].
  exists o. by rewrite list_elem_of_In.
Qed.

Lemma planned_len model dir objs os o :
  mapM (planned model dir) objs = Some os → o ∈ os →
  ∃ sm, DeviceModel_find model (ob_slot o) (ob_subslot o) = Some sm ∧
        ob_data_len o = dir_len dir sm ∧ ob_iops_off o = (ob_data_off o + ob_data_len o)%nat.
Proof.
  intros Hm Ho. apply mapM_Some in Hm. apply list_elem_of_lookup in Ho as [i Hi].
  destruct (Forall2_lookup_r _ _ _ _ _ Hm Hi) as (obj & _ & Hp).
  unfold planned in Hp. apply bind_Some in Hp as (sm & Hf & [= <-]). by exists sm.
Qed.

Definition cell_off (dir : Dir) (c : Cell) : option nat :=
  match dir with DirInput => ce_input_off c | DirOutput => ce_output_off c end.
Definition cell_len (dir : Dir) (c : Cell) : nat :=
  match dir with DirInput => ce_input_len c | DirOutput => ce_output_len c end.
Definition layout_cr (dir : Dir) (la : Layout) : CrLayout :=
  match dir with DirInput => la_input_cr la | DirOutput => la_output_cr la end.

(** A cell with an offset stands for one object of the CR. *)
Lemma cell_object params model la dir c off :
  Layout_from_ar params model = Ok la → unique_keys model → c ∈ la_cells la →
  cell_off dir c = Some off →
  ∃ o, o ∈ cl_objects (layout_cr dir la) ∧ ob_slot o = ce_slot c ∧ ob_subslot o = ce_subslot c ∧
       object_bytes o = seq off (S (cell_len dir c)) ∧ plan_fits (layout_cr dir la).
Proof.
  unfold Layout_from_ar. intros H Hu Hc Hoff.
  apply obind_Ok in H as (icr & Hi & H). apply obind_Ok in H as (ocr & Ho & [= <-]).
  cbn [la_cells] in Hc. unfold make_cells in Hc.
  apply list_elem_of_In, in_concat in Hc as (cs & Hcs & Hc).
  apply list_elem_of_In, list_elem_of_fmap in Hcs as (s & -> & Hs).
  apply list_elem_of_In, list_elem_of_fmap in Hc as (sm & -> & Hsm).
  assert (∃ cr, build_cr cr model dir = Ok (layout_cr dir {| la_input_cr := icr;
      la_output_cr := ocr; la_cells := make_cells icr ocr model |}) ∧
    find_off (layout_cr dir {| la_input_cr := icr; la_output_cr := ocr;
      la_cells := make_cells icr ocr model |}) (sl_slot s) (sm_subslot sm) = Some off)
    as (cr & Hb & Hf) by (destruct dir; eauto).
  set (l := layout_cr dir _) in *. pose proof (build_cr_cases cr model dir) as Hbc.
  rewrite Hb in Hbc. destruct Hbc as (_ & os & Hos & Hl & Hfit).
  apply find_off_object in Hf as (o & Hin & Hs' & Hss & Hoff').
  assert (cl_objects l = os) as Hcl by by rewrite Hl.
  rewrite Hcl in Hin. destruct (planned_len _ _ _ _ _ Hos Hin) as (sm' & Hfind & Hlen & _).
  rewrite Hs', Hss, (DeviceModel_find_unique _ _ _ Hu Hs Hsm) in Hfind. injection Hfind as <-.
  exists o. rewrite Hcl. split_and!; [done..| |done].
  unfold object_bytes. rewrite Hoff', Hlen. by destruct dir.
Qed.

(** ** Layouts of accepted requests *)

Definition is_overlap (e : LayoutError) : Prop := ∃ s ss, e = LyOverlap s ss.

Lemma mark_err occ off len s ss e : mark occ off len s ss = Err e → is_overlap e.
Proof.
  unfold mark, slice. case_decide; [|done]. cbn [obind]. revert occ off H.
  induction len as [|len IH]; intros occ off H; cbn [mark_from]; [done|].
  unfold idx. destruct (occ !! off) as [[]|] eqn:Ho; cbn [obind]; [|..|done].
  - intros [= <-]. by eexists _, _.
  - unfold set_at. rewrite decide_True by (by eapply lookup_lt_Some). cbn [obind]. apply IH.
    rewrite length_insert. lia.
Qed.

(** What [validate] checked of a CR, in the terms of [build_cr]. *)
Definition cr_checked (model : DeviceModel) (dir : Dir) (cr : IocrParams) : Prop :=
  let n := Z.to_nat (ip_data_length cr) in
  Forall (λ o, ∃ sm, DeviceModel_find model (io_slot o) (io_subslot o) = Some sm ∧
                     (Z.to_nat (io_frame_offset o) + dir_len dir sm + 1 ≤ n)%nat) (ip_io_data cr) ∧
  Forall (λ o, (Z.to_nat (io_frame_offset o) + 1 ≤ n)%nat) (ip_iocs cr).

Lemma place_objects_err model dir n objs : ∀ occ e,
  Forall (λ o, ∃ sm, DeviceModel_find model (io_slot o) (io_subslot o) = Some sm ∧
                     (Z.to_nat (io_frame_offset o) + dir_len dir sm + 1 ≤ n)%nat) objs →
  place_objects model dir n occ objs = Err e → is_overlap e.
Proof.
  induction objs as [|o objs IH]; intros occ e Hf H; cbn [place_objects] in H; [done|].
  apply Forall_cons_1 in Hf as [(sm & Hsm & Hb) Hf]. rewrite Hsm in H. cbn [ok_or obind] in H.
  rewrite decide_False in H by lia.
  destruct (mark occ _ _ _ _) as [occ1|e1|] eqn:H1; cbn [obind] in H;
    [|injection H as <-; by eapply mark_err|done].
  destruct (mark occ1 _ _ _ _) as [occ2|e2|] eqn:H2; cbn [obind] in H;
    [|injection H as <-; by eapply mark_err|done].
  destruct (place_objects _ _ _ occ2 objs) as [[]|e3|] eqn:H3; cbn [obind] in H;
    [done|injection H as <-; by eapply IH|done].
Qed.

Lemma place_iocs_err n objs : ∀ occ e,
  Forall (λ o, (Z.to_nat (io_frame_offset o) + 1 ≤ n)%nat) objs →
  place_iocs n occ objs = Err e → is_overlap e.
Proof.
  induction objs as [|o objs IH]; intros occ e Hf H; cbn [place_iocs] in H; [done|].
  apply Forall_cons_1 in Hf as [Hb Hf]. rewrite decide_False in H by lia.
  destruct (mark occ _ _ _ _) as [occ1|e1|] eqn:H1; cbn [obind] in H;
    [|injection H as <-; by eapply mark_err|done].
  destruct (place_iocs _ occ1 objs) as [[]|e3|] eqn:H3; cbn [obind] in H;
    [done|injection H as <-; by eapply IH|done].
Qed.

(** The interval of a CR does not fit its 16 bits. *)
Definition step_overflows (cr : IocrParams) : Prop :=
  65536 ≤ ip_send_clock_factor cr * ip_reduction_ratio cr.

Lemma build_cr_err model dir cr e :
  cr_checked model dir cr → build_cr cr model dir = Err e → is_overlap e ∨ step_overflows cr.
Proof.
  intros [Hd Hi] H. unfold build_cr in H. case_decide; cbn [ok_or obind] in H; [|right; red; lia].
  left. destruct (place_objects _ _ _ _ _) as [[occ os]|e1|] eqn:H1; cbn [obind] in H;
    [|injection H as <-; by eapply place_objects_err|done].
  destruct (place_iocs _ _ _) as [[]|e2|] eqn:H2; cbn [obind] in H;
    [done|injection H as <-; by eapply place_iocs_err|done].
Qed.

(** The offsets of a request are unsigned. *)
Definition offsets_ok (cr : IocrBlockReq) : Prop :=
  Forall (λ api, Forall (λ o, 0 ≤ io_frame_offset o) (ia_io_data api) ∧
                 Forall (λ o, 0 ≤ io_frame_offset o) (ia_iocs api)) (icr_apis cr).
#[global] Instance offsets_ok_dec cr : Decision (offsets_ok cr).
Proof. unfold offsets_ok. apply _. Defined.

Definition len_of (dir : Dir) (sm : SubmoduleModel) : Z :=
  match dir with DirInput => sm_input_len sm | DirOutput => sm_output_len sm end.

Lemma find_wf model s ss sm : wf_model model → DeviceModel_find model s ss = Some sm → wf_submodule sm.
Proof.
  intros (_ & _ & _ & _ & _ & _ & Hs) H. unfold DeviceModel_find, find_slot in H.
  destruct (List.find _ (dm_slots model)) as [sl|] eqn:Hf; [|done].
  apply find_some in Hf as [Hin _]. apply find_some in H as [Hsm _].
  apply list_elem_of_In in Hin. apply list_elem_of_In in Hsm. rewrite list.Forall_forall in Hs.
  destruct (Hs sl Hin) as (_ & _ & Hw). rewrite list.Forall_forall in Hw. by apply Hw.
Qed.

Lemma cr_fits_checked model dir cr p :
  wf_model model → offsets_ok cr → cr_fits model (len_of dir) cr →
  ip_data_length p = icr_data_length cr → ip_io_data p = ip_io_data (IocrParams_from_req cr) →
  ip_iocs p = ip_iocs (IocrParams_from_req cr) → cr_checked model dir p.
Proof.
  intros Hm Ho (api & Ha & Hd & Hi) Hn Hpd Hpi. unfold cr_checked. rewrite Hn, Hpd, Hpi.
  unfold IocrParams_from_req, offsets_ok in *. rewrite Ha in *. cbn.
  apply Forall_cons_1 in Ho as [[Ho1 Ho2] _]. split.
  - apply list.Forall_forall. intros o Hin. rewrite list.Forall_forall in Hd, Ho1.
    destruct (Hd o Hin) as (sm & Hf & Hb). exists sm. split; [done|]. specialize (Ho1 o Hin).
    destruct (find_wf _ _ _ _ Hm Hf) as (_ & _ & H1 & H2). unfold u16 in *.
    unfold dir_len, len_of in *. destruct dir; lia.
  - apply list.Forall_forall. intros o Hin. rewrite list.Forall_forall in Hi, Ho2.
    specialize (Hi o Hin). specialize (Ho2 o Hin). cbn in *. lia.
Qed.

(** ** Claims *)

(** C34: a Connect that was accepted can be laid out, unless its objects
    overlap or an interval does not fit 16 bits.  Every submodule it names is
    known and every object fits its frame by then, so the layout built when
    the AR enters Data fails for no other reason, and never panics. *)
Theorem accepted_connect_layout req model p :
  wf_model model → Forall offsets_ok (cq_iocrs req) → validate req model = Ok p →
  match Layout_from_ar p model with
  | Ok la => plan_fits (la_input_cr la) ∧ plan_fits (la_output_cr la)
  | Err e => is_overlap e ∨ step_overflows (ap_input_cr p) ∨ step_overflows (ap_output_cr p)
  | Panic => False
  end.
Proof.
  intros Hm Ho Hv. destruct (validate_Ok model req p Hv) as (input & output & Ha & Hi & _ & Hl & Hd & Hcs & _).
  assert (offsets_ok input ∧ offsets_ok output) as [Hoi Hoo].
  { rewrite list.Forall_forall in Ho. destruct (acc_iocrs _ _ _ _ Ha) as [E|E];
      rewrite E in Ho; split; apply Ho; set_solver. }
  assert (cr_checked model DirInput (ap_input_cr p)) as H1
    by (rewrite Hi; apply (cr_fits_checked model DirInput input); [done|done|apply Ha| |done|done];
        unfold IocrParams_from_req; by destruct (head _)).
  assert (cr_checked model DirOutput (ap_output_cr p)) as H2
    by (apply (cr_fits_checked model DirOutput output); [done|done|apply Ha|done..]).
  unfold Layout_from_ar.
  pose proof (build_cr_no_panic (ap_input_cr p) model DirInput) as Hp1.
  pose proof (build_cr_no_panic (ap_output_cr p) model DirOutput) as Hp2.
  destruct (build_cr (ap_input_cr p) model DirInput) as [icr|e|] eqn:E1; cbn [obind];
    [|apply (build_cr_err _ _ _ _ H1) in E1; tauto|done].
  destruct (build_cr (ap_output_cr p) model DirOutput) as [ocr|e|] eqn:E2; cbn [obind];
    [|apply (build_cr_err _ _ _ _ H2) in E2; tauto|done].
  split; by eapply build_cr_fits.
Qed.

(** Only IO data objects are looked up in the model. *)
Lemma place_objects_unknown model dir n s ss objs : ∀ occ,
  place_objects model dir n occ objs = Err (LyUnknownSubmodule s ss) →
  ∃ o, o ∈ objs ∧ io_slot o = s ∧ io_subslot o = ss ∧ DeviceModel_find model s ss = None.
Proof.
  induction objs as [|o objs IH]; intros occ H; cbn [place_objects] in H; [done|].
  destruct (DeviceModel_find model (io_slot o) (io_subslot o)) as [sm|] eqn:Hf; cbn [ok_or obind] in H.
  2: { injection H as <- <-. exists o. split_and!; [left|done..]. }
  case_decide; [done|].
  destruct (mark occ _ _ _ _) as [occ1|e1|] eqn:H1; cbn [obind] in H;
    [|injection H as ->; by apply mark_err in H1 as (? & ? & [=])|done].
  destruct (mark occ1 _ _ _ _) as [occ2|e2|] eqn:H2; cbn [obind] in H;
    [|injection H as ->; by apply mark_err in H2 as (? & ? & [=])|done].
  destruct (place_objects _ _ _ occ2 objs) as [[]|e3|] eqn:H3; cbn [obind] in H; [done| |done].
  injection H as ->. destruct (IH _ H3) as (o' & ? & ?). exists o'. split; [by right|done].
Qed.

Lemma place_iocs_known n s ss objs : ∀ occ, place_iocs n occ objs ≠ Err (LyUnknownSubmodule s ss).
Proof.
  induction objs as [|o objs IH]; intros occ H; cbn [place_iocs] in H; [done|]. case_decide; [done|].
  destruct (mark occ _ _ _ _) as [occ1|e1|] eqn:H1; cbn [obind] in H;
    [|injection H as ->; by apply mark_err in H1 as (? & ? & [=])|done].
  specialize (IH occ1). destruct (place_iocs n occ1 objs) as [[]|e3|]; cbn [obind] in H; congruence.
Qed.

(** C29: [build_cr] never panics, and it succeeds exactly when the cycle step
    fits 16 bits, every IO data object names a plugged submodule, and the
    octets of all the objects (payload, its IOPS, and every IOCS) lie inside
    the negotiated C-SDU and are pairwise disjoint; the table it returns is
    then the planned one, in the order negotiated.  IOCS objects are not looked
    up in the model: an unknown submodule is reported only for an IO data
    object that names none. *)
Theorem build_cr_spec cr model dir :
  no_panic (build_cr cr model dir) ∧
  (∀ l, build_cr cr model dir = Ok l ↔
    ip_send_clock_factor cr * ip_reduction_ratio cr < 65536 ∧
    ∃ os, mapM (planned model dir) (ip_io_data cr) = Some os ∧ l = cr_plan cr os ∧ plan_fits l) ∧
  ∀ s ss, build_cr cr model dir = Err (LyUnknownSubmodule s ss) →
    ∃ o, o ∈ ip_io_data cr ∧ io_slot o = s ∧ io_subslot o = ss ∧ DeviceModel_find model s ss = None.
Proof.
  split; [apply build_cr_no_panic|]. split.
  - intros l. pose proof (build_cr_cases cr model dir) as H.
    destruct (build_cr cr model dir) as [l'|e|]; [| |done].
    + split; [by intros [= <-]|]. intros (_ & os & Hos & -> & _).
      destruct H as (_ & os' & Hos' & -> & _). congruence.
    + split; [done|]. intros (Hp & os & Hos & -> & Hfit). by destruct (H Hp os Hos).
  - intros s ss H. unfold build_cr in H. destruct (decide (_ < 65536)); cbn [ok_or obind] in H; [|done].
    destruct (place_objects _ _ _ _ _) as [[occ os]|e|] eqn:Ho; cbn [obind] in H; [| |done].
    + pose proof (place_iocs_known (Z.to_nat (ip_data_length cr)) s ss (ip_iocs cr) occ) as Hk.
      destruct (place_iocs _ _ _) as [[]|e|]; cbn [obind] in H; congruence.
    + injection H as ->. by eapply place_objects_unknown.
Qed.

(** In the plan built for an AR, every submodule's region (its payload
    and IOPS octet) lies inside the C-SDU of its direction, and the regions of
    two different submodules never share an octet, provided slots and subslots
    are numbered once. *)
Theorem layout_cells_disjoint params model la dir c off :
  Layout_from_ar params model = Ok la → unique_keys model →
  c ∈ la_cells la → cell_off dir c = Some off →
  (off + cell_len dir c < cl_data_length (layout_cr dir la))%nat ∧
  ∀ c' off', c' ∈ la_cells la → cell_off dir c' = Some off' →
    (ce_slot c, ce_subslot c) ≠ (ce_slot c', ce_subslot c') →
    seq off (S (cell_len dir c)) ## seq off' (S (cell_len dir c')).
Proof.
  intros Hla Hu Hc Hoff.
  destruct (cell_object _ _ _ _ _ _ Hla Hu Hc Hoff) as (o & Ho & Hs & Hss & Hb & Hnd & Hin).
  assert (∀ o', o' ∈ cl_objects (layout_cr dir la) →
    object_bytes o' ⊆ concat (object_bytes <$> cl_objects (layout_cr dir la))) as Hsub.
  { intros o' Ho' i Hi. apply list_elem_of_In, in_concat. exists (object_bytes o').
    split; apply list_elem_of_In; [|done]. by apply list_elem_of_fmap_2. }
  split.
  - apply Forall_app in Hin as [Hin _]. rewrite list.Forall_forall in Hin. apply Hin, (Hsub o Ho).
    rewrite Hb. apply elem_of_seq. lia.
  - intros c' off' Hc' Hoff' Hne.
    destruct (cell_object _ _ _ _ _ _ Hla Hu Hc' Hoff') as (o' & Ho' & Hs' & Hss' & Hb' & _).
    rewrite <-Hb, <-Hb'. apply list.NoDup_app in Hnd as (Hnd & _).
    eapply object_bytes_disjoint; [done..|]. intros ->. congruence.
Qed.

(** ** Witness *)

Definition sample_ar_params : ArParams := {|
  ap_ar_uuid := sample_uuid 7; ap_session_key := 3; ap_initiator_mac := sample_mac;
  ap_initiator_object_uuid := sample_uuid 9; ap_activity_timeout_factor := 600;
  ap_input_cr := IocrParams_from_req sample_input;
  ap_output_cr := IocrParams_from_req sample_output;
  ap_alarm_ref_remote := 1; ap_max_alarm_data_length := 200;
  ap_max_alarm_data_length_remote := 200; ap_rta_timeout_factor := 1; ap_rta_retries := 3;
  ap_alarm_ref_local := 0; ap_alarm_tag_high := 0xC000; ap_alarm_tag_low := 0xA000 |}.

Definition sample_layout : Layout :=
  match Layout_from_ar sample_ar_params sample_model with
  | Ok la => la
  | _ => {| la_input_cr := cr_plan (ap_input_cr sample_ar_params) [];
            la_output_cr := cr_plan (ap_output_cr sample_ar_params) []; la_cells := [] |}
  end.

Lemma sample_layout_ok : Layout_from_ar sample_ar_params sample_model = Ok sample_layout.
Proof. vm_compute. reflexivity. Qed.

Lemma sample_model_unique : unique_keys sample_model.
Proof. unfold unique_keys. by_decide. Qed.

Definition sample_cell : Cell :=
  {| ce_slot := 4; ce_subslot := 1; ce_input_len := 8; ce_output_len := 8;
     ce_input_off := Some 1%nat; ce_output_off := Some 2%nat |}.

(** The input CR with one more IO data object and one more IOCS object of the
    given slots. *)
Definition sample_cr_with (io iocs : list IocrObject) : IocrParams :=
  let cr := ap_input_cr sample_ar_params in
  {| ip_reference := ip_reference cr; ip_frame_id := ip_frame_id cr; ip_data_length := ip_data_length cr;
     ip_send_clock_factor := ip_send_clock_factor cr; ip_reduction_ratio := ip_reduction_ratio cr;
     ip_watchdog_factor := ip_watchdog_factor cr; ip_data_hold_factor := ip_data_hold_factor cr;
     ip_io_data := ip_io_data cr ++ io; ip_iocs := ip_iocs cr ++ iocs |}.
Definition stray_object : IocrObject := {| io_slot := 77; io_subslot := 1; io_frame_offset := 39 |}.

Lemma build_cr_spec_witness :
  is_Ok (build_cr (sample_cr_with [] [stray_object]) sample_model DirInput) = true ∧
  build_cr (sample_cr_with [stray_object] []) sample_model DirInput = Err (LyUnknownSubmodule 77 1) ∧
  DeviceModel_find sample_model 77 1 = None.
Proof.
  assert (build_cr (sample_cr_with [stray_object] []) sample_model DirInput
    = Err (LyUnknownSubmodule 77 1)) as H by (vm_compute; reflexivity).
  split; [vm_compute; reflexivity|]. split; [exact H|].
  destruct (build_cr_spec (sample_cr_with [stray_object] []) sample_model DirInput) as (_ & _ & Hu).
  destruct (Hu 77 1 H) as (o & _ & _ & _ & Hf). exact Hf.
Defined.

Lemma layout_cells_disjoint_witness :
  (1 + 8 < cl_data_length (la_input_cr sample_layout))%nat ∧
  ∀ c' off', c' ∈ la_cells sample_layout → ce_input_off c' = Some off' →
    (4, 1) ≠ (ce_slot c', ce_subslot c') → seq 1 9 ## seq off' (S (ce_input_len c')).
Proof.
  apply (layout_cells_disjoint sample_ar_params sample_model sample_layout DirInput sample_cell 1).
  - apply sample_layout_ok.
  - apply sample_model_unique.
  - by_decide.
  - reflexivity.
Defined.

Lemma accepted_connect_layout_witness :
  ∃ p, validate sample_req sample_model = Ok p ∧
  match Layout_from_ar p sample_model with
  | Ok la => plan_fits (la_input_cr la) ∧ plan_fits (la_output_cr la)
  | Err e => is_overlap e ∨ step_overflows (ap_input_cr p) ∨ step_overflows (ap_output_cr p)
  | Panic => False
  end.
Proof.
  destruct (validate sample_req sample_model) as [p|e|] eqn:Hv.
  2,3: exfalso; revert Hv; vm_compute; discriminate.
  exists p. split; [reflexivity|]. apply (accepted_connect_layout sample_req sample_model p).
  - unfold wf_model, wf_slot, wf_submodule, wf_mac. by_decide.
  - by_decide.
  - exact Hv.
Defined.
