(* ===== verification/Config.v ===== *)
(** * Config: the device description and what is derived from it

    Models [crates/pnio/src/config.rs] and the setup records of
    [crates/pnio/src/device/mod.rs].  The builder's methods are functions on
    the builder; [build] validates it, lays out every field of every submodule
    and checks the frame budget.  A [String] is its octets. *)

From stdpp Require Import pretty sorting.
From S2P Require Import Prelude Eth Rpc Block Connect Records Diag Dcp Data Layout.
Local Open Scope Z_scope.

(** ** Data *)

(** config.rs:13-14 MAX_SUBMODULE_BYTES *)
Definition MAX_SUBMODULE_BYTES : Z := 1440.

(** config.rs:32-45 SubmoduleSpec *)
Record SubmoduleSpec := {
  ss_slot : Z; ss_name : list Z; ss_inputs : list FieldType; ss_outputs : list FieldType
}.

Definition is_nil {A} (l : list A) : bool := match l with [] => true | _ => false end.

(** config.rs:48-57 SubmoduleSpec::direction *)
Definition direction (s : SubmoduleSpec) : Direction :=
  match is_nil (ss_inputs s), is_nil (ss_outputs s) with
  | false, true => DrInput
  | true, false => DrOutput
  | _, _ => DrInputOutput
  end.

(** config.rs:60-70 FieldRef *)
Record FieldRef := { fr_byte : Z; fr_bit : Z; fr_ty : FieldType }.
#[global] Instance FieldRef_eq_dec : EqDecision FieldRef.
Proof. solve_decision. Defined.

(** config.rs:72-126 ConfigError *)
Inductive ConfigError :=
| CfSlotZeroReserved
| CfDuplicateSlot (slot : Z)
| CfEmptySubmodule (slot : Z)
| CfNoSubmodule
| CfTooLong (slot bytes max : Z)
| CfBadStationName (name : list Z)
| CfBadInterval (v : Z)
| CfBadIdentity
| CfTooLongTotal (dir : Direction) (bytes max : Z)
| CfIm (e : ImError).

(** config.rs:174-181 Derived *)
Record Derived := {
  de_inputs : list FieldRef; de_input_len : Z; de_outputs : list FieldRef; de_output_len : Z
}.

(** config.rs:183-194 DeviceConfig *)
Record DeviceConfig := {
  cf_station_name : list Z; cf_station_type : list Z; cf_vendor_id : Z; cf_device_id : Z;
  cf_min_device_interval : Z; cf_submodules : list SubmoduleSpec; cf_derived : list Derived;
  cf_im0 : Im0
}.

(** config.rs:196-212 DeviceConfigBuilder *)
Record DeviceConfigBuilder := {
  bd_station_name : list Z; bd_station_type : list Z; bd_vendor_id : Z; bd_device_id : Z;
  bd_min_device_interval : Z; bd_submodules : list SubmoduleSpec; bd_im0 : option Im0
}.

(** device/mod.rs:32-48 RtOptions *)
Record RtOptions := {
  ro_iface : string; ro_cpu_pin : option Z; ro_rt_priority : option Z; ro_lock_memory : bool
}.

(** device/mod.rs:50-70 DeviceSetup *)
Record DeviceSetup := {
  su_dcp : DcpConfig; su_model : DeviceModel; su_activity_seed : Uuid; su_rt : option RtOptions;
  su_im0 : Im0; su_im_store : option string
}.

(** ** The packing rule *)

(** The body of the loop of [layout]: [next] is the first free octet, [bits]
    the open octet of [Bool]s with its next bit. *)
(** config.rs:142-170 layout *)
Fixpoint layout_from (fields : list FieldType) (next : Z) (bits : option (Z * Z)) :
    list FieldRef * Z :=
  match fields with
  | [] => ([], next)
  | ty :: fields =>
    match byte_len ty with
    | None =>
      let '(byte, bit, next) :=
        match bits with
        | Some (b, bit) =>
          if decide (bit < 8) then (b, bit, next) else (next, 0, wrap32 (next + 1))
        | None => (next, 0, wrap32 (next + 1))
        end in
      let '(refs, n) := layout_from fields next (Some (byte, bit + 1)) in
      ({| fr_byte := wrap16 byte; fr_bit := bit; fr_ty := ty |} :: refs, n)
    | Some k =>
      let '(refs, n) := layout_from fields (wrap32 (next + Z.of_nat k)) None in
      ({| fr_byte := wrap16 next; fr_bit := 0; fr_ty := ty |} :: refs, n)
    end
  end.

(** config.rs:128-172 layout *)
Definition layout (fields : list FieldType) : list FieldRef * Z :=
  let '(refs, next) := layout_from fields 0 None in (refs, wrap16 next).

(** config.rs:538-556 checked_layout *)
Fixpoint count_bytes (fields : list FieldType) (n open_bits : Z) : Z :=
  match fields with
  | [] => n
  | f :: fields =>
    match byte_len f with
    | None =>
      count_bytes fields (if decide (open_bits = 0) then wrap32 (n + 1) else n)
        ((open_bits + 1) mod 8)
    | Some k => count_bytes fields (wrap32 (n + Z.of_nat k)) 0
    end
  end.

(** config.rs:535-565 checked_layout *)
Definition checked_layout (slot : Z) (fields : list FieldType) :
    outcome ConfigError (list FieldRef * Z) :=
  let bytes := count_bytes fields 0 0 in
  if decide (MAX_SUBMODULE_BYTES < bytes) then Err (CfTooLong slot bytes MAX_SUBMODULE_BYTES)
  else Ok (layout fields).

(** ** Station names *)

Definition is_ascii_digit (b : Z) : bool := bool_decide (48 ≤ b ≤ 57).
Definition is_ascii_lowercase (b : Z) : bool := bool_decide (97 ≤ b ≤ 122).
Definition to_ascii_lowercase (s : list Z) : list Z :=
  (λ b, if decide (65 ≤ b ≤ 90) then b + 32 else b) <$> s.

(** [str::split] at every occurrence of a character. *)
Fixpoint split_on (c : Z) (s : list Z) : list (list Z) :=
  match s with
  | [] => [[]]
  | b :: s =>
    match split_on c s with
    | [] => [[]]
    | l :: ls => if decide (b = c) then [] :: l :: ls else (b :: l) :: ls
    end
  end.

(** [str::split_once]: the parts around the first occurrence. *)
Fixpoint split_once (c : Z) (s : list Z) : option (list Z * list Z) :=
  match s with
  | [] => None
  | b :: s =>
    if decide (b = c) then Some ([], s)
    else '(l, r) ← split_once c s; Some (b :: l, r)
  end.

Definition strip_prefix (p s : list Z) : option (list Z) :=
  if decide (take (length p) s = p) then Some (drop (length p) s) else None.

(** config.rs:571-573 is_reserved_port_name *)
Definition all_digits (s : list Z) (len : nat) : bool :=
  bool_decide (length s = len) && forallb is_ascii_digit s.

(** config.rs:567-581 is_reserved_port_name *)
Definition is_reserved_port_name (s : list Z) : bool :=
  match strip_prefix (ascii_bytes "port-") s with
  | None => false
  | Some rest =>
    match split_once 45 rest with
    | None => all_digits rest 3
    | Some (xyz, abcde) => all_digits xyz 3 && all_digits abcde 5
    end
  end.

(** config.rs:642-650 normalize_station_name *)
Definition good_label (l : list Z) : bool :=
  negb (is_nil l) && negb (bool_decide (head l = Some 45)) && negb (bool_decide (list.last l = Some 45))
  && forallb (λ b, is_ascii_lowercase b || is_ascii_digit b || bool_decide (b = 45)) l.

(** config.rs:630-656 normalize_station_name *)
Definition normalize_station_name (s : list Z) : option (list Z) :=
  let s := to_ascii_lowercase s in
  if is_nil s || bool_decide (240 < length s)%nat || negb (is_ascii s) || is_reserved_port_name s
  then None else
  let labels := split_on 46 s in
  if forallb good_label labels then
    if existsb (λ l, negb (forallb is_ascii_digit l)) labels then Some s else None
  else None.

(** ** Frame budget *)

(** config.rs:583-606 cr_lengths *)
Fixpoint cr_lengths (submodules : list SubmoduleSpec) (derived : list Derived)
    (input_bytes output_bytes : Z) : Z * Z :=
  match submodules, derived with
  | sm :: submodules, d :: derived =>
    let has_in := negb (is_nil (ss_inputs sm)) in
    let has_out := negb (is_nil (ss_outputs sm)) in
    let input_bytes := if has_in then input_bytes + de_input_len d + 1 else input_bytes in
    let output_bytes := if has_out then output_bytes + de_output_len d + 1 else output_bytes in
    let input_bytes := if has_out then input_bytes + 1 else input_bytes in
    let output_bytes := if has_in then output_bytes + 1 else output_bytes in
    cr_lengths submodules derived input_bytes output_bytes
  | _, _ => (input_bytes, output_bytes)
  end.

(** config.rs:608-628 check_total_csdu *)
Definition check_total_csdu (submodules : list SubmoduleSpec) (derived : list Derived) :
    outcome ConfigError unit :=
  let '(input_bytes, output_bytes) := cr_lengths submodules derived 3 3 in
  let! _ := guard (bool_decide (MAX_SUBMODULE_BYTES < input_bytes))
                  (CfTooLongTotal DrInput input_bytes MAX_SUBMODULE_BYTES) in
  guard (bool_decide (MAX_SUBMODULE_BYTES < output_bytes))
        (CfTooLongTotal DrOutput output_bytes MAX_SUBMODULE_BYTES).

(** ** The builder *)

(** config.rs:214-228 DeviceConfig::builder *)
Definition builder (station_name : list Z) : DeviceConfigBuilder :=
  {| bd_station_name := station_name; bd_station_type := ascii_bytes "pnio device";
     bd_vendor_id := 0xFFFF; bd_device_id := 0x0001; bd_min_device_interval := 32;
     bd_submodules := []; bd_im0 := None |}.

(** config.rs:398-403 DeviceConfigBuilder::station_type *)
Definition bd_set_station_type (b : DeviceConfigBuilder) (s : list Z) : DeviceConfigBuilder :=
  {| bd_station_name := bd_station_name b; bd_station_type := s; bd_vendor_id := bd_vendor_id b;
     bd_device_id := bd_device_id b; bd_min_device_interval := bd_min_device_interval b;
     bd_submodules := bd_submodules b; bd_im0 := bd_im0 b |}.
(** config.rs:404-410 DeviceConfigBuilder::identity *)
Definition bd_identity (b : DeviceConfigBuilder) (vendor_id device_id : Z) : DeviceConfigBuilder :=
  {| bd_station_name := bd_station_name b; bd_station_type := bd_station_type b;
     bd_vendor_id := vendor_id; bd_device_id := device_id;
     bd_min_device_interval := bd_min_device_interval b; bd_submodules := bd_submodules b;
     bd_im0 := bd_im0 b |}.
(** config.rs:411-418 DeviceConfigBuilder::min_device_interval *)
Definition bd_set_interval (b : DeviceConfigBuilder) (v : Z) : DeviceConfigBuilder :=
  {| bd_station_name := bd_station_name b; bd_station_type := bd_station_type b;
     bd_vendor_id := bd_vendor_id b; bd_device_id := bd_device_id b; bd_min_device_interval := v;
     bd_submodules := bd_submodules b; bd_im0 := bd_im0 b |}.
(** config.rs:419-430 DeviceConfigBuilder::im0 *)
Definition bd_set_im0 (b : DeviceConfigBuilder) (im0 : Im0) : DeviceConfigBuilder :=
  {| bd_station_name := bd_station_name b; bd_station_type := bd_station_type b;
     bd_vendor_id := bd_vendor_id b; bd_device_id := bd_device_id b;
     bd_min_device_interval := bd_min_device_interval b; bd_submodules := bd_submodules b;
     bd_im0 := Some im0 |}.
(** config.rs:439-456 DeviceConfigBuilder::submodule *)
Definition bd_submodule (b : DeviceConfigBuilder) (slot : Z) (name : list Z)
    (inputs outputs : list FieldType) : DeviceConfigBuilder :=
  {| bd_station_name := bd_station_name b; bd_station_type := bd_station_type b;
     bd_vendor_id := bd_vendor_id b; bd_device_id := bd_device_id b;
     bd_min_device_interval := bd_min_device_interval b;
     bd_submodules := bd_submodules b ++
       [{| ss_slot := slot; ss_name := name; ss_inputs := inputs; ss_outputs := outputs |}];
     bd_im0 := bd_im0 b |}.

(** [{}] of an unsigned integer. *)
Definition decimal (n : Z) : list Z := ascii_bytes (pretty (Z.to_N n)).

(** config.rs:431-434 DeviceConfigBuilder::input *)
Definition bd_input (b : DeviceConfigBuilder) (slot : Z) (fields : list FieldType) :=
  bd_submodule b slot (ascii_bytes "in" ++ decimal slot) fields [].
(** config.rs:435-438 DeviceConfigBuilder::output *)
Definition bd_output (b : DeviceConfigBuilder) (slot : Z) (fields : list FieldType) :=
  bd_submodule b slot (ascii_bytes "out" ++ decimal slot) [] fields.

(** [str::trim] on ASCII text, compared with the empty string. *)
Definition is_blank (s : list Z) : bool := forallb (λ b, bool_decide (9 ≤ b ≤ 13 ∨ b = 32)) s.

(** config.rs:518-533 order_id_from_station_type *)
Definition order_id_from_station_type (station_type : list Z) : list Z :=
  let id := take 20 (List.filter (λ b, bool_decide (b < 128)) station_type) in
  if is_blank id then im0_order_id Im0_default else id.

(** [sort_by_key(|s| s.slot)]: a stable sort. *)
Fixpoint insert_by_slot (s : SubmoduleSpec) (l : list SubmoduleSpec) : list SubmoduleSpec :=
  match l with
  | [] => [s]
  | t :: l => if decide (ss_slot s ≤ ss_slot t) then s :: t :: l else t :: insert_by_slot s l
  end.
Definition sort_by_slot (l : list SubmoduleSpec) : list SubmoduleSpec :=
  foldr insert_by_slot [] l.

(** config.rs:485-503 DeviceConfigBuilder::build *)
Fixpoint derive (prev : option Z) (submodules : list SubmoduleSpec) :
    outcome ConfigError (list Derived) :=
  match submodules with
  | [] => Ok []
  | sm :: submodules =>
    let! _ := guard (bool_decide (ss_slot sm = 0)) CfSlotZeroReserved in
    let! _ := guard (bool_decide (prev = Some (ss_slot sm))) (CfDuplicateSlot (ss_slot sm)) in
    let! _ := guard (is_nil (ss_inputs sm) && is_nil (ss_outputs sm))
                    (CfEmptySubmodule (ss_slot sm)) in
    let! (inputs, input_len) := checked_layout (ss_slot sm) (ss_inputs sm) in
    let! (outputs, output_len) := checked_layout (ss_slot sm) (ss_outputs sm) in
    let! rest := derive (Some (ss_slot sm)) submodules in
    Ok ({| de_inputs := inputs; de_input_len := input_len; de_outputs := outputs;
           de_output_len := output_len |} :: rest)
  end.

(** config.rs:474-477 DeviceConfigBuilder::build *)
Definition builder_im0 (b : DeviceConfigBuilder) : Im0 :=
  match bd_im0 b with
  | Some im0 => im0
  | None =>
    {| im0_order_id := order_id_from_station_type (bd_station_type b);
       im0_serial_number := im0_serial_number Im0_default;
       im0_hardware_revision := im0_hardware_revision Im0_default;
       im0_software_revision := im0_software_revision Im0_default;
       im0_revision_counter := im0_revision_counter Im0_default;
       im0_profile_id := im0_profile_id Im0_default;
       im0_profile_specific_type := im0_profile_specific_type Im0_default |}
  end.

(** config.rs:458-515 DeviceConfigBuilder::build *)
Definition build (b : DeviceConfigBuilder) : outcome ConfigError DeviceConfig :=
  let! station_name := ok_or (normalize_station_name (bd_station_name b))
                             (CfBadStationName (bd_station_name b)) in
  let! _ := guard (negb (bool_decide (bd_min_device_interval b = 16 ∨ bd_min_device_interval b = 32)))
                  (CfBadInterval (bd_min_device_interval b)) in
  let! _ := guard (bool_decide (bd_vendor_id b = 0)) CfBadIdentity in
  let im0 := builder_im0 b in
  let! _ := map_err CfIm (Im0_validate im0) in
  let! _ := guard (is_nil (bd_submodules b)) CfNoSubmodule in
  let submodules := sort_by_slot (bd_submodules b) in
  let! derived := derive None submodules in
  let! _ := check_total_csdu submodules derived in
  Ok {| cf_station_name := station_name; cf_station_type := bd_station_type b;
        cf_vendor_id := bd_vendor_id b; cf_device_id := bd_device_id b;
        cf_min_device_interval := bd_min_device_interval b; cf_submodules := submodules;
        cf_derived := derived; cf_im0 := im0 |}.

(** ** Lookups and derived objects *)

(** config.rs:261-263 DeviceConfig::index_of *)
Definition cf_index_of (c : DeviceConfig) (slot : Z) : option nat :=
  fst <$> list_find (λ s, ss_slot s = slot) (cf_submodules c).

(** config.rs:265-268 DeviceConfig::submodule *)
Definition cf_submodule {E} (c : DeviceConfig) (slot : Z) : outcome E (option SubmoduleSpec) :=
  match cf_index_of c slot with
  | Some i => let! s := idx (cf_submodules c) i in Ok (Some s)
  | None => Ok None
  end.

(** config.rs:270-279 DeviceConfig::fields *)
Definition cf_fields {E} (c : DeviceConfig) (slot : Z) (dir : Direction) :
    outcome E (option (list FieldRef)) :=
  match cf_index_of c slot with
  | None => Ok None
  | Some i =>
    let! d := idx (cf_derived c) i in
    Ok (match dir with
        | DrInput => if is_nil (de_inputs d) then None else Some (de_inputs d)
        | DrOutput => if is_nil (de_outputs d) then None else Some (de_outputs d)
        | DrInputOutput => None
        end)
  end.

(** config.rs:281-285 DeviceConfig::field *)
Definition cf_field {E} (c : DeviceConfig) (slot : Z) (dir : Direction) (index : nat) :
    outcome E (option FieldRef) :=
  let! fields := cf_fields c slot dir in Ok (fields ≫= (.!! index)).

(** config.rs:287-291 DeviceConfig::input_len *)
Definition cf_input_len {E} (c : DeviceConfig) (slot : Z) : outcome E (option Z) :=
  match cf_index_of c slot with
  | Some i => let! d := idx (cf_derived c) i in Ok (Some (de_input_len d))
  | None => Ok None
  end.

(** config.rs:293-297 DeviceConfig::output_len *)
Definition cf_output_len {E} (c : DeviceConfig) (slot : Z) : outcome E (option Z) :=
  match cf_index_of c slot with
  | Some i => let! d := idx (cf_derived c) i in Ok (Some (de_output_len d))
  | None => Ok None
  end.

(** config.rs:299-303 DeviceConfig::input_cr_len *)
Definition cf_input_cr_len (c : DeviceConfig) : Z :=
  wrap16 (fst (cr_lengths (cf_submodules c) (cf_derived c) 3 3)).
(** config.rs:305-309 DeviceConfig::output_cr_len *)
Definition cf_output_cr_len (c : DeviceConfig) : Z :=
  wrap16 (snd (cr_lengths (cf_submodules c) (cf_derived c) 3 3)).

(** config.rs:313-318 DeviceConfig::model *)
Definition model_sm (subslot ident i o : Z) : SubmoduleModel :=
  {| sm_subslot := subslot; sm_submodule_ident := ident; sm_input_len := i; sm_output_len := o |}.

(** config.rs:319-327 DeviceConfig::model *)
Definition dap_slot : SlotModel :=
  {| sl_slot := 0; sl_module_ident := 0x1;
     sl_submodules := [model_sm 1 0x1 0 0; model_sm 0x8000 0x8000 0 0; model_sm 0x8001 0x8001 0 0] |}.

(** config.rs:328-334 DeviceConfig::model *)
Definition slot_model (sd : SubmoduleSpec * Derived) : SlotModel :=
  {| sl_slot := ss_slot sd.1; sl_module_ident := 0x100 + ss_slot sd.1;
     sl_submodules := [model_sm 1 0x1 (de_input_len sd.2) (de_output_len sd.2)] |}.

(** config.rs:311-344 DeviceConfig::model *)
Definition cf_model (c : DeviceConfig) (mac : MacAddr) : DeviceModel :=
  {| dm_vendor_id := cf_vendor_id c; dm_device_id := cf_device_id c; dm_instance := 1;
     dm_station_name := cf_station_name c; dm_mac := mac; dm_max_alarm_data_length := 200;
     dm_slots := dap_slot :: (slot_model <$> zip (cf_submodules c) (cf_derived c)) |}.

(** config.rs:346-361 DeviceConfig::dcp_properties *)
Definition cf_dcp_properties (c : DeviceConfig) (ip : list Z) : DeviceProperties :=
  {| dp_name_of_station := cf_station_name c; dp_type_of_station := cf_station_type c;
     dp_vendor_id := cf_vendor_id c; dp_device_id := cf_device_id c; dp_device_role := 0x0100;
     dp_device_instance := 1; dp_device_options := [1; 2; 2; 2; 2; 3]; dp_ip := ip;
     dp_subnet := [255; 255; 255; 0]; dp_gateway := ip; dp_ip_block_info := 1 |}.

(** config.rs:363-370 DeviceConfig::activity_seed *)
Definition activity_seed (mac : MacAddr) : Uuid :=
  MkUuid ([0x14; 0xaf; 0x19; 0x8a; 0x12; 0x34; 0x10; 0x56; 0x80; 0x79] ++ mac_octets mac).

(** [{:02X}] of an octet. *)
Definition hex_digit (n : Z) : Z := if decide (n < 10) then 48 + n else 55 + n.
Definition hex2 (b : Z) : list Z := [hex_digit (b / 16); hex_digit (b mod 16)].

(** config.rs:372-394 DeviceConfig::setup *)
Definition cf_setup {E} (c : DeviceConfig) (mac : MacAddr) (ip : list Z) (rt : option RtOptions) :
    outcome E DeviceSetup :=
  let! serial :=
    (if is_nil (im0_serial_number (cf_im0 c)) then
       let! a := idx (mac_octets mac) 3 in
       let! b := idx (mac_octets mac) 4 in
       let! d := idx (mac_octets mac) 5 in
       Ok (ascii_bytes "PNIO-" ++ hex2 a ++ hex2 b ++ hex2 d)
     else Ok (im0_serial_number (cf_im0 c))) in
  let im0 := {| im0_order_id := im0_order_id (cf_im0 c); im0_serial_number := serial;
                im0_hardware_revision := im0_hardware_revision (cf_im0 c);
                im0_software_revision := im0_software_revision (cf_im0 c);
                im0_revision_counter := im0_revision_counter (cf_im0 c);
                im0_profile_id := im0_profile_id (cf_im0 c);
                im0_profile_specific_type := im0_profile_specific_type (cf_im0 c) |} in
  Ok {| su_dcp := {| dc_mac := mac; dc_properties := cf_dcp_properties c ip |};
        su_model := cf_model c mac; su_activity_seed := activity_seed mac; su_rt := rt;
        su_im0 := im0; su_im_store := None |}.

(** ** The packing rule: lengths, bounds and disjointness *)

(** The counter of [checked_layout] tracks the open octet of [layout]. *)
Definition open_rel (bits : option (Z * Z)) (open_bits : Z) : Prop :=
  match bits with
  | None => open_bits = 0
  | Some (_, k) => 0 < k ≤ 8 ∧ open_bits = k mod 8
  end.

Lemma count_layout fields : ∀ next bits open_bits,
  open_rel bits open_bits → count_bytes fields next open_bits = (layout_from fields next bits).2.
Proof.
  induction fields as [|ty fields IH]; intros next bits open_bits Hrel; [done|].
  cbn [count_bytes layout_from]. destruct (byte_len ty) as [k|].
  { rewrite (IH _ None) by done. by destruct (layout_from _ _ None). }
  destruct bits as [[b k]|]; cbn in Hrel.
  - destruct Hrel as [Hk ->]. destruct (decide (k < 8)).
    + rewrite decide_False by (rewrite Z.mod_small; lia).
      rewrite (IH _ (Some (b, k + 1))) by (split; [lia|rewrite (Z.mod_small k); lia]).
      by destruct (layout_from _ _ _).
    + replace k with 8 by lia. rewrite decide_True by done.
      rewrite (IH _ (Some (next, 0 + 1))) by done. by destruct (layout_from _ _ _).
  - subst open_bits. rewrite decide_True by done.
    rewrite (IH _ (Some (next, 0 + 1))) by done. by destruct (layout_from _ _ _).
Qed.

Lemma layout_from_types fields : ∀ next bits, fr_ty <$> (layout_from fields next bits).1 = fields.
Proof.
  induction fields as [|ty fields IH]; intros next bits; [done|]. cbn [layout_from].
  destruct (byte_len ty).
  - specialize (IH (wrap32 (next + Z.of_nat n)) None). destruct (layout_from _ _ _). cbn in *.
    by rewrite IH.
  - destruct (match bits with Some _ => _ | None => _ end) as [[byte bit] next'].
    specialize (IH next' (Some (byte, bit + 1))). destruct (layout_from _ _ _). cbn in *.
    by rewrite IH.
Qed.

(** The octets of a field, and when two fields share no bit. *)
Definition fr_end (f : FieldRef) : Z := fr_byte f + Z.of_nat (width (fr_ty f)).
Definition fr_disjoint (f g : FieldRef) : Prop :=
  fr_end f ≤ fr_byte g ∨ fr_end g ≤ fr_byte f ∨
  (fr_byte f = fr_byte g ∧ fr_bit f ≠ fr_bit g ∧ fr_ty f = FtBool ∧ fr_ty g = FtBool).
Definition fr_wf (len : Z) (f : FieldRef) : Prop :=
  0 ≤ fr_byte f ∧ fr_end f ≤ len ∧ 0 ≤ fr_bit f < 8 ∧ (fr_ty f ≠ FtBool → fr_bit f = 0).

Lemma fr_disjoint_sym f g : fr_disjoint f g → fr_disjoint g f.
Proof. unfold fr_disjoint. intros [?|[?|(? & ? & ? & ?)]]; [auto..|]. right; right. by split_and!. Qed.

(** Where the fields laid out from a state of the loop may be. *)
Definition after (next : Z) (bits : option (Z * Z)) (f : FieldRef) : Prop :=
  next ≤ fr_byte f ∨
  ∃ b k, bits = Some (b, k) ∧ fr_byte f = b ∧ k ≤ fr_bit f ∧ fr_ty f = FtBool.

Lemma after_disjoint f next bits g :
  fr_end f ≤ next →
  (∀ b k, bits = Some (b, k) → fr_ty f = FtBool ∧ fr_byte f = b ∧ fr_bit f < k) →
  after next bits g → fr_disjoint f g.
Proof.
  intros Hf Hb [Hg|(b & k & Hbk & Hg & Hk & Ht)]; [left; lia|].
  destruct (Hb b k Hbk) as (? & ? & ?). right; right. split_and!; (done || lia).
Qed.

Definition laid_out (next : Z) (bits : option (Z * Z)) (refs : list FieldRef) (n : Z) : Prop :=
  next ≤ n ∧ Forall (fr_wf n) refs ∧ Forall (after next bits) refs ∧ ForallOrdPairs fr_disjoint refs.

Lemma laid_out_cons next bits f next' bits' refs n :
  laid_out next' bits' refs n → next ≤ next' → fr_end f ≤ next' → 0 ≤ fr_byte f →
  0 ≤ fr_bit f < 8 → (fr_ty f ≠ FtBool → fr_bit f = 0) →
  (∀ b k, bits' = Some (b, k) → fr_ty f = FtBool ∧ fr_byte f = b ∧ fr_bit f < k) →
  after next bits f → (∀ g, after next' bits' g → after next bits g) →
  laid_out next bits (f :: refs) n.
Proof.
  intros (Hn & Hwf & Haf & Hd) ? ? ? ? ? Hbk Hf Hmono. split_and!; [lia|..].
  - constructor; [|done]. split_and!; (auto || lia).
  - constructor; [done|]. by eapply Forall_weaken.
  - constructor; [|done]. eapply Forall_weaken; [done|]. intros g. by apply after_disjoint.
Qed.

Lemma layout_from_laid fields : ∀ next bits refs n,
  layout_from fields next bits = (refs, n) →
  0 ≤ next → next + 4 * Z.of_nat (length fields) < 4294967296 → n < 65536 →
  (∀ b k, bits = Some (b, k) → 0 ≤ b < next ∧ 0 < k ≤ 8) → laid_out next bits refs n.
Proof.
  induction fields as [|ty fields IH]; intros next bits refs n Hl Hnext Hroom Hn Hbits.
  { injection Hl as <- <-. split_and!; [lia|constructor..]. }
  cbn [layout_from length] in *. destruct (byte_len ty) as [k|] eqn:Hk.
  - assert (width ty = k ∧ (0 < k ≤ 4)%nat ∧ ty ≠ FtBool) as (Hw & ? & Ht)
      by (destruct ty; simplify_eq/=; split_and!; (done || lia)).
    rewrite wrap32_id in Hl by (unfold u32; lia).
    destruct (layout_from fields _ None) as [refs' n'] eqn:Hr. injection Hl as <- <-.
    apply IH in Hr; [|lia|lia|done|done]. pose proof Hr as (? & _).
    eapply (laid_out_cons _ _ _ _ None _ _ Hr); unfold fr_end; cbn;
      rewrite ?wrap16_id by (unfold u16; lia); rewrite ?Hw; try lia; try done.
    + left. cbn. lia.
    + intros g [?|(? & ? & ? & _)]; [left; lia|done].
  - assert (ty = FtBool) as -> by (destruct ty; done).
    destruct (match bits with Some _ => _ | None => _ end) as [[byte bit] next'] eqn:Hm.
    assert (next ≤ next' ∧ next' ≤ next + 1 ∧ 0 ≤ byte < next' ∧ 0 ≤ bit < 8 ∧
            (next ≤ byte ∨ bits = Some (byte, bit))) as (? & ? & ? & ? & Hcase).
    { destruct bits as [[b k]|].
      - destruct (Hbits b k eq_refl). destruct (decide (k < 8)); injection Hm as <- <- <-.
        + split_and!; try lia. by right.
        + rewrite wrap32_id by (unfold u32; lia). split_and!; lia.
      - injection Hm as <- <- <-. rewrite wrap32_id by (unfold u32; lia). split_and!; lia. }
    destruct (layout_from fields next' _) as [refs' n'] eqn:Hr. injection Hl as <- <-.
    apply IH in Hr; [|lia|lia|done|intros b k [= <- <-]; lia]. pose proof Hr as (? & _).
    eapply (laid_out_cons _ _ _ _ _ _ _ Hr); unfold fr_end; cbn;
      rewrite ?wrap16_id by (unfold u16; lia); try lia; try done.
    + intros b k [= <- <-]. split_and!; [done|done|lia].
    + destruct Hcase; [left; cbn; lia|]. right. exists byte, bit. by split_and!.
    + intros g [?|(b & k & [= <- <-] & Hg & Hgk & Ht)]; [left; lia|].
      destruct Hcase; [left; lia|]. right. exists byte, bit. split_and!; (done || lia).
Qed.

(** A reference count: a run of [n] consecutive [Bool]s takes [n / 8] octets,
    rounded up, every other field its own octets. *)
Definition ceil8 (run : Z) : Z := (run + 7) / 8.
Fixpoint packed_octets (fields : list FieldType) (run : Z) : Z :=
  match fields with
  | [] => ceil8 run
  | FtBool :: fields => packed_octets fields (run + 1)
  | ty :: fields => ceil8 run + Z.of_nat (width ty) + packed_octets fields 0
  end.

Lemma count_bytes_packed fields : ∀ m run,
  0 ≤ m → 0 ≤ run → m + ceil8 run + 4 * Z.of_nat (length fields) < 4294967296 →
  count_bytes fields (m + ceil8 run) (run mod 8) = m + packed_octets fields run.
Proof.
  induction fields as [|ty fields IH]; intros m run Hm Hrun Hroom; [done|].
  assert (0 ≤ ceil8 run) by (unfold ceil8; Z.div_mod_to_equations; lia).
  cbn [count_bytes packed_octets length] in *. destruct (byte_len ty) as [k|] eqn:Hk.
  - assert (width ty = k ∧ (0 < k ≤ 4)%nat ∧ ty ≠ FtBool) as (Hw & ? & Ht)
      by (destruct ty; simplify_eq/=; split_and!; (done || lia)).
    rewrite wrap32_id by (unfold u32; lia).
    replace (m + ceil8 run + Z.of_nat k) with (m + ceil8 run + Z.of_nat k + ceil8 0)
      by (change (ceil8 0) with 0; lia).
    change 0 with (0 mod 8) at 2. rewrite IH; [|lia|lia|change (ceil8 0) with 0; lia].
    destruct ty; try done; rewrite Hw; lia.
  - assert (ty = FtBool) as -> by (destruct ty; done).
    replace ((run mod 8 + 1) mod 8) with ((run + 1) mod 8) by (Z.div_mod_to_equations; lia).
    assert ((if decide (run mod 8 = 0) then wrap32 (m + ceil8 run + 1) else m + ceil8 run)
            = m + ceil8 (run + 1)) as ->.
    { case_decide; [rewrite wrap32_id by (unfold u32; lia)|];
        unfold ceil8; Z.div_mod_to_equations; lia. }
    apply IH; [done|lia|]. unfold ceil8 in *. Z.div_mod_to_equations; lia.
Qed.

(** A table of one submodule direction: one entry per field, in order, inside
    the submodule's octets, and no two entries on the same bit. *)
Definition field_table (fields : list FieldType) (refs : list FieldRef) (len : Z) : Prop :=
  fr_ty <$> refs = fields ∧ Forall (fr_wf len) refs ∧
  ∀ i j f g, refs !! i = Some f → refs !! j = Some g → i ≠ j → fr_disjoint f g.

Lemma ForallOrdPairs_lookup {A} (R : A → A → Prop) (l : list A) i j x y :
  ForallOrdPairs R l → l !! i = Some x → l !! j = Some y → (i < j)%nat → R x y.
Proof.
  intros Hl. revert i j. induction Hl as [|a l Ha Hl IH]; intros i j Hi Hj Hij; [done|].
  destruct j as [|j]; [lia|]. destruct i as [|i].
  - injection Hi as <-. cbn in Hj. by eapply Forall_lookup_1 in Ha.
  - by apply (IH i j); [| |lia].
Qed.

(** A list of fields a builder can hold. *)
Definition sane (fields : list FieldType) : Prop := Z.of_nat (length fields) < 1073741824.
#[global] Instance sane_dec fields : Decision (sane fields).
Proof. unfold sane. apply _. Defined.

Lemma count_bytes_octets fields :
  sane fields → count_bytes fields 0 0 = packed_octets fields 0.
Proof.
  unfold sane. intros. apply (count_bytes_packed fields 0 0); [lia..|]. change (ceil8 0) with 0. lia.
Qed.

Lemma layout_table fields refs len :
  sane fields → packed_octets fields 0 < 65536 → layout fields = (refs, len) →
  len = packed_octets fields 0 ∧ field_table fields refs len ∧ 0 ≤ len.
Proof.
  unfold layout. intros Hs Hp Hl. destruct (layout_from fields 0 None) as [r n] eqn:Hr.
  assert (n = packed_octets fields 0) as ->.
  { rewrite <-count_bytes_octets, (count_layout _ _ None) by done. by rewrite Hr. }
  pose proof Hs as Hs'. unfold sane in Hs'.
  pose proof (layout_from_laid fields 0 None r _ Hr ltac:(lia) ltac:(lia) Hp ltac:(done))
    as (Hn & Hwf & _ & Hd).
  rewrite wrap16_id in Hl by (unfold u16; lia). injection Hl as <- <-. split_and!; [done| |done].
  split_and!; [|done|].
  { pose proof (layout_from_types fields 0 None) as Ht. rewrite Hr in Ht. exact Ht. }
  intros i j f g Hi Hj Hij. destruct (decide (i < j)%nat).
  - by eapply ForallOrdPairs_lookup.
  - apply fr_disjoint_sym. eapply ForallOrdPairs_lookup; [done..|lia].
Qed.

Lemma packed_octets_nonneg fields : ∀ run, 0 ≤ run → 0 ≤ packed_octets fields run.
Proof.
  induction fields as [|ty fields IH]; intros run Hr; cbn [packed_octets];
    assert (0 ≤ ceil8 run) by (unfold ceil8; Z.div_mod_to_equations; lia); [done|].
  destruct ty; try (specialize (IH 0); lia). apply IH. lia.
Qed.

(** The two computations of a submodule's size agree with the packing
    rule and with each other.  [checked_layout], which counts in its own loop
    and then calls [layout], accepts a list of fields exactly when packing it
    (eight [Bool]s to an octet, runs rounded up, other fields back to back)
    takes at most 1440 octets; it then returns one entry per field, in
    declaration order, of the declared type, inside the returned length, and
    no two on the same bit.  Otherwise it reports that size. *)
Theorem checked_layout_spec slot fields :
  sane fields →
  match checked_layout slot fields with
  | Ok (refs, len) =>
    len = packed_octets fields 0 ∧ 0 ≤ len ≤ MAX_SUBMODULE_BYTES ∧ field_table fields refs len
  | Err e =>
    MAX_SUBMODULE_BYTES < packed_octets fields 0 ∧
    e = CfTooLong slot (packed_octets fields 0) MAX_SUBMODULE_BYTES
  | Panic => False
  end.
Proof.
  intros Hs. unfold checked_layout. rewrite count_bytes_octets by done. case_decide as Hd; [done|].
  destruct (layout fields) as [refs len] eqn:Hl. unfold MAX_SUBMODULE_BYTES in *.
  apply layout_table in Hl as (-> & Ht & ?); [|done|lia]. split_and!; (done || lia).
Qed.

Definition sample_fields : list FieldType :=
  [FtBool; FtBool; FtReal; FtBool; FtInt] ++ replicate 9 FtBool.

Lemma checked_layout_spec_witness :
  match checked_layout 1 sample_fields with
  | Ok (refs, len) => len = 10 ∧ field_table sample_fields refs len
  | _ => False
  end.
Proof.
  pose proof (checked_layout_spec 1 sample_fields ltac:(by_decide)) as H.
  destruct (checked_layout 1 sample_fields) as [[refs len]|e|] eqn:Hc; [|by vm_compute in Hc|done].
  destruct H as (-> & _ & H). by split.
Defined.

(** ** What [build] accepts *)

Lemma to_ascii_lowercase_idem s :
  to_ascii_lowercase (to_ascii_lowercase s) = to_ascii_lowercase s.
Proof.
  unfold to_ascii_lowercase. rewrite <-list_fmap_compose. apply list_fmap_ext. intros i b _. cbn.
  repeat case_decide; lia.
Qed.

(** A normalized name is valid as it is. *)
Lemma normalize_idem s s' :
  normalize_station_name s = Some s' → normalize_station_name s' = Some s' ∧ (length s' ≤ 240)%nat.
Proof.
  unfold normalize_station_name. intros H.
  destruct (_ || _) eqn:Hc in H; [done|]. destruct (forallb good_label _) eqn:Hl in H; [|done].
  destruct (existsb _ _) eqn:He in H; [|done]. injection H as <-.
  rewrite to_ascii_lowercase_idem, Hc, Hl, He. split; [done|].
  rewrite !orb_false_iff in Hc. destruct Hc as [[[_ Hc] _] _].
  apply bool_decide_eq_false in Hc. lia.
Qed.

(** The default identity always passes its own check. *)
Lemma default_im0_valid b : bd_im0 b = None → Im0_validate (builder_im0 b) = Ok tt.
Proof.
  intros Hb. unfold builder_im0. rewrite Hb. unfold Im0_validate. cbn [im0_order_id
    im0_serial_number im0_software_revision].
  assert (is_ascii (order_id_from_station_type (bd_station_type b)) = true ∧
          (length (order_id_from_station_type (bd_station_type b)) ≤ 20)%nat) as [Ha Hl].
  { unfold order_id_from_station_type. destruct (is_blank _); [split; [done|cbn; lia]|].
    rewrite length_take. split; [|lia]. unfold is_ascii. apply forallb_forall.
    intros x Hx%list_elem_of_In%elem_of_take. destruct Hx as (i & Hx & _).
    apply list_elem_of_lookup_2, list_elem_of_In, filter_In in Hx as [_ Hx]. done. }
  rewrite Ha. cbn [negb guard obind]. rewrite bool_decide_eq_false_2 by lia. done.
Qed.

Lemma insert_by_slot_perm s l : insert_by_slot s l ≡ₚ s :: l.
Proof.
  induction l as [|t l IH]; cbn; [done|]. case_decide; [done|]. rewrite IH. apply Permutation_swap.
Qed.

Lemma sort_by_slot_perm l : sort_by_slot l ≡ₚ l.
Proof. induction l as [|s l IH]; cbn; [done|]. by rewrite insert_by_slot_perm, IH. Qed.

Definition slot_le (s t : SubmoduleSpec) : Prop := ss_slot s ≤ ss_slot t.

Lemma insert_by_slot_sorted s l :
  StronglySorted slot_le l → StronglySorted slot_le (insert_by_slot s l).
Proof.
  unfold slot_le. induction 1 as [|t l Hl IH Ht]; cbn; [by repeat constructor|]. case_decide.
  - repeat constructor; [done|done|lia|]. eapply Forall_weaken; [done|]. intros x ?. cbn in *. lia.
  - constructor; [done|]. rewrite insert_by_slot_perm. constructor; [lia|done].
Qed.

Lemma sort_by_slot_sorted l : StronglySorted slot_le (sort_by_slot l).
Proof. induction l; cbn; [constructor|by apply insert_by_slot_sorted]. Qed.

(** One submodule on its own. *)
Definition good_submodule (sm : SubmoduleSpec) : Prop :=
  ss_slot sm ≠ 0 ∧ ¬ (ss_inputs sm = [] ∧ ss_outputs sm = []) ∧
  packed_octets (ss_inputs sm) 0 ≤ MAX_SUBMODULE_BYTES ∧
  packed_octets (ss_outputs sm) 0 ≤ MAX_SUBMODULE_BYTES.
Definition sane_submodule (sm : SubmoduleSpec) : Prop := sane (ss_inputs sm) ∧ sane (ss_outputs sm).

(** What [derive] stores for a submodule. *)
Definition derived_ok (sm : SubmoduleSpec) (d : Derived) : Prop :=
  de_input_len d = packed_octets (ss_inputs sm) 0 ∧ 0 ≤ de_input_len d ≤ MAX_SUBMODULE_BYTES ∧
  field_table (ss_inputs sm) (de_inputs d) (de_input_len d) ∧
  de_output_len d = packed_octets (ss_outputs sm) 0 ∧ 0 ≤ de_output_len d ≤ MAX_SUBMODULE_BYTES ∧
  field_table (ss_outputs sm) (de_outputs d) (de_output_len d).

(** The slots of a list differ from the one before. *)
Fixpoint steps_apart (prev : option Z) (l : list SubmoduleSpec) : Prop :=
  match l with
  | [] => True
  | sm :: l => prev ≠ Some (ss_slot sm) ∧ steps_apart (Some (ss_slot sm)) l
  end.

Lemma checked_layout_cases slot fields :
  sane fields →
  (packed_octets fields 0 ≤ MAX_SUBMODULE_BYTES ∧ ∃ refs, checked_layout slot fields =
     Ok (refs, packed_octets fields 0) ∧ field_table fields refs (packed_octets fields 0)) ∨
  (MAX_SUBMODULE_BYTES < packed_octets fields 0 ∧ ∃ e, checked_layout slot fields = Err e).
Proof.
  intros Hs. unfold checked_layout. rewrite count_bytes_octets by done. case_decide as Hd;
    [right; by eauto|left]. split; [lia|]. unfold MAX_SUBMODULE_BYTES in *.
  destruct (layout fields) as [refs len] eqn:Hl.
  apply layout_table in Hl as (-> & Ht & _); [|done|lia]. by eauto.
Qed.

Lemma is_nil_spec {A} (l : list A) : is_nil l = true ↔ l = [].
Proof. by destruct l. Qed.

Lemma derive_cases l : ∀ prev, Forall sane_submodule l →
  (Forall good_submodule l ∧ steps_apart prev l ∧
     ∃ ds, derive prev l = Ok ds ∧ Forall2 derived_ok l ds) ∨
  (¬ (Forall good_submodule l ∧ steps_apart prev l) ∧ ∃ e, derive prev l = Err e).
Proof.
  induction l as [|sm l IH]; intros prev Hs.
  { left. split_and!; [done..|]. exists []. by split. }
  apply Forall_cons_1 in Hs as [[Hi Ho] Hs]. cbn [derive steps_apart].
  rewrite list.Forall_cons. unfold good_submodule at 1 3.
  destruct (bool_decide (ss_slot sm = 0)) eqn:H0; cbn [guard obind].
  { apply bool_decide_eq_true in H0. right. split; [naive_solver|by eauto]. }
  apply bool_decide_eq_false in H0.
  destruct (bool_decide (prev = _)) eqn:Hp; cbn [guard obind].
  { apply bool_decide_eq_true in Hp. right. split; [naive_solver|by eauto]. }
  apply bool_decide_eq_false in Hp.
  destruct (is_nil _ && is_nil _) eqn:He; cbn [guard obind].
  { apply andb_prop in He as [He1 He2]. rewrite is_nil_spec in He1, He2.
    right. split; [naive_solver|by eauto]. }
  assert (¬ (ss_inputs sm = [] ∧ ss_outputs sm = [])) as Hne
    by (intros [H1 H2]; by rewrite H1, H2 in He).
  destruct (checked_layout_cases (ss_slot sm) _ Hi) as [(Hli & ri & Ei & Ti)|(Hli & e & Ei)];
    rewrite Ei; cbn [obind]; [|right; split; [naive_solver lia|by eauto]].
  destruct (checked_layout_cases (ss_slot sm) _ Ho) as [(Hlo & ro & Eo & To)|(Hlo & e & Eo)];
    rewrite Eo; cbn [obind]; [|right; split; [naive_solver lia|by eauto]].
  destruct (IH (Some (ss_slot sm)) Hs) as [(Hg & Ha & ds & Hd & Hds)|(Hn & e & Hd)];
    rewrite Hd; cbn [obind]; [|right; split; [naive_solver|by eauto]].
  left. split_and!; [done..|]. eexists. split; [done|]. constructor; [|done].
  pose proof (packed_octets_nonneg (ss_inputs sm) 0 ltac:(lia)).
  pose proof (packed_octets_nonneg (ss_outputs sm) 0 ltac:(lia)).
  by split_and!.
Qed.

(** The C-SDU of one direction, as the controller computes it: the device
    access point's three status octets, the data and status of every submodule
    with data in that direction, and a consumer status for every submodule
    with data in the other. *)
Definition cr_octets (dir : Dir) (sm : SubmoduleSpec) : Z :=
  let '(mine, other) :=
    match dir with
    | DirInput => (ss_inputs sm, ss_outputs sm)
    | DirOutput => (ss_outputs sm, ss_inputs sm)
    end in
  (if is_nil mine then 0 else packed_octets mine 0 + 1) + (if is_nil other then 0 else 1).
Definition sum_octets (dir : Dir) (l : list SubmoduleSpec) : Z :=
  foldr Z.add 0 (cr_octets dir <$> l).
Definition cr_budget (dir : Dir) (l : list SubmoduleSpec) : Z := 3 + sum_octets dir l.

Lemma cr_budget_perm dir l k : l ≡ₚ k → cr_budget dir l = cr_budget dir k.
Proof.
  unfold cr_budget, sum_octets. intros Hp. f_equal.
  induction Hp; cbn [fmap list_fmap foldr]; lia.
Qed.

Lemma cr_lengths_budget l ds : ∀ a b, Forall2 derived_ok l ds →
  cr_lengths l ds a b = (a + sum_octets DirInput l, b + sum_octets DirOutput l).
Proof.
  intros a b H. revert a b. induction H as [|sm d l ds Hd H IH]; intros a b.
  { unfold sum_octets. cbn. f_equal; lia. }
  cbn [cr_lengths]. rewrite IH. unfold sum_octets. cbn [fmap list_fmap foldr].
  destruct Hd as (-> & _ & _ & -> & _). unfold cr_octets.
  destruct (is_nil (ss_inputs sm)), (is_nil (ss_outputs sm)); cbn [negb]; f_equal; lia.
Qed.

Lemma check_total_csdu_Ok l ds : Forall2 derived_ok l ds →
  no_panic (check_total_csdu l ds) ∧
  (check_total_csdu l ds = Ok tt ↔
   cr_budget DirInput l ≤ MAX_SUBMODULE_BYTES ∧ cr_budget DirOutput l ≤ MAX_SUBMODULE_BYTES).
Proof.
  intros H. unfold check_total_csdu. rewrite cr_lengths_budget by done.
  fold (cr_budget DirInput l) (cr_budget DirOutput l).
  destruct (bool_decide (MAX_SUBMODULE_BYTES < cr_budget DirInput l)) eqn:Hi; cbn [guard obind];
    [apply bool_decide_eq_true in Hi; split; [done|split; [done|lia]]|].
  apply bool_decide_eq_false in Hi.
  destruct (bool_decide (MAX_SUBMODULE_BYTES < cr_budget DirOutput l)) eqn:Ho; cbn [guard];
    [apply bool_decide_eq_true in Ho|apply bool_decide_eq_false in Ho]; split; try done;
    split; try done; lia.
Qed.

Lemma steps_apart_sorted l : ∀ prev,
  StronglySorted slot_le l → (∀ p, prev = Some p → Forall (λ s, p ≤ ss_slot s) l) →
  steps_apart prev l ↔
  StronglySorted Z.lt (ss_slot <$> l) ∧ (∀ p, prev = Some p → Forall (λ s, p < ss_slot s) l).
Proof.
  induction l as [|sm l IH]; intros prev Hs Hp; cbn [steps_apart fmap list_fmap].
  { split; [split; [constructor|by constructor]|done]. }
  apply StronglySorted_inv in Hs as [Hs Hle]. rewrite IH by (done || by intros ? [= <-]).
  assert (StronglySorted Z.lt (ss_slot sm :: (ss_slot <$> l)) ↔
          StronglySorted Z.lt (ss_slot <$> l) ∧ Forall (λ s, ss_slot sm < ss_slot s) l) as ->.
  { split; [intros [? ?]%StronglySorted_inv; by rewrite Forall_fmap in *|].
    intros [? ?]. constructor; [done|]. by rewrite Forall_fmap. }
  destruct prev as [p|].
  - specialize (Hp p eq_refl). apply Forall_cons_1 in Hp as [Hp _]. split.
    + intros (Hne & ? & Hlt). split; [split; [done|by apply Hlt]|]. intros ? [= <-].
      assert (p < ss_slot sm) by (assert (p ≠ ss_slot sm) by congruence; lia).
      constructor; [done|]. eapply Forall_weaken; [by apply Hlt|]. cbn. lia.
    + intros ((? & ?) & Hlt). specialize (Hlt p eq_refl). apply Forall_cons_1 in Hlt as [Hlt _].
      split_and!; [intros [= ->]; lia|done|by intros ? [= <-]].
  - split; [|intros ((? & ?) & _); split_and!; [done..|by intros ? [= <-]]].
    intros (_ & ? & Hlt). split; [split; [done|by apply Hlt]|done].
Qed.

Lemma sorted_NoDup l : StronglySorted Z.lt l → NoDup l.
Proof.
  induction 1 as [|x l Hl IH Hx]; constructor; [|done]. intros Hin.
  rewrite list.Forall_forall in Hx. apply Hx in Hin. lia.
Qed.

Lemma NoDup_sorted l : StronglySorted slot_le l → NoDup (ss_slot <$> l) →
  StronglySorted Z.lt (ss_slot <$> l).
Proof.
  induction 1 as [|sm l Hl IH Hle]; intros Hnd; [constructor|].
  apply list.NoDup_cons in Hnd as [Hni Hnd]. constructor; [by apply IH|].
  apply list.Forall_forall. intros x Hx. apply list_elem_of_fmap in Hx as (t & -> & Ht).
  rewrite list.Forall_forall in Hle. specialize (Hle t Ht). unfold slot_le in Hle.
  assert (ss_slot sm ≠ ss_slot t); [|lia]. intros Heq. apply Hni. rewrite Heq.
  by apply list_elem_of_fmap_2.
Qed.

(** The declarations [build] accepts. *)
Record acceptable (b : DeviceConfigBuilder) : Prop := {
  ac_name : is_Some (normalize_station_name (bd_station_name b));
  ac_interval : bd_min_device_interval b = 16 ∨ bd_min_device_interval b = 32;
  ac_vendor : bd_vendor_id b ≠ 0;
  ac_im0 : Im0_validate (builder_im0 b) = Ok tt;
  ac_some : bd_submodules b ≠ [];
  ac_each : Forall good_submodule (bd_submodules b);
  ac_slots : NoDup (ss_slot <$> bd_submodules b);
  ac_input : cr_budget DirInput (bd_submodules b) ≤ MAX_SUBMODULE_BYTES;
  ac_output : cr_budget DirOutput (bd_submodules b) ≤ MAX_SUBMODULE_BYTES
}.

(** What a configuration built from a declaration contains. *)
Record built (b : DeviceConfigBuilder) (c : DeviceConfig) : Prop := {
  bt_name : normalize_station_name (bd_station_name b) = Some (cf_station_name c);
  bt_submodules : cf_submodules c ≡ₚ bd_submodules b;
  bt_sorted : StronglySorted Z.lt (ss_slot <$> cf_submodules c);
  bt_good : Forall good_submodule (cf_submodules c);
  bt_derived : Forall2 derived_ok (cf_submodules c) (cf_derived c);
  bt_ids : cf_vendor_id c = bd_vendor_id b ∧ cf_device_id c = bd_device_id b ∧
           cf_station_type c = bd_station_type b ∧ cf_im0 c = builder_im0 b;
  bt_budget : 0 ≤ cf_input_cr_len c ≤ MAX_SUBMODULE_BYTES ∧
              0 ≤ cf_output_cr_len c ≤ MAX_SUBMODULE_BYTES
}.

Lemma sum_octets_nonneg dir l : 0 ≤ sum_octets dir l.
Proof.
  unfold sum_octets. induction l as [|sm l IH]; cbn [fmap list_fmap foldr]; [done|].
  pose proof (packed_octets_nonneg (ss_inputs sm) 0 ltac:(lia)).
  pose proof (packed_octets_nonneg (ss_outputs sm) 0 ltac:(lia)).
  assert (0 ≤ cr_octets dir sm); [|lia]. unfold cr_octets.
  destruct dir; destruct (is_nil (ss_inputs sm)), (is_nil (ss_outputs sm)); lia.
Qed.

Lemma no_panic_Im0_validate im : no_panic (Im0_validate im).
Proof. unfold Im0_validate. np. Qed.

(** The checks that do not look at the submodules. *)
Lemma build_front b :
  (∃ name, normalize_station_name (bd_station_name b) = Some name ∧
     (bd_min_device_interval b = 16 ∨ bd_min_device_interval b = 32) ∧ bd_vendor_id b ≠ 0 ∧
     Im0_validate (builder_im0 b) = Ok tt ∧ bd_submodules b ≠ [] ∧
     build b =
       let submodules := sort_by_slot (bd_submodules b) in
       let! derived := derive None submodules in
       let! _ := check_total_csdu submodules derived in
       Ok {| cf_station_name := name; cf_station_type := bd_station_type b;
             cf_vendor_id := bd_vendor_id b; cf_device_id := bd_device_id b;
             cf_min_device_interval := bd_min_device_interval b; cf_submodules := submodules;
             cf_derived := derived; cf_im0 := builder_im0 b |}) ∨
  ((∃ e, build b = Err e) ∧ ¬ acceptable b).
Proof.
  unfold build. destruct (normalize_station_name _) as [name|] eqn:Hn; cbn [ok_or obind].
  2: { right. split; [by eauto|]. intros [[? H] _ _ _ _ _ _ _ _]. congruence. }
  destruct (bool_decide (_ ∨ _)) eqn:Hi; cbn [negb guard obind].
  2: { apply bool_decide_eq_false in Hi. right. split; [by eauto|]. by intros [_ ? _ _ _ _ _ _ _]. }
  apply bool_decide_eq_true in Hi. destruct (bool_decide (bd_vendor_id b = 0)) eqn:Hv;
    cbn [guard obind].
  { apply bool_decide_eq_true in Hv. right. split; [by eauto|]. by intros [_ _ ? _ _ _ _ _ _]. }
  apply bool_decide_eq_false in Hv.
  destruct (Im0_validate (builder_im0 b)) as [[]|e|] eqn:Him; cbn [map_err obind].
  2: { right. split; [by eauto|]. intros [_ _ _ H _ _ _ _ _]. congruence. }
  2: { by destruct (no_panic_Im0_validate (builder_im0 b)). }
  destruct (is_nil (bd_submodules b)) eqn:Hs; cbn [guard obind].
  { apply is_nil_spec in Hs. right. split; [by eauto|]. by intros [_ _ _ _ ? _ _ _ _]. }
  left. exists name. split_and!; try done. intros H. by rewrite H in Hs.
Qed.

Lemma build_cases b :
  Forall sane_submodule (bd_submodules b) →
  no_panic (build b) ∧ (is_Ok (build b) = true ↔ acceptable b) ∧
  ∀ c, build b = Ok c → built b c.
Proof.
  intros Hs. destruct (build_front b) as [(name & Hn & Hi & Hv & Him & Hne & Hb)|[[e Hb] Hna]];
    rewrite Hb; [|by split_and!; [|split|]].
  cbn zeta. pose proof (sort_by_slot_perm (bd_submodules b)) as Hp.
  set (l := sort_by_slot (bd_submodules b)) in *.
  assert (Forall sane_submodule l) as Hsl by by rewrite Hp.
  pose proof (steps_apart_sorted l None (sort_by_slot_sorted _) ltac:(done)) as Hap.
  assert (steps_apart None l ↔ NoDup (ss_slot <$> bd_submodules b)) as Hnd.
  { rewrite <-Hp, Hap. split; [intros [? _]; by apply sorted_NoDup|].
    intros ?. split; [|done]. apply NoDup_sorted; [apply sort_by_slot_sorted|done]. }
  destruct (derive_cases l None Hsl) as [(Hg & Ha & ds & Hd & Hds)|(Hbad & e & Hd)];
    rewrite Hd; cbn [obind].
  2: { split_and!; [done| |done]. split; [done|]. intros [_ _ _ _ _ Heach Hslots _ _]. exfalso.
       apply Hbad. rewrite <-Hp in Heach. split; [done|by apply Hnd]. }
  destruct (check_total_csdu_Ok l ds Hds) as [Hnp Htot].
  rewrite !(cr_budget_perm _ _ _ Hp) in Htot.
  destruct (check_total_csdu l ds) as [[]|e|] eqn:Hc; [|split_and!; [done| |done]|done]; cbn [obind].
  2: { split; [done|]. intros [_ _ _ _ _ _ _ H1 H2]. by discriminate (proj2 Htot (conj H1 H2)). }
  destruct Htot as [Hbud _]. specialize (Hbud eq_refl). destruct Hbud as [Hbi Hbo].
  split_and!; [done| |].
  - split; [|done]. intros _. split; [by eauto|done..| |by apply Hnd|done|done].
    by rewrite <-Hp.
  - intros c [= <-]. split; cbn; [done..|by apply Hap|done|done|done|].
    unfold cf_input_cr_len, cf_output_cr_len. cbn [cf_submodules cf_derived].
    rewrite cr_lengths_budget by done. rewrite <-!(cr_budget_perm _ _ _ Hp) in *.
    unfold cr_budget in *. cbn [fst snd].
    pose proof (sum_octets_nonneg DirInput l). pose proof (sum_octets_nonneg DirOutput l).
    unfold MAX_SUBMODULE_BYTES in *. rewrite !wrap16_id by (unfold u16; lia). lia.
Qed.

(** C30: [build] accepts exactly the acceptable declarations and never
    panics; the configuration it returns has a normalized station name, the
    declared submodules in strictly ascending slot order, the field tables of
    each with their lengths, and cyclic frames within the budget. *)
Theorem build_accepts b :
  Forall sane_submodule (bd_submodules b) →
  no_panic (build b) ∧ (is_Ok (build b) = true ↔ acceptable b) ∧
  ∀ c, build b = Ok c → built b c.
Proof. apply build_cases. Qed.

Definition sample_builder : DeviceConfigBuilder :=
  bd_output (bd_input (bd_submodule (builder (ascii_bytes "Press-7.line-2"))
    5 (ascii_bytes "mixed") [FtReal] [FtInt; FtBool]) 1 sample_fields) 3 [FtWord].

Definition sample_config : DeviceConfig :=
  Eval vm_compute in match build sample_builder with
  | Ok c => c
  | _ => {| cf_station_name := []; cf_station_type := []; cf_vendor_id := 0; cf_device_id := 0;
            cf_min_device_interval := 0; cf_submodules := []; cf_derived := []; cf_im0 := Im0_default |}
  end.

Lemma sample_builder_sane : Forall sane_submodule (bd_submodules sample_builder).
Proof. unfold sane_submodule. by_decide. Qed.

Lemma build_accepts_witness : acceptable sample_builder ∧ built sample_builder sample_config.
Proof.
  destruct (build_accepts sample_builder sample_builder_sane) as (_ & Ha & Hb).
  split; [apply Ha; reflexivity|apply Hb; reflexivity].
Defined.

(** ** What the errors say *)

(** The fact each error stands for. *)
Definition reports (b : DeviceConfigBuilder) (e : ConfigError) : Prop :=
  match e with
  | CfSlotZeroReserved => ∃ sm, sm ∈ bd_submodules b ∧ ss_slot sm = 0
  | CfDuplicateSlot s => ∃ x y rest, bd_submodules b ≡ₚ x :: y :: rest ∧ ss_slot x = s ∧ ss_slot y = s
  | CfEmptySubmodule s =>
    ∃ sm, sm ∈ bd_submodules b ∧ ss_slot sm = s ∧ ss_inputs sm = [] ∧ ss_outputs sm = []
  | CfNoSubmodule => bd_submodules b = []
  | CfTooLong s n max =>
    ∃ sm, sm ∈ bd_submodules b ∧ ss_slot sm = s ∧ max = 1440 ∧ max < n ∧
          (n = packed_octets (ss_inputs sm) 0 ∨ n = packed_octets (ss_outputs sm) 0)
  | CfBadStationName name => name = bd_station_name b ∧ normalize_station_name name = None
  | CfBadInterval v => v = bd_min_device_interval b ∧ v ≠ 16 ∧ v ≠ 32
  | CfBadIdentity => bd_vendor_id b = 0
  | CfTooLongTotal d n max =>
    max = 1440 ∧ max < n ∧
    match d with
    | DrInput => n = cr_budget DirInput (bd_submodules b)
    | DrOutput => n = cr_budget DirOutput (bd_submodules b)
    | DrInputOutput => False
    end
  | CfIm e => ∃ im0, bd_im0 b = Some im0 ∧ Im0_validate im0 = Err e
  end.

(** The errors of the loop over the submodules. *)
Definition loop_reports (prev : option Z) (l : list SubmoduleSpec) (e : ConfigError) : Prop :=
  match e with
  | CfSlotZeroReserved => ∃ sm, sm ∈ l ∧ ss_slot sm = 0
  | CfDuplicateSlot s =>
    ∃ pre post, option_list prev ++ (ss_slot <$> l) = pre ++ s :: s :: post
  | CfEmptySubmodule s => ∃ sm, sm ∈ l ∧ ss_slot sm = s ∧ ss_inputs sm = [] ∧ ss_outputs sm = []
  | CfTooLong s n max =>
    ∃ sm, sm ∈ l ∧ ss_slot sm = s ∧ max = 1440 ∧ max < n ∧
          (n = packed_octets (ss_inputs sm) 0 ∨ n = packed_octets (ss_outputs sm) 0)
  | _ => False
  end.

Lemma loop_reports_tail prev sm l e :
  loop_reports (Some (ss_slot sm)) l e → loop_reports prev (sm :: l) e.
Proof.
  destruct e as [|s|s| |s n max| | | | |]; cbn; try naive_solver set_solver.
  intros (pre & post & Heq). destruct prev as [p|]; cbn.
  - exists (p :: pre), post. cbn in *. by rewrite Heq.
  - by exists pre, post.
Qed.

Lemma checked_layout_Err slot fields e :
  sane fields → checked_layout slot fields = Err e →
  e = CfTooLong slot (packed_octets fields 0) 1440 ∧ 1440 < packed_octets fields 0.
Proof.
  intros Hs. unfold checked_layout. rewrite count_bytes_octets by done.
  case_decide; [|done]. by intros [= <-].
Qed.

Lemma derive_reports l : ∀ prev e,
  Forall sane_submodule l → derive prev l = Err e → loop_reports prev l e.
Proof.
  induction l as [|sm l IH]; intros prev e Hs; [done|].
  apply Forall_cons_1 in Hs as [[Hi Ho] Hs]. cbn [derive].
  destruct (bool_decide (ss_slot sm = 0)) eqn:H0; cbn [guard obind].
  { apply bool_decide_eq_true in H0. intros [= <-]. exists sm. set_solver. }
  destruct (bool_decide (prev = _)) eqn:Hp; cbn [guard obind].
  { apply bool_decide_eq_true in Hp as ->. intros [= <-]. by exists [], (ss_slot <$> l). }
  destruct (is_nil _ && is_nil _) eqn:He; cbn [guard obind].
  { apply andb_prop in He as [He1 He2]. rewrite is_nil_spec in He1, He2.
    intros [= <-]. exists sm. set_solver. }
  destruct (checked_layout _ (ss_inputs sm)) as [[]| |] eqn:Ei; cbn [obind]; [|intros [= <-]|done].
  2: { apply checked_layout_Err in Ei as [-> ?]; [|done]. exists sm.
       split_and!; [set_solver|done..|by left]. }
  destruct (checked_layout _ (ss_outputs sm)) as [[]| |] eqn:Eo; cbn [obind]; [|intros [= <-]|done].
  2: { apply checked_layout_Err in Eo as [-> ?]; [|done]. exists sm.
       split_and!; [set_solver|done..|by right]. }
  destruct (derive _ l) as [|e'|] eqn:Hd; cbn [obind]; [done|intros [= <-]|done].
  by apply loop_reports_tail, IH.
Qed.

(** Every error of [build] states a fact about the declaration: the slot
    it names is reserved, declared twice or empty, the size it reports is the
    packed size of a field list of that slot or of the whole C-SDU and exceeds
    the limit it quotes, and an identity is refused only if one was given. *)
Theorem build_reports b e :
  Forall sane_submodule (bd_submodules b) → build b = Err e → reports b e.
Proof.
  intros Hs. unfold build. destruct (normalize_station_name _) as [name|] eqn:Hn;
    cbn [ok_or obind]; [|by intros [= <-]].
  destruct (bool_decide (_ ∨ _)) eqn:Hi; cbn [negb guard obind].
  2: { apply bool_decide_eq_false in Hi. intros [= <-]. cbn. naive_solver. }
  destruct (bool_decide (bd_vendor_id b = 0)) eqn:Hv; cbn [guard obind].
  { apply bool_decide_eq_true in Hv. by intros [= <-]. }
  destruct (Im0_validate (builder_im0 b)) as [[]|e'|] eqn:Him; cbn [map_err obind]; [| |done].
  2: { intros [= <-]. cbn. destruct (bd_im0 b) as [im0|] eqn:Hb; [|by rewrite default_im0_valid in Him].
       exists im0. unfold builder_im0 in Him. rewrite Hb in Him. done. }
  destruct (is_nil (bd_submodules b)) eqn:Hnil; cbn [guard obind].
  { apply is_nil_spec in Hnil. by intros [= <-]. }
  pose proof (sort_by_slot_perm (bd_submodules b)) as Hp.
  set (l := sort_by_slot (bd_submodules b)) in *.
  assert (Forall sane_submodule l) as Hsl by by rewrite Hp.
  destruct (derive_cases l None Hsl) as [(_ & _ & ds & Hd & Hds)|(_ & e' & Hd)];
    rewrite Hd; cbn [obind].
  - unfold check_total_csdu. rewrite cr_lengths_budget by done.
    fold (cr_budget DirInput l) (cr_budget DirOutput l). rewrite !(cr_budget_perm _ _ _ Hp).
    destruct (bool_decide (_ < cr_budget DirInput _)) eqn:Hbi; cbn [guard obind].
    { apply bool_decide_eq_true in Hbi. by intros [= <-]. }
    destruct (bool_decide (_ < cr_budget DirOutput _)) eqn:Hbo; cbn [guard obind]; [|done].
    apply bool_decide_eq_true in Hbo. by intros [= <-].
  - intros [= <-]. apply derive_reports in Hd; [|done]. revert Hd.
    destruct e' as [|s|s| |s n max| | | | |]; cbn; try (by setoid_rewrite Hp); try done.
    intros (pre & post & Heq). apply fmap_app_inv in Heq as (l1 & l2 & -> & Heq & Hl).
    destruct l2 as [|x [|y rest]]; try done. injection Heq as Hx Hy _.
    exists x, y, (l1 ++ rest). split_and!; [|done..]. rewrite <-Hp, Hl. by rewrite <-!Permutation_middle.
Qed.

Lemma build_reports_witness :
  let b := bd_input (bd_output sample_builder 3 [FtInt]) 7 [FtReal] in
  build b = Err (CfDuplicateSlot 3) ∧ reports b (CfDuplicateSlot 3).
Proof.
  intros b. assert (build b = Err (CfDuplicateSlot 3)) as H by reflexivity. split; [done|].
  apply (build_reports b); [unfold sane_submodule; by_decide|done].
Defined.

(** ** Configurations as the rest of the stack sees them *)

Record cf_ok (c : DeviceConfig) : Prop := {
  ck_name : normalize_station_name (cf_station_name c) = Some (cf_station_name c);
  ck_sorted : StronglySorted Z.lt (ss_slot <$> cf_submodules c);
  ck_good : Forall good_submodule (cf_submodules c);
  ck_derived : Forall2 derived_ok (cf_submodules c) (cf_derived c)
}.

Lemma built_ok b c : built b c → cf_ok c.
Proof.
  intros [Hn _ Hs Hg Hd _ _]. split; [|done..]. by apply normalize_idem in Hn as [? _].
Qed.

Lemma build_ok b c : Forall sane_submodule (bd_submodules b) → build b = Ok c → cf_ok c.
Proof. intros Hs Hb. destruct (build_cases b Hs) as (_ & _ & H). by eapply built_ok, H. Qed.

(** The entry of a slot in both tables. *)
Definition cf_entry (c : DeviceConfig) (slot : Z) (i : nat) (sm : SubmoduleSpec) (d : Derived) : Prop :=
  cf_index_of c slot = Some i ∧ cf_submodules c !! i = Some sm ∧ cf_derived c !! i = Some d ∧
  ss_slot sm = slot ∧ good_submodule sm ∧ derived_ok sm d.

Lemma cf_index_of_entry c slot i :
  cf_ok c → cf_index_of c slot = Some i → ∃ sm d, cf_entry c slot i sm d.
Proof.
  intros [_ _ Hg Hd] Hi. pose proof Hi as Hi'. unfold cf_index_of in Hi'.
  destruct (list_find _ _) as [[j sm]|] eqn:Hf; [|done]. injection Hi' as ->.
  apply list_find_Some in Hf as (Hsm & Hs & _).
  destruct (Forall2_lookup_l _ _ _ _ _ Hd Hsm) as (d & Hdi & Hok).
  exists sm, d. split_and!; try done. by eapply Forall_lookup_1 in Hg.
Qed.

Lemma cf_entry_slot c slot : cf_ok c →
  slot ∈ (ss_slot <$> cf_submodules c) ↔ ∃ i, cf_index_of c slot = Some i.
Proof.
  intros Hc. split.
  - intros (sm & -> & Hsm)%list_elem_of_fmap. apply list_elem_of_lookup in Hsm as [i Hi].
    unfold cf_index_of. destruct (list_find _ _) as [[j t]|] eqn:Hf; [by eauto|].
    apply list_find_None in Hf. eapply Forall_lookup_1 in Hf; [|done]. done.
  - intros [i Hi]. destruct (cf_index_of_entry c slot i Hc Hi) as (sm & d & _ & Hsm & _ & <- & _).
    apply list_elem_of_fmap_2. by eapply list_elem_of_lookup_2.
Qed.

Lemma field_table_nil fields refs len : field_table fields refs len → is_nil refs = is_nil fields.
Proof. intros (<- & _). by destruct refs. Qed.

(** The octets of a direction are none exactly when it has no fields. *)
Lemma packed_octets_pos fields : ∀ run,
  0 ≤ run → packed_octets fields run = 0 ↔ fields = [] ∧ run = 0.
Proof.
  induction fields as [|ty fields IH]; intros run Hr; cbn [packed_octets].
  { unfold ceil8. split; [intros|intros [_ ->]; done]. split; [done|]. Z.div_mod_to_equations; lia. }
  assert (0 ≤ ceil8 run) by (unfold ceil8; Z.div_mod_to_equations; lia).
  pose proof (packed_octets_nonneg fields 0 ltac:(lia)).
  split; [|by intros [? _]]. intros H'. exfalso.
  destruct ty; cbn in H'; try lia. apply IH in H' as [_ ?]; lia.
Qed.

(** The ranges of the builder's integers. *)
Definition wf_builder_ids (c : DeviceConfig) : Prop :=
  u16 (cf_vendor_id c) ∧ u16 (cf_device_id c) ∧ Forall u16 (ss_slot <$> cf_submodules c).
#[global] Instance wf_builder_ids_dec c : Decision (wf_builder_ids c).
Proof. unfold wf_builder_ids. apply _. Defined.

Lemma zip_slots (l : list SubmoduleSpec) (ds : list Derived) :
  length l = length ds → sl_slot <$> (slot_model <$> zip l ds) = ss_slot <$> l.
Proof.
  revert ds. induction l as [|sm l IH]; intros [|d ds] Hl; try done. cbn. f_equal. apply IH. cbn in Hl. lia.
Qed.

(** What the diagnosis store keeps of a declared slot. *)
Definition slot_entry (sd : SubmoduleSpec * Derived) : SubmoduleInfo :=
  {| si_slot := ss_slot sd.1; si_subslot := 1; si_module_ident := 0x100 + ss_slot sd.1;
     si_submodule_ident := 1; si_direction := direction sd.1 |}.

Lemma slot_info_entry sm d :
  good_submodule sm → derived_ok sm d → slot_info (slot_model (sm, d)) = Some (slot_entry (sm, d)).
Proof.
  intros (_ & Hne & _) (Hi & Hi0 & _ & Ho & Ho0 & _). unfold slot_info, slot_model, slot_entry, direction.
  cbn [sl_submodules sl_slot sl_module_ident List.find sm_subslot model_sm]. cbn [fst snd].
  rewrite bool_decide_eq_true_2 by done.
  cbn [mbind option_bind sm_output_len sm_input_len sm_submodule_ident]. do 2 f_equal.
  pose proof (packed_octets_pos (ss_inputs sm) 0 ltac:(lia)) as Pi. rewrite <-Hi in Pi.
  pose proof (packed_octets_pos (ss_outputs sm) 0 ltac:(lia)) as Po. rewrite <-Ho in Po.
  destruct (ss_inputs sm), (ss_outputs sm); cbn [is_nil]; repeat case_decide; try done; exfalso;
    naive_solver lia.
Qed.

Lemma diag_entries l ds :
  Forall good_submodule l → Forall (λ s, 0 < ss_slot s) l → Forall2 derived_ok l ds →
  omap slot_info (filter (λ s, 0 < sl_slot s) (slot_model <$> zip l ds)) = slot_entry <$> zip l ds.
Proof.
  intros Hg Hp Hd. induction Hd as [|sm d l ds Hd Hds IH]; [done|].
  apply Forall_cons_1 in Hg as [Hg Hgs], Hp as [Hp Hps]. cbn [zip zip_with fmap list_fmap].
  rewrite filter_cons_True by done. cbn [omap list_omap]. rewrite slot_info_entry by done.
  cbn. f_equal. by apply IH.
Qed.

Lemma cf_slots_pos c : cf_ok c → wf_builder_ids c → Forall (λ s, 0 < ss_slot s) (cf_submodules c).
Proof.
  intros [_ _ Hg _] (_ & _ & Hu). rewrite Forall_fmap in Hu.
  apply list.Forall_forall. intros s Hs. rewrite list.Forall_forall in Hg, Hu.
  destruct (Hg s Hs) as [? _]. specialize (Hu s Hs). cbn in Hu. unfold u16 in Hu. lia.
Qed.

Lemma cf_model_wf c mac :
  cf_ok c → wf_builder_ids c → wf_mac mac → wf_model (cf_model c mac) ∧ unique_keys (cf_model c mac).
Proof.
  intros Hc Hw Hm. pose proof (cf_slots_pos c Hc Hw) as Hpos.
  destruct Hc as [Hn Hs Hg Hd]. destruct Hw as (Hv & Hdev & Hu). apply normalize_idem in Hn as [_ Hn].
  pose proof (list.Forall2_length _ _ _ Hd) as Hlen. split.
  - split_and!; cbn; try done. constructor.
    { unfold wf_slot, wf_submodule. by_decide. }
    rewrite Forall_fmap. clear Hs Hlen Hpos. induction Hd as [|sm d l ds Hd Hds IH]; [constructor|].
    apply Forall_cons_1 in Hg as [_ Hg]. cbn in Hu. apply Forall_cons_1 in Hu as [Hu Hus].
    constructor; [|by apply IH]. destruct Hd as (_ & ? & _ & _ & ? & _).
    unfold MAX_SUBMODULE_BYTES in *. split_and!; cbn; [done|unfold u32, u16 in *; lia|].
    constructor; [|constructor]. split_and!; cbn; unfold u16, u32 in *; lia.
  - split; cbn.
    + rewrite zip_slots by done. constructor; [|by apply sorted_NoDup].
      intros (s & Heq & Hin)%list_elem_of_fmap. rewrite list.Forall_forall in Hpos.
      specialize (Hpos s Hin). lia.
    + constructor; [by_decide|]. rewrite Forall_fmap. apply list.Forall_forall. intros sd _. cbn.
      by_decide.
Qed.

Lemma find_fmap {A B} (f : A → B) (p : B → bool) (l : list A) :
  List.find p (f <$> l) = f <$> List.find (λ a, p (f a)) l.
Proof. induction l as [|a l IH]; cbn; [done|]. destruct (p (f a)); [done|]. apply IH. Qed.

(** The device model derived from a configuration is one the rest of the
    stack can work with: every field is in range, slots are numbered once and
    none is the access point's, each declared slot carries exactly one
    submodule with the packed input and output lengths, and the diagnosis
    store built from the model knows exactly the declared slots, each with its
    declared direction. *)
Theorem config_model c mac :
  cf_ok c → wf_builder_ids c → wf_mac mac →
  let m := cf_model c mac in
  wf_model m ∧ unique_keys m ∧ wf_uuid (activity_seed mac) ∧
  (∀ i sm, cf_submodules c !! i = Some sm →
     DeviceModel_find m (ss_slot sm) 1 =
       Some (model_sm 1 1 (packed_octets (ss_inputs sm) 0) (packed_octets (ss_outputs sm) 0)) ∧
     si_direction <$> ds_info (DiagStore_from_model m) (ss_slot sm) = Some (direction sm)) ∧
  ∀ slot, ds_knows (DiagStore_from_model m) slot = true ↔ slot ∈ (ss_slot <$> cf_submodules c).
Proof.
  intros Hc Hw Hm m. destruct (cf_model_wf c mac Hc Hw Hm) as [Hwf Hu].
  pose proof (cf_slots_pos c Hc Hw) as Hpos. destruct Hc as [_ Hs Hg Hd].
  pose proof (list.Forall2_length _ _ _ Hd) as Hlen.
  assert (ds_submodules (DiagStore_from_model m) = slot_entry <$> zip (cf_submodules c) (cf_derived c))
    as Hds by (by apply diag_entries).
  assert (si_slot <$> (slot_entry <$> zip (cf_submodules c) (cf_derived c))
          = ss_slot <$> cf_submodules c) as Hsl.
  { rewrite <-(zip_slots _ _ Hlen), <-!list_fmap_compose. done. }
  split_and!; [done|done|..].
  - destruct Hm as [Hl H8]. unfold wf_uuid, activity_seed. cbn [uuid_bytes].
    rewrite length_app, Forall_app, Hl. split; [done|]. split; [by_decide|done].
  - intros i sm Hi. destruct (Forall2_lookup_l _ _ _ _ _ Hd Hi) as (d & Hdi & Hok).
    assert ((sm, d) ∈ zip (cf_submodules c) (cf_derived c)) as Hz.
    { apply (list_elem_of_lookup_2 _ i). rewrite lookup_zip_with, Hi. cbn. by rewrite Hdi. }
    split.
    + destruct Hu as [Hu _]. unfold DeviceModel_find, find_slot.
      change (ss_slot sm) with (sl_slot (slot_model (sm, d))).
      rewrite (find_NoDup sl_slot (dm_slots m) (slot_model (sm, d)) Hu)
        by (apply elem_of_cons; right; by apply list_elem_of_fmap_2).
      cbn. rewrite bool_decide_eq_true_2 by done. destruct Hok as (-> & _ & _ & -> & _). done.
    + unfold ds_info. rewrite Hds.
      change (ss_slot sm) with (si_slot (slot_entry (sm, d))).
      rewrite (find_NoDup si_slot); [done| |by apply list_elem_of_fmap_2].
      rewrite Hsl. by apply sorted_NoDup.
  - intros slot. unfold ds_knows, ds_info. rewrite bool_decide_eq_true, Hds, <-Hsl.
    split.
    + intros [x Hx]. apply find_some in Hx as [Hin Hk]. apply bool_decide_eq_true in Hk as <-.
      apply list_elem_of_fmap_2. by apply list_elem_of_In.
    + intros (x & -> & Hx)%list_elem_of_fmap. rewrite (find_NoDup si_slot); [done| |done].
      rewrite Hsl. by apply sorted_NoDup.
Qed.

Lemma config_model_witness :
  let m := cf_model sample_config sample_mac in
  wf_model m ∧ unique_keys m ∧ ds_knows (DiagStore_from_model m) 5 = true.
Proof.
  intros m. pose proof (config_model sample_config sample_mac) as H.
  destruct H as (H1 & H2 & _ & _ & H3); [|by_decide|unfold wf_mac; by_decide|].
  - apply (build_ok sample_builder); [exact sample_builder_sane|reflexivity].
  - split_and!; [done|done|]. apply H3. by_decide.
Defined.
