(* ===== verification/Hist.v ===== *)
(** * Hist: the latency histogram

    Models [crates/pnio/src/rt/hist.rs].  Every counter is a relaxed atomic of
    its own; [record] is the composition of its three updates, and the
    theorems are about the values once the samples are in.  The [f64]
    arithmetic of [percentile] is IEEE binary64, given by the reference
    semantics of the Standard Library's [SpecFloat]. *)

From Stdlib Require Import SpecFloat.
From S2P Require Import Prelude.
Local Open Scope Z_scope.

(** rt/hist.rs:6-7 HIST_BINS *)
Definition HIST_BINS : nat := 2048.

(** rt/hist.rs:20-27 Histogram *)
Record Histogram := { hi_bins : list Z; hi_count : Z; hi_max_ns : Z }.

(** rt/hist.rs:9-18 HistSnapshot *)
Record HistSnapshot := { hs_bins : list Z; hs_count : Z; hs_max_ns : Z }.

(** rt/hist.rs:30-41 Histogram::new *)
Definition Histogram_new : Histogram :=
  {| hi_bins := replicate HIST_BINS 0; hi_count := 0; hi_max_ns := 0 |}.
Arguments Histogram_new : simpl never.

(** rt/hist.rs:45-45 Histogram::record *)
Definition bin_of (ns : Z) : nat := Nat.min (Z.to_nat (ns / 1000)) (HIST_BINS - 1).

(** rt/hist.rs:43-49 Histogram::record *)
Definition hist_record (h : Histogram) (ns : Z) : Histogram :=
  {| hi_bins := alter inc64 (bin_of ns) (hi_bins h);
     hi_count := inc64 (hi_count h);
     hi_max_ns := Z.max (hi_max_ns h) ns |}.
Arguments hist_record : simpl never.

(** ** Binary64 *)

Definition f64 : Type := spec_float.
Definition f64_of_int (n : Z) : f64 := binary_normalize 53 1024 n 0 false.
Definition f64_div : f64 → f64 → f64 := SFdiv 53 1024.
Definition f64_mul : f64 → f64 → f64 := SFmul 53 1024.

(** [f64::clamp] for an ordered pair of bounds; a NaN stays. *)
Definition f64_clamp (x lo hi : f64) : f64 :=
  if SFltb x lo then lo else if SFltb hi x then hi else x.
(** [f64::ceil] *)
Definition f64_ceil (x : f64) : f64 :=
  match x with
  | S754_finite s m e =>
    if decide (0 ≤ e) then x
    else
      let v := if s then - (Z.pos m / 2 ^ (- e)) else - (- Z.pos m / 2 ^ (- e)) in
      if decide (v = 0) then S754_zero s else f64_of_int v
  | _ => x
  end.
(** [f64::max]: a NaN loses. *)
Definition f64_max (x y : f64) : f64 :=
  match x with
  | S754_nan => y
  | _ => if SFltb x y then y else x
  end.
(** [as u64]: towards zero, saturating, NaN as zero. *)
Definition f64_to_u64 (x : f64) : Z :=
  match x with
  | S754_nan | S754_zero _ => 0
  | S754_infinity s => if s then 0 else 18446744073709551615
  | S754_finite s m e =>
    if s then 0
    else Z.min 18446744073709551615 (if decide (0 ≤ e) then Z.pos m * 2 ^ e else Z.pos m / 2 ^ (- e))
  end.

(** rt/hist.rs:69-71 Histogram::percentile *)
Definition percentile_target (p : f64) (count : Z) : Z :=
  let p := f64_clamp p (f64_of_int 0) (f64_of_int 100) in
  f64_to_u64 (f64_max (f64_ceil (f64_mul (f64_div p (f64_of_int 100)) (f64_of_int count)))
                      (f64_of_int 1)).

(** rt/hist.rs:72-79 Histogram::percentile *)
Fixpoint percentile_scan (bins : list Z) (i : nat) (seen target : Z) : nat :=
  match bins with
  | [] => HIST_BINS - 1
  | bin :: bins =>
    let seen := wrap64 (seen + bin) in
    if decide (target ≤ seen) then i else percentile_scan bins (S i) seen target
  end.

(** rt/hist.rs:61-80 Histogram::percentile *)
Definition percentile (h : Histogram) (p : f64) : option nat :=
  if decide (hi_count h = 0) then None
  else Some (percentile_scan (hi_bins h) 0 0 (percentile_target p (hi_count h))).

(** rt/hist.rs:82-93 Histogram::snapshot *)
Definition hist_snapshot (h : Histogram) : HistSnapshot :=
  {| hs_bins := hi_bins h; hs_count := hi_count h; hs_max_ns := hi_max_ns h |}.

(** rt/hist.rs:95-102 Histogram::reset *)
Definition hist_reset (h : Histogram) : Histogram :=
  {| hi_bins := (λ _, 0) <$> hi_bins h; hi_count := 0; hi_max_ns := 0 |}.

(** ** The histogram of a sequence of samples *)

Definition hist_of (samples : list Z) : Histogram := foldl hist_record Histogram_new samples.

(** The number of samples a predicate selects. *)
Definition tally (P : Z → bool) (samples : list Z) : Z := Z.of_nat (length (List.filter P samples)).
Definition in_bin (i : nat) (ns : Z) : bool := bool_decide (bin_of ns = i).
Definition up_to_bin (i : nat) (ns : Z) : bool := bool_decide (bin_of ns ≤ i)%nat.

Lemma bin_of_lt ns : (bin_of ns < HIST_BINS)%nat.
Proof. unfold bin_of, HIST_BINS. lia. Qed.

Lemma inc64_small x : 0 ≤ x < 18446744073709551615 → inc64 x = x + 1.
Proof. intros. unfold inc64, wrap64. apply Z.mod_small. lia. Qed.

Lemma tally_app P a b : tally P (a ++ b) = tally P a + tally P b.
Proof. unfold tally. rewrite List.filter_app, length_app. lia. Qed.

Lemma tally_le P a : 0 ≤ tally P a ≤ Z.of_nat (length a).
Proof. unfold tally. pose proof (filter_length_le P a). lia. Qed.

(** What the counters are after a sequence of samples: each bin counts the
    samples of its microsecond. *)
Definition hist_spec (samples : list Z) (h : Histogram) : Prop :=
  length (hi_bins h) = HIST_BINS ∧
  (∀ i, (i < HIST_BINS)%nat → hi_bins h !! i = Some (tally (in_bin i) samples)) ∧
  hi_count h = Z.of_nat (length samples) ∧ hi_max_ns h = foldr Z.max 0 samples.

Lemma foldr_max_snoc l x : 0 ≤ x → foldr Z.max 0 (l ++ [x]) = Z.max (foldr Z.max 0 l) x.
Proof. intros Hx. induction l as [|y l IH]; cbn in *; [lia|]. rewrite IH. lia. Qed.

Lemma hist_record_spec samples h ns :
  hist_spec samples h → 0 ≤ ns → Z.of_nat (length samples) < 18446744073709551615 →
  hist_spec (samples ++ [ns]) (hist_record h ns).
Proof.
  intros (Hl & Hb & Hc & Hm) Hns Hlen. unfold hist_record. split_and!; cbn [hi_bins hi_count hi_max_ns].
  - by rewrite length_alter.
  - intros i Hi. rewrite tally_app. destruct (decide (bin_of ns = i)) as [Heq|Hne].
    + rewrite Heq, list_lookup_alter, decide_True, Hb by done. cbn. f_equal.
      pose proof (tally_le (in_bin i) samples). rewrite inc64_small by lia.
      unfold tally at 3, in_bin. cbn. by rewrite bool_decide_eq_true_2.
    + rewrite list_lookup_alter_ne, Hb by done. f_equal. unfold tally at 3, in_bin. cbn.
      rewrite bool_decide_eq_false_2 by done. cbn. lia.
  - rewrite Hc, length_app, inc64_small by lia. cbn. lia.
  - by rewrite foldr_max_snoc, Hm.
Qed.

Lemma hist_of_spec samples :
  Forall (Z.le 0) samples → Z.of_nat (length samples) ≤ 18446744073709551615 →
  hist_spec samples (hist_of samples).
Proof.
  induction samples as [|ns samples IH] using rev_ind; intros Hs Hl.
  - split_and!; [unfold hist_of, Histogram_new; cbn [foldl hi_bins]; by rewrite length_replicate| |done|done].
    intros i Hi. unfold hist_of, Histogram_new. cbn [foldl hi_bins]. by apply lookup_replicate_2.
  - rewrite Forall_app, length_app in *. destruct Hs as [Hs Hn]. apply Forall_cons_1 in Hn as [Hn _].
    cbn in Hl. unfold hist_of. rewrite foldl_app. apply hist_record_spec; [apply IH; [done|lia]|done|lia].
Qed.

Lemma tally_split i samples :
  tally (up_to_bin (S i)) samples = tally (up_to_bin i) samples + tally (in_bin (S i)) samples.
Proof.
  unfold tally, up_to_bin, in_bin. induction samples as [|ns samples IH]; [done|]. cbn.
  repeat case_bool_decide; cbn; lia.
Qed.

(** The scan stops at the first bin where the running total reaches the rank. *)
Lemma percentile_scan_spec samples target : ∀ bins i seen,
  Z.of_nat (length samples) ≤ 18446744073709551615 →
  (i + length bins = HIST_BINS)%nat →
  (∀ j, (j < length bins)%nat → bins !! j = Some (tally (in_bin (i + j)) samples)) →
  seen = match i with O => 0 | S k => tally (up_to_bin k) samples end →
  (∀ j, (j < i)%nat → tally (up_to_bin j) samples < target) →
  let r := percentile_scan bins i seen target in
  (r < HIST_BINS)%nat ∧ (∀ j, (j < r)%nat → tally (up_to_bin j) samples < target) ∧
  (target ≤ tally (up_to_bin r) samples ∨ r = (HIST_BINS - 1)%nat).
Proof.
  induction bins as [|bin bins IH]; intros i seen Hs Hl Hb Hseen Hlt; cbn [percentile_scan].
  - cbn in Hl. split_and!; [unfold HIST_BINS; lia| |by right]. intros j Hj. apply Hlt. lia.
  - assert (bin = tally (in_bin i) samples) as -> by
      (specialize (Hb 0%nat ltac:(cbn; lia)); cbn in Hb; rewrite Nat.add_0_r in Hb; congruence).
    assert (wrap64 (seen + tally (in_bin i) samples) = tally (up_to_bin i) samples) as ->.
    { assert (seen + tally (in_bin i) samples = tally (up_to_bin i) samples) as ->.
      { subst seen. destruct i as [|k]; [|by rewrite tally_split].
        rewrite Z.add_0_l. unfold tally, in_bin, up_to_bin. f_equal. f_equal. apply List.filter_ext. intros ns.
        repeat case_bool_decide; lia. }
      pose proof (tally_le (up_to_bin i) samples). apply Z.mod_small. lia. }
    cbn [length] in *. case_decide as Ht; [split_and!; [lia|done|by left]|].
    apply (IH (S i)); [done|lia| |done|].
    + intros j Hj. specialize (Hb (S j) ltac:(lia)). cbn in Hb. by rewrite Nat.add_succ_r in Hb.
    + intros j Hj. destruct (decide (j = i)) as [->|]; [lia|]. apply Hlt. lia.
Qed.

(** The histogram reports its samples.  After any sequence of samples the
    count, the maximum and every one-microsecond bin are exactly those of the
    sequence, [reset] brings back the empty histogram, and [percentile] is
    [None] exactly when nothing was recorded and otherwise the first bin up to
    which at least the wanted rank of samples lies (the last bin, where the
    samples beyond the range are, if the rank is not reached before). *)
Theorem histogram_correct samples :
  Forall (Z.le 0) samples → Z.of_nat (length samples) ≤ 18446744073709551615 →
  let h := hist_of samples in
  hist_spec samples h ∧ hist_reset h = Histogram_new ∧
  ∀ p, match percentile h p with
       | None => samples = []
       | Some r =>
         samples ≠ [] ∧ (r < HIST_BINS)%nat ∧
         let target := percentile_target p (Z.of_nat (length samples)) in
         (∀ j, (j < r)%nat → tally (up_to_bin j) samples < target) ∧
         (target ≤ tally (up_to_bin r) samples ∨ r = (HIST_BINS - 1)%nat)
       end.
Proof.
  intros Hs Hl h. pose proof (hist_of_spec samples Hs Hl) as Hh. fold h in Hh. split_and!; [done| |].
  { unfold hist_reset, Histogram_new. f_equal. destruct Hh as (<- & _).
    clear. induction (hi_bins h) as [|x l IH]; cbn; [done|]. by rewrite IH. }
  intros p. destruct Hh as (Hlen & Hb & Hc & _). unfold percentile. rewrite Hc.
  case_decide as H0; [by destruct samples|]. split; [by intros ->|]. cbn zeta.
  apply percentile_scan_spec; [done|lia| |done|lia].
  intros j Hj. by rewrite Hb by lia.
Qed.

Lemma histogram_correct_witness :
  let h := hist_of [1500; 700; 9000000; 1999] in
  hi_count h = 4 ∧ percentile h (f64_of_int 50) = Some 1%nat ∧
  percentile h (f64_of_int 100) = Some 2047%nat ∧ hist_reset h = Histogram_new.
Proof.
  intros h. destruct (histogram_correct [1500; 700; 9000000; 1999]) as ((_ & _ & Hc & _) & Hr & _);
    [by_decide|cbn; lia|].
  split_and!; [exact Hc|vm_compute; reflexivity|vm_compute; reflexivity|exact Hr].
Defined.
