(* ===== verification/Engine.v ===== *)
(** * Engine: the cyclic provider and consumer

    Models [crates/pnio/src/rt/engine.rs]: the state of the RTC1 engine and
    its three operations, [on_tick], [on_frame] and [check_watchdog].  The
    shared [problem] flag is the value [on_tick] reads; the shared counters
    are part of the state, without the histograms, which the engine never
    touches.  An instant is a number of nanoseconds. *)

From S2P Require Import Prelude Eth Rpc Block Connect Hist RtFrame Layout.
Local Open Scope Z_scope.

(** ** Data *)

(** rt/engine.rs:17-18 IOXS_GOOD *)
Definition IOXS_GOOD : Z := 0x80.
(** rt/engine.rs:19-20 IOXS_BAD *)
Definition IOXS_BAD : Z := 0x00.

(** rt/engine.rs:22-36 DropReason *)
Inductive DropReason :=
| DrTransferStatus (s : Z)
| DrShortCsdu (have need : nat)
| DrMalformed.
(** rt/engine.rs:38-57 RxVerdict *)
Inductive RxVerdict :=
| RxAccepted (provider_run primary data_valid : bool)
| RxIgnored
| RxDropped (r : DropReason).
(** rt/engine.rs:59-71 WatchdogVerdict *)
Inductive WatchdogVerdict := WvNotArmed | WvOk | WvExpired | WvStopped.

(** rt/engine.rs:73-106 RtStats *)
Record RtStats := {
  rs_tx : Z; rs_rx_accepted : Z; rs_rx_ignored : Z; rs_rx_dropped : Z; rs_rx_invalid : Z;
  rs_reordered : Z; rs_watchdog_expirations : Z; rs_missed_ticks : Z;
  rs_input_snapshot_reused : Z; rs_output_publish_deferred : Z;
  rs_tick_lateness : Histogram; rs_cycle_work : Histogram; rs_rx_interval : Histogram
}.

(** rt/engine.rs:73-106 RtStats::default *)
Definition RtStats_default : RtStats := {|
  rs_tx := 0; rs_rx_accepted := 0; rs_rx_ignored := 0; rs_rx_dropped := 0; rs_rx_invalid := 0;
  rs_reordered := 0; rs_watchdog_expirations := 0; rs_missed_ticks := 0;
  rs_input_snapshot_reused := 0; rs_output_publish_deferred := 0;
  rs_tick_lateness := Histogram_new; rs_cycle_work := Histogram_new;
  rs_rx_interval := Histogram_new |}.

(** rt/engine.rs:108-137 StatsSnapshot *)
Record StatsSnapshot := {
  sn_tx : Z; sn_rx_accepted : Z; sn_rx_ignored : Z; sn_rx_dropped : Z; sn_rx_invalid : Z;
  sn_reordered : Z; sn_watchdog_expirations : Z; sn_missed_ticks : Z;
  sn_input_snapshot_reused : Z; sn_output_publish_deferred : Z;
  sn_max_tick_lateness_ns : Z; sn_max_cycle_work_ns : Z; sn_max_rx_interval_ns : Z
}.

(** rt/engine.rs:139-158 RtStats::snapshot *)
Definition stats_snapshot (s : RtStats) : StatsSnapshot := {|
  sn_tx := rs_tx s; sn_rx_accepted := rs_rx_accepted s; sn_rx_ignored := rs_rx_ignored s;
  sn_rx_dropped := rs_rx_dropped s; sn_rx_invalid := rs_rx_invalid s;
  sn_reordered := rs_reordered s; sn_watchdog_expirations := rs_watchdog_expirations s;
  sn_missed_ticks := rs_missed_ticks s; sn_input_snapshot_reused := rs_input_snapshot_reused s;
  sn_output_publish_deferred := rs_output_publish_deferred s;
  sn_max_tick_lateness_ns := hi_max_ns (rs_tick_lateness s);
  sn_max_cycle_work_ns := hi_max_ns (rs_cycle_work s);
  sn_max_rx_interval_ns := hi_max_ns (rs_rx_interval s) |}.

(** rt/engine.rs:160-167 WatchdogState *)
Inductive WatchdogState := WsNotArmed | WsOk | WsExpired.

#[global] Instance WatchdogState_eq_dec : EqDecision WatchdogState.
Proof. solve_decision. Defined.

(** rt/engine.rs:169-205 RtEngine *)
Record RtEngine := {
  en_layout : Layout;
  en_our_mac : MacAddr;
  en_cpu_mac : MacAddr;
  en_stats : RtStats;
  en_tx : list Z;
  en_tx_csdu : list Z;
  en_rx_csdu : list Z;
  en_rx_iops_good : list bool;
  en_rx_iocs_good : list bool;
  en_cycle_counter : Z;
  en_last_rx : option Z;
  en_last_rx_cycle_counter : option Z;
  en_watchdog_state : WatchdogState;
  en_provider_run : bool;
  en_primary : bool
}.

(** rt/engine.rs:208-246 RtEngine::new *)
Definition RtEngine_new (layout : Layout) (our_mac cpu_mac : MacAddr) (stats : RtStats) : RtEngine :=
  {| en_layout := layout; en_our_mac := our_mac; en_cpu_mac := cpu_mac; en_stats := stats;
     en_tx := replicate (frame_len (cl_data_length (la_input_cr layout))) 0;
     en_tx_csdu := replicate (cl_data_length (la_input_cr layout)) 0;
     en_rx_csdu := replicate (cl_data_length (la_output_cr layout)) 0;
     en_rx_iops_good := replicate (length (cl_objects (la_output_cr layout))) false;
     en_rx_iocs_good := replicate (length (cl_iocs (la_output_cr layout))) false;
     en_cycle_counter := 0; en_last_rx := None; en_last_rx_cycle_counter := None;
     en_watchdog_state := WsNotArmed; en_provider_run := false; en_primary := false |}.

(** Counter additions, [fetch_add]. *)
Inductive Stat := SxTx | SxAccepted | SxIgnored | SxDropped | SxInvalid | SxReordered
  | SxExpirations | SxMissed | SxReused | SxDeferred.
#[global] Instance Stat_eq_dec : EqDecision Stat.
Proof. solve_decision. Defined.
Definition fetch_add (k : Stat) (n : Z) (s : RtStats) : RtStats :=
  let add k' x := if decide (k = k') then wrap64 (x + n) else x in
  {| rs_tx := add SxTx (rs_tx s); rs_rx_accepted := add SxAccepted (rs_rx_accepted s);
     rs_rx_ignored := add SxIgnored (rs_rx_ignored s);
     rs_rx_dropped := add SxDropped (rs_rx_dropped s);
     rs_rx_invalid := add SxInvalid (rs_rx_invalid s);
     rs_reordered := add SxReordered (rs_reordered s);
     rs_watchdog_expirations := add SxExpirations (rs_watchdog_expirations s);
     rs_missed_ticks := add SxMissed (rs_missed_ticks s);
     rs_input_snapshot_reused := add SxReused (rs_input_snapshot_reused s);
     rs_output_publish_deferred := add SxDeferred (rs_output_publish_deferred s);
     rs_tick_lateness := rs_tick_lateness s; rs_cycle_work := rs_cycle_work s;
     rs_rx_interval := rs_rx_interval s |}.

Definition set_en_stats (e : RtEngine) (s : RtStats) : RtEngine :=
  {| en_layout := en_layout e; en_our_mac := en_our_mac e; en_cpu_mac := en_cpu_mac e;
     en_stats := s; en_tx := en_tx e; en_tx_csdu := en_tx_csdu e; en_rx_csdu := en_rx_csdu e;
     en_rx_iops_good := en_rx_iops_good e; en_rx_iocs_good := en_rx_iocs_good e;
     en_cycle_counter := en_cycle_counter e; en_last_rx := en_last_rx e;
     en_last_rx_cycle_counter := en_last_rx_cycle_counter e;
     en_watchdog_state := en_watchdog_state e; en_provider_run := en_provider_run e;
     en_primary := en_primary e |}.

(** ** The provider side *)

(** rt/engine.rs:261-265 RtEngine::on_tick *)
Fixpoint stamp_objects {E} (csdu inputs : list Z) (objs : list IoObject) : outcome E (list Z) :=
  match objs with
  | [] => Ok csdu
  | obj :: objs =>
    let! src := slice inputs (ob_data_off obj) (ob_data_off obj + ob_data_len obj) in
    let! csdu := copy_at csdu (ob_data_off obj) src in
    let! csdu := set_at csdu (ob_iops_off obj) IOXS_GOOD in
    stamp_objects csdu inputs objs
  end.

(** rt/engine.rs:266-268 RtEngine::on_tick *)
Fixpoint stamp_iocs {E} (csdu : list Z) (css : list CsObject) : outcome E (list Z) :=
  match css with
  | [] => Ok csdu
  | cs :: css => let! csdu := set_at csdu (cs_iocs_off cs) IOXS_GOOD in stamp_iocs csdu css
  end.

(** rt/engine.rs:248-296 RtEngine::on_tick *)
Definition en_on_tick {E} (e : RtEngine) (problem : bool) (expirations : Z) (inputs : list Z) :
    outcome E (RtEngine * list Z) :=
  let cr := la_input_cr (en_layout e) in
  let! csdu := stamp_objects (en_tx_csdu e) inputs (cl_objects cr) in
  let! csdu := stamp_iocs csdu (cl_iocs cr) in
  let cycle_counter :=
    wrap16 (en_cycle_counter e + wrap16 (cl_cycle_step cr * wrap16 expirations)) in
  let data_status := if problem then RUN_PRIMARY_VALID_PROBLEM else RUN_PRIMARY_VALID_OK in
  let rt := {| rf_frame_id := cl_frame_id cr; rf_csdu := csdu; rf_cycle_counter := cycle_counter;
               rf_data_status := data_status; rf_transfer_status := 0 |} in
  match RtFrame_write rt (en_tx e) (en_cpu_mac e) (en_our_mac e) with
  | Ok (tx, n) =>
    let stats := fetch_add SxMissed (Z.max 0 (expirations - 1)) (fetch_add SxTx 1 (en_stats e)) in
    let e := {| en_layout := en_layout e; en_our_mac := en_our_mac e;
                en_cpu_mac := en_cpu_mac e; en_stats := stats; en_tx := tx; en_tx_csdu := csdu;
                en_rx_csdu := en_rx_csdu e; en_rx_iops_good := en_rx_iops_good e;
                en_rx_iocs_good := en_rx_iocs_good e; en_cycle_counter := cycle_counter;
                en_last_rx := en_last_rx e;
                en_last_rx_cycle_counter := en_last_rx_cycle_counter e;
                en_watchdog_state := en_watchdog_state e;
                en_provider_run := en_provider_run e; en_primary := en_primary e |} in
    let! out := slice tx 0 n in
    Ok (e, out)
  | Err _ | Panic => Panic
  end.

(** ** The consumer side *)

(** rt/engine.rs:346-348 RtEngine::on_frame *)
Fixpoint read_iops {E} (csdu : list Z) (good : list bool) (i : nat) (objs : list IoObject) :
    outcome E (list bool) :=
  match objs with
  | [] => Ok good
  | obj :: objs =>
    let! b := idx csdu (ob_iops_off obj) in
    let! good := set_at good i (bool_decide (Z.land b 0x80 ≠ 0)) in
    read_iops csdu good (S i) objs
  end.

(** rt/engine.rs:349-351 RtEngine::on_frame *)
Fixpoint read_iocs {E} (csdu : list Z) (good : list bool) (i : nat) (css : list CsObject) :
    outcome E (list bool) :=
  match css with
  | [] => Ok good
  | cs :: css =>
    let! b := idx csdu (cs_iocs_off cs) in
    let! good := set_at good i (bool_decide (Z.land b 0x80 ≠ 0)) in
    read_iocs csdu good (S i) css
  end.

(** rt/engine.rs:298-362 RtEngine::on_frame *)
Definition en_on_frame {E} (e : RtEngine) (frame : list Z) (now : Z) :
    outcome E (RtEngine * RxVerdict) :=
  match RtFrame_parse frame with
  | Panic => Panic
  | Err _ => Ok (set_en_stats e (fetch_add SxDropped 1 (en_stats e)), RxDropped DrMalformed)
  | Ok (eth, rt) =>
    let cr := la_output_cr (en_layout e) in
    if decide (eth_src eth ≠ en_cpu_mac e ∨ rf_frame_id rt ≠ cl_frame_id cr) then
      Ok (set_en_stats e (fetch_add SxIgnored 1 (en_stats e)), RxIgnored)
    else if decide (rf_transfer_status rt ≠ 0) then
      Ok (set_en_stats e (fetch_add SxDropped 1 (en_stats e)),
          RxDropped (DrTransferStatus (rf_transfer_status rt)))
    else if decide (length (rf_csdu rt) < cl_data_length cr)%nat then
      Ok (set_en_stats e (fetch_add SxDropped 1 (en_stats e)),
          RxDropped (DrShortCsdu (length (rf_csdu rt)) (cl_data_length cr)))
    else
    let stats :=
      match en_last_rx_cycle_counter e with
      | Some prev =>
        let d := wrap16 (rf_cycle_counter rt - prev) in
        if decide (d = 0 ∨ 0x8000 < d) then fetch_add SxReordered 1 (en_stats e) else en_stats e
      | None => en_stats e
      end in
    let provider_run := ds_provider_run (rf_data_status rt) in
    let primary := ds_primary (rf_data_status rt) in
    let data_valid := ds_data_valid (rf_data_status rt) in
    let! (stats, csdu, iops, iocs) :=
      (if data_valid then
         let! src := slice (rf_csdu rt) 0 (cl_data_length cr) in
         let! csdu := copy_at (en_rx_csdu e) 0 src in
         let! iops := read_iops csdu (en_rx_iops_good e) 0 (cl_objects cr) in
         let! iocs := read_iocs csdu (en_rx_iocs_good e) 0 (cl_iocs cr) in
         Ok (fetch_add SxAccepted 1 stats, csdu, iops, iocs)
       else Ok (fetch_add SxInvalid 1 stats, en_rx_csdu e, en_rx_iops_good e, en_rx_iocs_good e)) in
    Ok ({| en_layout := en_layout e; en_our_mac := en_our_mac e; en_cpu_mac := en_cpu_mac e;
           en_stats := stats; en_tx := en_tx e; en_tx_csdu := en_tx_csdu e; en_rx_csdu := csdu;
           en_rx_iops_good := iops; en_rx_iocs_good := iocs;
           en_cycle_counter := en_cycle_counter e; en_last_rx := Some now;
           en_last_rx_cycle_counter := Some (rf_cycle_counter rt);
           en_watchdog_state := WsOk; en_provider_run := provider_run; en_primary := primary |},
        RxAccepted provider_run primary data_valid)
  end.

Definition set_watchdog (e : RtEngine) (w : WatchdogState) : RtEngine :=
  {| en_layout := en_layout e; en_our_mac := en_our_mac e; en_cpu_mac := en_cpu_mac e;
     en_stats := en_stats e; en_tx := en_tx e; en_tx_csdu := en_tx_csdu e;
     en_rx_csdu := en_rx_csdu e; en_rx_iops_good := en_rx_iops_good e;
     en_rx_iocs_good := en_rx_iocs_good e; en_cycle_counter := en_cycle_counter e;
     en_last_rx := en_last_rx e; en_last_rx_cycle_counter := en_last_rx_cycle_counter e;
     en_watchdog_state := w; en_provider_run := en_provider_run e; en_primary := en_primary e |}.

(** rt/engine.rs:364-387 RtEngine::check_watchdog *)
Definition check_watchdog (e : RtEngine) (now : Z) : RtEngine * WatchdogVerdict :=
  match en_last_rx e with
  | None => (e, WvNotArmed)
  | Some last_rx =>
    let elapsed := Z.max 0 (now - last_rx) in
    if decide (elapsed ≤ cl_watchdog (la_output_cr (en_layout e))) then
      (set_watchdog e WsOk, WvOk)
    else
    match en_watchdog_state e with
    | WsExpired => (e, WvStopped)
    | _ => (set_watchdog (set_en_stats e (fetch_add SxExpirations 1 (en_stats e))) WsExpired,
            WvExpired)
    end
  end.

(** rt/engine.rs:389-399 RtEngine::mark_outputs_stale *)
Definition mark_outputs_stale (e : RtEngine) : RtEngine :=
  {| en_layout := en_layout e; en_our_mac := en_our_mac e; en_cpu_mac := en_cpu_mac e;
     en_stats := en_stats e; en_tx := en_tx e; en_tx_csdu := en_tx_csdu e;
     en_rx_csdu := en_rx_csdu e;
     en_rx_iops_good := replicate (length (en_rx_iops_good e)) false;
     en_rx_iocs_good := en_rx_iocs_good e; en_cycle_counter := en_cycle_counter e;
     en_last_rx := en_last_rx e; en_last_rx_cycle_counter := en_last_rx_cycle_counter e;
     en_watchdog_state := en_watchdog_state e; en_provider_run := en_provider_run e;
     en_primary := en_primary e |}.

(** ** The engine's invariant *)

Definition cr_sound (l : CrLayout) : Prop :=
  plan_fits l ∧ u16 (cl_frame_id l) ∧
  Forall (λ o, ob_iops_off o = (ob_data_off o + ob_data_len o)%nat) (cl_objects l).

(** The preallocated buffers have the sizes the layout asks for, and the
    watchdog is armed exactly when a frame was accepted. *)
Record en_inv (e : RtEngine) : Prop := {
  ei_input : cr_sound (la_input_cr (en_layout e));
  ei_output : cr_sound (la_output_cr (en_layout e));
  ei_macs : wf_mac (en_our_mac e) ∧ wf_mac (en_cpu_mac e);
  ei_tx : length (en_tx e) = frame_len (cl_data_length (la_input_cr (en_layout e)));
  ei_tx_csdu : length (en_tx_csdu e) = cl_data_length (la_input_cr (en_layout e));
  ei_rx_csdu : length (en_rx_csdu e) = cl_data_length (la_output_cr (en_layout e));
  ei_iops : length (en_rx_iops_good e) = length (cl_objects (la_output_cr (en_layout e)));
  ei_iocs : length (en_rx_iocs_good e) = length (cl_iocs (la_output_cr (en_layout e)));
  ei_armed : en_last_rx e = None ↔ en_watchdog_state e = WsNotArmed
}.

Lemma build_cr_sound cr model dir l :
  u16 (ip_frame_id cr) → build_cr cr model dir = Ok l → cr_sound l.
Proof.
  intros Hu Hb. pose proof (build_cr_cases cr model dir) as H. rewrite Hb in H.
  destruct H as (_ & os & Hos & -> & Hfit). split_and!; [done|done|]. cbn.
  apply list.Forall_forall. intros o Ho. by destruct (planned_len _ _ _ _ _ Hos Ho) as (? & _ & _ & ?).
Qed.

(** An engine started on the layout of an AR is in order. *)
Lemma en_inv_new params model la our_mac cpu_mac stats :
  Layout_from_ar params model = Ok la →
  u16 (ip_frame_id (ap_input_cr params)) → u16 (ip_frame_id (ap_output_cr params)) →
  wf_mac our_mac → wf_mac cpu_mac → en_inv (RtEngine_new la our_mac cpu_mac stats).
Proof.
  unfold Layout_from_ar. intros H Hi Ho Hm Hc.
  apply obind_Ok in H as (icr & Hicr & H). apply obind_Ok in H as (ocr & Hocr & [= <-]).
  split; cbn; rewrite ?length_replicate; try done; (eapply build_cr_sound; [|eassumption]; done).
Qed.

(** ** The provider side *)

Lemma in_object_bytes o i :
  i ∈ object_bytes o ↔ (ob_data_off o ≤ i ≤ ob_data_off o + ob_data_len o)%nat.
Proof. unfold object_bytes. rewrite elem_of_seq. lia. Qed.

Lemma stamp_objects_spec {E} inputs objs : ∀ csdu,
  length inputs = length csdu →
  Forall (λ o, ob_iops_off o = (ob_data_off o + ob_data_len o)%nat) objs →
  Forall (in_cr (length csdu)) (concat (object_bytes <$> objs)) →
  NoDup (concat (object_bytes <$> objs)) →
  ∃ csdu', stamp_objects (E := E) csdu inputs objs = Ok csdu' ∧ length csdu' = length csdu ∧
    (∀ i, i ∉ concat (object_bytes <$> objs) → csdu' !! i = csdu !! i) ∧
    (∀ o, o ∈ objs →
      (∀ i, (ob_data_off o ≤ i < ob_data_off o + ob_data_len o)%nat → csdu' !! i = inputs !! i) ∧
      csdu' !! ob_iops_off o = Some IOXS_GOOD).
Proof.
  induction objs as [|o objs IH]; intros csdu Hlen Hiops Hin Hnd.
  { exists csdu. split_and!; [done..|]. by intros o ?%not_elem_of_nil. }
  cbn [fmap list_fmap concat] in *. apply Forall_cons_1 in Hiops as [Ho Hiops].
  apply Forall_app in Hin as [Hino Hin]. apply list.NoDup_app in Hnd as (_ & Hd & Hnd).
  apply object_bytes_bounds in Hino. cbn [stamp_objects].
  set (off := ob_data_off o) in *. set (len := ob_data_len o) in *.
  unfold slice. rewrite decide_True by lia. cbn [obind].
  set (src := take _ _). assert (length src = len) as Hsrc
    by (subst src; rewrite length_take, length_drop; lia).
  destruct (copy_at csdu off src) as [c1| |] eqn:Hc1;
    [|unfold copy_at in Hc1; case_decide; done
     |unfold copy_at in Hc1; rewrite decide_True in Hc1 by lia; done].
  pose proof (copy_at_length _ _ _ _ Hc1) as Hl1. cbn [obind].
  unfold set_at. rewrite decide_True by lia. cbn [obind].
  set (c2 := <[ob_iops_off o := IOXS_GOOD]> c1).
  assert (length c2 = length csdu) as Hl2 by (subst c2; by rewrite length_insert).
  destruct (IH c2) as (c3 & Hs & Hl3 & Hout & Hobj); [lia|done|by rewrite Hl2|done|].
  exists c3. split_and!; [done|lia| |].
  - intros i Hi. rewrite not_elem_of_app, in_object_bytes in Hi. destruct Hi as [Hi1 Hi2].
    rewrite Hout by done. subst c2. rewrite list_lookup_insert_ne by lia.
    rewrite (copy_at_lookup _ _ _ _ _ Hc1), decide_False by lia. done.
  - intros o' [->|Ho']%elem_of_cons; [|by apply Hobj]. fold off len. split.
    + intros i Hi. rewrite Hout by (apply Hd, in_object_bytes; lia). subst c2.
      rewrite list_lookup_insert_ne by lia.
      rewrite (copy_at_lookup _ _ _ _ _ Hc1), decide_True by lia.
      subst src. rewrite lookup_take_lt, lookup_drop by lia. f_equal. lia.
    + rewrite Hout by (apply Hd, in_object_bytes; lia). subst c2.
      apply list_lookup_insert_eq. lia.
Qed.

Lemma stamp_iocs_spec {E} css : ∀ csdu,
  Forall (in_cr (length csdu)) (cs_iocs_off <$> css) →
  ∃ csdu', stamp_iocs (E := E) csdu css = Ok csdu' ∧ length csdu' = length csdu ∧
    (∀ i, i ∉ cs_iocs_off <$> css → csdu' !! i = csdu !! i) ∧
    (∀ cs, cs ∈ css → csdu' !! cs_iocs_off cs = Some IOXS_GOOD).
Proof.
  induction css as [|cs css IH]; intros csdu Hin.
  { exists csdu. split_and!; [done..|]. by intros o ?%not_elem_of_nil. }
  cbn [fmap list_fmap] in *. apply Forall_cons_1 in Hin as [Hc Hin]. unfold in_cr in Hc.
  cbn [stamp_iocs]. unfold set_at. rewrite decide_True by lia. cbn [obind].
  destruct (IH (<[cs_iocs_off cs := IOXS_GOOD]> csdu)) as (c' & Hs & Hl & Hout & Hcs);
    [by rewrite length_insert|]. rewrite length_insert in Hl.
  exists c'. split_and!; [done|done| |].
  - intros i Hi. rewrite not_elem_of_cons in Hi. destruct Hi as [Hi1 Hi2].
    rewrite Hout by done. by rewrite list_lookup_insert_ne.
  - intros cs' [->|Hin']%elem_of_cons; [|by apply Hcs].
    destruct (decide (cs_iocs_off cs ∈ cs_iocs_off <$> css)) as [He|He].
    + apply list_elem_of_fmap in He as (cs'' & -> & ?). by apply Hcs.
    + rewrite Hout by done. by rewrite list_lookup_insert_eq.
Qed.

(** The C-SDU the controller must find in our frame: the application's data
    under every object, GOOD in every status octet. *)
Definition provides (cr : CrLayout) (inputs csdu : list Z) : Prop :=
  (∀ o, o ∈ cl_objects cr →
    (∀ i, (ob_data_off o ≤ i < ob_data_off o + ob_data_len o)%nat → csdu !! i = inputs !! i) ∧
    csdu !! ob_iops_off o = Some IOXS_GOOD) ∧
  (∀ cs, cs ∈ cl_iocs cr → csdu !! cs_iocs_off cs = Some IOXS_GOOD).

Lemma stamp_csdu {E} cr inputs csdu :
  cr_sound cr → length csdu = cl_data_length cr → length inputs = cl_data_length cr →
  ∃ c1 c2, stamp_objects (E := E) csdu inputs (cl_objects cr) = Ok c1 ∧
    stamp_iocs (E := E) c1 (cl_iocs cr) = Ok c2 ∧ length c2 = cl_data_length cr ∧
    provides cr inputs c2.
Proof.
  intros ([Hnd Hin] & _ & Hiops) Hl Hli. unfold footprint in *.
  apply list.NoDup_app in Hnd as (Hnd1 & Hd & _). apply Forall_app in Hin as [Hin1 Hin2].
  destruct (stamp_objects_spec (E := E) inputs (cl_objects cr) csdu) as (c1 & H1 & Hl1 & _ & Ho1);
    [lia|done|by rewrite Hl|done|].
  destruct (stamp_iocs_spec (E := E) (cl_iocs cr) c1) as (c2 & H2 & Hl2 & Hout & Hcs);
    [by rewrite Hl1, Hl|].
  exists c1, c2. split_and!; [done|done|lia|]. split; [|done].
  intros o Ho. destruct (Ho1 o Ho) as [Hdata Hio].
  assert (∀ i, i ∈ object_bytes o → c2 !! i = c1 !! i) as Hsame.
  { intros i Hi. apply Hout, Hd. apply list_elem_of_In, in_concat. exists (object_bytes o).
    split; apply list_elem_of_In; [|done]. by apply list_elem_of_fmap_2. }
  rewrite list.Forall_forall in Hiops. split.
  - intros i Hi. rewrite Hsame by (apply in_object_bytes; lia). by apply Hdata.
  - rewrite Hsame; [done|]. rewrite (Hiops o Ho). apply in_object_bytes. lia.
Qed.

Lemma cycle_advance cc step n :
  wrap16 (cc + wrap16 (step * wrap16 n)) = (cc + step * n) mod 65536.
Proof.
  unfold wrap16. rewrite Zplus_mod_idemp_r.
  rewrite <-(Zplus_mod_idemp_r (step * (n mod 65536))), Zmult_mod_idemp_r.
  by rewrite Zplus_mod_idemp_r.
Qed.

(** What the controller makes of the octets of a tick. *)
Definition provider_says (e : RtEngine) (problem : bool) (expirations : Z) (inputs : list Z)
    (rt : RtFrame) : Prop :=
  let cr := la_input_cr (en_layout e) in
  rf_frame_id rt = cl_frame_id cr ∧ rf_transfer_status rt = 0 ∧
  rf_cycle_counter rt = (en_cycle_counter e + cl_cycle_step cr * expirations) mod 65536 ∧
  ds_provider_run (rf_data_status rt) = true ∧ ds_data_valid (rf_data_status rt) = true ∧
  ds_station_ok (rf_data_status rt) = negb problem ∧
  (cl_data_length cr ≤ length (rf_csdu rt))%nat ∧ provides cr inputs (rf_csdu rt).

Lemma en_on_tick_says e problem expirations inputs :
  en_inv e → length inputs = cl_data_length (la_input_cr (en_layout e)) →
  ∃ e' frame rt, en_on_tick (E := Empty_set) e problem expirations inputs = Ok (e', frame) ∧
    en_inv e' ∧ RtFrame_parse frame = Ok (rt_eth (en_cpu_mac e) (en_our_mac e), rt) ∧
    en_cycle_counter e' = rf_cycle_counter rt ∧ provider_says e problem expirations inputs rt.
Proof.
  intros Hi Hli. unfold provider_says. cbn zeta. pose proof Hi as [Hin Hout [Hm Hc] Htx Hcs Hrx Hio Hics Harm].
  set (cr := la_input_cr (en_layout e)) in *.
  destruct (stamp_csdu (E := Empty_set) cr inputs (en_tx_csdu e) Hin Hcs Hli)
    as (c1 & c2 & H1 & H2 & Hl & Hp).
  unfold en_on_tick. fold cr. rewrite H1. cbn [obind]. rewrite H2. cbn [obind].
  rewrite cycle_advance. set (cc := _ mod 65536).
  set (ds := if problem then _ else _). set (rt := {| rf_frame_id := _ |}).
  assert (length (rf_csdu rt) = cl_data_length cr) as Hlr by done.
  rewrite (RtFrame_write_wire rt (en_tx e)) by (done || by rewrite Hlr, Htx). rewrite Hlr.
  pose proof (length_RtFrame_wire rt _ _ Hc Hm) as Hlw. rewrite Hlr in Hlw.
  unfold slice. rewrite decide_True by (rewrite length_app; lia). cbn [obind].
  rewrite Nat.sub_0_r, drop_0, <-Hlw, take_app_length.
  do 3 eexists. split; [done|]. split.
  { split; try done. cbn [en_tx en_layout]. rewrite length_app, length_drop, Hlw, Htx.
    fold cr. lia. }
  split.
  { apply RtFrame_parse_wire; [done..|]. split; [apply Hin|]. cbn. unfold cc, u16.
    apply Z.mod_pos_bound. lia. }
  cbn [rf_frame_id rf_transfer_status rf_cycle_counter rf_data_status rf_csdu en_cycle_counter].
  split_and!; try done; [by destruct problem..| |].
  - rewrite length_padded. cbn. lia.
  - destruct Hp as [Ho Hcs']. unfold padded.
    assert (∀ i x, c2 !! i = Some x → (c2 ++ replicate (CSDU_MIN - length c2) 0) !! i = Some x)
      as Hpad by (intros i x Hx; by apply lookup_app_l_Some).
    split; [|by auto]. intros o Hoin. destruct (Ho o Hoin) as [Hd Hg]. split; [|by auto].
    intros i Hi'. rewrite <-Hd by done. rewrite lookup_app_l; [done|].
    apply lookup_lt_Some in Hg. destruct Hin as (_ & _ & Hall).
    rewrite list.Forall_forall in Hall. rewrite (Hall o Hoin) in Hg. lia.
Qed.

(** Every tick produces one well-formed provider frame.  Given an input
    image of the negotiated length the engine does not panic, keeps its
    invariant, and returns octets that the controller parses to a frame from
    our address to the controller's, under the input CR's frame id, with the
    cycle counter advanced by the cycle step times the number of expirations
    modulo 2^16, with the station-problem bit following the problem flag, and
    with a C-SDU that holds the application's data under every IO data object
    and GOOD in every IOPS and IOCS octet. *)
Theorem provider_frame e problem expirations inputs :
  en_inv e → length inputs = cl_data_length (la_input_cr (en_layout e)) →
  ∃ e' frame rt, en_on_tick (E := Empty_set) e problem expirations inputs = Ok (e', frame) ∧
    en_inv e' ∧ RtFrame_parse frame = Ok (rt_eth (en_cpu_mac e) (en_our_mac e), rt) ∧
    en_cycle_counter e' = rf_cycle_counter rt ∧ provider_says e problem expirations inputs rt.
Proof. apply en_on_tick_says. Qed.

(** ** The consumer side *)

(** The GOOD bit of a status octet. *)
Definition status_good (csdu : list Z) (off : nat) : bool :=
  match csdu !! off with Some b => bool_decide (Z.land b 0x80 ≠ 0) | None => false end.

(** Both status loops, over their octet offsets. *)
Fixpoint read_status {E} (csdu : list Z) (good : list bool) (i : nat) (offs : list nat) :
    outcome E (list bool) :=
  match offs with
  | [] => Ok good
  | off :: offs =>
    let! b := idx csdu off in
    let! good := set_at good i (bool_decide (Z.land b 0x80 ≠ 0)) in
    read_status csdu good (S i) offs
  end.

Lemma read_iops_status {E} csdu objs : ∀ good i,
  read_iops (E := E) csdu good i objs = read_status csdu good i (ob_iops_off <$> objs).
Proof. induction objs as [|o objs IH]; intros; [done|]. cbn. by setoid_rewrite IH. Qed.

Lemma read_iocs_status {E} csdu css : ∀ good i,
  read_iocs (E := E) csdu good i css = read_status csdu good i (cs_iocs_off <$> css).
Proof. induction css as [|o css IH]; intros; [done|]. cbn. by setoid_rewrite IH. Qed.

Lemma read_status_spec {E} csdu offs : ∀ front rest,
  length rest = length offs → Forall (in_cr (length csdu)) offs →
  read_status (E := E) csdu (front ++ rest) (length front) offs =
  Ok (front ++ (status_good csdu <$> offs)).
Proof.
  induction offs as [|off offs IH]; intros front rest Hl Hin.
  { destruct rest; [done|discriminate Hl]. }
  destruct rest as [|r rest]; [discriminate Hl|].
  apply Forall_cons_1 in Hin as [Ho Hin]. unfold in_cr in Ho. cbn [read_status].
  destruct (lookup_lt_is_Some_2 csdu off Ho) as [b Hb].
  rewrite (proj2 (idx_Ok csdu off b) Hb). cbn [obind]. unfold set_at.
  rewrite decide_True by (rewrite length_app; cbn; lia). cbn [obind].
  rewrite insert_app_r_alt, Nat.sub_diag by lia. cbn [insert list_insert].
  specialize (IH (front ++ [bool_decide (Z.land b 0x80 ≠ 0)]) rest).
  rewrite length_app, Nat.add_comm, <-!app_assoc in IH. cbn [length Nat.add app] in IH.
  cbn [length] in Hl.
  rewrite IH by (done || lia). cbn [fmap list_fmap]. unfold status_good at 2. by rewrite Hb.
Qed.

Lemma object_iops_in cr :
  cr_sound cr → Forall (in_cr (cl_data_length cr)) (ob_iops_off <$> cl_objects cr).
Proof.
  intros ([_ Hin] & _ & Hiops). apply Forall_app in Hin as [Hin _].
  rewrite list.Forall_forall in Hin. rewrite list.Forall_forall in Hiops.
  apply list.Forall_forall. intros i Hi. apply list_elem_of_fmap in Hi as (o & -> & Ho). apply Hin, list_elem_of_In, in_concat.
  exists (object_bytes o). split; apply list_elem_of_In; [by apply list_elem_of_fmap_2|].
  apply in_object_bytes. rewrite (Hiops o Ho). lia.
Qed.

Lemma read_valid {E} cr csdu old iops iocs :
  cr_sound cr → length old = cl_data_length cr → (cl_data_length cr ≤ length csdu)%nat →
  length iops = length (cl_objects cr) → length iocs = length (cl_iocs cr) →
  (let! src := slice csdu 0 (cl_data_length cr) in
   let! new := copy_at old 0 src in
   let! iops := read_iops new iops 0 (cl_objects cr) in
   let! iocs := read_iocs new iocs 0 (cl_iocs cr) in
   Ok (E := E) (new, iops, iocs)) =
  Ok (take (cl_data_length cr) csdu,
      status_good csdu <$> (ob_iops_off <$> cl_objects cr),
      status_good csdu <$> (cs_iocs_off <$> cl_iocs cr)).
Proof.
  intros Hs Ho Hl Hi Hc. pose proof (object_iops_in cr Hs) as Hio.
  destruct Hs as ([_ Hin] & _ & _). apply Forall_app in Hin as [_ Hin].
  unfold slice. rewrite decide_True by lia. cbn [obind]. rewrite Nat.sub_0_r, drop_0.
  set (new := take _ csdu). assert (length new = cl_data_length cr) as Hn
    by (subst new; rewrite length_take; lia).
  unfold copy_at. rewrite decide_True by lia. cbn [obind].
  rewrite take_0, drop_ge, app_nil_r by lia. cbn [app].
  assert (∀ offs, Forall (in_cr (cl_data_length cr)) offs →
    status_good new <$> offs = status_good csdu <$> offs) as Heq.
  { intros offs Hoffs. apply list_fmap_ext. intros i off Hoff.
    rewrite list.Forall_forall in Hoffs. unfold status_good, new.
    rewrite lookup_take_lt; [done|]. apply Hoffs. by eapply list_elem_of_lookup_2. }
  rewrite read_iops_status, (read_status_spec new _ [] iops)
    by (rewrite ?length_fmap, ?Hn; done). cbn [obind app].
  rewrite read_iocs_status, (read_status_spec new _ [] iocs)
    by (rewrite ?length_fmap, ?Hn; done). cbn [obind app].
  by rewrite !Heq.
Qed.

(** [frame] is a frame of the controller on the output CR. *)
Definition addressed (e : RtEngine) (eth : EthHeader) (rt : RtFrame) : Prop :=
  eth_src eth = en_cpu_mac e ∧ rf_frame_id rt = cl_frame_id (la_output_cr (en_layout e)).

(** What the application sees of the outputs. *)
Definition output_view (e : RtEngine) : list Z * list bool * list bool :=
  (en_rx_csdu e, en_rx_iops_good e, en_rx_iocs_good e).

Lemma set_en_stats_inv e s : en_inv e → en_inv (set_en_stats e s).
Proof. by intros []. Qed.

Lemma en_on_frame_accepts {E} e eth rt frame now :
  en_inv e → RtFrame_parse frame = Ok (eth, rt) → addressed e eth rt →
  rf_transfer_status rt = 0 →
  (cl_data_length (la_output_cr (en_layout e)) ≤ length (rf_csdu rt))%nat →
  let cr := la_output_cr (en_layout e) in
  let valid := ds_data_valid (rf_data_status rt) in
  ∃ e', en_on_frame (E := E) e frame now =
      Ok (e', RxAccepted (ds_provider_run (rf_data_status rt)) (ds_primary (rf_data_status rt))
                         valid) ∧
    en_inv e' ∧ en_last_rx e' = Some now ∧ en_watchdog_state e' = WsOk ∧
    output_view e' =
      if valid then (take (cl_data_length cr) (rf_csdu rt),
                     status_good (rf_csdu rt) <$> (ob_iops_off <$> cl_objects cr),
                     status_good (rf_csdu rt) <$> (cs_iocs_off <$> cl_iocs cr))
      else output_view e.
Proof.
  intros Hi Hp [Hsrc Hid] Hts Hl. cbn zeta. unfold en_on_frame. rewrite Hp.
  rewrite !decide_False by (tauto || lia). set (stats := match en_last_rx_cycle_counter e with
    Some _ => _ | None => _ end).
  destruct (ds_data_valid (rf_data_status rt)).
  - destruct Hi as [Hin Hout Hm Htx Hcs Hrx Hio Hics Harm].
    pose proof (read_valid (E := E) _ (rf_csdu rt) (en_rx_csdu e) _ _ Hout Hrx Hl Hio Hics) as Hv.
    repeat (apply obind_Ok in Hv as (? & Hs & Hv); rewrite Hs; clear Hs; cbn [obind]).
    injection Hv as -> -> ->. eexists. split; [done|]. split; [|done].
    split; cbn; rewrite ?length_fmap; try done. by rewrite length_take, Nat.min_l.
  - cbn [obind]. eexists. split; [done|]. split; [|done]. by destruct Hi.
Qed.

(** No step of the engine changes its layout or its addresses. *)
Lemma en_on_frame_layout {E} e frame now e' v :
  en_on_frame (E := E) e frame now = Ok (e', v) →
  en_layout e' = en_layout e ∧
  match v with RxAccepted _ _ _ => True | _ => e' = set_en_stats e (en_stats e') end.
Proof.
  unfold en_on_frame. intros H. destruct (RtFrame_parse frame) as [[eth rt]| |]; [| |done].
  2: { by injection H as <- <-. }
  repeat (case_decide; [by injection H as <- <-|]).
  apply obind_Ok in H as ([[[? ?] ?] ?] & _ & H). by injection H as <- <-.
Qed.

Lemma en_on_tick_layout {E} e problem n inputs e' frame :
  en_on_tick (E := E) e problem n inputs = Ok (e', frame) →
  en_layout e' = en_layout e ∧ output_view e' = output_view e ∧ en_last_rx e' = en_last_rx e ∧
  en_watchdog_state e' = en_watchdog_state e.
Proof.
  unfold en_on_tick. intros H. apply obind_Ok in H as (c1 & _ & H).
  apply obind_Ok in H as (c2 & _ & H). destruct (RtFrame_write _ _ _ _) as [[tx m]| |]; [|done|done].
  apply obind_Ok in H as (out & _ & H). by injection H as <- <-.
Qed.

(** Any octets leave the engine in order. *)
(** What is received is octets. *)
Lemma en_on_frame_u8 {E} e frame now e' v :
  Forall u8 frame → Forall u8 (en_rx_csdu e) → en_on_frame (E := E) e frame now = Ok (e', v) →
  Forall u8 (en_rx_csdu e').
Proof.
  unfold en_on_frame. intros Hf He H. destruct (RtFrame_parse frame) as [[eth rt]| |] eqn:Hp; [| |done].
  2: { by injection H as <- <-. }
  apply RtFrame_parse_u8 in Hp; [|done].
  repeat (case_decide; [by injection H as <- <-|]).
  apply obind_Ok in H as ([[[stats csdu] iops] iocs] & Hx & H). injection H as <- _. cbn.
  destruct (ds_data_valid _); [|by injection Hx as _ <- _ _].
  apply obind_Ok in Hx as (src & Hs & Hx). apply obind_Ok in Hx as (c & Hc & Hx).
  apply obind_Ok in Hx as (? & _ & Hx). apply obind_Ok in Hx as (? & _ & Hx). injection Hx as _ <- _ _.
  apply (slice_u8 _ _ _ _ Hp) in Hs. apply copy_at_Ok in Hc as [_ ->].
  rewrite !Forall_app. split_and!; [by apply Forall_take|done|by apply Forall_drop].
Qed.

Lemma en_on_frame_total {E} e frame now : en_inv e →
  ∃ e' v, en_on_frame (E := E) e frame now = Ok (e', v) ∧ en_inv e'.
Proof.
  intros Hi. pose proof (RtFrame_parse_no_panic frame) as Hnp.
  destruct (RtFrame_parse frame) as [[eth rt]|err|] eqn:Hp; [| |done].
  2: { unfold en_on_frame. rewrite Hp. do 2 eexists. split; [done|]. by apply set_en_stats_inv. }
  destruct (decide ((eth_src eth = en_cpu_mac e ∧
    rf_frame_id rt = cl_frame_id (la_output_cr (en_layout e))) ∧ rf_transfer_status rt = 0 ∧
    (cl_data_length (la_output_cr (en_layout e)) ≤ length (rf_csdu rt))%nat)) as [(Ha & Ht & Hl)|Hn].
  - destruct (en_on_frame_accepts (E := E) e eth rt frame now Hi Hp Ha Ht Hl) as (e' & He & Hi' & _).
    by do 2 eexists.
  - unfold en_on_frame. rewrite Hp.
    repeat (case_decide; [do 2 eexists; split; [done|by apply set_en_stats_inv]|]).
    exfalso. apply Hn. split_and!; [apply dec_stable; tauto..|lia].
Qed.

Lemma check_watchdog_inv e now e' v :
  check_watchdog e now = (e', v) → en_inv e →
  en_inv e' ∧ en_layout e' = en_layout e ∧ output_view e' = output_view e ∧
  en_last_rx e' = en_last_rx e.
Proof.
  unfold check_watchdog. intros H [? ? ? ? ? ? ? ? Harm].
  destruct (en_last_rx e) as [t|] eqn:Hl.
  2: { injection H as <- <-. split_and!; [|done..]. split; try done. by rewrite Hl. }
  case_decide; [injection H as <- <-; split_and!; [split|..]; try done; cbn; by rewrite Hl|].
  destruct (en_watchdog_state e) eqn:Hw; injection H as <- <-; (split_and!; [split|..]); try done;
    cbn; by rewrite ?Hl, ?Hw.
Qed.

Lemma mark_outputs_stale_inv e :
  en_inv e → en_inv (mark_outputs_stale e).
Proof. intros []. split; try done. cbn. by rewrite length_replicate. Qed.

(** C9: the verdict on any received octets and its effect are exactly these.
    The engine never panics and keeps its invariant.  A frame is accepted iff
    it parses, comes from the controller under the output CR's frame id, has
    transfer status 0 and a C-SDU of at least the negotiated length; accepting
    it restarts the watchdog, and its data replaces the output view, statuses
    included, iff its DataValid bit is set.  Any other octets leave everything
    but the counters unchanged, and the verdict says why. *)
Theorem consumer_verdict e frame now :
  en_inv e →
  let cr := la_output_cr (en_layout e) in
  ∃ e' v, en_on_frame (E := Empty_set) e frame now = Ok (e', v) ∧ en_inv e' ∧
  match v with
  | RxAccepted run primary valid =>
      ∃ eth rt, RtFrame_parse frame = Ok (eth, rt) ∧ addressed e eth rt ∧
        rf_transfer_status rt = 0 ∧ (cl_data_length cr ≤ length (rf_csdu rt))%nat ∧
        valid = ds_data_valid (rf_data_status rt) ∧ run = ds_provider_run (rf_data_status rt) ∧
        primary = ds_primary (rf_data_status rt) ∧
        en_last_rx e' = Some now ∧ en_watchdog_state e' = WsOk ∧
        output_view e' =
          if valid then (take (cl_data_length cr) (rf_csdu rt),
                         status_good (rf_csdu rt) <$> (ob_iops_off <$> cl_objects cr),
                         status_good (rf_csdu rt) <$> (cs_iocs_off <$> cl_iocs cr))
          else output_view e
  | RxIgnored =>
      e' = set_en_stats e (en_stats e') ∧
      ∃ eth rt, RtFrame_parse frame = Ok (eth, rt) ∧ ¬ addressed e eth rt
  | RxDropped r =>
      e' = set_en_stats e (en_stats e') ∧
      match r with
      | DrMalformed => ∃ err, RtFrame_parse frame = Err err
      | DrTransferStatus s =>
          s ≠ 0 ∧ ∃ eth rt, RtFrame_parse frame = Ok (eth, rt) ∧ addressed e eth rt ∧
                            rf_transfer_status rt = s
      | DrShortCsdu have need =>
          (have < need)%nat ∧ need = cl_data_length cr ∧
          ∃ eth rt, RtFrame_parse frame = Ok (eth, rt) ∧ addressed e eth rt ∧
                    have = length (rf_csdu rt)
      end
  end.
Proof.
  intros Hi. cbn zeta. pose proof (RtFrame_parse_no_panic frame) as Hnp.
  destruct (RtFrame_parse frame) as [[eth rt]|err|] eqn:Hp; [| |done].
  2:{ unfold en_on_frame. rewrite Hp. do 2 eexists. split; [done|].
      split; [by apply set_en_stats_inv|]. split; [done|by eexists]. }
  destruct (decide (eth_src eth ≠ en_cpu_mac e ∨
    rf_frame_id rt ≠ cl_frame_id (la_output_cr (en_layout e)))) as [Ha|Ha].
  { unfold en_on_frame. rewrite Hp, decide_True by done. do 2 eexists. split; [done|].
    split; [by apply set_en_stats_inv|]. split; [done|]. do 2 eexists. split; [done|].
    unfold addressed. tauto. }
  assert (addressed e eth rt) as Had by (split; apply dec_stable; tauto).
  destruct (decide (rf_transfer_status rt ≠ 0)) as [Ht|Ht].
  { unfold en_on_frame. rewrite Hp, decide_False, decide_True by done. do 2 eexists.
    split; [done|]. split; [by apply set_en_stats_inv|]. split; [done|]. split; [done|].
    by do 2 eexists. }
  destruct (decide (length (rf_csdu rt) < cl_data_length (la_output_cr (en_layout e)))%nat)
    as [Hs|Hs].
  { unfold en_on_frame. rewrite Hp, !decide_False, decide_True by done. do 2 eexists.
    split; [done|]. split; [by apply set_en_stats_inv|]. split; [done|]. split_and!; [done|done|].
    by do 2 eexists. }
  apply dec_stable in Ht.
  destruct (en_on_frame_accepts (E := Empty_set) e eth rt frame now Hi Hp Had Ht ltac:(lia))
    as (e' & He & Hi' & Hl & Hw & Hv).
  do 2 eexists. split; [done|]. split; [done|]. exists eth, rt. split_and!; (done || lia).
Qed.

(** ** The watchdog *)

Fixpoint watch (e : RtEngine) (ts : list Z) : RtEngine * list WatchdogVerdict :=
  match ts with
  | [] => (e, [])
  | t :: ts =>
    let (e, v) := check_watchdog e t in
    let (e, vs) := watch e ts in
    (e, v :: vs)
  end.

Lemma watch_ok ts : ∀ e t0,
  en_last_rx e = Some t0 → 0 ≤ cl_watchdog (la_output_cr (en_layout e)) →
  Forall (λ t, t - t0 ≤ cl_watchdog (la_output_cr (en_layout e))) ts → en_watchdog_state e = WsOk →
  watch e ts = (e, replicate (length ts) WvOk).
Proof.
  induction ts as [|t ts IH]; intros e t0 Hl Hw Ht Hs; [done|].
  apply Forall_cons_1 in Ht as [H1 Ht]. cbn [watch]. unfold check_watchdog. rewrite Hl.
  rewrite decide_True by lia. assert (set_watchdog e WsOk = e) as -> by (destruct e; by cbn in *; subst).
  by rewrite (IH e t0).
Qed.

Lemma watch_stopped ts : ∀ e t0,
  en_last_rx e = Some t0 → en_watchdog_state e = WsExpired →
  Forall (λ t, cl_watchdog (la_output_cr (en_layout e)) < t - t0) ts →
  0 ≤ cl_watchdog (la_output_cr (en_layout e)) →
  watch e ts = (e, replicate (length ts) WvStopped).
Proof.
  induction ts as [|t ts IH]; intros e t0 Hl Hs Ht Hw; [done|].
  apply Forall_cons_1 in Ht as [H1 Ht]. cbn [watch]. unfold check_watchdog. rewrite Hl, Hs.
  rewrite decide_False by lia. by rewrite (IH e t0).
Qed.

Lemma watch_app ts1 : ∀ e ts2,
  watch e (ts1 ++ ts2) =
  let (e1, v1) := watch e ts1 in let (e2, v2) := watch e1 ts2 in (e2, v1 ++ v2).
Proof.
  induction ts1 as [|t ts1 IH]; intros e ts2; cbn [watch app].
  { by destruct (watch e ts2). }
  destruct (check_watchdog e t) as [e0 v]. rewrite IH. destruct (watch e0 ts1) as [e1 v1].
  by destruct (watch e1 ts2).
Qed.

(** The watchdog reports the loss of the controller exactly once.  After
    an accepted frame at [t0], checks within the watchdog time answer Ok, the
    first check beyond it answers Expired and counts one expiration, and every
    later one answers Stopped and counts nothing. *)
Theorem watchdog_reports_once e t0 early late :
  en_last_rx e = Some t0 → en_watchdog_state e = WsOk →
  0 ≤ cl_watchdog (la_output_cr (en_layout e)) →
  Forall (λ t, t - t0 ≤ cl_watchdog (la_output_cr (en_layout e))) early →
  Forall (λ t, cl_watchdog (la_output_cr (en_layout e)) < t - t0) late →
  ∃ e', watch e (early ++ late) =
    (e', replicate (length early) WvOk
         ++ match late with [] => [] | _ :: l => WvExpired :: replicate (length l) WvStopped end) ∧
    rs_watchdog_expirations (en_stats e') =
      match late with
      | [] => rs_watchdog_expirations (en_stats e)
      | _ => wrap64 (rs_watchdog_expirations (en_stats e) + 1)
      end ∧
    output_view e' = output_view e.
Proof.
  intros Hl Hs Hw He Hlate. rewrite watch_app, (watch_ok early e t0) by done.
  destruct late as [|t late]; [by eexists|].
  apply Forall_cons_1 in Hlate as [Ht Hlate]. cbn [watch]. unfold check_watchdog.
  rewrite Hl, Hs, decide_False by lia.
  set (e1 := set_watchdog _ _). rewrite (watch_stopped late e1 t0) by done. by eexists.
Qed.

(** ** Witnesses *)

Definition sample_cpu : MacAddr := Mac [0x02; 0; 0; 0; 0; 0x02].
Definition sample_engine : RtEngine := RtEngine_new sample_layout sample_mac sample_cpu RtStats_default.

Lemma sample_engine_inv : en_inv sample_engine.
Proof.
  apply (en_inv_new sample_ar_params sample_model); [apply sample_layout_ok|by_decide..| |];
    unfold wf_mac; by_decide.
Qed.

Definition sample_inputs : list Z := zrange 1 (cl_data_length (la_input_cr sample_layout)).

Lemma provider_frame_witness :
  ∃ e' frame rt,
    en_on_tick (E := Empty_set) sample_engine true 3 sample_inputs = Ok (e', frame) ∧ en_inv e' ∧
    RtFrame_parse frame = Ok (rt_eth sample_cpu sample_mac, rt) ∧
    en_cycle_counter e' = rf_cycle_counter rt ∧ provider_says sample_engine true 3 sample_inputs rt.
Proof.
  apply (provider_frame sample_engine true 3 sample_inputs).
  - apply sample_engine_inv.
  - reflexivity.
Defined.

(** A frame of the controller, with the GOOD bit on every status octet. *)
Definition sample_cpu_frame : list Z :=
  RtFrame_wire {| rf_frame_id := cl_frame_id (la_output_cr sample_layout);
                  rf_csdu := replicate (cl_data_length (la_output_cr sample_layout)) 0x80;
                  rf_cycle_counter := 32; rf_data_status := RUN_PRIMARY_VALID_OK;
                  rf_transfer_status := 0 |} sample_mac sample_cpu.

Lemma consumer_verdict_witness :
  ∃ e', en_on_frame (E := Empty_set) sample_engine sample_cpu_frame 5 =
      Ok (e', RxAccepted true true true) ∧ en_inv e' ∧ en_last_rx e' = Some 5 ∧
    en_rx_iops_good e' = [true].
Proof.
  destruct (consumer_verdict sample_engine sample_cpu_frame 5 sample_engine_inv)
    as (e' & v & He & Hi & Hv).
  exists e'. assert (v = RxAccepted true true true ∧ en_rx_iops_good e' = [true]) as [-> Hg].
  { revert He. vm_compute. by intros [= <- <-]. }
  split; [exact He|]. split; [exact Hi|]. split; [|exact Hg].
  destruct Hv as (? & ? & _ & _ & _ & _ & _ & _ & _ & Hl & _). exact Hl.
Defined.

Definition sample_running : RtEngine :=
  match en_on_frame (E := Empty_set) sample_engine sample_cpu_frame 5 with
  | Ok (e, _) => e
  | _ => sample_engine
  end.

Lemma watchdog_reports_once_witness :
  let w := cl_watchdog (la_output_cr sample_layout) in
  ∃ e', watch sample_running ([6; 5 + w] ++ [6 + w; 7 + w; 9 + w]) =
      (e', [WvOk; WvOk] ++ [WvExpired; WvStopped; WvStopped]) ∧
    rs_watchdog_expirations (en_stats e') = 1 ∧ output_view e' = output_view sample_running.
Proof.
  cbn zeta. apply (watchdog_reports_once sample_running 5
    [6; 5 + cl_watchdog (la_output_cr sample_layout)]
    [6 + cl_watchdog (la_output_cr sample_layout); 7 + cl_watchdog (la_output_cr sample_layout);
     9 + cl_watchdog (la_output_cr sample_layout)]).
  - vm_compute. reflexivity.
  - vm_compute. reflexivity.
  - vm_compute. discriminate.
  - by_decide.
  - by_decide.
Defined.
