(* ===== verification/Image.v ===== *)
(** * Image: the I/O image shared by the application and the cyclic thread

    Models [crates/pnio/src/rt/image.rs].  Every accessor holds the locks it
    needs for its whole body (always in the order cells, inputs, outputs), so
    each one is a single step on the image; a [try_lock] of the cyclic side
    may fail, which is the [contended] argument.  Poisoning is ignored by the
    application side, as in the code, and is a failed [try_lock] on the cyclic
    side. *)

From S2P Require Import Prelude Eth Rpc Block Connect RtFrame Layout Engine.
Local Open Scope Z_scope.

(** ** Data *)

(** rt/image.rs:23-34 WatchdogState *)
Inductive ImgWatchdog := IwNotArmed | IwOk | IwExpired.
#[global] Instance ImgWatchdog_eq_dec : EqDecision ImgWatchdog.
Proof. solve_decision. Defined.

(** rt/image.rs:36-48 Freshness *)
Inductive Freshness := FrNoData | FrFresh | FrStopped | FrStale.

(** rt/image.rs:50-64 Validity *)
Record Validity := {
  va_provider_run : bool; va_primary : bool; va_watchdog : ImgWatchdog;
  va_last_rx_age : option Z; va_cycle : Z
}.
Definition Validity_default : Validity :=
  {| va_provider_run := false; va_primary := false; va_watchdog := IwNotArmed;
     va_last_rx_age := None; va_cycle := 0 |}.

(** rt/image.rs:66-79 Validity::freshness *)
Definition freshness (v : Validity) : Freshness :=
  if decide (va_watchdog v = IwNotArmed) then FrNoData
  else if decide (va_watchdog v = IwExpired) then FrStale
  else if negb (va_provider_run v) then FrStopped
  else FrFresh.

(** rt/image.rs:81-118 ImageError *)
Inductive ImageError :=
| ImUnknownSubmodule (slot subslot : Z)
| ImLengthMismatch (expected got : nat)
| ImNoInput (slot subslot : Z)
| ImNoOutput (slot subslot : Z).

(** rt/image.rs:120-138 IoImage *)
Record IoImage := {
  im_cells : list Cell; im_inputs : list Z; im_csdu : list Z; im_validity : Validity
}.

(** ** Operations *)

(** rt/image.rs:141-152 IoImage::new *)
Definition IoImage_new (layout : Layout) : IoImage :=
  {| im_cells := la_cells layout;
     im_inputs := replicate (cl_data_length (la_input_cr layout)) 0;
     im_csdu := replicate (cl_data_length (la_output_cr layout)) 0;
     im_validity := Validity_default |}.
(** rt/image.rs:154-165 IoImage::empty *)
Definition IoImage_empty : IoImage :=
  {| im_cells := []; im_inputs := []; im_csdu := []; im_validity := Validity_default |}.
(** rt/image.rs:167-180 IoImage::rebuild *)
Definition im_rebuild (img : IoImage) (layout : Layout) : IoImage :=
  {| im_cells := la_cells layout;
     im_inputs := replicate (cl_data_length (la_input_cr layout)) 0;
     im_csdu := replicate (cl_data_length (la_output_cr layout)) 0;
     im_validity := Validity_default |}.
(** rt/image.rs:182-199 IoImage::clear *)
Definition im_clear (img : IoImage) : IoImage :=
  {| im_cells := []; im_inputs := []; im_csdu := []; im_validity := im_validity img |}.

(** rt/image.rs:215-218 IoImage::write_inputs *)
Definition find_cell (img : IoImage) (slot subslot : Z) : outcome ImageError Cell :=
  ok_or (List.find (λ c, bool_decide (ce_slot c = slot ∧ ce_subslot c = subslot)) (im_cells img))
        (ImUnknownSubmodule slot subslot).

(** rt/image.rs:206-238 IoImage::write_inputs *)
Definition write_inputs (img : IoImage) (slot subslot : Z) (bytes : list Z) :
    outcome ImageError IoImage :=
  let! cell := find_cell img slot subslot in
  let! off := ok_or (ce_input_off cell) (ImNoInput slot subslot) in
  let len := ce_input_len cell in
  if decide (length bytes ≠ len) then Err (ImLengthMismatch len (length bytes)) else
  if decide (length (im_inputs img) < off + len)%nat
  then Err (ImLengthMismatch len (length (im_inputs img) - off)) else
  let! inputs := copy_at (im_inputs img) off bytes in
  Ok {| im_cells := im_cells img; im_inputs := inputs; im_csdu := im_csdu img;
        im_validity := im_validity img |}.

(** rt/image.rs:240-275 IoImage::read_outputs *)
Definition read_outputs {T} (img : IoImage) (slot subslot : Z) (f : list Z → Validity → T) :
    outcome ImageError T :=
  let! cell := find_cell img slot subslot in
  let! off := ok_or (ce_output_off cell) (ImNoOutput slot subslot) in
  let len := ce_output_len cell in
  if decide (length (im_csdu img) < off + len)%nat
  then Err (ImLengthMismatch len (length (im_csdu img) - off)) else
  let! bytes := slice (im_csdu img) off (off + len) in
  Ok (f bytes (im_validity img)).

(** Copy as much of [src] as fits the front of [dst]. *)
Definition copy_front {E} (dst src : list Z) : outcome E (list Z) :=
  let n := Nat.min (length dst) (length src) in
  let! s := slice src 0 n in copy_at dst 0 s.

(** rt/image.rs:277-284 IoImage::snapshot_outputs *)
Definition snapshot_outputs {E} (img : IoImage) (dst : list Z) : outcome E (list Z * Validity) :=
  let! dst := copy_front dst (im_csdu img) in Ok (dst, im_validity img).

(** rt/image.rs:294-302 IoImage::set_validity *)
Definition set_validity (img : IoImage) (v : Validity) : IoImage :=
  {| im_cells := im_cells img; im_inputs := im_inputs img; im_csdu := im_csdu img;
     im_validity := v |}.

(** rt/image.rs:304-316 IoImage::rt_snapshot_inputs *)
Definition rt_snapshot_inputs {E} (img : IoImage) (contended : bool) (dst : list Z) :
    outcome E (list Z * bool) :=
  if contended then Ok (dst, false)
  else let! dst := copy_front dst (im_inputs img) in Ok (dst, true).

(** rt/image.rs:318-331 IoImage::rt_publish *)
Definition rt_publish {E} (img : IoImage) (contended : bool) (csdu : list Z) (v : Validity) :
    outcome E (IoImage * bool) :=
  if contended then Ok (img, false)
  else
    let! c := copy_front (im_csdu img) csdu in
    Ok ({| im_cells := im_cells img; im_inputs := im_inputs img; im_csdu := c;
           im_validity := v |}, true).

(** rt/image.rs:333-344 IoImage::rt_set_validity *)
Definition rt_set_validity (img : IoImage) (contended : bool) (v : Validity) : IoImage * bool :=
  if contended then (img, false) else (set_validity img v, true).

(** ** The image of a layout *)

Record im_ok (la : Layout) (img : IoImage) : Prop := {
  io_cells : im_cells img = la_cells la;
  io_inputs : length (im_inputs img) = cl_data_length (la_input_cr la);
  io_csdu : length (im_csdu img) = cl_data_length (la_output_cr la)
}.

Lemma im_ok_rebuild img la : im_ok la (im_rebuild img la).
Proof. split; cbn; rewrite ?length_replicate; done. Qed.

Lemma find_cell_in img slot subslot c :
  find_cell img slot subslot = Ok c →
  c ∈ im_cells img ∧ ce_slot c = slot ∧ ce_subslot c = subslot.
Proof.
  unfold find_cell. destruct (List.find _ _) as [c'|] eqn:Hf; [|done]. intros [= ->].
  apply find_some in Hf as [Hin Hk]. apply bool_decide_eq_true in Hk as [? ?].
  by rewrite list_elem_of_In.
Qed.

Lemma copy_front_same {E} dst src :
  length dst = length src → copy_front (E := E) dst src = Ok src.
Proof.
  intros Hl. unfold copy_front. rewrite Hl, Nat.min_id. unfold slice.
  rewrite decide_True by lia. cbn [obind]. rewrite Nat.sub_0_r, drop_0, firstn_all.
  unfold copy_at. rewrite decide_True by lia. rewrite take_0, drop_ge, app_nil_r by lia. done.
Qed.

(** The region of a submodule in a buffer. *)
Definition region (off len : nat) (b : list Z) : list Z := take len (drop off b).

Lemma region_ext off len a b :
  (∀ i, (off ≤ i < off + len)%nat → a !! i = b !! i) → region off len a = region off len b.
Proof.
  intros H. unfold region. apply list_eq. intros i.
  destruct (decide (i < len)%nat) as [Hi|Hi].
  - rewrite !lookup_take_lt, !lookup_drop by done. apply H. lia.
  - rewrite !lookup_take_ge by lia. done.
Qed.

Lemma region_copy {E} b off src b' :
  copy_at (E := E) b off src = Ok b' → region off (length src) b' = src.
Proof.
  intros Hc. apply list_eq. intros i. unfold region. destruct (decide (i < length src)%nat) as [Hi|Hi].
  - rewrite lookup_take_lt, lookup_drop, (copy_at_lookup _ _ _ _ _ Hc), decide_True by lia.
    f_equal. lia.
  - rewrite lookup_take_ge by lia. symmetry. apply lookup_ge_None. lia.
Qed.

(** What a successful [write_inputs] did. *)
Lemma write_inputs_Ok img slot subslot bytes img' :
  write_inputs img slot subslot bytes = Ok img' →
  ∃ c off, find_cell img slot subslot = Ok c ∧ ce_input_off c = Some off ∧
    length bytes = ce_input_len c ∧
    copy_at (E := ImageError) (im_inputs img) off bytes = Ok (im_inputs img') ∧
    im_cells img' = im_cells img ∧ im_csdu img' = im_csdu img ∧ im_validity img' = im_validity img.
Proof.
  unfold write_inputs. intros H. apply obind_Ok in H as (c & Hc & H).
  apply obind_Ok in H as (off & Hoff & H). destruct (ce_input_off c) as [o|] eqn:Ho; [|done].
  injection Hoff as ->. destruct (decide _) as [|Hl]; [done|]. destruct (decide _); [done|].
  apply obind_Ok in H as (inputs & Hin & [= <-]). exists c, off.
  split_and!; [done..|lia|done|done|done|done].
Qed.

Lemma seq_cons_eq a n b m : seq a (S n) = seq b (S m) → a = b ∧ n = m.
Proof.
  intros H. split; [by injection H|]. apply (f_equal length) in H. rewrite !length_seq in H. lia.
Qed.

(** The frame of a tick carries a submodule's region of the inputs. *)
Lemma provides_region params model la inputs csdu c off :
  Layout_from_ar params model = Ok la → unique_keys model → c ∈ la_cells la →
  ce_input_off c = Some off → cr_sound (la_input_cr la) → provides (la_input_cr la) inputs csdu →
  region off (ce_input_len c) csdu = region off (ce_input_len c) inputs ∧
  csdu !! (off + ce_input_len c)%nat = Some IOXS_GOOD.
Proof.
  intros Hla Hu Hc Hoff (_ & _ & Hiops) [Ho _].
  destruct (cell_object params model la DirInput c off Hla Hu Hc Hoff)
    as (o & Hin & _ & _ & Hb & _). unfold object_bytes in Hb. apply seq_cons_eq in Hb as [Hoff' Hlen].
  cbn [layout_cr cell_len] in Hin, Hlen. destruct (Ho o Hin) as [Hd Hg].
  rewrite list.Forall_forall in Hiops. rewrite (Hiops o Hin), Hoff', Hlen in Hg.
  rewrite Hoff', Hlen in Hd. split; [|done]. by apply region_ext.
Qed.

Lemma cell_in_bounds params model la dir c off :
  Layout_from_ar params model = Ok la → unique_keys model → c ∈ la_cells la →
  cell_off dir c = Some off →
  (off + cell_len dir c < cl_data_length (layout_cr dir la))%nat.
Proof.
  intros Hla Hu Hc Hoff.
  destruct (cell_object params model la dir c off Hla Hu Hc Hoff) as (o & Hin & _ & _ & Hb & _ & Hf).
  apply Forall_app in Hf as [Hf _]. unfold object_bytes in Hb. apply seq_cons_eq in Hb as [<- <-].
  apply object_bytes_bounds. rewrite list.Forall_forall in Hf. apply list.Forall_forall.
  intros i Hi. apply Hf. apply list_elem_of_In, in_concat. exists (object_bytes o).
  split; apply list_elem_of_In; [by apply list_elem_of_fmap_2|done].
Qed.

(** Another submodule's region is not touched by a write. *)
Lemma write_elsewhere {E} params model la c off c' off' b b' (bytes : list Z) :
  Layout_from_ar params model = Ok la → unique_keys model →
  c ∈ la_cells la → ce_input_off c = Some off → c' ∈ la_cells la → ce_input_off c' = Some off' →
  (ce_slot c, ce_subslot c) ≠ (ce_slot c', ce_subslot c') → length bytes = ce_input_len c →
  copy_at (E := E) b off bytes = Ok b' →
  region off' (ce_input_len c') b' = region off' (ce_input_len c') b.
Proof.
  intros Hla Hu Hc Hoff Hc' Hoff' Hne Hl Hcopy. apply region_ext. intros i Hi.
  rewrite (copy_at_lookup _ _ _ _ _ Hcopy), decide_False; [done|]. intros Hi'.
  destruct (cell_object params model la DirInput c off Hla Hu Hc Hoff)
    as (o & Hin & Hs & Hss & Hb & Hnd & _).
  destruct (cell_object params model la DirInput c' off' Hla Hu Hc' Hoff')
    as (o' & Hin' & Hs' & Hss' & Hb' & _).
  apply list.NoDup_app in Hnd as (Hnd & _). cbn [layout_cr cell_len] in *.
  eapply (object_bytes_disjoint _ o o' Hnd Hin Hin' ltac:(congruence) i).
  - rewrite Hb. apply elem_of_seq. lia.
  - rewrite Hb'. apply elem_of_seq. lia.
Qed.

(** ** Claims *)

(** C10: input data reaches the wire, and only where it belongs.  After a
    successful [write_inputs], the next uncontended snapshot and tick produce
    a frame that the controller parses and in which the submodule's region
    holds exactly the octets written, with a GOOD provider status behind
    them, while the region of every other submodule still holds what the
    application last wrote there. *)
Theorem input_reaches_wire params model la e img slot subslot bytes img' dst problem n :
  Layout_from_ar params model = Ok la → unique_keys model →
  en_inv e → en_layout e = la → im_ok la img →
  write_inputs img slot subslot bytes = Ok img' → length dst = cl_data_length (la_input_cr la) →
  ∃ snap e' frame eth rt c off,
    rt_snapshot_inputs (E := Empty_set) img' false dst = Ok (snap, true) ∧
    en_on_tick (E := Empty_set) e problem n snap = Ok (e', frame) ∧
    RtFrame_parse frame = Ok (eth, rt) ∧
    find_cell img slot subslot = Ok c ∧ ce_input_off c = Some off ∧
    region off (length bytes) (rf_csdu rt) = bytes ∧
    rf_csdu rt !! (off + length bytes)%nat = Some IOXS_GOOD ∧
    ∀ c' off', c' ∈ im_cells img → ce_input_off c' = Some off' →
      (ce_slot c', ce_subslot c') ≠ (slot, subslot) →
      region off' (ce_input_len c') (rf_csdu rt) = region off' (ce_input_len c') (im_inputs img).
Proof.
  intros Hla Hu He Hel [Hcells Hin _] Hw Hdst.
  destruct (write_inputs_Ok _ _ _ _ _ Hw) as (c & off & Hf & Hoff & Hl & Hcopy & _).
  destruct (find_cell_in _ _ _ _ Hf) as (Hc & Hs & Hss). rewrite Hcells in Hc.
  pose proof (copy_at_length _ _ _ _ Hcopy) as Hli.
  destruct (en_on_tick_says e problem n (im_inputs img') He) as (e' & frame & rt & Ht & _ & Hp & _ & Hsay);
    [by rewrite Hel, Hli|].
  destruct Hsay as (_ & _ & _ & _ & _ & _ & _ & Hprov). rewrite Hel in Hprov.
  assert (cr_sound (la_input_cr la)) as Hsound by (rewrite <-Hel; apply He).
  exists (im_inputs img'), e', frame. do 2 eexists. exists c, off.
  unfold rt_snapshot_inputs. rewrite copy_front_same by lia.
  split_and!; [done|done|exact Hp|done|done|..].
  - rewrite Hl. destruct (provides_region _ _ _ _ _ _ _ Hla Hu Hc Hoff Hsound Hprov) as [-> _].
    rewrite <-Hl. by eapply region_copy.
  - rewrite Hl. by apply (provides_region _ _ _ _ _ _ _ Hla Hu Hc Hoff Hsound Hprov).
  - intros c' off' Hc' Hoff' Hne. rewrite Hcells in Hc'.
    destruct (provides_region _ _ _ _ _ _ _ Hla Hu Hc' Hoff' Hsound Hprov) as [-> _].
    eapply (write_elsewhere params model la c off c' off'); try eassumption. congruence.
Qed.

(** Output data reaches the application.  When a valid frame of the
    controller has been accepted and published, reading a submodule's outputs
    returns exactly the octets the controller placed in its region of the
    C-SDU, together with the validity published with them. *)
Theorem output_reaches_application params model e img eth rt frame now v slot subslot c off :
  Layout_from_ar params model = Ok (en_layout e) → unique_keys model → en_inv e → im_ok (en_layout e) img →
  RtFrame_parse frame = Ok (eth, rt) → addressed e eth rt → rf_transfer_status rt = 0 →
  ds_data_valid (rf_data_status rt) = true →
  (cl_data_length (la_output_cr (en_layout e)) ≤ length (rf_csdu rt))%nat →
  find_cell img slot subslot = Ok c → ce_output_off c = Some off →
  ∃ e' verdict img',
    en_on_frame (E := Empty_set) e frame now = Ok (e', verdict) ∧
    rt_publish (E := Empty_set) img false (en_rx_csdu e') v = Ok (img', true) ∧
    read_outputs img' slot subslot pair = Ok (region off (ce_output_len c) (rf_csdu rt), v).
Proof.
  intros Hla Hu He [Hcells _ Hcs] Hp Ha Hts Hv Hl Hf Hoff.
  destruct (find_cell_in _ _ _ _ Hf) as (Hc & _). rewrite Hcells in Hc.
  pose proof (cell_in_bounds _ _ _ DirOutput _ _ Hla Hu Hc Hoff) as Hb. cbn in Hb.
  destruct (en_on_frame_accepts (E := Empty_set) e eth rt frame now He Hp Ha Hts Hl)
    as (e' & Hfr & _ & _ & _ & Hview). rewrite Hv in Hview. injection Hview as Hrx _ _.
  exists e'. do 2 eexists. split; [exact Hfr|]. unfold rt_publish.
  rewrite copy_front_same by (rewrite Hrx, length_take; lia). split; [done|].
  unfold read_outputs. unfold find_cell in *. cbn [im_cells im_csdu im_validity]. rewrite Hf.
  cbn [obind]. rewrite Hoff. cbn [ok_or obind].
  assert (length (en_rx_csdu e') = cl_data_length (la_output_cr (en_layout e))) as Hlr
    by (rewrite Hrx, length_take; lia).
  rewrite decide_False by lia. unfold slice. rewrite decide_True by lia. cbn [obind].
  do 2 f_equal. rewrite Hrx. unfold region. replace (_ + _ - _)%nat with (ce_output_len c) by lia.
  rewrite skipn_firstn_comm, take_take. f_equal. lia.
Qed.

(** ** Witnesses *)

Definition sample_image : IoImage := IoImage_new sample_layout.
Definition sample_bytes : list Z := [11; 12; 13; 14; 15; 16; 17; 18].

Definition sample_written : IoImage :=
  match write_inputs sample_image 4 1 sample_bytes with Ok i => i | _ => sample_image end.

Lemma input_reaches_wire_witness :
  ∃ snap e' frame eth rt c off,
    rt_snapshot_inputs (E := Empty_set) sample_written false sample_inputs = Ok (snap, true) ∧
    en_on_tick (E := Empty_set) sample_engine false 1 snap = Ok (e', frame) ∧
    RtFrame_parse frame = Ok (eth, rt) ∧
    find_cell sample_image 4 1 = Ok c ∧ ce_input_off c = Some off ∧
    region off (length sample_bytes) (rf_csdu rt) = sample_bytes ∧
    rf_csdu rt !! (off + length sample_bytes)%nat = Some IOXS_GOOD ∧
    ∀ c' off', c' ∈ im_cells sample_image → ce_input_off c' = Some off' →
      (ce_slot c', ce_subslot c') ≠ (4, 1) →
      region off' (ce_input_len c') (rf_csdu rt) =
      region off' (ce_input_len c') (im_inputs sample_image).
Proof.
  apply (input_reaches_wire sample_ar_params sample_model sample_layout sample_engine sample_image
    4 1 sample_bytes sample_written sample_inputs false 1).
  - apply sample_layout_ok.
  - apply sample_model_unique.
  - apply sample_engine_inv.
  - reflexivity.
  - apply (im_ok_rebuild IoImage_empty).
  - vm_compute. reflexivity.
  - reflexivity.
Defined.

Definition sample_output_frame : RtFrame :=
  {| rf_frame_id := cl_frame_id (la_output_cr sample_layout);
     rf_csdu := zrange 100 40; rf_cycle_counter := 32; rf_data_status := RUN_PRIMARY_VALID_OK;
     rf_transfer_status := 0 |}.

Lemma output_reaches_application_witness :
  ∃ e' verdict img',
    en_on_frame (E := Empty_set) sample_engine
      (RtFrame_wire sample_output_frame sample_mac sample_cpu) 5 = Ok (e', verdict) ∧
    rt_publish (E := Empty_set) sample_image false (en_rx_csdu e') Validity_default =
      Ok (img', true) ∧
    read_outputs img' 4 1 pair = Ok (region 2 8 (zrange 100 40), Validity_default).
Proof.
  apply (output_reaches_application sample_ar_params sample_model sample_engine sample_image
    (rt_eth sample_mac sample_cpu) sample_output_frame
    (RtFrame_wire sample_output_frame sample_mac sample_cpu) 5 Validity_default 4 1 sample_cell 2).
  - apply sample_layout_ok.
  - apply sample_model_unique.
  - apply sample_engine_inv.
  - apply (im_ok_rebuild IoImage_empty).
  - vm_compute. reflexivity.
  - split; reflexivity.
  - reflexivity.
  - reflexivity.
  - vm_compute. lia.
  - vm_compute. reflexivity.
  - reflexivity.
Defined.
