(* ===== verification/Transport.v ===== *)
(** * Transport: the interfaces to the network

    Models the traits of [crates/pnio/src/eth/transport.rs] and
    [rpc/transport.rs] as type classes, with what their users rely on as laws;
    the in-memory transports of the same files; and the socket transports of
    [eth/afpacket.rs], [rpc/udp.rs] and [eth/poll.rs] over an interface to the
    kernel ([Kernel]), whose laws say what [poll(2)] and [recvfrom(2)] are
    documented to do.

    A method that fails returns the error together with the transport as the
    failure left it.  [eth_backlog] and its siblings bound what a transport
    still has to deliver; they exist only in the model, as the fuel of the
    loops that drain it. *)

From S2P Require Import Prelude Eth Rpc Cm.
Local Open Scope Z_scope.

(** eth/transport.rs:6-8 MAX_FRAME_LEN *)
Definition MAX_FRAME_LEN : nat := 1522.

(** eth/transport.rs:10-26 TransportError *)
Inductive TransportError :=
| TeIo (errno : Z)
| TeBufferTooSmall
| TeFrameTooLong (len : nat).

(** ** The Ethernet transport *)

(** eth/transport.rs:28-73 EthTransport *)
Class EthTransport (E : Type) := {
  eth_send : E → list Z → outcome (TransportError * E) E;
  eth_recv_into : E → list Z → option Z → outcome (TransportError * E) (E * list Z * option nat);
  eth_raw_fd : E → option Z;
  eth_backlog : E → nat
}.
#[global] Hint Mode EthTransport ! : typeclass_instances.

(** eth/transport.rs:53-64 EthTransport::recv *)
Definition eth_recv `{EthTransport E} (e : E) (timeout : option Z) :
    outcome (TransportError * E) (E * option (list Z)) :=
  let buf := replicate MAX_FRAME_LEN 0 in
  let! (e, buf, got) := eth_recv_into e buf timeout in
  Ok (e, match got with Some n => Some (take n buf) | None => None end).

(** What the device and the cyclic thread rely on.  [eth_wf] is the typing of
    the transport's contents: what it holds is made of octets. *)
Class EthTransportLaws (E : Type) `{!EthTransport E} := {
  eth_wf : E → Prop;
  eth_send_total (e : E) frame : eth_wf e → no_panic (eth_send e frame);
  eth_send_wf (e : E) frame e' :
    eth_wf e → eth_send e frame = Ok e' → eth_wf e' ∧ (eth_backlog e' ≤ eth_backlog e)%nat;
  eth_recv_into_total (e : E) buf t :
    eth_wf e → (MAX_FRAME_LEN ≤ length buf)%nat → no_panic (eth_recv_into e buf t);
  eth_recv_into_wf (e : E) buf t e' buf' got :
    eth_wf e → eth_recv_into e buf t = Ok (e', buf', got) →
    eth_wf e' ∧ length buf' = length buf ∧ (eth_backlog e' ≤ eth_backlog e)%nat;
  eth_recv_into_frame (e : E) buf t e' buf' n :
    eth_wf e → eth_recv_into e buf t = Ok (e', buf', Some n) →
    (n ≤ length buf')%nat ∧ Forall u8 (take n buf') ∧ (eth_backlog e' < eth_backlog e)%nat;
  eth_send_err (e : E) frame err e' :
    eth_wf e → eth_send e frame = Err (err, e') →
    eth_wf e' ∧ (eth_backlog e' ≤ eth_backlog e)%nat;
  eth_recv_into_err (e : E) buf t err e' :
    eth_wf e → eth_recv_into e buf t = Err (err, e') →
    eth_wf e' ∧ (eth_backlog e' ≤ eth_backlog e)%nat
}.

Section eth_client.
#[local] Set Default Proof Using "Type*".
Context `{EthTransportLaws E}.

Lemma eth_recv_total (e : E) t : eth_wf e → no_panic (eth_recv e t).
Proof.
  intros He. unfold eth_recv. apply no_panic_bind; [|by intros [[? ?] ?] _].
  apply eth_recv_into_total; [done|]. by rewrite length_replicate.
Qed.

Lemma eth_recv_Ok (e : E) t e' got :
  eth_wf e → eth_recv e t = Ok (e', got) →
  eth_wf e' ∧
  match got with
  | Some frame =>
    Forall u8 frame ∧ (length frame ≤ MAX_FRAME_LEN)%nat ∧ (eth_backlog e' < eth_backlog e)%nat
  | None => (eth_backlog e' ≤ eth_backlog e)%nat
  end.
Proof.
  unfold eth_recv. intros He Hr. apply obind_Ok in Hr as ([[e1 buf] got'] & Hr & Heq).
  injection Heq as -> <-. pose proof (eth_recv_into_wf _ _ _ _ _ _ He Hr) as (He' & Hl & Hb).
  split; [done|]. destruct got' as [n|]; [|done]. rewrite length_replicate in Hl.
  apply eth_recv_into_frame in Hr as (Hn & H8 & Hb'); [|done].
  rewrite length_take. split_and!; [done|lia|done].
Qed.
End eth_client.

(** ** The RPC transport *)

(** rpc/transport.rs:11-30 RpcTransport *)
Class RpcTransport (R : Type) := {
  rpc_send : R → list Z → SocketAddr → outcome (RpcError * R) R;
  rpc_recv : R → option Z → outcome (RpcError * R) (R * option (list Z * SocketAddr));
  rpc_raw_fd : R → option Z;
  rpc_backlog : R → nat
}.
#[global] Hint Mode RpcTransport ! : typeclass_instances.

Class RpcTransportLaws (R : Type) `{!RpcTransport R} := {
  rpc_wf : R → Prop;
  rpc_send_total (r : R) buf to : rpc_wf r → no_panic (rpc_send r buf to);
  rpc_send_wf (r : R) buf to r' :
    rpc_wf r → rpc_send r buf to = Ok r' → rpc_wf r' ∧ (rpc_backlog r' ≤ rpc_backlog r)%nat;
  rpc_recv_total (r : R) t : rpc_wf r → no_panic (rpc_recv r t);
  rpc_recv_wf (r : R) t r' got :
    rpc_wf r → rpc_recv r t = Ok (r', got) →
    rpc_wf r' ∧
    match got with
    | Some (buf, _) => Forall u8 buf ∧ (rpc_backlog r' < rpc_backlog r)%nat
    | None => (rpc_backlog r' ≤ rpc_backlog r)%nat
    end;
  rpc_send_err (r : R) buf to err r' :
    rpc_wf r → rpc_send r buf to = Err (err, r') →
    rpc_wf r' ∧ (rpc_backlog r' ≤ rpc_backlog r)%nat;
  rpc_recv_err (r : R) t err r' :
    rpc_wf r → rpc_recv r t = Err (err, r') → rpc_wf r' ∧ (rpc_backlog r' ≤ rpc_backlog r)%nat
}.

(** ** The in-memory transports *)

(** eth/transport.rs:75-80 MockTransport *)
Record MockTransport := { mt_tx : list (list Z); mt_rx : list (list Z) }.
(** eth/transport.rs:82-86 MockTransport::new *)
Definition MockTransport_new : MockTransport := {| mt_tx := []; mt_rx := [] |}.
(** eth/transport.rs:87-90 MockTransport::push_rx *)
Definition mt_push_rx (m : MockTransport) (frame : list Z) : MockTransport :=
  {| mt_tx := mt_tx m; mt_rx := mt_rx m ++ [frame] |}.
(** eth/transport.rs:91-94 MockTransport::sent *)
Definition mt_sent (m : MockTransport) : list (list Z) := mt_tx m.
(** eth/transport.rs:98-101 MockTransport::send *)
Definition mt_send (m : MockTransport) (frame : list Z) :
    outcome (TransportError * MockTransport) MockTransport :=
  Ok {| mt_tx := mt_tx m ++ [frame]; mt_rx := mt_rx m |}.
(** eth/transport.rs:102-122 MockTransport::recv_into *)
Definition mt_recv_into (m : MockTransport) (buf : list Z) (timeout : option Z) :
    outcome (TransportError * MockTransport) (MockTransport * list Z * option nat) :=
  if decide (length buf < MAX_FRAME_LEN)%nat then Err (TeBufferTooSmall, m) else
  match mt_rx m with
  | [] => Ok (m, buf, None)
  | frame :: rx =>
    let m' := {| mt_tx := mt_tx m; mt_rx := rx |} in
    if decide (length buf < length frame)%nat then Err (TeFrameTooLong (length frame), m') else
    let! buf := copy_at buf 0 frame in
    Ok (m', buf, Some (length frame))
  end.

#[global] Instance MockTransport_eth : EthTransport MockTransport := {|
  eth_send := mt_send; eth_recv_into := mt_recv_into; eth_raw_fd _ := None;
  eth_backlog m := length (mt_rx m) |}.

Lemma copy_at_front {E} (buf frame : list Z) :
  (length frame ≤ length buf)%nat →
  copy_at (E := E) buf 0 frame = Ok (frame ++ drop (length frame) buf).
Proof. intros. unfold copy_at. by rewrite decide_True by (cbn; lia). Qed.

#[global] Instance MockTransport_laws : EthTransportLaws MockTransport.
Proof.
  refine {| eth_wf m := Forall (Forall u8) (mt_rx m) |}.
  - done.
  - intros m frame m' Hm [= <-]. by split.
  - intros m buf t _ Hb. cbn. unfold mt_recv_into. rewrite decide_False by lia.
    destruct (mt_rx m) as [|f rx]; [done|]. case_decide; [done|].
    rewrite copy_at_front by lia. done.
  - intros m buf t m' buf' got Hm. cbn. unfold mt_recv_into. case_decide; [done|].
    destruct (mt_rx m) as [|f rx] eqn:Hrx; [intros [= <- <- <-]; by rewrite Hrx|].
    case_decide; [done|]. rewrite copy_at_front by lia. intros [= <- <- <-].
    apply Forall_cons_1 in Hm as [_ Hm]. cbn. rewrite length_app, length_drop.
    split_and!; [done|lia|lia].
  - intros m buf t m' buf' n Hm. cbn. unfold mt_recv_into. case_decide; [done|].
    destruct (mt_rx m) as [|f rx] eqn:Hrx; [done|].
    case_decide; [done|]. rewrite copy_at_front by lia. intros [= <- <- <-].
    apply Forall_cons_1 in Hm as [Hf _]. rewrite length_app, take_app_length. cbn.
    split_and!; [lia|done|lia].
  - done.
  - intros m buf t err m' Hm. cbn. unfold mt_recv_into. case_decide; [by intros [= <- <-]|].
    destruct (mt_rx m) as [|f rx] eqn:Hrx; [done|].
    case_decide; [|by rewrite copy_at_front by lia]. intros [= <- <-].
    apply Forall_cons_1 in Hm as [_ Hm]. cbn. split; [done|lia].
Defined.

(** rpc/transport.rs:32-37 MockRpcTransport *)
Record MockRpcTransport := {
  mr_tx : list (list Z * SocketAddr); mr_rx : list (list Z * SocketAddr)
}.
(** rpc/transport.rs:39-43 MockRpcTransport::new *)
Definition MockRpcTransport_new : MockRpcTransport := {| mr_tx := []; mr_rx := [] |}.
(** rpc/transport.rs:44-47 MockRpcTransport::push_rx *)
Definition mr_push_rx (m : MockRpcTransport) (bytes : list Z) (from : SocketAddr) :=
  {| mr_tx := mr_tx m; mr_rx := mr_rx m ++ [(bytes, from)] |}.
(** rpc/transport.rs:55-58 MockRpcTransport::send *)
Definition mr_send (m : MockRpcTransport) (buf : list Z) (to : SocketAddr) :
    outcome (RpcError * MockRpcTransport) MockRpcTransport :=
  Ok {| mr_tx := mr_tx m ++ [(buf, to)]; mr_rx := mr_rx m |}.
(** rpc/transport.rs:59-61 MockRpcTransport::recv *)
Definition mr_recv (m : MockRpcTransport) (timeout : option Z) :
    outcome (RpcError * MockRpcTransport) (MockRpcTransport * option (list Z * SocketAddr)) :=
  match mr_rx m with
  | [] => Ok (m, None)
  | d :: rx => Ok ({| mr_tx := mr_tx m; mr_rx := rx |}, Some d)
  end.

#[global] Instance MockRpcTransport_rpc : RpcTransport MockRpcTransport := {|
  rpc_send := mr_send; rpc_recv := mr_recv; rpc_raw_fd _ := None;
  rpc_backlog m := length (mr_rx m) |}.

#[global] Instance MockRpcTransport_laws : RpcTransportLaws MockRpcTransport.
Proof.
  refine {| rpc_wf m := Forall (λ d, Forall u8 d.1) (mr_rx m) |}.
  - done.
  - intros m buf to m' Hm [= <-]. by split.
  - intros m t _. cbn. unfold mr_recv. by destruct (mr_rx m).
  - intros m t m' got Hm. cbn. unfold mr_recv. destruct (mr_rx m) as [|d rx] eqn:Hrx.
    + intros [= <- <-]. by rewrite Hrx.
    + intros [= <- <-]. apply Forall_cons_1 in Hm as [Hd Hm]. destruct d. cbn in *.
      split_and!; [done|done|lia].
  - done.
  - intros m t err m' Hm. cbn. unfold mr_recv. by destruct (mr_rx m).
Defined.

(** ** Sockets *)

(** The outcome of [poll(2)]: which descriptors have an event, or an error. *)
Inductive PollResult := PoOk (revents : list bool) | PoEintr | PoErr (errno : Z).
(** The outcome of [recvfrom(2)] with [MSG_TRUNC]: the octets copied, the real
    length of the frame and whether it was sent by this host. *)
Inductive RecvResult := RcErr (errno : Z) | RcFrame (data : list Z) (len : nat) (outgoing : bool).

(** The system calls of the transports; [k_timeout_max] is the largest poll
    timeout, [k_signals] and [k_backlog] bound the interruptions and the
    messages still to come. *)
Class Kernel (K : Type) := {
  k_poll : K → list Z → Z → K * PollResult;
  k_send : K → Z → list Z → K * option Z;
  k_recvfrom : K → Z → nat → K * RecvResult;
  k_sendto : K → Z → list Z → SocketAddr → K * option Z;
  k_recv_udp : K → Z → nat → K * (Z + list Z * SocketAddr);
  k_timeout_max : Z;
  k_signals : K → nat;
  k_backlog : K → Z → nat
}.
#[global] Hint Mode Kernel ! : typeclass_instances.

(** poll(2), recvfrom(2) and sendto(2) as documented. *)
Class KernelLaws (K : Type) `{!Kernel K} := {
  k_wf : K → Prop;
  k_poll_law (k : K) fds t k' r : k_wf k → k_poll k fds t = (k', r) →
    k_wf k' ∧ (∀ fd, k_backlog k' fd ≤ k_backlog k fd)%nat ∧
    match r with
    | PoOk revents => length revents = length fds
    | PoEintr => (k_signals k' < k_signals k)%nat
    | PoErr _ => True
    end;
  k_send_law (k : K) fd b k' r : k_wf k → k_send k fd b = (k', r) →
    k_wf k' ∧ ∀ fd, (k_backlog k' fd ≤ k_backlog k fd)%nat;
  k_sendto_law (k : K) fd b to k' r : k_wf k → k_sendto k fd b to = (k', r) →
    k_wf k' ∧ ∀ fd, (k_backlog k' fd ≤ k_backlog k fd)%nat;
  k_recvfrom_law (k : K) fd n k' r : k_wf k → k_recvfrom k fd n = (k', r) →
    k_wf k' ∧
    match r with
    | RcFrame data len _ =>
      length data = Nat.min len n ∧ Forall u8 data ∧ (k_backlog k' fd < k_backlog k fd)%nat
    | RcErr _ => (k_backlog k' fd ≤ k_backlog k fd)%nat
    end;
  k_recv_udp_law (k : K) fd n k' r : k_wf k → k_recv_udp k fd n = (k', r) →
    k_wf k' ∧
    match r with
    | inr (data, _) =>
      (length data ≤ n)%nat ∧ Forall u8 data ∧ (k_backlog k' fd < k_backlog k fd)%nat
    | inl _ => (k_backlog k' fd ≤ k_backlog k fd)%nat
    end
}.

Section sockets.
Context `{Kernel K}.

(** eth/poll.rs:127-141 poll_timeout *)
Definition poll_timeout (timeout : option Z) : Z :=
  match timeout with
  | None => -1
  | Some d =>
    let ms := d / 1000000 + (if decide (d mod 1000000 = 0) then 0 else 1) in
    if decide (ms < 65536) then ms else k_timeout_max (K := K)
  end.

(** The loop the three functions share: retry while interrupted. *)
Fixpoint poll_retry (fuel : nat) (k : K) (fds : list Z) (t : Z) : outcome (Z * K) (K * list bool) :=
  match fuel with
  | O => Panic
  | S fuel =>
    match k_poll k fds t with
    | (k, PoOk revents) => Ok (k, revents)
    | (k, PoEintr) => poll_retry fuel k fds t
    | (k, PoErr e) => Err (e, k)
    end
  end.

(** eth/poll.rs:9-32 wait_readable *)
Definition wait_readable (k : K) (fd : Z) (timeout : option Z) : outcome (Z * K) (K * bool) :=
  let! (k, revents) := poll_retry (S (k_signals k)) k [fd] (poll_timeout timeout) in
  Ok (k, existsb id revents).

(** eth/poll.rs:34-60 wait_any_readable *)
Definition wait_any_readable (k : K) (fds : list Z) (timeout : option Z) :
    outcome (Z * K) (K * bool) :=
  let! (k, revents) := poll_retry (S (k_signals k)) k fds (poll_timeout timeout) in
  Ok (k, existsb id revents).

(** eth/poll.rs:62-65 MAX_POLL_FDS *)
Definition MAX_POLL_FDS : nat := 4.

(** eth/poll.rs:67-125 poll_readable_into *)
Definition poll_readable_into (k : K) (fds : list Z) (ready : list bool) (timeout : option Z) :
    outcome (Z * K) (K * list bool * nat) :=
  if decide (fds ≠ [] ∧ length fds ≤ MAX_POLL_FDS ∧ length fds ≤ length ready)%nat then
    let! (k, revents) := poll_retry (S (k_signals k)) k fds (poll_timeout timeout) in
    Ok (k, revents ++ drop (length fds) ready, length (List.filter id revents))
  else Panic.

(** eth/afpacket.rs:44-46 AfPacketTransport *)
Record AfPacketTransport := { ap_fd : Z; ap_k : K }.

(** eth/afpacket.rs:19-31 is_profinet_frame *)
Definition is_profinet_frame {E} (buf : list Z) : outcome E bool :=
  if decide (length buf < 14)%nat then Ok false else
  let! et := be16_at buf 12 in
  if decide (et = ETHERTYPE_PROFINET) then Ok true
  else if decide (et = ETHERTYPE_VLAN ∧ 18 ≤ length buf)%nat then
    let! inner := be16_at buf 16 in Ok (bool_decide (inner = ETHERTYPE_PROFINET))
  else Ok false.

(** eth/afpacket.rs:159-162 AfPacketTransport::send *)
Definition ap_send (a : AfPacketTransport) (frame : list Z) :
    outcome (TransportError * AfPacketTransport) AfPacketTransport :=
  match k_send (ap_k a) (ap_fd a) frame with
  | (k, None) => Ok {| ap_fd := ap_fd a; ap_k := k |}
  | (k, Some e) => Err (TeIo e, {| ap_fd := ap_fd a; ap_k := k |})
  end.

(** eth/afpacket.rs:164-213 AfPacketTransport::recv_into *)
Definition ap_recv_into (a : AfPacketTransport) (buf : list Z) (timeout : option Z) :
    outcome (TransportError * AfPacketTransport) (AfPacketTransport * list Z * option nat) :=
  let fd := ap_fd a in
  if decide (length buf < MAX_FRAME_LEN)%nat then Err (TeBufferTooSmall, a) else
  let! (k, readable) :=
    map_err (λ '(e, k), (TeIo e, {| ap_fd := fd; ap_k := k |})) (wait_readable (ap_k a) fd timeout) in
  if negb readable then Ok ({| ap_fd := fd; ap_k := k |}, buf, None) else
  match k_recvfrom k fd (length buf) with
  | (k, RcErr e) => Err (TeIo e, {| ap_fd := fd; ap_k := k |})
  | (k, RcFrame data n outgoing) =>
    let a := {| ap_fd := fd; ap_k := k |} in
    let! buf := copy_at buf 0 data in
    if (outgoing : bool) then Ok (a, buf, None)
    else if decide (length buf < n)%nat then Err (TeFrameTooLong n, a)
    else
      let! frame := slice buf 0 n in
      let! pn := is_profinet_frame frame in
      Ok (a, buf, if (pn : bool) then Some n else None)
  end.

#[global] Instance AfPacketTransport_eth : EthTransport AfPacketTransport := {|
  eth_send := ap_send; eth_recv_into := ap_recv_into; eth_raw_fd a := Some (ap_fd a);
  eth_backlog a := k_backlog (ap_k a) (ap_fd a) |}.

(** rpc/udp.rs:12-16 UdpRpcTransport *)
Record UdpRpcTransport := { ud_fd : Z; ud_k : K }.

(** rpc/udp.rs:35-38 UdpRpcTransport::send *)
Definition ud_send (u : UdpRpcTransport) (buf : list Z) (to : SocketAddr) :
    outcome (RpcError * UdpRpcTransport) UdpRpcTransport :=
  match k_sendto (ud_k u) (ud_fd u) buf to with
  | (k, None) => Ok {| ud_fd := ud_fd u; ud_k := k |}
  | (k, Some e) => Err (RpcIo e, {| ud_fd := ud_fd u; ud_k := k |})
  end.

(** rpc/udp.rs:40-48 UdpRpcTransport::recv *)
Definition ud_recv (u : UdpRpcTransport) (timeout : option Z) :
    outcome (RpcError * UdpRpcTransport) (UdpRpcTransport * option (list Z * SocketAddr)) :=
  let fd := ud_fd u in
  let! (k, readable) :=
    map_err (λ '(e, k), (RpcIo e, {| ud_fd := fd; ud_k := k |})) (wait_readable (ud_k u) fd timeout) in
  if negb readable then Ok ({| ud_fd := fd; ud_k := k |}, None) else
  match k_recv_udp k fd 1500 with
  | (k, inl e) => Err (RpcIo e, {| ud_fd := fd; ud_k := k |})
  | (k, inr d) => Ok ({| ud_fd := fd; ud_k := k |}, Some d)
  end.

#[global] Instance UdpRpcTransport_rpc : RpcTransport UdpRpcTransport := {|
  rpc_send := ud_send; rpc_recv := ud_recv; rpc_raw_fd u := Some (ud_fd u);
  rpc_backlog u := k_backlog (ud_k u) (ud_fd u) |}.
End sockets.
Arguments AfPacketTransport : clear implicits.
Arguments UdpRpcTransport : clear implicits.

(** ** The socket transports keep the laws of their interfaces *)

Section socket_laws.
#[local] Set Default Proof Using "Type*".
Context `{KernelLaws K}.

Lemma poll_retry_spec fds t fuel : ∀ k : K,
  k_wf k → (k_signals k < fuel)%nat →
  match poll_retry fuel k fds t with
  | Ok (k', revents) =>
    k_wf k' ∧ length revents = length fds ∧ ∀ fd, (k_backlog k' fd ≤ k_backlog k fd)%nat
  | Err (_, k') => k_wf k' ∧ ∀ fd, (k_backlog k' fd ≤ k_backlog k fd)%nat
  | Panic => False
  end.
Proof.
  induction fuel as [|fuel IH]; intros k Hk Hs; [lia|]. cbn [poll_retry].
  destruct (k_poll k fds t) as [k1 r] eqn:Hp. apply k_poll_law in Hp as (Hk1 & Hb & Hr); [|done].
  destruct r as [revents| |e]; [done| |done].
  assert (∀ k2 : K, (∀ fd, k_backlog k2 fd ≤ k_backlog k1 fd)%nat →
            ∀ fd, (k_backlog k2 fd ≤ k_backlog k fd)%nat) as Htrans
    by (intros k2 Hb2 fd; etrans; [apply Hb2|apply Hb]).
  specialize (IH k1 Hk1 ltac:(lia)).
  destruct (poll_retry fuel k1 fds t) as [[k2 rv]|[e k2]|]; naive_solver.
Qed.

Lemma wait_readable_spec (k : K) fd timeout :
  k_wf k →
  match wait_readable k fd timeout with
  | Ok (k', _) | Err (_, k') => k_wf k' ∧ ∀ fd, (k_backlog k' fd ≤ k_backlog k fd)%nat
  | Panic => False
  end.
Proof.
  intros Hk. unfold wait_readable.
  pose proof (poll_retry_spec [fd] (poll_timeout (K := K) timeout) (S (k_signals k)) k Hk ltac:(lia)) as Hp.
  destruct (poll_retry _ _ _ _) as [[k' rv]|[e k']|]; cbn [obind]; naive_solver.
Qed.

Lemma is_profinet_frame_total {E} buf : no_panic (is_profinet_frame (E := E) buf).
Proof. unfold is_profinet_frame. np. Qed.

Lemma is_profinet_frame_no_err {E} buf (e : E) : is_profinet_frame buf ≠ Err e.
Proof.
  unfold is_profinet_frame, be16_at, idx. case_decide; [done|].
  destruct (buf !! 12%nat), (buf !! (12 + 1)%nat); cbn; try done.
  repeat case_decide; try done. by destruct (buf !! 16%nat), (buf !! 17%nat).
Qed.

(** One reception: what the kernel copied, and whether it is handed on. *)
Lemma ap_recv_into_spec (a : AfPacketTransport K) buf timeout :
  k_wf (ap_k a) → (MAX_FRAME_LEN ≤ length buf)%nat →
  match ap_recv_into a buf timeout with
  | Ok (a', buf', got) =>
    k_wf (ap_k a') ∧ length buf' = length buf ∧
    match got with
    | Some n => (n ≤ length buf')%nat ∧ Forall u8 (take n buf') ∧
                (k_backlog (ap_k a') (ap_fd a') < k_backlog (ap_k a) (ap_fd a))%nat
    | None => (k_backlog (ap_k a') (ap_fd a') ≤ k_backlog (ap_k a) (ap_fd a))%nat
    end
  | Err (_, a') =>
    k_wf (ap_k a') ∧ (k_backlog (ap_k a') (ap_fd a') ≤ k_backlog (ap_k a) (ap_fd a))%nat
  | Panic => False
  end.
Proof.
  intros Hk Hb. unfold ap_recv_into. rewrite decide_False by lia.
  pose proof (wait_readable_spec (ap_k a) (ap_fd a) timeout Hk) as Hw.
  destruct (wait_readable _ _ _) as [[k1 rd]|[e k1]|]; cbn [map_err obind]; [|naive_solver|done].
  destruct Hw as [Hk1 Hb1]. destruct rd; cbn [negb]; [|by split_and!].
  destruct (k_recvfrom k1 (ap_fd a) (length buf)) as [k2 [e|data n out]] eqn:Hr.
  { apply k_recvfrom_law in Hr as [? ?]; [|done]. specialize (Hb1 (ap_fd a)). cbn. split; [done|lia]. }
  apply k_recvfrom_law in Hr as (Hk2 & Hl & H8 & Hb2); [|done].
  assert (k_backlog k2 (ap_fd a) < k_backlog (ap_k a) (ap_fd a))%nat
    by (specialize (Hb1 (ap_fd a)); lia).
  rewrite copy_at_front by lia. cbn [obind].
  assert (length (data ++ drop (length data) buf) = length buf) as Hlen
    by (rewrite length_app, length_drop; lia).
  destruct out; [cbn; split_and!; [done|done|lia]|]. case_decide; [cbn; split; [done|lia]|].
  assert (length data = n) as Hn by lia.
  unfold slice. rewrite decide_True by lia. cbn [obind].
  pose proof (is_profinet_frame_total (E := TransportError * AfPacketTransport K)
    (take (n - 0) (drop 0 (data ++ drop (length data) buf)))) as Hp.
  pose proof (is_profinet_frame_no_err (take (n - 0) (drop 0 (data ++ drop (length data) buf)))
    (E := TransportError * AfPacketTransport K)) as He.
  destruct (is_profinet_frame _) as [[]| |]; cbn; [| |by destruct (He e)|done].
  - rewrite <-Hn, take_app_length. split_and!; [done|lia|lia|done|lia].
  - split_and!; [done|done|lia].
Qed.

#[global] Instance AfPacketTransport_laws : EthTransportLaws (AfPacketTransport K).
Proof.
  refine {| eth_wf a := k_wf (ap_k a) |}.
  - intros a frame _. cbn. unfold ap_send. by destruct (k_send _ _ _) as [? []].
  - intros a frame a' Ha. cbn. unfold ap_send. destruct (k_send _ _ _) as [k [e|]] eqn:Hs; [done|].
    intros [= <-]. apply k_send_law in Hs as [? ?]; [|done]. cbn. by split.
  - intros a buf t Ha Hb. pose proof (ap_recv_into_spec a buf t Ha Hb).
    by destruct (ap_recv_into a buf t) as [[[? ?] ?]| |] eqn:Hr; cbn; rewrite Hr.
  - intros a buf t a' buf' got Ha Hr. destruct (decide (length buf < MAX_FRAME_LEN)%nat).
    { cbn in Hr. unfold ap_recv_into in Hr. by rewrite decide_True in Hr. }
    pose proof (ap_recv_into_spec a buf t Ha ltac:(lia)) as Hs. cbn in Hr. rewrite Hr in Hs.
    destruct Hs as (? & ? & Hg). split_and!; [done|done|]. cbn. destruct got; lia.
  - intros a buf t a' buf' n Ha Hr. destruct (decide (length buf < MAX_FRAME_LEN)%nat).
    { cbn in Hr. unfold ap_recv_into in Hr. by rewrite decide_True in Hr. }
    pose proof (ap_recv_into_spec a buf t Ha ltac:(lia)) as Hs. cbn in Hr. rewrite Hr in Hs.
    by destruct Hs as (? & ? & Hg).
  - intros a frame err a' Ha. cbn. unfold ap_send. destruct (k_send _ _ _) as [k [e|]] eqn:Hs; [|done].
    intros [= <- <-]. apply k_send_law in Hs as [? ?]; [|done]. cbn. by split.
  - intros a buf t err a' Ha Hr. cbn in Hr. destruct (decide (length buf < MAX_FRAME_LEN)%nat).
    { unfold ap_recv_into in Hr. rewrite decide_True in Hr by done. by injection Hr as <- <-. }
    pose proof (ap_recv_into_spec a buf t Ha ltac:(lia)) as Hs. by rewrite Hr in Hs.
Defined.

#[global] Instance UdpRpcTransport_laws : RpcTransportLaws (UdpRpcTransport K).
Proof.
  refine {| rpc_wf u := k_wf (ud_k u) |}.
  - intros u buf to _. cbn. unfold ud_send. by destruct (k_sendto _ _ _ _) as [? []].
  - intros u buf to u' Hu. cbn. unfold ud_send. destruct (k_sendto _ _ _ _) as [k [e|]] eqn:Hs; [done|].
    intros [= <-]. apply k_sendto_law in Hs as [? ?]; [|done]. cbn. by split.
  - intros u t Hu. cbn. unfold ud_recv. pose proof (wait_readable_spec (ud_k u) (ud_fd u) t Hu) as Hw.
    destruct (wait_readable _ _ _) as [[k1 rd]|[e k1]|]; cbn [map_err obind]; [|done|done].
    destruct rd; cbn [negb]; [|done]. by destruct (k_recv_udp _ _ _) as [? []].
  - intros u t u' got Hu. cbn. unfold ud_recv.
    pose proof (wait_readable_spec (ud_k u) (ud_fd u) t Hu) as Hw.
    destruct (wait_readable _ _ _) as [[k1 rd]|[e k1]|]; cbn [map_err obind]; [|done|done].
    destruct Hw as [Hk1 Hb1]. destruct rd; cbn [negb]; [|intros [= <- <-]; by split].
    destruct (k_recv_udp _ _ _) as [k2 [e|[data from]]] eqn:Hr; [done|]. intros [= <- <-].
    apply k_recv_udp_law in Hr as (? & ? & ? & ?); [|done]. cbn. specialize (Hb1 (ud_fd u)).
    split_and!; [done|done|lia].
  - intros u buf to err u' Hu. cbn. unfold ud_send. destruct (k_sendto _ _ _ _) as [k [e|]] eqn:Hs; [|done].
    intros [= <- <-]. apply k_sendto_law in Hs as [? ?]; [|done]. cbn. by split.
  - intros u t err u' Hu. cbn. unfold ud_recv.
    pose proof (wait_readable_spec (ud_k u) (ud_fd u) t Hu) as Hw.
    destruct (wait_readable _ _ _) as [[k1 rd]|[e k1]|]; cbn [map_err obind]; [| |done].
    + destruct Hw as [Hk1 Hb1]. destruct rd; cbn [negb]; [|done].
      destruct (k_recv_udp _ _ _) as [k2 [e|[data from]]] eqn:Hr; [|done]. intros [= <- <-].
      apply k_recv_udp_law in Hr as [? ?]; [|done]. cbn. specialize (Hb1 (ud_fd u)). split; [done|lia].
    + intros [= <- <-]. destruct Hw. by split.
Defined.
End socket_laws.

(** ** Poll timeouts *)

Section timeouts.
Context `{Kernel K}.

(** Up to 65.535 s the timeout handed to [poll] is the duration rounded up to
    the millisecond; beyond, it is the largest timeout there is. *)
Lemma poll_timeout_ceil d :
  0 ≤ d ≤ 65535000000 →
  (poll_timeout (K := K) (Some d) - 1) * 1000000 < d ≤ poll_timeout (K := K) (Some d) * 1000000.
Proof.
  intros Hd. cbn. case_decide; case_decide; Z.div_mod_to_equations; lia.
Qed.

Lemma poll_timeout_jump d :
  65535000000 < d → poll_timeout (K := K) (Some d) = k_timeout_max (K := K).
Proof.
  intros Hd. cbn. rewrite decide_False; [done|]. case_decide; Z.div_mod_to_equations; lia.
Qed.
End timeouts.
