(* ===== verification/Runner.v ===== *)
(** * Runner: the cyclic thread

    Models [crates/pnio/src/rt/runner.rs].  One iteration of the thread's loop
    is [cycle], a function of the thread's state and of what the outside did
    during that iteration ([Env]: the results of [poll] and of the timer read,
    the clock, which of the image's locks were taken by someone else).  The
    transport is any [EthTransport].  The image and the counters are the ones
    shared with the application; the application's accesses happen between the
    thread's own, as steps of [RtStep]. *)

From S2P Require Import Prelude Eth Rpc Block Connect Cm Hist RtFrame Layout Engine Image Transport.
Local Open Scope Z_scope.

(** rt/runner.rs:33-35 MAX_RX_PER_PASS *)
Definition MAX_RX_PER_PASS : nat := 64.
(** rt/runner.rs:37-44 MAX_NO_PROGRESS_ITERATIONS *)
Definition MAX_NO_PROGRESS_ITERATIONS : Z := 1000.

(** The image, the counters and the problem indicator, which [RtConfig] shares
    by reference, are the thread's own here. *)
(** rt/runner.rs:46-70 RtConfig *)
Record RtConfig := {
  rg_iface : string; rg_our_mac : MacAddr; rg_cpu_mac : MacAddr; rg_layout : Layout;
  rg_cpu_pin : option Z; rg_rt_priority : option Z; rg_lock_memory : bool
}.

(** The rendered error of a [SocketError] or [SchedWarning] is its context. *)
(** rt/runner.rs:72-84 RtEvent *)
Inductive RtEvent :=
| EvWatchdogExpired
| EvSocketError (context : string)
| EvSchedWarning (context : string)
| EvExited.
#[global] Instance RtEvent_eq_dec : EqDecision RtEvent.
Proof. solve_decision. Defined.

(** ** The shared state and the handle *)

(** [sh_event_fd] and [sh_wake_fd] are the counters of the two eventfds. *)
(** rt/runner.rs:86-96 RtShared *)
Record RtShared := {
  sh_stop : bool; sh_running : bool; sh_events : list RtEvent; sh_event_fd : Z; sh_wake_fd : Z
}.

(** rt/runner.rs:234-241 RtRunner::spawn_with_transport *)
Definition RtShared_new : RtShared :=
  {| sh_stop := false; sh_running := true; sh_events := []; sh_event_fd := 0; sh_wake_fd := 0 |}.

(** A saturated counter makes the write fail, and the descriptor is readable
    anyway. *)
(** rt/runner.rs:723-730 signal_eventfd *)
Definition signal_eventfd (counter : Z) : Z :=
  if decide (counter + 1 < 18446744073709551615) then counter + 1 else counter.
(** rt/runner.rs:732-737 drain_eventfd *)
Definition drain_eventfd (counter : Z) : Z := 0.

(** rt/runner.rs:99-103 RtShared::push_event *)
Definition push_event (s : RtShared) (ev : RtEvent) : RtShared :=
  {| sh_stop := sh_stop s; sh_running := sh_running s; sh_events := sh_events s ++ [ev];
     sh_event_fd := signal_eventfd (sh_event_fd s); sh_wake_fd := sh_wake_fd s |}.

(** rt/runner.rs:105-108 RtShared::request_stop *)
Definition request_stop (s : RtShared) : RtShared :=
  {| sh_stop := true; sh_running := sh_running s; sh_events := sh_events s;
     sh_event_fd := sh_event_fd s; sh_wake_fd := signal_eventfd (sh_wake_fd s) |}.

(** rt/runner.rs:111-119 ExitGuard::drop *)
Definition exit_guard (s : RtShared) : RtShared :=
  let s := push_event s EvExited in
  {| sh_stop := sh_stop s; sh_running := false; sh_events := sh_events s;
     sh_event_fd := sh_event_fd s; sh_wake_fd := sh_wake_fd s |}.

(** rt/runner.rs:182-191 RtHandle::take_event *)
Definition take_event (s : RtShared) : RtShared * option RtEvent :=
  match sh_events s with
  | [] => ({| sh_stop := sh_stop s; sh_running := sh_running s; sh_events := [];
              sh_event_fd := drain_eventfd (sh_event_fd s); sh_wake_fd := sh_wake_fd s |}, None)
  | ev :: evs =>
    ({| sh_stop := sh_stop s; sh_running := sh_running s; sh_events := evs;
        sh_event_fd := match evs with [] => drain_eventfd (sh_event_fd s) | _ => sh_event_fd s end;
        sh_wake_fd := sh_wake_fd s |}, Some ev)
  end.

(** ** The tick grid *)

(** rt/runner.rs:267-275 TickGrid *)
Record TickGrid := { tg_period : Z; tg_start : option Z; tg_ticks : Z }.
(** rt/runner.rs:278-284 TickGrid::new *)
Definition TickGrid_new (period : Z) : TickGrid :=
  {| tg_period := period; tg_start := None; tg_ticks := 0 |}.

Definition U64_MAX : Z := 18446744073709551615.
Definition sat64 (x : Z) : Z := Z.min U64_MAX (Z.max 0 x).

(** [Instant]s are unbounded here, so [checked_add] always succeeds. *)
(** rt/runner.rs:286-311 TickGrid::on_read *)
Definition tg_on_read (g : TickGrid) (now expirations : Z) : TickGrid * Z :=
  match tg_start g with
  | None => ({| tg_period := tg_period g; tg_start := Some now; tg_ticks := 1 |}, 0)
  | Some start =>
    let ticks := sat64 (tg_ticks g + expirations) in
    let offset := sat64 (wrap64 (tg_period g) * sat64 (ticks - 1)) in
    ({| tg_period := tg_period g; tg_start := Some start; tg_ticks := ticks |},
     wrap64 (Z.max 0 (now - (start + offset))))
  end.

(** ** The thread's state *)

(** rt/runner.rs:258-265 Pending *)
Inductive Pending := PdData (v : Validity) | PdValidity (v : Validity).

(** The locals of [run_loop]. *)
(** rt/runner.rs:359-385 run_loop *)
Record Runner (T : Type) := {
  rn_transport : T;
  rn_shared : RtShared;
  rn_engine : RtEngine;
  rn_image : IoImage;
  rn_grid : TickGrid;
  rn_pending : option Pending;
  rn_no_progress : Z;
  rn_snapshot : list Z;
  rn_rx_buf : list Z
}.
Arguments rn_transport {T}. Arguments rn_shared {T}. Arguments rn_engine {T}.
Arguments rn_image {T}. Arguments rn_grid {T}. Arguments rn_pending {T}.
Arguments rn_no_progress {T}. Arguments rn_snapshot {T}. Arguments rn_rx_buf {T}.

Section setters.
Context {T : Type}.
Implicit Types r : Runner T.

Definition upd_transport r (t : T) : Runner T :=
  {| rn_transport := t; rn_shared := rn_shared r; rn_engine := rn_engine r; rn_image := rn_image r;
     rn_grid := rn_grid r; rn_pending := rn_pending r; rn_no_progress := rn_no_progress r;
     rn_snapshot := rn_snapshot r; rn_rx_buf := rn_rx_buf r |}.
Definition upd_shared r (s : RtShared) : Runner T :=
  {| rn_transport := rn_transport r; rn_shared := s; rn_engine := rn_engine r;
     rn_image := rn_image r; rn_grid := rn_grid r; rn_pending := rn_pending r;
     rn_no_progress := rn_no_progress r; rn_snapshot := rn_snapshot r; rn_rx_buf := rn_rx_buf r |}.
Definition upd_engine r (e : RtEngine) : Runner T :=
  {| rn_transport := rn_transport r; rn_shared := rn_shared r; rn_engine := e;
     rn_image := rn_image r; rn_grid := rn_grid r; rn_pending := rn_pending r;
     rn_no_progress := rn_no_progress r; rn_snapshot := rn_snapshot r; rn_rx_buf := rn_rx_buf r |}.
Definition upd_image r (i : IoImage) (p : option Pending) : Runner T :=
  {| rn_transport := rn_transport r; rn_shared := rn_shared r; rn_engine := rn_engine r;
     rn_image := i; rn_grid := rn_grid r; rn_pending := p;
     rn_no_progress := rn_no_progress r; rn_snapshot := rn_snapshot r; rn_rx_buf := rn_rx_buf r |}.
Definition upd_grid r (g : TickGrid) : Runner T :=
  {| rn_transport := rn_transport r; rn_shared := rn_shared r; rn_engine := rn_engine r;
     rn_image := rn_image r; rn_grid := g; rn_pending := rn_pending r;
     rn_no_progress := rn_no_progress r; rn_snapshot := rn_snapshot r; rn_rx_buf := rn_rx_buf r |}.
Definition upd_no_progress r (n : Z) : Runner T :=
  {| rn_transport := rn_transport r; rn_shared := rn_shared r; rn_engine := rn_engine r;
     rn_image := rn_image r; rn_grid := rn_grid r; rn_pending := rn_pending r;
     rn_no_progress := n; rn_snapshot := rn_snapshot r; rn_rx_buf := rn_rx_buf r |}.
Definition upd_buffers r (snapshot rx_buf : list Z) : Runner T :=
  {| rn_transport := rn_transport r; rn_shared := rn_shared r; rn_engine := rn_engine r;
     rn_image := rn_image r; rn_grid := rn_grid r; rn_pending := rn_pending r;
     rn_no_progress := rn_no_progress r; rn_snapshot := snapshot; rn_rx_buf := rx_buf |}.

Definition upd_stats r (f : RtStats → RtStats) : Runner T :=
  upd_engine r (set_en_stats (rn_engine r) (f (en_stats (rn_engine r)))).
Definition upd_event r (ev : RtEvent) : Runner T := upd_shared r (push_event (rn_shared r) ev).
End setters.

Definition with_lateness (h : Histogram → Histogram) (s : RtStats) : RtStats :=
  {| rs_tx := rs_tx s; rs_rx_accepted := rs_rx_accepted s; rs_rx_ignored := rs_rx_ignored s;
     rs_rx_dropped := rs_rx_dropped s; rs_rx_invalid := rs_rx_invalid s;
     rs_reordered := rs_reordered s; rs_watchdog_expirations := rs_watchdog_expirations s;
     rs_missed_ticks := rs_missed_ticks s; rs_input_snapshot_reused := rs_input_snapshot_reused s;
     rs_output_publish_deferred := rs_output_publish_deferred s;
     rs_tick_lateness := h (rs_tick_lateness s); rs_cycle_work := rs_cycle_work s;
     rs_rx_interval := rs_rx_interval s |}.
Definition with_work (h : Histogram → Histogram) (s : RtStats) : RtStats :=
  {| rs_tx := rs_tx s; rs_rx_accepted := rs_rx_accepted s; rs_rx_ignored := rs_rx_ignored s;
     rs_rx_dropped := rs_rx_dropped s; rs_rx_invalid := rs_rx_invalid s;
     rs_reordered := rs_reordered s; rs_watchdog_expirations := rs_watchdog_expirations s;
     rs_missed_ticks := rs_missed_ticks s; rs_input_snapshot_reused := rs_input_snapshot_reused s;
     rs_output_publish_deferred := rs_output_publish_deferred s;
     rs_tick_lateness := rs_tick_lateness s; rs_cycle_work := h (rs_cycle_work s);
     rs_rx_interval := rs_rx_interval s |}.
Definition with_interval (h : Histogram → Histogram) (s : RtStats) : RtStats :=
  {| rs_tx := rs_tx s; rs_rx_accepted := rs_rx_accepted s; rs_rx_ignored := rs_rx_ignored s;
     rs_rx_dropped := rs_rx_dropped s; rs_rx_invalid := rs_rx_invalid s;
     rs_reordered := rs_reordered s; rs_watchdog_expirations := rs_watchdog_expirations s;
     rs_missed_ticks := rs_missed_ticks s; rs_input_snapshot_reused := rs_input_snapshot_reused s;
     rs_output_publish_deferred := rs_output_publish_deferred s;
     rs_tick_lateness := rs_tick_lateness s; rs_cycle_work := rs_cycle_work s;
     rs_rx_interval := h (rs_rx_interval s) |}.

(** ** One iteration of the loop *)

(** What [read(2)] on the timer returned: its 8 octets as a count, an error,
    or fewer octets. *)
Inductive TimerRead := TrCount (n : Z) | TrErrno (errno : Z) | TrShort.

(** rt/runner.rs:687-708 read_timer *)
Definition read_timer (r : TimerRead) : outcome Z Z :=
  match r with
  | TrCount n => Ok n
  | TrErrno e => if decide (e = 11) then Ok 0 else Err e
  | TrShort => Ok 0
  end.

(** The outside of one reception: the readiness probe, the clock, and whether
    the image was locked when the outputs were published. *)
Record RxEnv := { re_readable : Z + bool; re_now : Z; re_busy : bool }.

(** The outside of one iteration. *)
Record Env := {
  ev_poll : Z + bool * bool * bool;  (** the error, or which of timer, wake and socket are ready *)
  ev_timer : TimerRead;
  ev_now : Z;                        (** the clock at the tick *)
  ev_elapsed : Z;                    (** the time the tick took *)
  ev_problem : bool;                 (** the problem indicator *)
  ev_busy_retry : bool; ev_busy_validity : bool; ev_busy_inputs : bool;
  ev_rx : nat → RxEnv
}.

Section cycle.
Context `{EthTransport T}.
Implicit Types r : Runner T.

(** rt/runner.rs:616-634 retry_pending *)
Definition retry_pending {E} (r : Runner T) (p : Pending) (busy : bool) : outcome E (Runner T) :=
  let! (image, taken) :=
    match p with
    | PdData v => rt_publish (rn_image r) busy (en_rx_csdu (rn_engine r)) v
    | PdValidity v => Ok (rt_set_validity (rn_image r) busy v)
    end in
  Ok (if (taken : bool) then upd_image r image (rn_pending r)
      else upd_stats (upd_image r image (Some p)) (fetch_add SxDeferred 1)).

(** rt/runner.rs:437-456 run_loop *)
Definition tick_watchdog (r : Runner T) (now : Z) (busy : bool) : Runner T :=
  let '(e, verdict) := check_watchdog (rn_engine r) now in
  match verdict with
  | WvExpired =>
    let e := mark_outputs_stale e in
    let validity :=
      {| va_provider_run := en_provider_run e; va_primary := en_primary e;
         va_watchdog := IwExpired;
         va_last_rx_age := (λ t, Z.max 0 (now - t)) <$> en_last_rx e;
         va_cycle := tg_ticks (rn_grid r) |} in
    let r := upd_event (upd_engine r e) EvWatchdogExpired in
    let '(image, taken) := rt_set_validity (rn_image r) busy validity in
    if (taken : bool) then upd_image r image (rn_pending r)
    else upd_stats (upd_image r image (Some (PdValidity validity))) (fetch_add SxDeferred 1)
  | _ => upd_engine r e
  end.

(** The tick of one timer read; [false] leaves the loop. *)
(** rt/runner.rs:420-474 run_loop *)
Definition on_timer {E} (r : Runner T) (env : Env) (expirations : Z) :
    outcome E (Runner T * bool) :=
  let now := ev_now env in
  let is_first_read := bool_decide (tg_ticks (rn_grid r) = 0) in
  let '(grid, lateness) := tg_on_read (rn_grid r) now expirations in
  let r := upd_stats (upd_grid r grid) (with_lateness (λ h, hist_record h lateness)) in
  let! r :=
    match rn_pending r with
    | Some p => retry_pending (upd_image r (rn_image r) None) p (ev_busy_retry env)
    | None => Ok r
    end in
  let r := tick_watchdog r now (ev_busy_validity env) in
  let! (snapshot, fresh) :=
    rt_snapshot_inputs (rn_image r) (ev_busy_inputs env) (rn_snapshot r) in
  let r := upd_buffers r snapshot (rn_rx_buf r) in
  let r := if (fresh : bool) then r else upd_stats r (fetch_add SxReused 1) in
  let engine_expirations := if is_first_read then 1 else Z.min expirations 4294967295 in
  let! (e, frame) := en_on_tick (rn_engine r) (ev_problem env) engine_expirations (rn_snapshot r) in
  let r := upd_engine r e in
  match eth_send (rn_transport r) frame with
  | Ok t =>
    Ok (upd_stats (upd_transport r t) (with_work (λ h, hist_record h (ev_elapsed env))), true)
  | Err (_, t) => Ok (upd_event (upd_transport r t) (EvSocketError "send"), false)
  | Panic => Panic
  end.

(** rt/runner.rs:512-533 drain_should_continue *)
Definition drain_should_continue (has_fd readable got_frame : bool) : bool :=
  if has_fd then readable else got_frame.

(** rt/runner.rs:568-595 drain_rx *)
Definition rx_frame {E} (r : Runner T) (frame : list Z) (env : RxEnv) : outcome E (Runner T) :=
  let now := re_now env in
  let prev_rx := en_last_rx (rn_engine r) in
  let! (e, verdict) := en_on_frame (rn_engine r) frame now in
  let r := upd_engine r e in
  match verdict with
  | RxAccepted _ _ _ =>
    let r :=
      match prev_rx with
      | Some prev =>
        upd_stats r (with_interval (λ h, hist_record h (wrap64 (Z.max 0 (now - prev)))))
      | None => r
      end in
    let validity :=
      {| va_provider_run := en_provider_run e; va_primary := en_primary e; va_watchdog := IwOk;
         va_last_rx_age := Some 0; va_cycle := tg_ticks (rn_grid r) |} in
    let! (image, taken) := rt_publish (rn_image r) (re_busy env) (en_rx_csdu e) validity in
    Ok (if (taken : bool) then upd_image r image None
        else upd_stats (upd_image r image (Some (PdData validity))) (fetch_add SxDeferred 1))
  | _ => Ok r
  end.

(** The loop of [drain_rx]: the state, whether the socket still works and
    whether a frame arrived. *)
(** rt/runner.rs:535-614 drain_rx *)
Fixpoint drain_rx {E} (n i : nat) (r : Runner T) (env : nat → RxEnv) (processed : bool) :
    outcome E (Runner T * bool * bool) :=
  match n with
  | O => Ok (r, true, processed)
  | S n =>
    let has_fd := bool_decide (is_Some (eth_raw_fd (rn_transport r))) in
    match (if has_fd then re_readable (env i) else inr true) with
    | inl _ => Ok (upd_event r (EvSocketError "poll"), false, processed)
    | inr false => Ok (r, true, processed)
    | inr true =>
      match eth_recv_into (rn_transport r) (rn_rx_buf r) (Some 0) with
      | Panic => Panic
      | Ok (t, buf, None) =>
        let r := upd_buffers (upd_transport r t) (rn_snapshot r) buf in
        if drain_should_continue has_fd true false then drain_rx n (S i) r env processed
        else Ok (r, true, processed)
      | Ok (t, buf, Some len) =>
        let r := upd_buffers (upd_transport r t) (rn_snapshot r) buf in
        let! frame := slice buf 0 len in
        let! r := rx_frame r frame (env i) in
        if drain_should_continue has_fd true true then drain_rx n (S i) r env true
        else Ok (r, true, true)
      | Err (TeFrameTooLong _, t) =>
        let r := upd_stats (upd_transport r t) (fetch_add SxInvalid 1) in
        if drain_should_continue has_fd true true then drain_rx n (S i) r env true
        else Ok (r, true, true)
      | Err (_, t) => Ok (upd_event (upd_transport r t) (EvSocketError "recv"), false, processed)
      end
    end
  end.

(** The part of an iteration behind the tick; [false] leaves the loop. *)
(** rt/runner.rs:478-508 run_loop *)
Definition after_tick {E} (r : Runner T) (env : Env) (socket_ready ticked : bool) :
    outcome E (Runner T * bool) :=
  let has_fd := bool_decide (is_Some (eth_raw_fd (rn_transport r))) in
  let drain := if has_fd then socket_ready else ticked in
  let! (r, alive, drained_frame) :=
    if (drain : bool) then drain_rx MAX_RX_PER_PASS 0 r (ev_rx env) false
    else Ok (r, true, false) in
  if negb alive then Ok (r, false) else
  if ticked || drained_frame then Ok (upd_no_progress r 0, true) else
  let r := upd_no_progress r (Z.min 4294967295 (rn_no_progress r + 1)) in
  if decide (MAX_NO_PROGRESS_ITERATIONS ≤ rn_no_progress r)
  then Ok (upd_event r (EvSocketError "poll made no progress"), false)
  else Ok (r, true).

(** rt/runner.rs:398-509 run_loop *)
Definition cycle {E} (r : Runner T) (env : Env) : outcome E (Runner T * bool) :=
  match ev_poll env with
  | inl _ => Ok (upd_event r (EvSocketError "poll"), false)
  | inr (timer_ready, wake_ready, socket_ready) =>
    let r :=
      if (wake_ready : bool) then
        let s := rn_shared r in
        upd_shared r {| sh_stop := sh_stop s; sh_running := sh_running s; sh_events := sh_events s;
                        sh_event_fd := sh_event_fd s; sh_wake_fd := drain_eventfd (sh_wake_fd s) |}
      else r in
    if (timer_ready : bool) then
      match read_timer (ev_timer env) with
      | Err _ => Ok (upd_event r (EvSocketError "timerfd read"), false)
      | Panic => Panic
      | Ok expirations =>
        if decide (expirations = 0) then after_tick r env socket_ready false else
        let! (r, alive) := on_timer r env expirations in
        if (alive : bool) then after_tick r env socket_ready true else Ok (r, false)
      end
    else after_tick r env socket_ready false
  end.

(** ** The life of the thread *)

(** What the scheduling calls and the arming of the timer returned. *)
Record SetupEnv := {
  se_affinity_ok : bool; se_fifo_ok : bool; se_lock_ok : bool; se_arm_ok : bool
}.

(** rt/runner.rs:657-675 arm_timerfd *)
Definition arm_timerfd (period : Z) (settime_ok : bool) : bool :=
  if decide (period = 0) then false else settime_ok.

(** rt/runner.rs:336-357 run_loop *)
Definition sched_events (cfg : RtConfig) (env : SetupEnv) (s : RtShared) : RtShared :=
  let s := match rg_cpu_pin cfg with
           | Some _ => if se_affinity_ok env then s else push_event s (EvSchedWarning "CPU pin")
           | None => s
           end in
  let s := match rg_rt_priority cfg with
           | Some _ => if se_fifo_ok env then s else push_event s (EvSchedWarning "SCHED_FIFO")
           | None => s
           end in
  if rg_lock_memory cfg then
    if se_lock_ok env then s else push_event s (EvSchedWarning "mlockall")
  else s.

(** The state at the first iteration, or the exit if the timer cannot be armed. *)
(** rt/runner.rs:319-396 run_loop *)
Definition run_setup (cfg : RtConfig) (t : T) (image : IoImage) (stats : RtStats) (s : RtShared)
    (env : SetupEnv) : Runner T * bool :=
  let period := CrLayout_period (la_input_cr (rg_layout cfg)) in
  let r :=
    {| rn_transport := t; rn_shared := sched_events cfg env s;
       rn_engine := RtEngine_new (rg_layout cfg) (rg_our_mac cfg) (rg_cpu_mac cfg) stats;
       rn_image := image; rn_grid := TickGrid_new period; rn_pending := None;
       rn_no_progress := 0;
       rn_snapshot := replicate (cl_data_length (la_input_cr (rg_layout cfg))) 0;
       rn_rx_buf := replicate MAX_FRAME_LEN 0 |} in
  if arm_timerfd period (se_arm_ok env) then (r, true)
  else (upd_event r (EvSocketError "timerfd arm"), false).

(** What happens to the thread between the points where it looks: the
    application writes an input or asks for the stop, or the loop turns. *)
Inductive RtStep :=
| RsWrite (slot subslot : Z) (bytes : list Z)
| RsStop
| RsCycle (env : Env).

(** The state and whether the loop is still running. *)
Definition rt_step {E} (r : Runner T) (st : RtStep) : outcome E (Runner T * bool) :=
  match st with
  | RsWrite slot subslot bytes =>
    match write_inputs (rn_image r) slot subslot bytes with
    | Ok image => Ok (upd_image r image (rn_pending r), true)
    | Err _ => Ok (r, true)
    | Panic => Panic
    end
  | RsStop => Ok (upd_shared r (request_stop (rn_shared r)), true)
  | RsCycle env => if sh_stop (rn_shared r) then Ok (r, false) else cycle r env
  end.

(** Run until the loop is left; then the exit guard. *)
Fixpoint rt_run {E} (r : Runner T) (steps : list RtStep) : outcome E (Runner T * bool) :=
  match steps with
  | [] => Ok (r, true)
  | st :: steps =>
    let! (r, alive) := rt_step r st in
    if (alive : bool) then rt_run r steps
    else Ok (upd_shared r (exit_guard (rn_shared r)), false)
  end.
End cycle.

(** ** The invariant *)

(** The two descriptors of the handle are doorbells: readable exactly while
    something is queued. *)
Definition bell_ok (s : RtShared) : Prop :=
  0 ≤ sh_event_fd s ∧ (sh_events s = [] ↔ sh_event_fd s = 0).

Lemma signal_eventfd_pos c : 0 ≤ c → 0 < signal_eventfd c.
Proof. unfold signal_eventfd. intros. case_decide; lia. Qed.

Lemma bell_ok_push s ev : bell_ok s → bell_ok (push_event s ev).
Proof.
  intros [H _]. pose proof (signal_eventfd_pos _ H). split; cbn; [lia|].
  split; [intros Hx; by destruct (sh_events s)|lia].
Qed.

Lemma bell_ok_take s : bell_ok s → bell_ok (take_event s).1.
Proof.
  unfold take_event. intros [H Hi]. destruct (sh_events s) as [|ev [|ev' evs]]; [done|done|].
  split; cbn; [done|]. split; [done|]. intros H0. by apply Hi in H0.
Qed.

Section invariant.
#[local] Set Default Proof Using "Type*".
Context `{EthTransportLaws T}.
Variable la : Layout.
Implicit Types r : Runner T.

Record rn_inv (r : Runner T) : Prop := {
  ri_engine : en_inv (rn_engine r);
  ri_layout : en_layout (rn_engine r) = la;
  ri_image : im_ok la (rn_image r);
  ri_snapshot : length (rn_snapshot r) = cl_data_length (la_input_cr la);
  ri_rx_buf : length (rn_rx_buf r) = MAX_FRAME_LEN;
  ri_transport : eth_wf (rn_transport r);
  ri_bell : bell_ok (rn_shared r)
}.

(** The data the application reads is the engine's, or the way there is known
    to be open: a publish is pending, or the image says the controller is lost. *)
Definition tracks (r : Runner T) : Prop :=
  im_csdu (rn_image r) = en_rx_csdu (rn_engine r) ∨
  (∃ v, rn_pending r = Some (PdData v)) ∨
  (∃ v, rn_pending r = Some (PdValidity v)) ∨
  va_watchdog (im_validity (rn_image r)) = IwExpired.

(** A pending validity always announces the loss of the controller. *)
Definition pending_ok (r : Runner T) : Prop :=
  ∀ v, rn_pending r = Some (PdValidity v) → va_watchdog v = IwExpired.

(** The octets received and shown, and what the thread leaves to the others:
    the inputs and the cells. *)
Definition wire_u8 (r : Runner T) : Prop :=
  Forall u8 (en_rx_csdu (rn_engine r)) ∧ Forall u8 (im_csdu (rn_image r)).
Record spares (r r' : Runner T) : Prop := {
  sp_inputs : im_inputs (rn_image r') = im_inputs (rn_image r);
  sp_cells : im_cells (rn_image r') = im_cells (rn_image r);
  sp_u8 : wire_u8 r → wire_u8 r'
}.
Lemma spares_trans r1 r2 r3 : spares r1 r2 → spares r2 r3 → spares r1 r3.
Proof. intros [] []. split; [congruence..|by auto]. Qed.
Lemma spares_same r r' :
  rn_image r' = rn_image r → en_rx_csdu (rn_engine r') = en_rx_csdu (rn_engine r) → spares r r'.
Proof. intros Hi He. split; unfold wire_u8; by rewrite ?Hi, ?He. Qed.

(** How a piece of the loop changes the state. *)
Record evolves (r r' : Runner T) : Prop := {
  ev_inv : rn_inv r';
  ev_tracks : pending_ok r → tracks r → pending_ok r' ∧ tracks r';
  ev_events : sh_events (rn_shared r) `prefix_of` sh_events (rn_shared r');
  ev_stop : sh_stop (rn_shared r') = sh_stop (rn_shared r);
  ev_spares : spares r r'
}.

Lemma evolves_trans r1 r2 r3 : evolves r1 r2 → evolves r2 r3 → evolves r1 r3.
Proof.
  intros [? ? ? ? ?] [? ? ? ? ?]. split; [done| |by etrans|congruence|by eapply spares_trans].
  naive_solver.
Qed.

Lemma evolves_refl r : rn_inv r → evolves r r.
Proof. by split. Qed.

Lemma evolves_event r ev : rn_inv r → evolves r (upd_event r ev).
Proof.
  intros [? ? ? ? ? ? ?]. split; [|done|by eexists|done|by apply spares_same]. split; try done.
  by apply bell_ok_push.
Qed.

Lemma evolves_stats r f : rn_inv r → evolves r (upd_stats r f).
Proof.
  intros [? ? ? ? ? ? ?]. split; [|done|done|done|by apply spares_same]. split; try done.
  by apply set_en_stats_inv.
Qed.

Lemma evolves_engine r e :
  rn_inv r → en_inv e → en_layout e = la → en_rx_csdu e = en_rx_csdu (rn_engine r) →
  evolves r (upd_engine r e).
Proof.
  intros [? ? ? ? ? ? ?] He Hl Hc. split; [by split| |done|done|by apply spares_same].
  intros Hp Ht. split; [done|]. unfold tracks in *. cbn. by rewrite Hc.
Qed.

Lemma evolves_transport r t : rn_inv r → eth_wf t → evolves r (upd_transport r t).
Proof. intros [? ? ? ? ? ? ?] Ht. split; [by split|done|done|done|by apply spares_same]. Qed.

Lemma evolves_buffers r s b :
  rn_inv r → length s = cl_data_length (la_input_cr la) → length b = MAX_FRAME_LEN →
  evolves r (upd_buffers r s b).
Proof. intros [? ? ? ? ? ? ?] ? ?. split; [by split|done|done|done|by apply spares_same]. Qed.

Lemma evolves_grid r g : rn_inv r → evolves r (upd_grid r g).
Proof. intros [? ? ? ? ? ? ?]. split; [by split|done|done|done|by apply spares_same]. Qed.

(** Publishing to the image. *)
Lemma rt_publish_ok {E} img csdu v busy :
  im_ok la img → length csdu = cl_data_length (la_output_cr la) →
  ∃ img', rt_publish (E := E) img busy csdu v = Ok (img', negb busy) ∧ im_ok la img' ∧
    (busy = true → img' = img) ∧
    (busy = false → im_csdu img' = csdu ∧ im_validity img' = v ∧ im_inputs img' = im_inputs img).
Proof.
  intros [Hc Hi Ho] Hl. unfold rt_publish. destruct busy; [by exists img|].
  rewrite copy_front_same by lia. eexists. split; [done|]. split; [|done]. by split.
Qed.

Lemma set_validity_ok img v : im_ok la img → im_ok la (set_validity img v).
Proof. by intros [? ? ?]. Qed.

Lemma rx_csdu_length r : rn_inv r → length (en_rx_csdu (rn_engine r)) = cl_data_length (la_output_cr la).
Proof. intros [[] <- _ _ _ _ _]. done. Qed.

(** Moving a pending publish, or a verdict of the watchdog, into the image. *)
Lemma evolves_image r img p :
  rn_inv r → im_ok la img →
  im_inputs img = im_inputs (rn_image r) → im_cells img = im_cells (rn_image r) →
  (wire_u8 r → Forall u8 (im_csdu img)) →
  (pending_ok r → tracks r → pending_ok (upd_image r img p) ∧ tracks (upd_image r img p)) →
  evolves r (upd_image r img p).
Proof.
  intros [? ? ? ? ? ? ?] Hi Hin Hce Hu Ht. split; [by split|done|done|done|]. split; [done|done|].
  intros Hw. split; [apply Hw|by apply Hu].
Qed.

Lemma evolves_defer r p :
  rn_inv r →
  (pending_ok r → tracks r →
   pending_ok (upd_image r (rn_image r) p) ∧ tracks (upd_image r (rn_image r) p)) →
  evolves r (upd_image r (rn_image r) p).
Proof. intros Hr. apply evolves_image; try done; [apply Hr|by intros []]. Qed.
Lemma evolves_validity r v p :
  rn_inv r →
  (pending_ok r → tracks r →
   pending_ok (upd_image r (set_validity (rn_image r) v) p) ∧
   tracks (upd_image r (set_validity (rn_image r) v) p)) →
  evolves r (upd_image r (set_validity (rn_image r) v) p).
Proof. intros Hr. apply evolves_image; try done; [apply set_validity_ok, Hr|by intros []]. Qed.
Lemma evolves_publish r img p :
  rn_inv r → im_ok la img → im_csdu img = en_rx_csdu (rn_engine r) →
  im_inputs img = im_inputs (rn_image r) →
  (pending_ok r → pending_ok (upd_image r img p)) → evolves r (upd_image r img p).
Proof.
  intros Hr Hi Hc Hin Hp. apply evolves_image; try done.
  - rewrite (io_cells _ _ Hi). symmetry. apply Hr.
  - rewrite Hc. by intros [].
  - intros ? _. split; [by apply Hp|]. by left.
Qed.

Lemma retry_pending_ok r p busy :
  rn_inv r → rn_pending r = Some p →
  ∃ r', retry_pending (E := Empty_set) (upd_image r (rn_image r) None) p busy = Ok r' ∧ evolves r r' ∧
    (busy = false → rn_pending r' = None).
Proof.
  intros Hr Hp. pose proof (rx_csdu_length r Hr) as Hl. pose proof (ri_image r Hr) as Him.
  unfold retry_pending. cbn [rn_image rn_engine upd_image rn_pending].
  destruct p as [v|v].
  - destruct (rt_publish_ok (E := Empty_set) (rn_image r) (en_rx_csdu (rn_engine r)) v busy Him Hl)
      as (img' & -> & Him' & Hb & Hf). cbn [obind]. destruct busy; cbn [negb].
    + rewrite Hb by done. eexists. split; [done|]. split; [|done].
      eapply evolves_trans; [apply (evolves_defer r (Some (PdData v)) Hr)|].
      { intros _ _. split; [done|]. right; left. by eexists. }
      apply evolves_stats. by split; apply Hr.
    + eexists. split; [done|]. split; [|done]. destruct (Hf eq_refl) as (? & _ & ?).
      by apply (evolves_publish r img' None Hr Him').
  - cbn [obind]. unfold rt_set_validity. destruct busy.
    + eexists. split; [done|]. split; [|done].
      eapply evolves_trans; [apply (evolves_defer r (Some (PdValidity v)) Hr)|].
      { intros Hok _. split; [|right; right; left; by eexists]. intros ? [= <-]. by apply Hok. }
      apply evolves_stats. by split; apply Hr.
    + eexists. split; [done|]. split; [|done].
      apply (evolves_validity r v None Hr).
      intros Hok _. split; [done|]. do 3 right. by apply Hok.
Qed.

(** The part of the state a tick's frame is made of. *)
Definition same_provider (r r' : Runner T) : Prop :=
  en_cycle_counter (rn_engine r') = en_cycle_counter (rn_engine r) ∧
  en_cpu_mac (rn_engine r') = en_cpu_mac (rn_engine r) ∧
  en_our_mac (rn_engine r') = en_our_mac (rn_engine r) ∧
  rn_transport r' = rn_transport r ∧ im_inputs (rn_image r') = im_inputs (rn_image r) ∧
  rn_snapshot r' = rn_snapshot r.

Lemma retry_pending_same r p busy r' :
  rn_inv r → retry_pending (E := Empty_set) (upd_image r (rn_image r) None) p busy = Ok r' →
  same_provider r r'.
Proof.
  intros Hr. pose proof (rx_csdu_length r Hr) as Hl. pose proof (ri_image r Hr) as Him.
  unfold retry_pending. cbn [rn_image rn_engine upd_image rn_pending].
  destruct p as [v|v].
  - destruct (rt_publish_ok (E := Empty_set) (rn_image r) (en_rx_csdu (rn_engine r)) v busy Him Hl)
      as (img' & -> & Him' & Hb & Hf). cbn [obind]. destruct busy; cbn [negb]; intros [= <-].
    + by rewrite Hb.
    + destruct (Hf eq_refl) as (_ & _ & Hin). by split_and!.
  - cbn [obind]. unfold rt_set_validity. by destruct busy; intros [= <-].
Qed.

Lemma check_watchdog_same e now e' v :
  check_watchdog e now = (e', v) →
  en_cycle_counter e' = en_cycle_counter e ∧ en_cpu_mac e' = en_cpu_mac e ∧
  en_our_mac e' = en_our_mac e.
Proof.
  unfold check_watchdog. intros Hc. destruct (en_last_rx e); [|by injection Hc as <- <-].
  case_decide; [by injection Hc as <- <-|]. destruct (en_watchdog_state e); by injection Hc as <- <-.
Qed.

Lemma tick_watchdog_ok r now busy :
  rn_inv r → evolves r (tick_watchdog r now busy) ∧ same_provider r (tick_watchdog r now busy) ∧
  (busy = false → rn_pending r = None → rn_pending (tick_watchdog r now busy) = None).
Proof.
  intros Hr. unfold tick_watchdog.
  destruct (check_watchdog (rn_engine r) now) as [e v] eqn:Hc.
  pose proof (check_watchdog_same _ _ _ _ Hc) as (Hcc & Hcm & Hom).
  apply check_watchdog_inv in Hc as (He & Hl & Hv & _); [|apply Hr].
  injection Hv as Hcs _ _. rewrite (ri_layout r Hr) in Hl.
  pose proof (evolves_engine r e Hr He Hl Hcs) as H1.
  destruct v; try (by split_and!).
  assert (evolves r (upd_event (upd_engine r (mark_outputs_stale e)) EvWatchdogExpired)) as H2.
  { eapply evolves_trans; [|apply evolves_event].
    - apply evolves_engine; [done|by apply mark_outputs_stale_inv|done|done].
    - split; try apply Hr; [by apply mark_outputs_stale_inv|done]. }
  unfold rt_set_validity. destruct busy; (split; [|by split_and!]);
    (eapply evolves_trans; [exact H2|]).
  - eapply evolves_trans; [|apply evolves_stats]; [|split; apply H2].
    apply (evolves_defer (upd_event _ _)); [apply H2|]. intros _ _. split; [by intros ? [= <-]|].
    right; right; left. by eexists.
  - apply (evolves_validity (upd_event _ _)); [apply H2|]. intros Hok _. split; [done|].
    do 3 right. done.
Qed.

(** What a tick puts on the wire: one frame, carrying the application's inputs
    (the ones of the tick before if the image was locked), that the controller
    can parse. *)
Definition sends (r : Runner T) (env : Env) (expirations : Z) (frame : list Z) : Prop :=
  ∃ rt, RtFrame_parse frame =
          Ok (rt_eth (en_cpu_mac (rn_engine r)) (en_our_mac (rn_engine r)), rt) ∧
    provider_says (rn_engine r) (ev_problem env)
      (if decide (tg_ticks (rn_grid r) = 0) then 1 else Z.min expirations 4294967295)
      (if ev_busy_inputs env then rn_snapshot r else im_inputs (rn_image r)) rt.

Lemma snapshot_ok {E} r busy : rn_inv r →
  rt_snapshot_inputs (E := E) (rn_image r) busy (rn_snapshot r)
  = Ok (if busy then rn_snapshot r else im_inputs (rn_image r), negb busy).
Proof.
  intros Hr. unfold rt_snapshot_inputs. destruct busy; [done|].
  rewrite copy_front_same; [done|]. rewrite (ri_snapshot r Hr). symmetry. apply Hr.
Qed.

Lemma provider_says_same r e problem n inputs rt :
  en_layout e = en_layout (rn_engine r) → en_cycle_counter e = en_cycle_counter (rn_engine r) →
  provider_says e problem n inputs rt → provider_says (rn_engine r) problem n inputs rt.
Proof. unfold provider_says. by intros -> ->. Qed.

(** The deferred publish, if there is one, is tried again first. *)
Lemma retry_stage_ok r busy :
  rn_inv r →
  ∃ r', match rn_pending r with
        | Some p => retry_pending (E := Empty_set) (upd_image r (rn_image r) None) p busy
        | None => Ok r
        end = Ok r' ∧ evolves r r' ∧ same_provider r r' ∧ (busy = false → rn_pending r' = None).
Proof.
  intros Hr. destruct (rn_pending r) as [p|] eqn:Hp; [|exists r; by split_and!; [|apply evolves_refl|..]].
  destruct (retry_pending_ok r p busy Hr Hp) as (r' & Hr' & He & Hn).
  exists r'. split_and!; [done|done|by apply retry_pending_same in Hr'|done].
Qed.

(** The snapshot is taken, or the last one used again and counted. *)
Lemma snapshot_stage_ok r snap (fresh : bool) :
  rn_inv r → length snap = cl_data_length (la_input_cr la) →
  let r1 := upd_buffers r snap (rn_rx_buf r) in
  let r' := if fresh then r1 else upd_stats r1 (fetch_add SxReused 1) in
  evolves r r' ∧ rn_snapshot r' = snap ∧ rn_transport r' = rn_transport r ∧
  (∃ st, rn_engine r' = set_en_stats (rn_engine r) st) ∧ rn_pending r' = rn_pending r.
Proof.
  intros Hr Hl r1 r'. assert (evolves r r1) as H1 by (apply evolves_buffers; [done|done|apply Hr]).
  subst r'. destruct fresh; cbn.
  - split_and!; [done|done|done| |done]. exists (en_stats (rn_engine r)). by destruct (rn_engine r).
  - split_and!; [|done|done|by eexists|done]. eapply evolves_trans; [exact H1|]. apply evolves_stats, H1.
Qed.

(** The frame goes to the transport, which may refuse it. *)
Lemma send_stage_ok r frame (f : RtStats → RtStats) :
  rn_inv r →
  ∃ r' alive,
    match eth_send (rn_transport r) frame with
    | Ok t => Ok (E := Empty_set) (upd_stats (upd_transport r t) f, true)
    | Err (_, t) => Ok (upd_event (upd_transport r t) (EvSocketError "send"), false)
    | Panic => Panic
    end = Ok (r', alive) ∧ evolves r r' ∧ rn_pending r' = rn_pending r ∧
    (if alive then eth_send (rn_transport r) frame = Ok (rn_transport r')
     else (∃ err, eth_send (rn_transport r) frame = Err (err, rn_transport r')) ∧
          ∃ pre, sh_events (rn_shared r') = pre ++ [EvSocketError "send"]).
Proof.
  intros Hr. pose proof (eth_send_total (rn_transport r) frame (ri_transport r Hr)) as Hnp.
  destruct (eth_send (rn_transport r) frame) as [t|[err t]|] eqn:Hs; [..|done].
  - destruct (eth_send_wf _ _ _ (ri_transport r Hr) Hs) as [Hwt _].
    pose proof (evolves_transport r t Hr Hwt) as Ht. eexists _, true. split_and!; [done| |done|done].
    eapply evolves_trans; [exact Ht|]. apply evolves_stats, Ht.
  - destruct (eth_send_err _ _ _ _ (ri_transport r Hr) Hs) as [Hwt _].
    pose proof (evolves_transport r t Hr Hwt) as Ht.
    eexists _, false. split_and!; [done| |done|by eexists|by eexists].
    eapply evolves_trans; [exact Ht|]. apply evolves_event, Ht.
Qed.

Lemma on_timer_ok r env n :
  rn_inv r →
  ∃ r' alive frame, on_timer (E := Empty_set) r env n = Ok (r', alive) ∧ evolves r r' ∧
    sends r env n frame ∧
    (if alive then eth_send (rn_transport r) frame = Ok (rn_transport r')
     else (∃ err, eth_send (rn_transport r) frame = Err (err, rn_transport r')) ∧
          ∃ pre, sh_events (rn_shared r') = pre ++ [EvSocketError "send"]) ∧
    (ev_busy_retry env = false → ev_busy_validity env = false → rn_pending r' = None).
Proof.
  intros Hr. unfold on_timer. destruct (tg_on_read (rn_grid r) (ev_now env) n) as [grid late].
  set (r1 := upd_stats (upd_grid r grid) _).
  assert (evolves r r1) as H1.
  { eapply evolves_trans; [by apply (evolves_grid r grid)|]. apply evolves_stats. by apply evolves_grid. }
  destruct (retry_stage_ok r1 (ev_busy_retry env) (ev_inv _ _ H1)) as (r2 & -> & E2 & S2 & P2).
  pose proof (evolves_trans _ _ _ H1 E2) as H2. cbn [obind].
  destruct (tick_watchdog_ok r2 (ev_now env) (ev_busy_validity env) (ev_inv _ _ H2)) as (E3 & S3 & P3).
  set (r3 := tick_watchdog r2 _ _) in *. pose proof (evolves_trans _ _ _ H2 E3) as H3.
  change (same_provider r r2) in S2. destruct S2 as (C2 & M2 & N2 & T2 & I2 & Sn2), S3 as (C3 & M3 & N3 & T3 & I3 & Sn3).
  rewrite snapshot_ok by apply H3. cbn [obind]. rewrite I3, I2, Sn3, Sn2.
  set (snap := if ev_busy_inputs env then rn_snapshot r else im_inputs (rn_image r)).
  destruct (snapshot_stage_ok r3 snap (negb (ev_busy_inputs env)) (ev_inv _ _ H3)) as (E4 & Sn4 & T4 & [st Hst] & P4).
  { subst snap. destruct (ev_busy_inputs env); apply Hr. }
  set (r4 := if negb (ev_busy_inputs env) then _ else _) in *. pose proof (evolves_trans _ _ _ H3 E4) as H4.
  rewrite Sn4, bool_decide_decide. pose proof (ri_layout _ (ev_inv _ _ H4)) as Hla4.
  replace (if if decide (tg_ticks (rn_grid r) = 0) then true else false then 1 else Z.min n 4294967295)
    with (if decide (tg_ticks (rn_grid r) = 0) then 1 else Z.min n 4294967295) by (by case_decide).
  destruct (en_on_tick_says (rn_engine r4) (ev_problem env)
    (if decide (tg_ticks (rn_grid r) = 0) then 1 else Z.min n 4294967295) snap (ri_engine _ (ev_inv _ _ H4)))
    as (e' & frame & rt & Ht & He' & Hp & _ & Hsay).
  { rewrite Hla4. subst snap. destruct (ev_busy_inputs env); apply Hr. }
  rewrite Ht. cbn [obind]. apply en_on_tick_layout in Ht as (Hl' & Hv' & _). injection Hv' as Hcs _ _.
  assert (evolves r (upd_engine r4 e')) as H5.
  { eapply evolves_trans; [exact H4|]. apply evolves_engine; [apply H4|done|congruence|done]. }
  destruct (send_stage_ok (upd_engine r4 e') frame (with_work (λ h, hist_record h (ev_elapsed env))) (ev_inv _ _ H5))
    as (r' & alive & -> & E6 & P6 & Hal).
  cbn [rn_transport upd_engine rn_pending] in Hal, P6. rewrite T4, T3, T2 in Hal.
  exists r', alive, frame. split_and!; [done|by eapply evolves_trans| |done|].
  - exists rt. split; [rewrite Hp, Hst; cbn; by rewrite M3, M2, N3, N2|].
    eapply (provider_says_same r (rn_engine r4)); [|rewrite Hst; cbn; congruence|exact Hsay].
    rewrite Hla4. symmetry. apply Hr.
  - intros Hb1 Hb2. rewrite P6, P4. apply P3; [done|by apply P2].
Qed.

(** ** Receptions *)

Lemma rx_frame_ok r frame env :
  rn_inv r → Forall u8 frame →
  ∃ r', rx_frame (E := Empty_set) r frame env = Ok r' ∧ evolves r r' ∧
    rn_transport r' = rn_transport r.
Proof.
  intros Hr Hf8. unfold rx_frame.
  destruct (en_on_frame_total (E := Empty_set) (rn_engine r) frame (re_now env) (ri_engine r Hr))
    as (e & v & He & Hi). rewrite He. cbn [obind].
  assert (wire_u8 r → Forall u8 (en_rx_csdu e)) as He8 by (intros []; eapply (en_on_frame_u8 (rn_engine r) frame); [done..|exact He]).
  apply en_on_frame_layout in He as [Hl Hv]. rewrite (ri_layout r Hr) in Hl.
  destruct v as [run prim valid| |].
  2-3: exists (upd_engine r e); split_and!; [done| |done];
       apply evolves_engine; [done|done|done|by rewrite Hv].
  set (r1 := match en_last_rx (rn_engine r) with Some _ => _ | None => _ end).
  assert (rn_inv r1 ∧ rn_transport r1 = rn_transport r ∧ rn_shared r1 = rn_shared r ∧
          rn_image r1 = rn_image r ∧ en_rx_csdu (rn_engine r1) = en_rx_csdu e)
    as (H1 & Ht & Hs & Him & Hc).
  { assert (rn_inv (upd_engine r e)) as He by (destruct Hr; by split).
    subst r1. destruct (en_last_rx (rn_engine r)); [|by split_and!].
    split_and!; [by apply evolves_stats|done..]. }
  rewrite Him. pose proof (rx_csdu_length r1 H1) as Hlen. rewrite Hc in Hlen.
  set (v := {| va_provider_run := _ |}).
  destruct (rt_publish_ok (E := Empty_set) (rn_image r) (en_rx_csdu e) v (re_busy env) (ri_image r Hr) Hlen)
    as (img' & -> & Him' & Hb & Hf). cbn [obind].
  destruct (re_busy env); cbn [negb]; eexists; (split_and!; [done| |done]).
  - split; [|intros _ _|by rewrite <-Hs|cbn; by rewrite Hs|].
    + apply evolves_stats. destruct H1. by split.
    + split; [done|]. right; left. by eexists.
    + rewrite Hb by done. split; [done|done|]. intros Hw. split; cbn; [rewrite Hc; by apply He8|apply Hw].
  - destruct (Hf eq_refl) as (Hcs & _ & Hin). split; [|intros _ _|by rewrite <-Hs|cbn; by rewrite Hs|].
    + destruct H1. by split.
    + split; [done|]. left. cbn. by rewrite Hc.
    + split; cbn; [done| |].
      * rewrite (io_cells _ _ Him'). symmetry. apply Hr.
      * intros Hw. split; cbn; [rewrite Hc|rewrite Hcs]; by apply He8.
Qed.

Lemma drain_rx_ok env n : ∀ r i processed,
  rn_inv r →
  ∃ r' alive got, drain_rx (E := Empty_set) n i r env processed = Ok (r', alive, got) ∧
    evolves r r' ∧
    (alive = false → ∃ pre c, sh_events (rn_shared r') = pre ++ [EvSocketError c]).
Proof.
  induction n as [|n IH]; intros r i processed Hr; cbn [drain_rx].
  { do 3 eexists. split_and!; [done|by apply evolves_refl|done]. }
  assert (∀ r1 processed' go, evolves r r1 →
    ∃ r' alive got,
      (if (go : bool) then drain_rx (E := Empty_set) n (S i) r1 env processed' else Ok (r1, true, processed'))
      = Ok (r', alive, got) ∧ evolves r r' ∧
      (alive = false → ∃ pre c, sh_events (rn_shared r') = pre ++ [EvSocketError c])) as Hgo.
  { intros r1 pr' [] H1; [|do 3 eexists; by split_and!].
    destruct (IH r1 (S i) pr' (ev_inv _ _ H1)) as (r' & al & got & ? & ? & ?).
    do 3 eexists. split_and!; [done|by eapply evolves_trans|done]. }
  assert (∀ r1 c, evolves r r1 → evolves r (upd_event r1 (EvSocketError c)) ∧
    ∃ pre c', sh_events (rn_shared (upd_event r1 (EvSocketError c))) = pre ++ [EvSocketError c']) as Hev.
  { intros r1 c H1. split; [|by do 2 eexists]. eapply evolves_trans; [done|]. by apply evolves_event, H1. }
  destruct (if bool_decide _ then _ else _) as [er|[]].
  - destruct (Hev r "poll" (evolves_refl r Hr)). do 3 eexists. by split_and!.
  - pose proof (eth_recv_into_total (rn_transport r) (rn_rx_buf r) (Some 0) (ri_transport r Hr)
      ltac:(rewrite (ri_rx_buf r Hr); lia)) as Hnp.
    destruct (eth_recv_into _ _ _) as [[[t buf] [len|]]|[err t]|] eqn:Hrecv; [| | |done].
    + pose proof (eth_recv_into_wf _ _ _ _ _ _ (ri_transport r Hr) Hrecv) as (Hwt & Hlb & _).
      pose proof (eth_recv_into_frame _ _ _ _ _ _ (ri_transport r Hr) Hrecv) as (Hlen & Hf8 & _).
      unfold slice. rewrite decide_True by lia. cbn [obind].
      destruct (rx_frame_ok (upd_buffers (upd_transport r t) (rn_snapshot r) buf)
        (take (len - 0) (drop 0 buf)) (env i)) as (r1 & Hr1 & He1 & _).
      { destruct Hr. split; try done. cbn. congruence. }
      { by rewrite drop_0, Nat.sub_0_r. }
      cbn [rn_snapshot upd_transport]. rewrite Hr1. cbn [obind]. apply Hgo. eapply evolves_trans; [|exact He1].
      eapply evolves_trans; [apply (evolves_transport r t Hr Hwt)|].
      apply evolves_buffers; [by destruct Hr; split|apply Hr|rewrite Hlb; apply Hr].
    + pose proof (eth_recv_into_wf _ _ _ _ _ _ (ri_transport r Hr) Hrecv) as (Hwt & Hlb & _).
      apply Hgo. eapply evolves_trans; [apply (evolves_transport r t Hr Hwt)|].
      apply evolves_buffers; [by destruct Hr; split|apply Hr|rewrite Hlb; apply Hr].
    + apply eth_recv_into_err in Hrecv as [Hwt _]; [|apply Hr].
      pose proof (evolves_transport r t Hr Hwt) as H1.
      destruct err as [e| |l].
      1,2: destruct (Hev _ "recv" H1); do 3 eexists; by split_and!.
      apply Hgo. eapply evolves_trans; [exact H1|]. apply evolves_stats, H1.
  - do 3 eexists. split_and!; [done|by apply evolves_refl|done].
Qed.

Lemma evolves_no_progress r n : rn_inv r → evolves r (upd_no_progress r n).
Proof. intros [? ? ? ? ? ? ?]. by split. Qed.

Lemma after_tick_ok r env sock ticked :
  rn_inv r →
  ∃ r' alive, after_tick (E := Empty_set) r env sock ticked = Ok (r', alive) ∧ evolves r r' ∧
    (alive = false → ∃ pre c, sh_events (rn_shared r') = pre ++ [EvSocketError c]).
Proof.
  intros Hr. unfold after_tick. set (drain := if bool_decide _ then _ else _).
  assert (∃ r1 al got,
    (if drain then drain_rx (E := Empty_set) MAX_RX_PER_PASS 0 r (ev_rx env) false else Ok (r, true, false))
    = Ok (r1, al, got) ∧ evolves r r1 ∧
    (al = false → ∃ pre c, sh_events (rn_shared r1) = pre ++ [EvSocketError c]))
    as (r1 & al & got & -> & H1 & Hal).
  { destruct drain; [by apply drain_rx_ok|]. do 3 eexists. split_and!; [done|by apply evolves_refl|done]. }
  cbn [obind]. destruct al; cbn [negb]; [|do 2 eexists; by split_and!].
  assert (∀ n, evolves r (upd_no_progress r1 n)) as Hn.
  { intros n. eapply evolves_trans; [exact H1|]. apply evolves_no_progress, H1. }
  destruct (ticked || got); [do 2 eexists; by split_and!|].
  case_decide; [|do 2 eexists; by split_and!]. do 2 eexists. split_and!; [done| |by do 2 eexists].
  eapply evolves_trans; [apply Hn|]. apply evolves_event, Hn.
Qed.

Lemma cycle_ok r env :
  rn_inv r →
  ∃ r' alive, cycle (E := Empty_set) r env = Ok (r', alive) ∧ evolves r r' ∧
    (alive = false → ∃ pre c, sh_events (rn_shared r') = pre ++ [EvSocketError c]).
Proof.
  intros Hr. unfold cycle. destruct (ev_poll env) as [e|[[timer wake] sock]].
  { do 2 eexists. split_and!; [done|by apply evolves_event|by do 2 eexists]. }
  set (r0 := if wake then _ else r).
  assert (evolves r r0) as H0.
  { subst r0. destruct wake; [|by apply evolves_refl]. destruct Hr. split; [by split|done..]. }
  assert (∀ r1 ticked, evolves r r1 → ∃ r' alive,
    after_tick (E := Empty_set) r1 env sock ticked = Ok (r', alive) ∧ evolves r r' ∧
    (alive = false → ∃ pre c, sh_events (rn_shared r') = pre ++ [EvSocketError c])) as Hat.
  { intros r1 tk H1. destruct (after_tick_ok r1 env sock tk (ev_inv _ _ H1)) as (? & ? & ? & ? & ?).
    do 2 eexists. split_and!; [done|by eapply evolves_trans|done]. }
  destruct timer; [|by apply Hat].
  destruct (read_timer (ev_timer env)) as [n|e|] eqn:Hrt.
  - case_decide; [by apply Hat|].
    destruct (on_timer_ok r0 env n (ev_inv _ _ H0)) as (r1 & al & frame & -> & He1 & _ & Hal & _).
    pose proof (evolves_trans _ _ _ H0 He1). cbn [obind]. destruct al; [by apply Hat|].
    do 2 eexists. split_and!; [done|done|]. intros _. destruct Hal as [_ [pre Hpre]]. by exists pre, "send".
  - do 2 eexists. split_and!; [done| |by do 2 eexists]. eapply evolves_trans; [exact H0|].
    apply evolves_event, H0.
  - unfold read_timer in Hrt. destruct (ev_timer env); [done| |done]. by case_decide.
Qed.

(** ** The life of the thread *)

Lemma write_inputs_total img slot subslot bytes : no_panic (write_inputs img slot subslot bytes).
Proof.
  unfold write_inputs. apply no_panic_bind; [unfold find_cell; by destruct (List.find _ _)|].
  intros c _. apply no_panic_bind; [by destruct (ce_input_off c)|]. intros off _.
  do 2 (case_decide; [done|]). apply no_panic_bind; [|done].
  unfold copy_at. rewrite decide_True; [done|lia].
Qed.

Lemma write_inputs_im_ok img slot subslot bytes img' :
  im_ok la img → write_inputs img slot subslot bytes = Ok img' → im_ok la img'.
Proof.
  intros [Hc Hi Ho] Hw. apply write_inputs_Ok in Hw as (c & off & _ & _ & _ & Hcp & Hcs & Hcsd & _).
  split; [by rewrite Hcs| |by rewrite Hcsd]. rewrite <-Hi. by eapply copy_at_length.
Qed.

(** What holds of the thread at every point of its life. *)
Record rt_good (r : Runner T) : Prop := {
  rg_inv : rn_inv r; rg_pending : pending_ok r; rg_tracks : tracks r
}.

Lemma evolves_good r r' : rt_good r → evolves r r' → rt_good r'.
Proof. intros [? Hp Ht] [? He ? ?]. destruct (He Hp Ht). by split. Qed.

Lemma rt_step_ok r st :
  rt_good r →
  ∃ r' alive, rt_step (E := Empty_set) r st = Ok (r', alive) ∧ rt_good r' ∧
    sh_events (rn_shared r) `prefix_of` sh_events (rn_shared r') ∧
    (alive = false → sh_stop (rn_shared r') = false →
     ∃ pre c, sh_events (rn_shared r') = pre ++ [EvSocketError c]).
Proof.
  intros Hr. pose proof (rg_inv r Hr) as Hi. destruct st as [slot sub bytes| |env]; cbn [rt_step].
  - pose proof (write_inputs_total (rn_image r) slot sub bytes) as Hnp.
    destruct (write_inputs _ _ _ _) as [img|e|] eqn:Hw; [|by do 2 eexists; split_and!|done].
    do 2 eexists. split_and!; [done| |done|done].
    pose proof (write_inputs_im_ok _ _ _ _ _ (ri_image r Hi) Hw) as Him.
    apply write_inputs_Ok in Hw as (c & off & _ & _ & _ & _ & _ & Hcs & Hv).
    destruct Hr as [[] Hp Ht]. split; [by split|done|]. unfold tracks in *. cbn. by rewrite Hcs, Hv.
  - do 2 eexists. split_and!; [done| |done|done]. destruct Hr as [[] ? ?]. split; [by split|done..].
  - destruct (sh_stop (rn_shared r)) eqn:Hs; [by do 2 eexists; split_and!; try done; rewrite Hs|].
    destruct (cycle_ok r env Hi) as (r' & al & -> & He & Hal). do 2 eexists.
    split_and!; [done|by eapply evolves_good|apply He|by auto].
Qed.

(** How the thread ends. *)
Definition ended (r : Runner T) : Prop :=
  sh_running (rn_shared r) = false ∧
  ∃ pre, sh_events (rn_shared r) = pre ++ [EvExited] ∧
    (sh_stop (rn_shared r) = false → ∃ pre' c, pre = pre' ++ [EvSocketError c]).

Lemma exit_guard_good r : rt_good r → rt_good (upd_shared r (exit_guard (rn_shared r))).
Proof.
  intros [[] ? ?]. split; [split; try done|done..]. by apply bell_ok_push.
Qed.

Lemma rt_run_ok steps : ∀ r,
  rt_good r →
  ∃ r' alive, rt_run (E := Empty_set) r steps = Ok (r', alive) ∧ rt_good r' ∧
    sh_events (rn_shared r) `prefix_of` sh_events (rn_shared r') ∧ (alive = false → ended r').
Proof.
  induction steps as [|st steps IH]; intros r Hr; cbn [rt_run]; [by do 2 eexists; split_and!|].
  destruct (rt_step_ok r st Hr) as (r1 & al & -> & H1 & Hpre & Hal). cbn [obind]. destruct al.
  - destruct (IH r1 H1) as (r' & al & ? & ? & ? & ?). do 2 eexists. split_and!; [done|done|by etrans|done].
  - do 2 eexists. split_and!; [done|by apply exit_guard_good| |].
    + etrans; [exact Hpre|]. by eexists.
    + intros _. split; [done|]. exists (sh_events (rn_shared r1)). split; [done|]. by auto.
Qed.
End invariant.

(** The thread from its start to its end, on the image and the shared state of
    a fresh handle. *)
(** rt/runner.rs:243-254 RtRunner::spawn_with_transport *)
Definition rt_thread `{EthTransport T} {E} (cfg : RtConfig) (t : T) (image : IoImage)
    (stats : RtStats) (env : SetupEnv) (steps : list RtStep) : outcome E (Runner T * bool) :=
  let '(r, armed) := run_setup cfg t image stats RtShared_new env in
  if (armed : bool) then rt_run r steps
  else Ok (upd_shared r (exit_guard (rn_shared r)), false).

Section thread.
#[local] Set Default Proof Using "Type*".
Context `{EthTransportLaws T}.
Variables (params : ArParams) (model : DeviceModel) (cfg : RtConfig).
Hypothesis Hla : Layout_from_ar params model = Ok (rg_layout cfg).
Hypothesis Hin : u16 (ip_frame_id (ap_input_cr params)).
Hypothesis Hout : u16 (ip_frame_id (ap_output_cr params)).
Hypothesis Hour : wf_mac (rg_our_mac cfg).
Hypothesis Hcpu : wf_mac (rg_cpu_mac cfg).

Lemma sched_events_bell env s : bell_ok s → bell_ok (sched_events cfg env s).
Proof.
  intros Hb. unfold sched_events.
  destruct (rg_cpu_pin cfg), (rg_rt_priority cfg), (rg_lock_memory cfg),
    (se_affinity_ok env), (se_fifo_ok env), (se_lock_ok env); auto using bell_ok_push.
Qed.

Lemma run_setup_good t image stats env r armed :
  eth_wf t → run_setup cfg t (im_rebuild image (rg_layout cfg)) stats RtShared_new env = (r, armed) →
  rt_good (rg_layout cfg) r ∧
  (armed = false → ∃ pre, sh_events (rn_shared r) = pre ++ [EvSocketError "timerfd arm"]).
Proof.
  intros Ht Hs. unfold run_setup in Hs.
  assert (bell_ok RtShared_new) as Hb by done.
  assert (rt_good (rg_layout cfg) {| rn_transport := t; rn_shared := sched_events cfg env RtShared_new;
    rn_engine := RtEngine_new (rg_layout cfg) (rg_our_mac cfg) (rg_cpu_mac cfg) stats;
    rn_image := im_rebuild image (rg_layout cfg);
    rn_grid := TickGrid_new (CrLayout_period (la_input_cr (rg_layout cfg))); rn_pending := None;
    rn_no_progress := 0; rn_snapshot := replicate (cl_data_length (la_input_cr (rg_layout cfg))) 0;
    rn_rx_buf := replicate MAX_FRAME_LEN 0 |}) as Hg.
  { split; [|done|by left]. split; cbn [rn_engine rn_image rn_snapshot rn_rx_buf rn_transport rn_shared].
    - by eapply en_inv_new.
    - done.
    - apply im_ok_rebuild.
    - apply length_replicate.
    - apply length_replicate.
    - done.
    - by apply sched_events_bell. }
  destruct (arm_timerfd _ _); injection Hs as <- <-; [by split|].
  split; [|by eexists]. eapply evolves_good; [exact Hg|]. apply evolves_event, Hg.
Qed.

(** C11: the cyclic thread is safe over its whole life.  On any transport that
    keeps its laws, whatever [poll], the clock, the timer, the locks and the
    application do and whatever octets arrive, the thread never panics, keeps
    its buffers, image and engine consistent and its doorbell equivalent to the
    event queue, and what the application reads is the engine's data unless a
    publish is pending or the image says the controller is lost.  The thread
    ends only with [Exited] as its last event and [running] cleared, and unless
    the stop was requested the event before it is the socket error. *)
Theorem runner_safe (t : T) image stats env steps :
  eth_wf t →
  ∃ r alive,
    rt_thread (E := Empty_set) cfg t (im_rebuild image (rg_layout cfg)) stats env steps = Ok (r, alive) ∧
    rt_good (rg_layout cfg) r ∧ (alive = false → ended r).
Proof.
  intros Ht. unfold rt_thread. destruct (run_setup _ _ _ _ _ _) as [r armed] eqn:Hs.
  apply run_setup_good in Hs as [Hg Ha]; [|done]. destruct armed.
  - destruct (rt_run_ok _ steps r Hg) as (r' & al & ? & ? & _ & ?). by do 2 eexists.
  - do 2 eexists. split_and!; [done|by apply exit_guard_good|]. intros _.
    destruct Ha as [pre Hpre]; [done|]. split; [done|]. exists (sh_events (rn_shared r)).
    split; [done|]. intros _. by exists pre, "timerfd arm".
Qed.
End thread.

(** ** A loop without progress is left *)

(** [poll] reports something, but no timer expiration and no socket. *)
Definition idle (env : Env) : bool :=
  match ev_poll env with
  | inr (timer, _, false) => negb timer || bool_decide (read_timer (ev_timer env) = Ok 0)
  | _ => false
  end.

Section progress.
#[local] Set Default Proof Using "Type*".
Context `{EthTransport T}.

Lemma cycle_idle {E} (r : Runner T) env :
  idle env = true → 0 ≤ rn_no_progress r < MAX_NO_PROGRESS_ITERATIONS →
  ∃ r' alive, cycle (E := E) r env = Ok (r', alive) ∧
    rn_no_progress r' = rn_no_progress r + 1 ∧ sh_stop (rn_shared r') = sh_stop (rn_shared r) ∧
    if decide (MAX_NO_PROGRESS_ITERATIONS ≤ rn_no_progress r + 1)
    then alive = false ∧
         sh_events (rn_shared r') = sh_events (rn_shared r) ++ [EvSocketError "poll made no progress"]
    else alive = true ∧ sh_events (rn_shared r') = sh_events (rn_shared r).
Proof.
  unfold idle, cycle. destruct (ev_poll env) as [|[[timer wake] []]]; try done. intros Hi Hn.
  unfold MAX_NO_PROGRESS_ITERATIONS in *.
  set (r0 := if wake then _ else r).
  assert (rn_no_progress r0 = rn_no_progress r ∧ sh_stop (rn_shared r0) = sh_stop (rn_shared r) ∧
    sh_events (rn_shared r0) = sh_events (rn_shared r)) as (Hn0 & Hs0 & He0) by (by subst r0; destruct wake).
  assert (∃ r' alive, after_tick (E := E) r0 env false false = Ok (r', alive) ∧
    rn_no_progress r' = rn_no_progress r + 1 ∧ sh_stop (rn_shared r') = sh_stop (rn_shared r) ∧
    if decide (1000 ≤ rn_no_progress r + 1)
    then alive = false ∧
         sh_events (rn_shared r') = sh_events (rn_shared r) ++ [EvSocketError "poll made no progress"]
    else alive = true ∧ sh_events (rn_shared r') = sh_events (rn_shared r)) as Hat.
  { unfold after_tick. assert (∀ b : bool, (if b then false else false) = false) as -> by (by intros []).
    cbn [obind negb orb]. cbn [rn_no_progress upd_no_progress]. rewrite Hn0, Z.min_r by lia.
    unfold MAX_NO_PROGRESS_ITERATIONS.
    destruct (decide (1000 ≤ rn_no_progress r + 1)); do 2 eexists; (split; [done|]); cbn;
      by rewrite He0. }
  destruct timer; [|done]. apply bool_decide_eq_true in Hi. rewrite Hi.
  by rewrite decide_True.
Qed.

Lemma idle_run {E} envs : ∀ r : Runner T,
  Forall (λ env, idle env = true) envs → sh_stop (rn_shared r) = false →
  0 ≤ rn_no_progress r < MAX_NO_PROGRESS_ITERATIONS →
  MAX_NO_PROGRESS_ITERATIONS - rn_no_progress r ≤ Z.of_nat (length envs) →
  ∃ r', rt_run (E := E) r (RsCycle <$> envs) = Ok (r', false) ∧
    sh_events (rn_shared r')
    = sh_events (rn_shared r) ++ [EvSocketError "poll made no progress"; EvExited].
Proof.
  induction envs as [|env envs IH]; intros r Hi Hs Hn Hl; [cbn in Hl; lia|].
  apply Forall_cons_1 in Hi as [Hi His]. cbn [fmap list_fmap rt_run rt_step]. rewrite Hs.
  destruct (cycle_idle (E := E) r env Hi Hn) as (r1 & al & -> & Hn1 & Hs1 & He1). cbn [obind].
  case_decide; destruct He1 as [-> He1].
  - eexists. split; [done|]. cbn. by rewrite He1, <-app_assoc.
  - destruct (IH r1) as (r' & Hr' & He'); [done|congruence|lia|cbn in Hl; lia|].
    exists r'. by rewrite He', He1.
Qed.
End progress.

(** A loop that spins is left.  Once a thousand iterations in a row, less
    those already counted, have neither a timer expiration nor a frame, the
    thread reports [poll made no progress] and exits, on any transport. *)
Theorem spin_is_detected {E} `{EthTransport T} (r : Runner T) envs :
  Forall (λ env, idle env = true) envs → sh_stop (rn_shared r) = false →
  0 ≤ rn_no_progress r < MAX_NO_PROGRESS_ITERATIONS →
  MAX_NO_PROGRESS_ITERATIONS - rn_no_progress r ≤ Z.of_nat (length envs) →
  ∃ r', rt_run (E := E) r (RsCycle <$> envs) = Ok (r', false) ∧
    sh_events (rn_shared r')
    = sh_events (rn_shared r) ++ [EvSocketError "poll made no progress"; EvExited].
Proof. apply idle_run. Qed.

(** ** What goes on the wire *)

(** The expirations of the tick of an iteration, if it has one. *)
Definition tick_of (env : Env) : option Z :=
  match ev_poll env, read_timer (ev_timer env) with
  | inr (true, _, _), Ok n => if decide (n = 0) then None else Some n
  | _, _ => None
  end.

Section mock.
Variable la : Layout.
Implicit Types r : Runner MockTransport.

Lemma drain_rx_mock env n : ∀ r i processed r' alive got,
  rn_inv la r → drain_rx (E := Empty_set) n i r env processed = Ok (r', alive, got) →
  mt_tx (rn_transport r') = mt_tx (rn_transport r).
Proof.
  induction n as [|n IH]; intros r i processed r' alive got Hr; cbn [drain_rx]; [by intros [= <- _ _]|].
  cbn [eth_raw_fd MockTransport_eth eth_recv_into]. rewrite bool_decide_false by (by intros [? ?]).
  cbn [drain_should_continue]. unfold mt_recv_into. rewrite decide_False by (rewrite (ri_rx_buf _ _ Hr); lia).
  destruct (mt_rx (rn_transport r)) as [|f rx] eqn:Hrx; [by intros [= <- _ _]|].
  pose proof (ri_transport _ _ Hr) as Hwf. cbn in Hwf. rewrite Hrx in Hwf.
  apply Forall_cons_1 in Hwf as [Hf8 Hwf]. set (t := {| mt_tx := _; mt_rx := rx |}).
  case_decide as Hl.
  - intros Hd. apply IH in Hd; [done|].
    apply (evolves_stats la), (evolves_transport la); [done|done].
  - rewrite copy_at_front by lia. cbn [obind]. unfold slice. rewrite decide_True.
    2: { rewrite length_app. lia. } cbn [obind].
    set (r0 := upd_buffers _ _ _). assert (rn_inv la r0) as H0.
    { apply (evolves_buffers la); [apply (evolves_transport la); done|apply Hr|].
      rewrite length_app, length_drop, <-(ri_rx_buf _ _ Hr). lia. }
    cbn [rn_snapshot upd_transport].
    destruct (rx_frame_ok la r0 (take (length f - 0) (drop 0 (f ++ drop (length f) (rn_rx_buf r))))
      (env i) H0) as (r1 & Hr1 & He1 & Ht).
    { by rewrite drop_0, Nat.sub_0_r, take_app_length. }
    subst r0. cbn [rn_snapshot upd_transport] in Hr1.
    rewrite Hr1. cbn [obind]. intros Hd. apply IH in Hd; [by rewrite Hd, Ht|apply He1].
Qed.

Lemma after_tick_mock r env sock ticked r' alive :
  rn_inv la r → after_tick (E := Empty_set) r env sock ticked = Ok (r', alive) →
  mt_tx (rn_transport r') = mt_tx (rn_transport r).
Proof.
  intros Hr. unfold after_tick. cbn [eth_raw_fd MockTransport_eth].
  rewrite bool_decide_false by (by intros [? ?]).
  intros (((r1 & al) & got) & Hd & H)%obind_Ok.
  assert (mt_tx (rn_transport r1) = mt_tx (rn_transport r)) as Ht.
  { destruct ticked; [by eapply drain_rx_mock|by injection Hd as <- _ _]. }
  destruct al; cbn [negb] in H; [|by injection H as <- _].
  destruct (ticked || got); [by injection H as <- _|]. case_decide; by injection H as <- _.
Qed.
End mock.

Lemma cycle_frames la (r : Runner MockTransport) env :
  rn_inv la r →
  ∃ r' alive, cycle (E := Empty_set) r env = Ok (r', alive) ∧
    match tick_of env with
    | Some n => ∃ frame, sends r env n frame ∧
        mt_tx (rn_transport r') = mt_tx (rn_transport r) ++ [frame]
    | None => mt_tx (rn_transport r') = mt_tx (rn_transport r)
    end.
Proof.
  intros Hr. destruct (cycle_ok la r env Hr) as (r' & alive & Hc & _). exists r', alive.
  split; [done|]. unfold cycle in Hc. unfold tick_of.
  destruct (ev_poll env) as [e|[[timer wake] sock]]; [by injection Hc as <- _|].
  set (r0 := if wake then _ else r) in Hc.
  assert (rn_inv la r0 ∧ rn_transport r0 = rn_transport r ∧ (∀ n f, sends r0 env n f → sends r env n f))
    as (H0 & Ht & Hs).
  { subst r0. destruct wake; [|done]. split_and!; [|done|done]. destruct Hr. by split. }
  rewrite <-Ht. destruct timer; [|by eapply after_tick_mock].
  destruct (read_timer (ev_timer env)) as [n|e|]; [|by injection Hc as <- _|done].
  case_decide; [by eapply after_tick_mock|].
  destruct (on_timer_ok la r0 env n H0) as (r1 & al & frame & Hr1 & He & Hf & Hal & _).
  rewrite Hr1 in Hc. cbn [obind] in Hc. destruct al; [|by destruct Hal as [[? ?] _]].
  apply (after_tick_mock la) in Hc; [|apply He]. cbn in Hal. injection Hal as Hal.
  exists frame. split; [by apply Hs|]. rewrite Hc, <-Hal. done.
Qed.

(** C12: the cyclic thread sends exactly one frame per tick and none otherwise.
    In every iteration, on the in-memory transport: a timer read with [n]
    expirations appends one frame to what was sent, from this device to the
    controller, whose octets parse to what the provider has to say: the
    application's current inputs (those of the tick before only if the
    application held the lock), the counter advanced by [n] cycles (by one at
    the first read, whatever its count), the problem indicator.  Any other
    iteration, and every reception, sends nothing. *)
Theorem one_frame_per_tick la (r : Runner MockTransport) env :
  rn_inv la r →
  ∃ r' alive, cycle (E := Empty_set) r env = Ok (r', alive) ∧
    match tick_of env with
    | Some n => ∃ frame, sends r env n frame ∧
        mt_tx (rn_transport r') = mt_tx (rn_transport r) ++ [frame]
    | None => mt_tx (rn_transport r') = mt_tx (rn_transport r)
    end.
Proof.
  intros Hr. destruct (cycle_frames la r env Hr) as (r' & alive & Hc & Hf). exists r', alive.
  destruct (tick_of env); by split.
Qed.

(** ** Witnesses *)

Definition sample_rt_config : RtConfig :=
  {| rg_iface := "eth0"; rg_our_mac := sample_mac; rg_cpu_mac := sample_cpu;
     rg_layout := sample_layout; rg_cpu_pin := Some 1; rg_rt_priority := None;
     rg_lock_memory := true |}.
Definition sample_setup_env : SetupEnv :=
  {| se_affinity_ok := true; se_fifo_ok := true; se_lock_ok := false; se_arm_ok := true |}.
Definition sample_rt_frame : list Z := RtFrame_wire sample_output_frame sample_mac sample_cpu.

(** A tick at [now] on a transport without descriptor; [busy] are the locks
    found taken: when retrying, at the verdict, at the receptions. *)
Definition tick_env (now : Z) (retry validity rx : bool) : Env :=
  {| ev_poll := inr (true, false, false); ev_timer := TrCount 1; ev_now := now; ev_elapsed := 7;
     ev_problem := false; ev_busy_retry := retry; ev_busy_validity := validity;
     ev_busy_inputs := false;
     ev_rx _ := {| re_readable := inr true; re_now := now; re_busy := rx |} |}.
Definition idle_env : Env :=
  {| ev_poll := inr (false, true, false); ev_timer := TrShort; ev_now := 0; ev_elapsed := 0;
     ev_problem := false; ev_busy_retry := false; ev_busy_validity := false;
     ev_busy_inputs := false;
     ev_rx _ := {| re_readable := inr false; re_now := 0; re_busy := false |} |}.

Definition sample_runner : Runner MockTransport :=
  (run_setup sample_rt_config (mt_push_rx MockTransport_new sample_rt_frame) sample_image
     RtStats_default RtShared_new sample_setup_env).1.

Lemma sample_runner_good : rt_good sample_layout sample_runner.
Proof.
  apply (run_setup_good sample_ar_params sample_model sample_rt_config
    ltac:(apply sample_layout_ok) ltac:(by_decide) ltac:(by_decide)
    ltac:(unfold wf_mac; by_decide) ltac:(unfold wf_mac; by_decide)
    (mt_push_rx MockTransport_new sample_rt_frame) IoImage_empty RtStats_default sample_setup_env
    sample_runner true); [cbn; by_decide|reflexivity].
Qed.

Lemma runner_safe_witness :
  ∃ r alive,
    rt_thread (E := Empty_set) sample_rt_config (mt_push_rx MockTransport_new sample_rt_frame)
      sample_image RtStats_default sample_setup_env
      [RsCycle (tick_env 0 false false false); RsWrite 4 1 sample_bytes; RsStop;
       RsCycle idle_env] = Ok (r, alive) ∧
    rt_good sample_layout r ∧ (alive = false → ended r).
Proof.
  apply (runner_safe sample_ar_params sample_model sample_rt_config
    ltac:(apply sample_layout_ok) ltac:(by_decide) ltac:(by_decide)
    ltac:(unfold wf_mac; by_decide) ltac:(unfold wf_mac; by_decide)
    (mt_push_rx MockTransport_new sample_rt_frame) IoImage_empty). cbn. by_decide.
Defined.

Lemma spin_is_detected_witness :
  ∃ r', rt_run (E := Empty_set) sample_runner (RsCycle <$> replicate 1000 idle_env) = Ok (r', false) ∧
    sh_events (rn_shared r')
    = [EvSchedWarning "mlockall"] ++ [EvSocketError "poll made no progress"; EvExited].
Proof.
  apply (spin_is_detected sample_runner (replicate 1000 idle_env)).
  - by apply Forall_replicate.
  - reflexivity.
  - by_decide.
  - by_decide.
Defined.

Lemma one_frame_per_tick_witness :
  ∃ r' alive, cycle (E := Empty_set) sample_runner (tick_env 3 false false false) = Ok (r', alive) ∧
    ∃ frame, sends sample_runner (tick_env 3 false false false) 1 frame ∧
      mt_tx (rn_transport r') = [frame].
Proof.
  apply (one_frame_per_tick sample_layout sample_runner (tick_env 3 false false false)).
  apply (rg_inv _ _ sample_runner_good).
Defined.

(** A publish deferred by a lock and retried after the watchdog has expired
    brings the old verdict back: the image calls the outputs fresh while the
    engine knows the controller is lost. *)
Lemma deferred_publish_outlives_watchdog :
  ∃ r, rt_run (E := Empty_set) sample_runner
    [RsCycle (tick_env 0 false false true);
     RsCycle (tick_env 10000000000 true false false);
     RsCycle (tick_env 10001000000 false false false)] = Ok (r, true) ∧
    EvWatchdogExpired ∈ sh_events (rn_shared r) ∧
    en_watchdog_state (rn_engine r) = WsExpired ∧
    freshness (im_validity (rn_image r)) = FrFresh ∧ rn_pending r = None.
Proof.
  eexists. split; [vm_compute; reflexivity|]. split; [|done].
  apply (bool_decide_eq_true_1 _). vm_compute. reflexivity.
Qed.
