(* ===== verification/Gsdml.v ===== *)
(** * Gsdml: the device description file

    Models [crates/pnio/src/gsdml.rs].  A string is the list of its octets; the
    text written to the buffer and the list of texts pushed beside it are
    returned together.  The literals of the template are written with [']
    where the source has a double quote; [lit] puts it back. *)

From S2P Require Import Prelude Eth Rpc Block Connect Records Diag Data Layout Config.
Local Open Scope Z_scope.

(** ** Data *)

(** gsdml.rs:9-22 GsdmlMeta *)
Record GsdmlMeta := {
  gm_vendor_name : list Z; gm_product_family : list Z; gm_info_text : list Z; gm_date : Z * Z * Z
}.

(** gsdml.rs:58-63 Item *)
Inductive Item :=
| ItScalar (ty : FieldType) (i : nat)
| ItBits (g : list (nat * FieldRef)).

(** ** Formatting *)

Definition lit (s : string) : list Z := (λ b, if decide (b = 39) then 34 else b) <$> ascii_bytes s.
Definition nat_decimal (i : nat) : list Z := decimal (Z.of_nat i).
(** [{:0w}]: zeros in front up to the width. *)
Definition pad (w : nat) (s : list Z) : list Z := replicate (w - length s) 48 ++ s.
(** [{:04X}] and [{:08X}]. *)
Definition hex4 (x : Z) : list Z := hex2 (x / 256) ++ hex2 (x mod 256).
Definition hex8 (x : Z) : list Z := hex4 (x / 65536) ++ hex4 (x mod 65536).
Definition newline : list Z := [10].

Definition is_ascii_alphanumeric (b : Z) : bool :=
  bool_decide (48 ≤ b ≤ 57 ∨ 65 ≤ b ≤ 90 ∨ 97 ≤ b ≤ 122).

(** gsdml.rs:24-41 file_name *)
Definition file_name (meta : GsdmlMeta) : list Z :=
  let clean := filter (λ c, is_ascii_alphanumeric c = true) in
  let '(y, m, d) := gm_date meta in
  lit "GSDML-V2.4-" ++ clean (gm_vendor_name meta) ++ lit "-" ++ clean (gm_product_family meta) ++
  lit "-" ++ pad 4 (decimal y) ++ pad 2 (decimal m) ++ pad 2 (decimal d) ++ lit ".xml".

(** gsdml.rs:47-54 escape *)
Definition escape_char (c : Z) : list Z :=
  if decide (c = 38) then lit "&amp;" else
  if decide (c = 60) then lit "&lt;" else
  if decide (c = 62) then lit "&gt;" else
  if decide (c = 34) then lit "&quot;" else
  if decide (c = 39) then lit "&apos;" else [c].

(** gsdml.rs:43-57 escape *)
Definition escape (s : list Z) : list Z := s ≫= escape_char.

(** gsdml.rs:67-77 items *)
Definition push_item (out : list Item) (i : nat) (f : FieldRef) : list Item :=
  match fr_ty f with
  | FtBool =>
    match list.last out with
    | Some (ItBits g) =>
      if decide (fr_byte ∘ snd <$> list.last g = Some (fr_byte f))
      then take (length out - 1) out ++ [ItBits (g ++ [(i, f)])]
      else out ++ [ItBits [(i, f)]]
    | _ => out ++ [ItBits [(i, f)]]
    end
  | ty => out ++ [ItScalar ty i]
  end.

Fixpoint items_from (i : nat) (fields : list FieldRef) (out : list Item) : list Item :=
  match fields with
  | [] => out
  | f :: fields => items_from (S i) fields (push_item out i f)
  end.

(** gsdml.rs:65-79 items *)
Definition items (fields : list FieldRef) : list Item := items_from 0 fields [].

(** gsdml.rs:81-89 data_type *)
Definition data_type (ty : FieldType) : list Z :=
  match ty with
  | FtBool => lit "Unsigned8"
  | FtInt => lit "Integer16"
  | FtWord => lit "Unsigned16"
  | FtDint => lit "Integer32"
  | FtReal => lit "Float32"
  end.

(** [{ty:?}] *)
Definition type_name (ty : FieldType) : list Z :=
  match ty with
  | FtBool => lit "Bool" | FtInt => lit "Int" | FtWord => lit "Word"
  | FtDint => lit "Dint" | FtReal => lit "Real"
  end.

(** gsdml.rs:91-114 module_identity_xml *)
Definition module_identity_xml (cfg : DeviceConfig) : list Z :=
  let im0 := cf_im0 cfg in
  lit "            <OrderNumber Value='" ++
  escape (im0_order_id im0) ++
  lit "'/>" ++ newline ++
  lit "            <HardwareRelease Value='" ++
  decimal (im0_hardware_revision im0) ++
  lit "'/>" ++ newline ++
  lit "            <SoftwareRelease Value='" ++
  [sw_prefix (im0_software_revision im0)] ++
  decimal (sw_functional (im0_software_revision im0)) ++
  lit "." ++
  decimal (sw_bug_fix (im0_software_revision im0)) ++
  lit "." ++
  decimal (sw_internal (im0_software_revision im0)) ++
  lit "'/>".

(** ** Rendering *)

(** What a part of the document adds to the buffer and to the texts. *)
Definition Part : Type := list Z * list (list Z * list Z).
Definition part_app (a b : Part) : Part := (a.1 ++ b.1, a.2 ++ b.2).
Fixpoint parts {E A} (f : A → outcome E Part) (l : list A) : outcome E Part :=
  match l with
  | [] => Ok ([], [])
  | a :: l => let! p := f a in let! q := parts f l in Ok (part_app p q)
  end.

(** gsdml.rs:315-323 render *)
Definition bit_part (n prefix : list Z) (p : nat * FieldRef) : Part :=
  let '(i, f) := p in
  let bid := lit "M" ++ n ++ lit "_" ++ prefix ++ nat_decimal i ++ lit "_b" in
  (lit "                    <BitDataItem BitOffset='" ++
  decimal (fr_bit f) ++
  lit "' TextId='" ++
  bid ++
  lit "'/>" ++ newline,
   [(bid, prefix ++ lit " " ++ nat_decimal i ++ lit " (Bool)")]).

(** gsdml.rs:294-326 render *)
Definition item_part {E} (n prefix : list Z) (item : Item) : outcome E Part :=
  match item with
  | ItScalar ty i =>
    let id := lit "M" ++ n ++ lit "_" ++ prefix ++ nat_decimal i in
    Ok (lit "                  <DataItem DataType='" ++
  data_type ty ++
  lit "' TextId='" ++
  id ++
  lit "'/>" ++ newline,
        [(id, prefix ++ lit " " ++ nat_decimal i ++ lit " (" ++ type_name ty ++ lit ")")])
  | ItBits group =>
    let! first := idx group 0 in
    let first := fst first in
    let id := lit "M" ++ n ++ lit "_" ++ prefix ++ nat_decimal first ++ lit "_bits" in
    let head := lit "                  <DataItem DataType='Unsigned8' UseAsBits='true' TextId='" ++
  id ++
  lit "'>" ++ newline in
    match list.last group with
    | None => Panic
    | Some final =>
      let text := prefix ++ lit " bits " ++ nat_decimal first ++ lit ".." ++ nat_decimal (fst final) in
      let bits := foldr (λ p q, part_app (bit_part n prefix p) q) ([], []) group in
      Ok (head ++ bits.1 ++ lit "                  </DataItem>" ++ newline, (id, text) :: bits.2)
    end
  end.

(** gsdml.rs:282-329 render *)
Definition direction_part {E} (cfg : DeviceConfig) (s : SubmoduleSpec)
    (d : Direction * list Z * list Z) : outcome E Part :=
  let '(dir, tag, prefix) := d in
  let! fields := cf_fields cfg (ss_slot s) dir in
  match fields with
  | None => Ok ([], [])
  | Some fields =>
    let! body := parts (item_part (decimal (ss_slot s)) prefix) (items fields) in
    Ok (lit "                <" ++
  tag ++
  lit " Consistency='All items consistency'>" ++ newline ++ body.1 ++
        lit "                </" ++ tag ++ lit ">" ++ newline, body.2)
  end.

(** gsdml.rs:256-342 render *)
Definition module_part {E} (cfg : DeviceConfig) (identity : list Z) (s : SubmoduleSpec) :
    outcome E Part :=
  let n := decimal (ss_slot s) in
  let head :=
  lit "        <ModuleItem ID='M" ++
  n ++
  lit "' ModuleIdentNumber='0x" ++
  hex8 (0x100 + ss_slot s) ++
  lit "'>
          <ModuleInfo>
            <Name TextId='M" ++
  n ++
  lit "_Name'/>
            <InfoText TextId='M" ++
  n ++
  lit "_Info'/>
" ++
  identity ++
  lit "
          </ModuleInfo>
          <VirtualSubmoduleList>
            <VirtualSubmoduleItem ID='M" ++
  n ++
  lit "_SM' SubmoduleIdentNumber='0x00000001' MayIssueProcessAlarm='false'>
              <IOData>
" in
  let! i := cf_input_len cfg (ss_slot s) in
  let! o := cf_output_len cfg (ss_slot s) in
  let texts :=
    [(lit "M" ++ n ++ lit "_Name", escape (ss_name s));
     (lit "M" ++ n ++ lit "_Info",
      lit "Slot " ++ n ++ lit ": " ++ decimal (default 0 i) ++ lit " input bytes, " ++
      decimal (default 0 o) ++ lit " output bytes")] in
  let! body := parts (direction_part cfg s)
    [(DrInput, lit "Input", lit "In"); (DrOutput, lit "Output", lit "Out")] in
  let tail :=
  lit "              </IOData>
              <ModuleInfo>
                <Name TextId='M" ++
  n ++
  lit "_Name'/>
                <InfoText TextId='M" ++
  n ++
  lit "_Info'/>
              </ModuleInfo>
            </VirtualSubmoduleItem>
          </VirtualSubmoduleList>
        </ModuleItem>
" in
  Ok (head ++ body.1 ++ tail, texts ++ body.2).

(** gsdml.rs:210-216 render *)
Definition module_ref (s : SubmoduleSpec) : list Z :=
  lit "            <ModuleItemRef ModuleItemTarget='M" ++
  decimal (ss_slot s) ++
  lit "' AllowedInSlots='" ++
  decimal (ss_slot s) ++
  lit "'/>" ++ newline.

(** gsdml.rs:162-209 render *)
Definition header_xml (cfg : DeviceConfig) (meta : GsdmlMeta) (n_slots max_in max_out : Z)
    (identity : list Z) : list Z :=
  lit "<?xml version='1.0' encoding='utf-8'?>
<ISO15745Profile xmlns='http://www.profibus.com/GSDML/2003/11/DeviceProfile' xmlns:xsi='http://www.w3.org/2001/XMLSchema-instance' xsi:schemaLocation='http://www.profibus.com/GSDML/2003/11/DeviceProfile ..\xsd\GSDML-DeviceProfile-V2.4.xsd'>
  <ProfileHeader>
    <ProfileIdentification>PROFINET Device Profile</ProfileIdentification>
    <ProfileRevision>1.00</ProfileRevision>
    <ProfileName>Device Profile for PROFINET Devices</ProfileName>
    <ProfileSource>PROFIBUS Nutzerorganisation e. V. (PNO)</ProfileSource>
    <ProfileClassID>Device</ProfileClassID>
    <ISO15745Reference>
      <ISO15745Part>4</ISO15745Part>
      <ISO15745Edition>1</ISO15745Edition>
      <ProfileTechnology>GSDML</ProfileTechnology>
    </ISO15745Reference>
  </ProfileHeader>
  <ProfileBody>
    <DeviceIdentity VendorID='0x" ++
  hex4 (cf_vendor_id cfg) ++
  lit "' DeviceID='0x" ++
  hex4 (cf_device_id cfg) ++
  lit "'>
      <InfoText TextId='T_InfoText'/>
      <VendorName Value='" ++
  escape (gm_vendor_name meta) ++
  lit "'/>
    </DeviceIdentity>
    <DeviceFunction>
      <Family MainFamily='I/O' ProductFamily='" ++
  escape (gm_product_family meta) ++
  lit "'/>
    </DeviceFunction>
    <ApplicationProcess>
      <DeviceAccessPointList>
        <DeviceAccessPointItem ID='DAP1' PNIO_Version='V2.3' PhysicalSlots='0.." ++
  decimal n_slots ++
  lit "' ModuleIdentNumber='0x00000001' MinDeviceInterval='" ++
  decimal (cf_min_device_interval cfg) ++
  lit "' DNS_CompatibleName='" ++
  escape (cf_station_name cfg) ++
  lit "' FixedInSlots='0' ObjectUUID_LocalIndex='1' MultipleWriteSupported='true' DeviceAccessSupported='false' CheckDeviceID_Allowed='true' NameOfStationNotTransferable='false'>
          <ModuleInfo>
            <Name TextId='T_DAP_Name'/>
            <InfoText TextId='T_DAP_Info'/>
            <VendorName Value='" ++
  escape (gm_vendor_name meta) ++
  lit "'/>
" ++
  identity ++
  lit "
          </ModuleInfo>
          <IOConfigData MaxInputLength='" ++
  decimal max_in ++
  lit "' MaxOutputLength='" ++
  decimal max_out ++
  lit "' MaxDataLength='" ++
  decimal (max_in + max_out) ++
  lit "'/>
          <UseableModules>
".

(** gsdml.rs:217-246 render *)
Definition dap_xml (send_clock : list Z) : list Z :=
  lit "          </UseableModules>
          <VirtualSubmoduleList>
            <VirtualSubmoduleItem ID='DAP1_SM' SubmoduleIdentNumber='0x00000001' MayIssueProcessAlarm='false' Writeable_IM_Records='1 2 3'>
              <IOData/>
              <ModuleInfo>
                <Name TextId='T_DAP_Name'/>
                <InfoText TextId='T_DAP_Info'/>
              </ModuleInfo>
            </VirtualSubmoduleItem>
          </VirtualSubmoduleList>
          <SystemDefinedSubmoduleList>
            <InterfaceSubmoduleItem ID='DAP1_IF' SubslotNumber='32768' TextId='T_Interface' SubmoduleIdentNumber='0x00008000' SupportedRT_Classes='RT_CLASS_1' SupportedProtocols='' DCP_HelloSupported='false' PTP_BoundarySupported='false' DCP_BoundarySupported='false' DelayMeasurementSupported='false'>
              <ApplicationRelations StartupMode='Advanced'>
                <TimingProperties SendClock='" ++
  send_clock ++
  lit "' ReductionRatio='1 2 4 8 16 32 64 128 256 512'/>
              </ApplicationRelations>
            </InterfaceSubmoduleItem>
            <PortSubmoduleItem ID='DAP1_P1' SubslotNumber='32769' TextId='T_Port1' SubmoduleIdentNumber='0x00008001' MaxPortTxDelay='160' MaxPortRxDelay='350'>
              <MAUTypeList>
                <MAUTypeItem Value='16'/>
              </MAUTypeList>
            </PortSubmoduleItem>
          </SystemDefinedSubmoduleList>
        </DeviceAccessPointItem>
      </DeviceAccessPointList>
      <ModuleList>
".

(** gsdml.rs:247-254 render *)
Definition dap_texts (meta : GsdmlMeta) : list (list Z * list Z) :=
  [(lit "T_InfoText", escape (gm_info_text meta));
   (lit "T_DAP_Name", escape (gm_product_family meta) ++ lit " DAP");
   (lit "T_DAP_Info", lit "Device access point");
   (lit "T_Interface", lit "PROFINET interface");
   (lit "T_Port1", lit "Port 1")].

(** gsdml.rs:350-352 render *)
Definition text_xml (t : list Z * list Z) : list Z :=
  let '(id, value) := t in
  lit "          <Text TextId='" ++
  id ++
  lit "' Value='" ++
  value ++
  lit "'/>" ++ newline.

(** gsdml.rs:149-363 render *)
Definition render {E} (cfg : DeviceConfig) (meta : GsdmlMeta) : outcome E (list Z) :=
  let n_slots := default 0 (ss_slot <$> list.last (cf_submodules cfg)) in
  let max_in := cf_input_cr_len cfg in
  let max_out := cf_output_cr_len cfg in
  let send_clock :=
    if decide (cf_min_device_interval cfg < 32)
    then decimal (cf_min_device_interval cfg) ++ lit " 32" else lit "32" in
  let identity := module_identity_xml cfg in
  let! modules := parts (module_part cfg identity) (cf_submodules cfg) in
  Ok (header_xml cfg meta n_slots max_in max_out identity ++
      (cf_submodules cfg ≫= module_ref) ++ dap_xml send_clock ++ modules.1 ++
      lit "      </ModuleList>
      <ExternalTextList>
        <PrimaryLanguage>
" ++
      ((dap_texts meta ++ modules.2) ≫= text_xml) ++
      lit "        </PrimaryLanguage>
      </ExternalTextList>
    </ApplicationProcess>
  </ProfileBody>
</ISO15745Profile>
").

(** ** Escaping *)

(** An XML reader's view of the five entities. *)
Definition unescape_one (s : list Z) : option (Z * list Z) :=
  match strip_prefix (lit "&amp;") s, strip_prefix (lit "&lt;") s, strip_prefix (lit "&gt;") s,
        strip_prefix (lit "&quot;") s, strip_prefix (lit "&apos;") s with
  | Some r, _, _, _, _ => Some (38, r)
  | _, Some r, _, _, _ => Some (60, r)
  | _, _, Some r, _, _ => Some (62, r)
  | _, _, _, Some r, _ => Some (34, r)
  | _, _, _, _, Some r => Some (39, r)
  | _, _, _, _, _ => match s with [] => None | c :: r => Some (c, r) end
  end.
Fixpoint unescape (fuel : nat) (s : list Z) : list Z :=
  match fuel with
  | O => []
  | S fuel => match unescape_one s with None => [] | Some (c, r) => c :: unescape fuel r end
  end.

Lemma strip_prefix_app p s : strip_prefix p (p ++ s) = Some s.
Proof.
  unfold strip_prefix. by rewrite decide_True, drop_app_length by apply take_app_length.
Qed.
Lemma strip_prefix_head p a s c : head p = Some a → c ≠ a → strip_prefix p (c :: s) = None.
Proof.
  intros Hp H. unfold strip_prefix. rewrite decide_False; [done|]. destruct p; [done|]. cbn in *. congruence.
Qed.

Lemma unescape_escape_char c r : unescape_one (escape_char c ++ r) = Some (c, r).
Proof.
  unfold escape_char. repeat case_decide; subst; try reflexivity.
  unfold unescape_one. change ([c] ++ r) with (c :: r).
  by rewrite !(λ p H, strip_prefix_head p 38 r c H ltac:(done)) by reflexivity.
Qed.

Lemma escape_char_len c : (1 ≤ length (escape_char c))%nat.
Proof. unfold escape_char. repeat case_decide; cbn; lia. Qed.

Definition special (c : Z) : Prop := c = 60 ∨ c = 62 ∨ c = 34 ∨ c = 39.

Lemma escape_char_plain c : Forall (λ x, ¬ special x) (escape_char c).
Proof.
  unfold escape_char, special. repeat case_decide; subst; try by_decide.
  repeat constructor. lia.
Qed.

(** Escaping is safe and loses nothing.  The escaped text holds no angle
    bracket and no quote of either kind, so it cannot end the attribute it is
    written into, and a reader of the five entities gets the text back. *)
Theorem escape_roundtrip s :
  Forall (λ x, ¬ special x) (escape s) ∧ unescape (length (escape s)) (escape s) = s.
Proof.
  split.
  - induction s as [|c s IH]; [constructor|]. apply Forall_app. split; [apply escape_char_plain|done].
  - assert (∀ n, (length (escape s) ≤ n)%nat → unescape n (escape s) = s) as H; [|by apply H].
    induction s as [|c s IH]; intros n Hn; [by destruct n|].
    change (escape (c :: s)) with (escape_char c ++ escape s) in *. rewrite length_app in Hn.
    pose proof (escape_char_len c). destruct n as [|n]; [lia|]. cbn [unescape].
    rewrite unescape_escape_char, IH by lia. done.
Qed.

(** ** The data items describe the field table *)

(** The items read from offset [o] and field [i] on, each where the octets of
    those before it end: what an engineering tool makes of the file. *)
Fixpoint spans (refs : list FieldRef) (o : Z) (i : nat) (its : list Item) (o' : Z) (i' : nat) : Prop :=
  match its with
  | [] => o = o' ∧ i = i'
  | ItScalar ty j :: its =>
    j = i ∧ ty ≠ FtBool ∧ refs !! i = Some {| fr_byte := o; fr_bit := 0; fr_ty := ty |} ∧
    spans refs (o + Z.of_nat (width ty)) (S i) its o' i'
  | ItBits g :: its =>
    (1 ≤ length g ≤ 8)%nat ∧
    (∀ k p, g !! k = Some p →
       p = ((i + k)%nat, {| fr_byte := o; fr_bit := Z.of_nat k; fr_ty := FtBool |}) ∧
       refs !! (i + k)%nat = Some p.2) ∧
    spans refs (o + 1) (i + length g) its o' i'
  end.

Lemma spans_app refs a b : ∀ o i o'' i'',
  spans refs o i (a ++ b) o'' i'' ↔ ∃ o' i', spans refs o i a o' i' ∧ spans refs o' i' b o'' i''.
Proof.
  induction a as [|[ty j|g] a IH]; intros o i o'' i''; cbn [app spans].
  - split; [by eauto|]. by intros (? & ? & [-> ->] & ?).
  - rewrite IH. naive_solver.
  - rewrite IH. naive_solver.
Qed.

(** The group a [Bool] may join. *)
Definition open_group (bits : option (Z * Z)) (next : Z) (out : list Item) : Prop :=
  match bits with
  | None => ∀ g, list.last out ≠ Some (ItBits g)
  | Some (b, k) => ∃ out0 g, out = out0 ++ [ItBits g] ∧ Z.of_nat (length g) = k ∧ next = b + 1 ∧
                     fr_byte ∘ snd <$> list.last g = Some b
  end.

Lemma spans_grow refs o i out g next n f :
  spans refs o i (out ++ [ItBits g]) next n → (length g < 8)%nat → fr_byte f = next - 1 →
  fr_bit f = Z.of_nat (length g) → fr_ty f = FtBool → refs !! n = Some f →
  spans refs o i (out ++ [ItBits (g ++ [(n, f)])]) next (S n).
Proof.
  intros H Hg Hb Hk Ht Hf. apply spans_app in H as (o' & i' & Hout & Hlen & Hall & <- & <-).
  apply spans_app. exists o', i'. split; [done|]. cbn [spans]. rewrite length_app. cbn [length].
  split_and!; [lia..| |done|lia]. intros k p Hp. destruct (decide (k < length g)%nat).
  - rewrite lookup_app_l in Hp by done. by apply Hall.
  - rewrite lookup_app_r in Hp by lia. destruct (k - length g)%nat eqn:E; [|done].
    assert (k = length g) as -> by lia. injection Hp as <-. split; [|done].
    f_equal. destruct f; cbn in *. f_equal; [lia|done|done].
Qed.

Lemma spans_new refs o i out next n f :
  spans refs o i out next n → fr_byte f = next → fr_bit f = 0 → fr_ty f = FtBool →
  refs !! n = Some f → spans refs o i (out ++ [ItBits [(n, f)]]) (next + 1) (S n).
Proof.
  intros H Hb Hk Ht Hf. apply spans_app. exists next, n. split; [done|]. cbn [spans length].
  split_and!; [lia..| |done|lia]. intros [|k] p Hp; [|done]. injection Hp as <-.
  rewrite Nat.add_0_r. split; [|done]. destruct f; cbn in *; by subst.
Qed.

Lemma spans_scalar refs o i out next n ty :
  spans refs o i out next n → ty ≠ FtBool →
  refs !! n = Some {| fr_byte := next; fr_bit := 0; fr_ty := ty |} →
  spans refs o i (out ++ [ItScalar ty n]) (next + Z.of_nat (width ty)) (S n).
Proof. intros H Ht Hf. apply spans_app. by exists next, n. Qed.

Lemma push_item_scalar out i f : fr_ty f ≠ FtBool → push_item out i f = out ++ [ItScalar (fr_ty f) i].
Proof. unfold push_item. by destruct (fr_ty f). Qed.

Lemma push_item_new out i f :
  fr_ty f = FtBool →
  (∀ g, list.last out = Some (ItBits g) → fr_byte ∘ snd <$> list.last g ≠ Some (fr_byte f)) →
  push_item out i f = out ++ [ItBits [(i, f)]].
Proof.
  intros Ht Hl. unfold push_item. rewrite Ht. destruct (list.last out) as [[|g]|] eqn:Ho; try done.
  by rewrite decide_False by (by apply Hl).
Qed.

Lemma push_item_grow out g i f :
  fr_ty f = FtBool → fr_byte ∘ snd <$> list.last g = Some (fr_byte f) →
  push_item (out ++ [ItBits g]) i f = out ++ [ItBits (g ++ [(i, f)])].
Proof.
  intros Ht Hl. unfold push_item. rewrite Ht, last_snoc, decide_True by done. f_equal.
  rewrite length_app. cbn [length]. rewrite Nat.add_sub. apply take_app_length.
Qed.

Lemma drop_step {A} (l : list A) i x rest : drop i l = x :: rest → l !! i = Some x ∧ drop (S i) l = rest.
Proof.
  intros H. split.
  - by rewrite <-(Nat.add_0_r i), <-lookup_drop, H.
  - replace (S i) with (i + 1)%nat by lia. by rewrite <-drop_drop, H.
Qed.

(** Where the loop of [layout] puts a [Bool]: a new octet, or the open one. *)
Lemma bool_place next bits byte bit next' :
  (∀ b k, bits = Some (b, k) → 0 ≤ b < next ∧ 0 < k ≤ 8) → 0 ≤ next < 4294967295 →
  match bits with
  | Some (b, bit) => if decide (bit < 8) then (b, bit, next) else (next, 0, wrap32 (next + 1))
  | None => (next, 0, wrap32 (next + 1))
  end = (byte, bit, next') →
  ((byte = next ∧ bit = 0 ∧ next' = next + 1 ∧ ∀ k, bits ≠ Some (next, k)) ∨
   (bits = Some (byte, bit) ∧ bit < 8 ∧ next' = next)) ∧
  0 ≤ byte < next' ∧ next ≤ next' ≤ next + 1 ∧ 0 ≤ bit < 8.
Proof.
  intros Hbits Hnext Hm.
  destruct bits as [[b k]|]; [destruct (Hbits b k eq_refl); destruct (decide (k < 8))|];
    injection Hm as <- <- <-; rewrite ?wrap32_id by (unfold u32; lia);
    (split; [|lia]); [by right|left..]; split_and!; try done. intros k' [= -> _]. lia.
Qed.

(** The loop of [items] follows the loop of [layout]. *)
Lemma items_follow refs fields : ∀ next bits refs' n out i,
  layout_from fields next bits = (refs', n) → drop i refs = refs' →
  0 ≤ next → next + 4 * Z.of_nat (length fields) < 4294967296 → n < 65536 →
  (∀ b k, bits = Some (b, k) → 0 ≤ b < next ∧ 0 < k ≤ 8) →
  spans refs 0 0 out next i → open_group bits next out →
  spans refs 0 0 (items_from i refs' out) n (i + length refs').
Proof.
  induction fields as [|ty fields IH]; intros next bits refs' n out i Hl Hd Hnext Hroom Hn Hbits Hs Ho.
  { injection Hl as <- <-. cbn. by rewrite Nat.add_0_r. }
  cbn [layout_from length] in *. destruct (byte_len ty) as [w|] eqn:Hw.
  - assert (width ty = w ∧ (0 < w ≤ 4)%nat ∧ ty ≠ FtBool) as (Hwd & ? & Ht)
      by (destruct ty; simplify_eq/=; split_and!; (done || lia)).
    rewrite wrap32_id in Hl by (unfold u32; lia).
    destruct (layout_from fields _ None) as [rest n'] eqn:Hr. injection Hl as <- <-.
    pose proof (layout_from_laid _ _ _ _ _ Hr ltac:(lia) ltac:(lia) Hn ltac:(done)) as (? & _).
    rewrite wrap16_id in * by (unfold u16; lia). cbn [items_from length]. rewrite push_item_scalar by done.
    apply drop_step in Hd as [Hi Hd]. rewrite <-Nat.add_succ_comm.
    eapply (IH _ None); try done; [lia|lia| |].
    + rewrite <-Hwd. by apply spans_scalar.
    + intros g. by rewrite last_snoc.
  - assert (ty = FtBool) as -> by (destruct ty; done).
    destruct (match bits with Some _ => _ | None => _ end) as [[byte bit] next'] eqn:Hm.
    apply bool_place in Hm as (Hcase & ? & ? & ?); [|done|lia].
    destruct (layout_from fields next' _) as [rest n'] eqn:Hr. injection Hl as <- <-.
    assert (∀ b k, Some (byte, bit + 1) = Some (b, k) → 0 ≤ b < next' ∧ 0 < k ≤ 8) as Hbits'
      by (intros b k [= <- <-]; lia).
    pose proof (layout_from_laid _ _ _ _ _ Hr ltac:(lia) ltac:(lia) Hn Hbits') as (? & _).
    rewrite (wrap16_id byte) in * by (unfold u16; lia). cbn [items_from length].
    apply drop_step in Hd as [Hi Hd]. rewrite <-Nat.add_succ_comm.
    destruct Hcase as [(-> & -> & -> & Hne)|(-> & ? & ->)].
    + assert (push_item out i {| fr_byte := next; fr_bit := 0; fr_ty := FtBool |}
              = out ++ [ItBits [(i, {| fr_byte := next; fr_bit := 0; fr_ty := FtBool |})]]) as ->.
      { apply push_item_new; [done|]. intros g Hg. destruct bits as [[b k]|]; [|by destruct (Ho g)].
        destruct Ho as (out0 & g' & -> & _ & _ & Hb). rewrite last_snoc in Hg. injection Hg as ->.
        rewrite Hb. intros [= ->]. by destruct (Hne k). }
      eapply (IH _ (Some (next, 0 + 1))); try done; [lia|lia|by apply spans_new|].
      exists out, [(i, {| fr_byte := next; fr_bit := 0; fr_ty := FtBool |})]. split_and!; done.
    + destruct Ho as (out0 & g & -> & Hg & Hnb & Hlast). rewrite push_item_grow by done.
      eapply (IH _ (Some (byte, bit + 1))); try done; [lia|apply spans_grow; cbn; try done; lia|].
      exists out0, (g ++ [(i, {| fr_byte := byte; fr_bit := bit; fr_ty := FtBool |})]).
      rewrite length_app, last_snoc. cbn. split_and!; try done. lia.
Qed.

Lemma items_span fields refs len :
  sane fields → packed_octets fields 0 < 65536 → layout fields = (refs, len) →
  spans refs 0 0 (items refs) len (length fields).
Proof.
  intros Hs Hp Hl. destruct (layout_table fields refs len Hs Hp Hl) as (Hlen & (Hty & _) & H0).
  unfold layout in Hl. destruct (layout_from fields 0 None) as [r n] eqn:Hr.
  assert (n = packed_octets fields 0) as Hn
    by (rewrite <-count_bytes_octets, (count_layout _ _ None) by done; by rewrite Hr).
  injection Hl as -> Hw. rewrite wrap16_id in Hw by (unfold u16; lia). rewrite Hw in Hr.
  assert (length fields = length refs) as Hlf by (by rewrite <-Hty, length_fmap).
  unfold sane in Hs. rewrite Hlf in *.
  apply (items_follow refs fields 0 None refs len [] 0); try done; lia.
Qed.

(** [derive] stores the layouts. *)
Lemma derive_layout l : ∀ prev ds, Forall sane_submodule l → derive prev l = Ok ds →
  Forall2 (λ sm d, spans (de_inputs d) 0 0 (items (de_inputs d)) (de_input_len d) (length (ss_inputs sm)) ∧
                   spans (de_outputs d) 0 0 (items (de_outputs d)) (de_output_len d)
                         (length (ss_outputs sm))) l ds.
Proof.
  induction l as [|sm l IH]; intros prev ds Hs Hd; cbn [derive] in Hd; [by injection Hd as <-|].
  apply Forall_cons_1 in Hs as [[Hi Ho] Hs]. ok_inv.
  assert (∀ fields refs len, sane fields → checked_layout (ss_slot sm) fields = Ok (refs, len) →
    spans refs 0 0 (items refs) len (length fields)) as Hc.
  { intros fields refs len Hf Hl. unfold checked_layout in Hl. case_decide as Hm; [done|].
    rewrite count_bytes_octets in Hm by done. injection Hl as Hl. unfold MAX_SUBMODULE_BYTES in Hm.
    apply items_span; [done|lia|done]. }
  constructor; [|by eapply IH]. split; cbn; by apply Hc.
Qed.

(** ** Rendering always succeeds *)

Definition groups_ok (its : list Item) : Prop :=
  Forall (λ it, match it with ItBits g => g ≠ [] | _ => True end) its.

Lemma spans_groups refs its : ∀ o i o' i', spans refs o i its o' i' → groups_ok its.
Proof.
  induction its as [|[ty j|g] its IH]; intros o i o' i' H; [constructor|..].
  - destruct H as (_ & _ & _ & H). constructor; [done|]. by eapply IH.
  - destruct H as (Hg & _ & H). constructor; [by destruct g; cbn in *; [lia|]|]. by eapply IH.
Qed.

Lemma parts_Ok {E A} (f : A → outcome E Part) l :
  (∀ a, a ∈ l → ∃ p, f a = Ok p) → ∃ p, parts f l = Ok p.
Proof.
  induction l as [|a l IH]; intros H; [by eexists|]. cbn [parts].
  destruct (H a) as [p ->]; [apply elem_of_cons; by left|].
  destruct IH as [q ->]; [intros b Hb; apply H, elem_of_cons; by right|]. by eexists.
Qed.

Lemma item_parts_Ok {E} n prefix its : groups_ok its → ∃ p, parts (E := E) (item_part n prefix) its = Ok p.
Proof.
  intros H. apply parts_Ok. intros [ty i|g] Hin; [by eexists|]. unfold groups_ok in H.
  rewrite list.Forall_forall in H. specialize (H _ Hin). cbn in H.
  destruct g as [|x g]; [done|]. cbn [item_part idx lookup list_lookup obind].
  destruct (list.last (x :: g)) eqn:Hl; [by eexists|]. by apply last_None in Hl.
Qed.

Lemma render_total {E} c meta :
  cf_ok c → Forall (λ d, groups_ok (items (de_inputs d)) ∧ groups_ok (items (de_outputs d))) (cf_derived c) →
  ∃ x, render (E := E) c meta = Ok x.
Proof.
  intros Hc Hg. unfold render.
  assert (∃ p, parts (E := E) (module_part c (module_identity_xml c)) (cf_submodules c) = Ok p) as [p ->];
    [|by eexists].
  apply parts_Ok. intros sm Hsm.
  destruct (proj1 (cf_entry_slot c (ss_slot sm) Hc)) as [k Hk]; [by apply list_elem_of_fmap_2|].
  destruct (cf_index_of_entry c _ k Hc Hk) as (sm' & d & _ & _ & Hd & _).
  unfold module_part, cf_input_len, cf_output_len. rewrite Hk, !(proj2 (idx_Ok _ _ _) Hd). cbn [obind].
  assert (∃ p, parts (E := E) (direction_part c sm)
     [(DrInput, lit "Input", lit "In"); (DrOutput, lit "Output", lit "Out")] = Ok p) as [p ->];
    [|by eexists].
  rewrite list.Forall_forall in Hg. destruct (Hg d) as [Hi Ho]; [by eapply list_elem_of_lookup_2|].
  apply parts_Ok. intros x Hx. rewrite !elem_of_cons in Hx.
  destruct Hx as [->|[->|[]%not_elem_of_nil]]; unfold direction_part, cf_fields;
    rewrite Hk, !(proj2 (idx_Ok _ _ _) Hd); cbn [obind].
  - destruct (is_nil (de_inputs d)); [by eexists|].
    destruct (item_parts_Ok (E := E) (decimal (ss_slot sm)) (lit "In") _ Hi) as [q ->]. by eexists.
  - destruct (is_nil (de_outputs d)); [by eexists|].
    destruct (item_parts_Ok (E := E) (decimal (ss_slot sm)) (lit "Out") _ Ho) as [q ->]. by eexists.
Qed.

(** The items of every table of a built configuration span it. *)
Lemma build_spans b c :
  Forall sane_submodule (bd_submodules b) → build b = Ok c →
  Forall2 (λ sm d,
    spans (de_inputs d) 0 0 (items (de_inputs d)) (de_input_len d) (length (ss_inputs sm)) ∧
    spans (de_outputs d) 0 0 (items (de_outputs d)) (de_output_len d) (length (ss_outputs sm)))
    (cf_submodules c) (cf_derived c).
Proof.
  intros Hs Hb. unfold build in Hb. ok_inv. cbn. eapply derive_layout; [|eassumption].
  by rewrite (sort_by_slot_perm (bd_submodules b)).
Qed.

Lemma render_built {E} b c meta :
  Forall sane_submodule (bd_submodules b) → build b = Ok c → ∃ x, render (E := E) c meta = Ok x.
Proof.
  intros Hs Hb. pose proof (build_spans b c Hs Hb) as Hall.
  apply render_total; [by eapply build_ok|]. apply Forall_forall. intros d Hd.
  apply list_elem_of_In, list_elem_of_lookup in Hd as [k Hk].
  destruct (Forall2_lookup_r _ _ _ _ _ Hall Hk) as (sm & _ & Hi & Ho).
  split; by eapply spans_groups.
Qed.

(** ** Sample *)

Definition sample_meta : GsdmlMeta :=
  {| gm_vendor_name := ascii_bytes "Core & Co."; gm_product_family := ascii_bytes "pnio";
     gm_info_text := ascii_bytes "sample"; gm_date := (2026, 8, 9) |}.

Example sample_file_name : file_name sample_meta = ascii_bytes "GSDML-V2.4-CoreCo-pnio-20260809.xml".
Proof. reflexivity. Qed.
