(* ===== verification/Text.v ===== *)
(** * Text: UUIDs and MAC addresses as text

    Models the textual forms of [crates/pnio/src/rpc/uuid.rs] ([parse_str] and
    the [Display] instance) and the parser of [read_mac]
    ([crates/pnio/src/api.rs]).  A string is the list of its octets. *)

From S2P Require Import Prelude Eth Rpc Block Connect Records Diag Data Layout Config.
Local Open Scope Z_scope.

(** ** Hexadecimal *)

(** [char::to_digit(16)] *)
Definition hex_value (c : Z) : option Z :=
  if decide (48 ≤ c ≤ 57) then Some (c - 48) else
  if decide (97 ≤ c ≤ 102) then Some (c - 87) else
  if decide (65 ≤ c ≤ 70) then Some (c - 55) else None.

Fixpoint hex_digits (acc : Z) (s : list Z) : option Z :=
  match s with
  | [] => Some acc
  | c :: s =>
    match hex_value c with
    | None => None
    | Some d => if decide (255 < 16 * acc + d) then None else hex_digits (16 * acc + d) s
    end
  end.

(** [u8::from_str_radix(_, 16)]: an optional plus sign in front of digits. *)
Definition from_str_radix_16 (s : list Z) : option Z :=
  match s with
  | [] => None
  | c :: rest => if decide (c = 43 ∧ rest ≠ []) then hex_digits 0 rest else hex_digits 0 s
  end.

(** [{:02x}] *)
Definition lhex_digit (n : Z) : Z := if decide (n < 10) then 48 + n else 87 + n.
Definition lhex2 (b : Z) : list Z := [lhex_digit (b / 16); lhex_digit (b mod 16)].

(** ** UUIDs *)

(** [chunks(2)] *)
Fixpoint pairs (s : list Z) : list (list Z) :=
  match s with
  | a :: b :: s => [a; b] :: pairs s
  | [a] => [[a]]
  | [] => []
  end.

(** rpc/uuid.rs:35-47 Uuid::parse_str *)
Definition parse_str (s : list Z) : option Uuid :=
  let hex := concat (split_on 45 s) in
  if decide (length hex ≠ 32%nat ∨ length <$> split_on 45 s ≠ [8; 4; 4; 4; 12]%nat) then None
  else MkUuid <$> mapM from_str_radix_16 (pairs hex).

(** rpc/uuid.rs:74-84 Uuid::fmt *)
Definition uuid_display (u : Uuid) : list Z :=
  let b := uuid_bytes u in
  let part lo n := take n (drop lo b) ≫= lhex2 in
  part 0%nat 4%nat ++ [45] ++ part 4%nat 2%nat ++ [45] ++ part 6%nat 2%nat ++ [45] ++
  part 8%nat 2%nat ++ [45] ++ part 10%nat 6%nat.

(** rpc/uuid.rs:86-90 Uuid::fmt *)
Definition uuid_debug (u : Uuid) : list Z := ascii_bytes "Uuid(" ++ uuid_display u ++ ascii_bytes ")".

(** ** MAC addresses *)

(** [str::trim] of ASCII text. *)
Fixpoint trim_start (s : list Z) : list Z :=
  match s with
  | [] => []
  | c :: s' => if is_blank [c] then trim_start s' else s
  end.
Definition trim (s : list Z) : list Z := reverse (trim_start (reverse (trim_start s))).

(** The text of [/sys/class/net/<iface>/address]; [None] when the file cannot
    be read or its text is not an address. *)
(** api.rs:876-893 read_mac *)
Definition read_mac (content : option (list Z)) : option MacAddr :=
  s ← content;
  let parts := split_on 58 (trim s) in
  if decide (length parts ≠ 6%nat) then None else Mac <$> mapM from_str_radix_16 parts.

(** ** Digits *)

Lemma hex_value_range c d : hex_value c = Some d → 0 ≤ d < 16.
Proof. unfold hex_value. repeat case_decide; intros [= <-]; lia. Qed.

Lemma hex_value_lhex d : 0 ≤ d < 16 → hex_value (lhex_digit d) = Some d.
Proof.
  intros H. unfold lhex_digit, hex_value. repeat case_decide; try lia; f_equal; lia.
Qed.

Lemma lhex_digit_plain d : 0 ≤ d < 16 → lhex_digit d ≠ 43 ∧ lhex_digit d ≠ 45 ∧ lhex_digit d ≠ 58.
Proof. intros H. unfold lhex_digit. case_decide; lia. Qed.

Lemma radix_lhex2 b : u8 b → from_str_radix_16 (lhex2 b) = Some b.
Proof.
  unfold u8. intros Hb. assert (0 ≤ b / 16 < 16) as Hh by (Z.div_mod_to_equations; lia).
  assert (0 ≤ b mod 16 < 16) as Hl by (apply Z.mod_pos_bound; lia).
  unfold lhex2, from_str_radix_16. rewrite decide_False by (intros [? _]; by destruct (lhex_digit_plain _ Hh)).
  cbn [hex_digits]. rewrite hex_value_lhex by done. rewrite decide_False by lia.
  rewrite hex_value_lhex by done. rewrite decide_False by (Z.div_mod_to_equations; lia).
  f_equal. Z.div_mod_to_equations; lia.
Qed.

(** The two-character texts that parse: two digits, or a sign and a digit. *)
Definition octet_text (p : list Z) : Prop :=
  ∃ a b, p = [a; b] ∧ is_Some (hex_value b) ∧ (is_Some (hex_value a) ∨ a = 43).

Lemma radix_pair a b :
  is_Some (from_str_radix_16 [a; b]) ↔ octet_text [a; b].
Proof.
  unfold from_str_radix_16, octet_text. split.
  - intros H. exists a, b. split; [done|]. case_decide as Hs; cbn [hex_digits] in H.
    + destruct (hex_value b); [split; [done|by right; apply Hs]|by destruct H].
    + destruct (hex_value a) as [x|]; [|by destruct H]. case_decide; [by destruct H|].
      destruct (hex_value b); [split; [done|by left]|by destruct H].
  - intros (? & ? & [= <- <-] & [d Hd] & Ha). pose proof (hex_value_range _ _ Hd).
    case_decide as Hs; cbn [hex_digits].
    + rewrite Hd. by rewrite decide_False by lia.
    + destruct Ha as [[x Hx]| ->]; [|by destruct Hs]. pose proof (hex_value_range _ _ Hx).
      rewrite Hx, decide_False, Hd, decide_False by lia. done.
Qed.

(** ** Splitting *)

Lemma split_on_plain c s : c ∉ s → split_on c s = [s].
Proof.
  induction s as [|b s IH]; intros H; [done|]. rewrite not_elem_of_cons in H. destruct H as [Hb Hs].
  cbn. rewrite IH by done. by rewrite decide_False by congruence.
Qed.

Lemma split_on_app c s r : c ∉ s → split_on c (s ++ c :: r) = s :: split_on c r.
Proof.
  intros H. assert (split_on c r ≠ []) as Hn.
  { destruct r as [|x r]; cbn; [done|]. destruct (split_on c r); [done|]. by case_decide. }
  induction s as [|b s IH]; cbn [app split_on].
  - destruct (split_on c r); [done|]. by rewrite decide_True.
  - rewrite not_elem_of_cons in H. destruct H as [Hb Hs]. rewrite IH by done.
    by rewrite decide_False by congruence.
Qed.

Lemma lhex2_plain c l : Forall u8 l → c = 45 ∨ c = 58 → c ∉ (l ≫= lhex2).
Proof.
  intros Hl Hc Hin. apply list_elem_of_bind in Hin as (b & Hin & Hb). rewrite list.Forall_forall in Hl.
  specialize (Hl b Hb). unfold u8 in Hl.
  assert (0 ≤ b / 16 < 16) as Hh by (Z.div_mod_to_equations; lia).
  assert (0 ≤ b mod 16 < 16) as Hlo by (apply Z.mod_pos_bound; lia).
  pose proof (lhex_digit_plain _ Hh). pose proof (lhex_digit_plain _ Hlo).
  unfold lhex2 in Hin. rewrite !elem_of_cons in Hin.
  destruct Hin as [?|[?|[]%not_elem_of_nil]]; intuition lia.
Qed.

Lemma pairs_lhex2 l : pairs (l ≫= lhex2) = lhex2 <$> l.
Proof. induction l as [|b l IH]; [done|]. cbn. f_equal. exact IH. Qed.

Lemma length_lhex2 l : length (l ≫= lhex2) = (2 * length l)%nat.
Proof. induction l as [|b l IH]; [done|]. cbn. cbn in IH. rewrite IH. lia. Qed.

Lemma mapM_radix_lhex2 l : Forall u8 l → mapM from_str_radix_16 (lhex2 <$> l) = Some l.
Proof.
  intros H. apply mapM_Some_2. rewrite Forall2_fmap_l. apply Forall_Forall2_diag.
  eapply list.Forall_impl; [exact H|]. intros b. apply radix_lhex2.
Qed.

(** ** Reading back *)

(** The octets of a UUID, in the groups of its text. *)
Lemma uuid_groups (b : list Z) : length b = 16%nat →
  take 4 b ++ take 2 (drop 4 b) ++ take 2 (drop 6 b) ++ take 2 (drop 8 b) ++ take 6 (drop 10 b) = b.
Proof. intros H. list_elements b H. reflexivity. Qed.

Lemma split_display u : wf_uuid u →
  let b := uuid_bytes u in
  split_on 45 (uuid_display u) =
    (λ l, l ≫= lhex2) <$> [take 4 b; take 2 (drop 4 b); take 2 (drop 6 b); take 2 (drop 8 b);
                          take 6 (drop 10 b)].
Proof.
  intros [_ H8] b. unfold uuid_display. rewrite drop_0.
  cbn [app]. rewrite !split_on_app, split_on_plain; [done|..];
    (apply lhex2_plain; [auto using Forall_take, Forall_drop|by left]).
Qed.

Lemma pairs_shape n : ∀ s, length s = (2 * n)%nat → Forall (λ p, ∃ a b, p = [a; b]) (pairs s).
Proof.
  induction n as [|n IH]; intros [|a [|b s]] H; cbn in *; try lia; constructor; [by eauto|].
  apply IH. lia.
Qed.

Lemma octets_parse s n : length s = (2 * n)%nat →
  is_Some (mapM from_str_radix_16 (pairs s)) ↔ Forall octet_text (pairs s).
Proof.
  intros Hl. pose proof (pairs_shape n s Hl) as Hp. split.
  - intros H%mapM_is_Some_1. induction H; [constructor|].
    apply Forall_cons_1 in Hp as [(a & b & ->) Hp]. constructor; [by apply radix_pair|auto].
  - intros H. apply mapM_is_Some_2.
    induction H; [constructor|]. apply Forall_cons_1 in Hp as [(a & b & ->) Hp].
    constructor; [by apply radix_pair|auto].
Qed.

(** The text of a UUID reads back, and the reader accepts exactly the
    texts of five groups of 8, 4, 4, 4 and 12 characters whose pairs are two
    hexadecimal digits or a plus sign and a digit. *)
Theorem uuid_text u s :
  (wf_uuid u → parse_str (uuid_display u) = Some u) ∧
  (is_Some (parse_str s) ↔
     length <$> split_on 45 s = [8; 4; 4; 4; 12]%nat ∧ Forall octet_text (pairs (concat (split_on 45 s)))).
Proof.
  split.
  - intros Hu. pose proof Hu as [Hl H8]. unfold parse_str. rewrite split_display by done.
    set (b := uuid_bytes u) in *.
    assert (concat ((λ l, l ≫= lhex2) <$> [take 4 b; take 2 (drop 4 b); take 2 (drop 6 b);
              take 2 (drop 8 b); take 6 (drop 10 b)]) = b ≫= lhex2) as ->.
    { rewrite <-(uuid_groups b Hl) at 6. rewrite !bind_app. cbn. by rewrite app_nil_r. }
    rewrite decide_False.
    2:{ rewrite length_lhex2, Hl. cbn [fmap list_fmap]. rewrite !length_lhex2, !length_take, !length_drop, Hl.
        intros [?|?]; done. }
    rewrite pairs_lhex2, mapM_radix_lhex2 by done. by destruct u.
  - unfold parse_str. case_decide as Hd; split.
    + intros [? ?]. done.
    + intros [Hlen _]. exfalso. destruct Hd as [Hd|Hd]; [|done]. apply Hd.
      rewrite length_concat. change (list_sum (length <$> split_on 45 s) = 32%nat). by rewrite Hlen.
    + rewrite fmap_is_Some. intros H. apply (octets_parse _ 16) in H; [|lia]. split; [|done].
      destruct (decide (length <$> split_on 45 s = [8; 4; 4; 4; 12]%nat)); tauto.
    + intros [_ H]. rewrite fmap_is_Some. apply (octets_parse _ 16); [lia|done].
Qed.

(** The text of a MAC address as the kernel writes it, with its newline. *)
Fixpoint colons (l : list Z) : list Z :=
  match l with
  | [] => []
  | [b] => lhex2 b
  | b :: l => lhex2 b ++ 58 :: colons l
  end.
Definition mac_text (m : MacAddr) : list Z := colons (mac_octets m) ++ [10].

Lemma lhex2_digits b : u8 b →
  is_blank [lhex_digit (b / 16)] = false ∧ is_blank [lhex_digit (b mod 16)] = false.
Proof.
  assert (∀ d, 0 ≤ d < 16 → is_blank [lhex_digit d] = false) as H.
  { intros d H. unfold is_blank, lhex_digit. cbn. rewrite andb_true_r. apply bool_decide_eq_false.
    case_decide; lia. }
  unfold u8. intros Hb. split; apply H; Z.div_mod_to_equations; lia.
Qed.

Lemma split_colons l : Forall u8 l → l ≠ [] → split_on 58 (colons l) = lhex2 <$> l.
Proof.
  intros H. induction H as [|b l Hb Hl IH]; intros Hn; [done|]. destruct l as [|c l].
  - cbn [colons]. rewrite <-(app_nil_r (lhex2 b)). change (lhex2 b ++ []) with ([b] ≫= lhex2).
    rewrite split_on_plain; [done|]. apply lhex2_plain; [by constructor|by right].
  - change (colons (b :: c :: l)) with (([b] ≫= lhex2) ++ 58 :: colons (c :: l)).
    rewrite split_on_app, IH; [done|done|]. apply lhex2_plain; [by constructor|by right].
Qed.

Lemma colons_ends l : Forall u8 l → l ≠ [] →
  ∃ x mid y, colons l = x :: mid ++ [y] ∧ is_blank [x] = false ∧ is_blank [y] = false.
Proof.
  intros H. induction H as [|b l Hb Hl IH]; intros Hn; [done|]. destruct (lhex2_digits b Hb) as [H1 H2].
  exists (lhex_digit (b / 16)). destruct l as [|c l]; [by exists [], (lhex_digit (b mod 16))|].
  destruct IH as (x & mid & y & Hc & _ & Hy); [done|].
  exists (lhex_digit (b mod 16) :: 58 :: x :: mid), y. split_and!; [|done|done].
  change (colons (b :: c :: l)) with (lhex2 b ++ 58 :: colons (c :: l)). by rewrite Hc.
Qed.

Lemma trim_line x mid y : is_blank [x] = false → is_blank [y] = false →
  trim ((x :: mid ++ [y]) ++ [10]) = x :: mid ++ [y].
Proof.
  intros Hx Hy. unfold trim. cbn [app trim_start]. rewrite Hx.
  change (x :: (mid ++ [y]) ++ [10]) with ((x :: mid ++ [y]) ++ [10]).
  rewrite reverse_snoc. change (x :: mid ++ [y]) with ((x :: mid) ++ [y]). rewrite reverse_snoc.
  cbn [trim_start]. change (is_blank [10]) with true. cbn [trim_start]. rewrite Hy.
  by rewrite reverse_cons, reverse_involutive.
Qed.

(** The address of an interface reads back. *)
Lemma read_mac_text m : wf_mac m → read_mac (Some (mac_text m)) = Some m.
Proof.
  destruct m as [l]. intros [Hl H8]. cbn [mac_octets] in *.
  assert (l ≠ []) as Hn by (intros ->; done). unfold read_mac, mac_text. cbn [mbind option_bind mac_octets].
  destruct (colons_ends l H8 Hn) as (x & mid & y & Hc & Hx & Hy).
  rewrite Hc, trim_line, <-Hc, split_colons by done.
  rewrite decide_False by (rewrite length_fmap, Hl; tauto). by rewrite mapM_radix_lhex2.
Qed.

(** ** Witnesses *)

Lemma uuid_text_witness :
  parse_str (uuid_display (MkUuid (zrange 0 16))) = Some (MkUuid (zrange 0 16)) ∧
  is_Some (parse_str (ascii_bytes "+1000000-0000-0000-0000-00000000000f")).
Proof.
  destruct (uuid_text (MkUuid (zrange 0 16)) (ascii_bytes "+1000000-0000-0000-0000-00000000000f"))
    as [H1 _].
  split; [apply H1; unfold wf_uuid; by_decide|]. vm_compute. by eexists.
Defined.
