(* ===== verification/Controller.v ===== *)
(** * Controller: the Connect request a controller sends

    Models [crates/pnio/src/testutil.rs]: the hex dumps of the bench captures
    and [synthetic_connect_req], the controller's side of Connect, which
    derives from a device model the ARBlockReq, the two IOCR blocks with every
    object placed in its C-SDU, one ExpectedSubmodule block per slot, the
    AlarmCR block and the RPC envelope.

    The request is then followed through the device: it is parsed, validated
    and laid out, so what a controller derives from a model is what the device
    built from the same model accepts. *)

From S2P Require Import Prelude Eth Rpc Block Connect Records Ar Cm RtFrame Layout Config Text.
Local Open Scope Z_scope.

(** ** Hex dumps

    A text is the list of its code points. *)

(** [char::is_whitespace]. *)
Definition is_white (c : Z) : bool :=
  bool_decide (9 ≤ c ≤ 13) || bool_decide (0x2000 ≤ c ≤ 0x200A)
  || bool_decide (c ∈ [0x20; 0x85; 0xA0; 0x1680; 0x2028; 0x2029; 0x202F; 0x205F; 0x3000]).

(** [str::lines]: no line behind the last line feed, and a carriage return in
    front of a line feed belongs to it. *)
Definition strip_cr (l : list Z) : list Z :=
  if decide (list.last l = Some 13) then removelast l else l.
Definition lines (s : list Z) : list (list Z) :=
  let ls := split_on 10 s in
  (strip_cr <$> removelast ls)
  ++ match list.last ls with Some [] | None => [] | Some l => [l] end.

(** [str::split_whitespace]. *)
Fixpoint words_from (word : list Z) (s : list Z) : list (list Z) :=
  let done := match word with [] => [] | _ => [word] end in
  match s with
  | [] => done
  | c :: s => if is_white c then done ++ words_from [] s else words_from (word ++ [c]) s
  end.
Definition split_whitespace (s : list Z) : list (list Z) := words_from [] s.

Fixpoint hex_words {E} (ws : list (list Z)) : outcome E (list Z) :=
  match ws with
  | [] => Ok []
  | w :: ws =>
    let! b := expect (from_str_radix_16 w) in
    let! bs := hex_words ws in
    Ok (b :: bs)
  end.

(** testutil.rs:13-22 parse_hex *)
Definition parse_hex {E} (text : list Z) : outcome E (list Z) :=
  hex_words (concat ((λ l, split_whitespace (default [] (head (split_on 35 l)))) <$> lines text)).

(** The files read by [golden], [golden_rt] and [golden_alarm], below the
    directory of the crate; a file that cannot be read is a panic. *)
(** testutil.rs:24-28 golden *)
Definition golden {E} (manifest_dir : list Z) (read_to_string : list Z → option (list Z))
    (name : list Z) : outcome E (list Z) :=
  let! text := expect (read_to_string
                 (manifest_dir ++ ascii_bytes "/testdata/cm/" ++ name ++ ascii_bytes ".hex")) in
  parse_hex text.
(** testutil.rs:41-45 golden_rt *)
Definition golden_rt {E} (manifest_dir : list Z) (read_to_string : list Z → option (list Z))
    (name : list Z) : outcome E (list Z) :=
  let! text := expect (read_to_string
                 (manifest_dir ++ ascii_bytes "/testdata/rt/" ++ name ++ ascii_bytes ".hex")) in
  parse_hex text.
(** testutil.rs:47-51 golden_alarm *)
Definition golden_alarm {E} (manifest_dir : list Z) (read_to_string : list Z → option (list Z))
    (name : list Z) : outcome E (list Z) :=
  let! text := expect (read_to_string
                 (manifest_dir ++ ascii_bytes "/testdata/alarm/" ++ name ++ ascii_bytes ".hex")) in
  parse_hex text.

(** ** The request *)

(** testutil.rs:3-8 RPC_OFF *)
Definition RPC_OFF : nat := 42.
(** testutil.rs:9-11 VLAN_PAYLOAD_OFF *)
Definition VLAN_PAYLOAD_OFF : nat := 18.
(** testutil.rs:34-35 RT_FRAMEID_OFF *)
Definition RT_FRAMEID_OFF : nat := 18.
(** testutil.rs:36-37 RT_CSDU_OFF *)
Definition RT_CSDU_OFF : nat := 20.
(** testutil.rs:38-39 RT_APDU_OFF *)
Definition RT_APDU_OFF : nat := 60.
(** testutil.rs:53-54 SYNTH_BLOCKS_OFF *)
Definition SYNTH_BLOCKS_OFF : nat := RpcHeader_LEN + NdrRequest_LEN.

(** testutil.rs:67-70 synthetic_connect_req *)
Definition block (block_type : Z) (body : list Z) : list Z :=
  BlockHeader_write block_type (wrap16 (Z.of_nat (length body))) ++ body.

(** testutil.rs:82-95 synthetic_connect_req *)
Definition ar_body {E} (ar : ArBlockReq) : outcome E (list Z) :=
  let! ar_uuid := Uuid_write (arb_ar_uuid ar) Drep_BIG in
  let! object := Uuid_write (arb_initiator_object_uuid ar) Drep_BIG in
  Ok (be16 1 ++ ar_uuid ++ be16 (arb_session_key ar) ++ mac_octets (arb_initiator_mac ar)
      ++ object ++ be32 (arb_ar_properties ar) ++ be16 (arb_activity_timeout_factor ar)
      ++ be16 0x8892 ++ be16 (wrap16 (Z.of_nat (length (arb_station_name ar))))
      ++ arb_station_name ar).

(** testutil.rs:98-102 Obj *)
Record Obj := { o_slot : Z; o_subslot : Z; o_off : Z }.

(** The objects of both CRs in the order they are placed, and the next free
    octet of each. *)
(** testutil.rs:103-108 synthetic_connect_req *)
Record Placement := {
  pl_in_data : list Obj; pl_in_iocs : list Obj;
  pl_out_data : list Obj; pl_out_iocs : list Obj;
  pl_in_off : Z; pl_out_off : Z
}.
Definition Placement_new : Placement :=
  {| pl_in_data := []; pl_in_iocs := []; pl_out_data := []; pl_out_iocs := [];
     pl_in_off := 0; pl_out_off := 0 |}.

(** [a + b] on [u16], with the overflow check of a test build. *)
Definition add16 {E} (a b : Z) : outcome E Z :=
  if decide (a + b < 65536) then Ok (a + b) else Panic.

(** testutil.rs:111-112 synthetic_connect_req *)
Definition has_in (slot : Z) (sm : SubmoduleModel) : bool :=
  bool_decide (0 < sm_input_len sm) || bool_decide (slot = 0).
(** testutil.rs:113-113 synthetic_connect_req *)
Definition has_out (sm : SubmoduleModel) : bool := bool_decide (0 < sm_output_len sm).

(** testutil.rs:114-127 synthetic_connect_req *)
Definition place_in {E} (slot : Z) (st : Placement) (sm : SubmoduleModel) : outcome E Placement :=
  let! step := add16 (sm_input_len sm) 1 in
  let! in_off := add16 (pl_in_off st) step in
  let! out_off := add16 (pl_out_off st) 1 in
  Ok {| pl_in_data := pl_in_data st
          ++ [{| o_slot := slot; o_subslot := sm_subslot sm; o_off := pl_in_off st |}];
        pl_in_iocs := pl_in_iocs st;
        pl_out_data := pl_out_data st;
        pl_out_iocs := pl_out_iocs st
          ++ [{| o_slot := slot; o_subslot := sm_subslot sm; o_off := pl_out_off st |}];
        pl_in_off := in_off; pl_out_off := out_off |}.

(** testutil.rs:128-141 synthetic_connect_req *)
Definition place_out {E} (slot : Z) (st : Placement) (sm : SubmoduleModel) : outcome E Placement :=
  let! step := add16 (sm_output_len sm) 1 in
  let! out_off := add16 (pl_out_off st) step in
  let! in_off := add16 (pl_in_off st) 1 in
  Ok {| pl_in_data := pl_in_data st;
        pl_in_iocs := pl_in_iocs st
          ++ [{| o_slot := slot; o_subslot := sm_subslot sm; o_off := pl_in_off st |}];
        pl_out_data := pl_out_data st
          ++ [{| o_slot := slot; o_subslot := sm_subslot sm; o_off := pl_out_off st |}];
        pl_out_iocs := pl_out_iocs st;
        pl_in_off := in_off; pl_out_off := out_off |}.

(** testutil.rs:110-142 synthetic_connect_req *)
Definition place_submodule {E} (slot : Z) (st : Placement) (sm : SubmoduleModel) :
    outcome E Placement :=
  let! st := if has_in slot sm then place_in slot st sm else Ok st in
  if has_out sm then place_out slot st sm else Ok st.

Fixpoint ofold {E A S} (f : S → A → outcome E S) (s : S) (l : list A) : outcome E S :=
  match l with [] => Ok s | a :: l => let! s := f s a in ofold f s l end.

(** testutil.rs:109-143 synthetic_connect_req *)
Definition place_all {E} (model : DeviceModel) : outcome E Placement :=
  ofold (λ st s, ofold (place_submodule (sl_slot s)) st (sl_submodules s))
        Placement_new (dm_slots model).

(** testutil.rs:166-170 synthetic_connect_req *)
Definition put_objs (objs : list Obj) : list Z :=
  be16 (wrap16 (Z.of_nat (length objs)))
  ++ concat ((λ o, be16 (o_slot o) ++ be16 (o_subslot o) ++ be16 (o_off o)) <$> objs).

(** testutil.rs:145-178 synthetic_connect_req *)
Definition iocr (iocr_type reference frame_id len : Z) (data iocs : list Obj) : list Z :=
  be16 iocr_type ++ be16 reference ++ be16 0x8892 ++ be32 0x00000002 ++ be16 (Z.max len 40)
  ++ be16 frame_id ++ be16 32 ++ be16 1 ++ be16 1 ++ be16 0 ++ be32 0xffffffff
  ++ be16 3 ++ be16 3 ++ be16 0xc000 ++ [0; 0; 0; 0; 0; 0] ++ be16 1 ++ be32 0
  ++ put_objs data ++ put_objs iocs.

(** testutil.rs:202-207 synthetic_connect_req *)
Definition props (sm : SubmoduleModel) : Z :=
  match bool_decide (0 < sm_input_len sm), bool_decide (0 < sm_output_len sm) with
  | false, false => 0
  | true, false => 1
  | false, true => 2
  | true, true => 3
  end.
(** testutil.rs:209-214 synthetic_connect_req *)
Definition desc (tag len : Z) : list Z := be16 tag ++ be16 len ++ [1] ++ [1].

(** testutil.rs:199-223 synthetic_connect_req *)
Definition expected_submodule (sm : SubmoduleModel) : list Z :=
  be16 (sm_subslot sm) ++ be32 (sm_submodule_ident sm) ++ be16 (props sm)
  ++ match props sm with
     | 0 | 1 => desc 1 (sm_input_len sm)
     | 2 => desc 2 (sm_output_len sm)
     | _ => desc 1 (sm_input_len sm) ++ desc 2 (sm_output_len sm)
     end.

(** testutil.rs:190-225 synthetic_connect_req *)
Definition expected_body (s : SlotModel) : list Z :=
  be16 1 ++ be32 0 ++ be16 (sl_slot s) ++ be32 (sl_module_ident s) ++ be16 0
  ++ be16 (wrap16 (Z.of_nat (length (sl_submodules s))))
  ++ concat (expected_submodule <$> sl_submodules s).

(** testutil.rs:227-237 synthetic_connect_req *)
Definition alarm_body : list Z :=
  be16 1 ++ be16 0x8892 ++ be32 0 ++ be16 1 ++ be16 3 ++ be16 1 ++ be16 200
  ++ be16 0xc000 ++ be16 0xa000.

(** testutil.rs:82-237 synthetic_connect_req *)
Definition synthetic_blocks {E} (ar : ArBlockReq) (model : DeviceModel) : outcome E (list Z) :=
  let! body := ar_body ar in
  let! st := place_all model in
  Ok (block AR_BLOCK_REQ body
      ++ block IOCR_BLOCK_REQ (iocr 1 1 0x8000 (pl_in_off st) (pl_in_data st) (pl_in_iocs st))
      ++ block IOCR_BLOCK_REQ (iocr 2 2 0x8001 (pl_out_off st) (pl_out_data st) (pl_out_iocs st))
      ++ concat ((λ s, block EXPECTED_SUBMODULE_BLOCK_REQ (expected_body s)) <$> dm_slots model)
      ++ block ALARM_CR_BLOCK_REQ alarm_body).

(** [.unwrap()] of a result. *)
Definition unwrap {E F A} (m : outcome E A) : outcome F A :=
  match m with Ok a => Ok a | _ => Panic end.

(** What is taken from the captured request. *)
(** testutil.rs:78-80 synthetic_connect_req *)
Definition golden_parts {E} (golden : list Z) : outcome E (RpcHeader * ArBlockReq) :=
  let! h := slice_from golden RPC_OFF in
  let! hdr := unwrap (RpcHeader_parse h) in
  let! b := slice_from golden (RPC_OFF + SYNTH_BLOCKS_OFF + 6) in
  let! ar := unwrap (ArBlockReq_parse b) in
  Ok (hdr, ar).

Lemma unwrap_Ok {E F A} (m : outcome E A) a : unwrap (F := F) m = Ok a → m = Ok a.
Proof. unfold unwrap. destruct m; naive_solver. Qed.

Definition with_frag_len (h : RpcHeader) (n : Z) : RpcHeader :=
  {| rh_ptype := rh_ptype h; rh_flags1 := rh_flags1 h; rh_flags2 := rh_flags2 h;
     rh_drep := rh_drep h; rh_serial_hi := rh_serial_hi h; rh_object := rh_object h;
     rh_interface := rh_interface h; rh_activity := rh_activity h;
     rh_server_boot := rh_server_boot h; rh_if_version := rh_if_version h;
     rh_seq_num := rh_seq_num h; rh_opnum := rh_opnum h; rh_ihint := rh_ihint h;
     rh_ahint := rh_ahint h; rh_frag_len := n; rh_frag_num := rh_frag_num h;
     rh_auth_proto := rh_auth_proto h; rh_serial_lo := rh_serial_lo h |}.

(** testutil.rs:56-247 synthetic_connect_req *)
Definition synthetic_connect_req {E} (golden : list Z) (model : DeviceModel) :
    outcome E (list Z) :=
  let! (hdr, ar) := golden_parts golden in
  let! blocks := synthetic_blocks ar model in
  let len := wrap32 (Z.of_nat (length blocks)) in
  let! args_max := (if decide (len + 16 < 4294967296) then Ok (len + 16) else Panic) in
  let ndr := NdrRequest_for_blocks args_max len in
  let hdr := with_frag_len hdr (wrap16 (Z.of_nat (NdrRequest_LEN + length blocks))) in
  let! h := RpcHeader_write hdr in
  Ok (h ++ NdrRequest_write ndr (rh_drep hdr) ++ blocks).

(** ** The blocks as the device reads them *)

Definition obj_io (o : Obj) : IocrObject :=
  {| io_slot := o_slot o; io_subslot := o_subslot o; io_frame_offset := o_off o |}.

Definition ctl_ar (ar : ArBlockReq) : ArBlockReq :=
  {| arb_ar_type := 1; arb_ar_uuid := arb_ar_uuid ar; arb_session_key := arb_session_key ar;
     arb_initiator_mac := arb_initiator_mac ar;
     arb_initiator_object_uuid := arb_initiator_object_uuid ar;
     arb_ar_properties := arb_ar_properties ar;
     arb_activity_timeout_factor := arb_activity_timeout_factor ar;
     arb_initiator_udp_rt_port := 0x8892; arb_station_name := arb_station_name ar |}.

Definition ctl_iocr (ty id len : Z) (data iocs : list Obj) : IocrBlockReq :=
  {| icr_iocr_type := ty; icr_reference := ty; icr_lt := 0x8892; icr_properties := 2;
     icr_data_length := Z.max len 40; icr_frame_id := id; icr_send_clock_factor := 32;
     icr_reduction_ratio := 1; icr_phase := 1; icr_sequence := 0;
     icr_frame_send_offset := 0xffffffff; icr_watchdog_factor := 3; icr_data_hold_factor := 3;
     icr_tag_header := 0xc000; icr_multicast_mac := Mac (replicate 6 0);
     icr_apis := [{| ia_api := 0; ia_io_data := obj_io <$> data; ia_iocs := obj_io <$> iocs |}] |}.

Definition ctl_submodule (sm : SubmoduleModel) : ExpectedSubmodule :=
  let d n := {| dd_data_length := n; dd_length_iocs := 1; dd_length_iops := 1 |} in
  {| es_subslot := sm_subslot sm; es_submodule_ident := sm_submodule_ident sm;
     es_properties := props sm;
     es_input := if decide (props sm = 2) then None else Some (d (sm_input_len sm));
     es_output := if decide (2 ≤ props sm) then Some (d (sm_output_len sm)) else None |}.

Definition ctl_expected (s : SlotModel) : ExpectedSubmoduleBlockReq :=
  {| esb_apis := [{| ea_api := 0; ea_slot := sl_slot s; ea_module_ident := sl_module_ident s;
                     ea_module_properties := 0;
                     ea_submodules := ctl_submodule <$> sl_submodules s |}] |}.

Definition ctl_alarm : AlarmCrBlockReq :=
  {| acr_alarm_cr_type := 1; acr_lt := 0x8892; acr_properties := 0;
     acr_rta_timeout_factor := 1; acr_rta_retries := 3; acr_local_alarm_reference := 1;
     acr_max_alarm_data_length := 200; acr_tag_header_high := 0xc000;
     acr_tag_header_low := 0xa000 |}.

Section request.
Context (ar : ArBlockReq) (model : DeviceModel) (st : Placement).

Definition ctl_input : IocrBlockReq :=
  ctl_iocr 1 0x8000 (pl_in_off st) (pl_in_data st) (pl_in_iocs st).
Definition ctl_output : IocrBlockReq :=
  ctl_iocr 2 0x8001 (pl_out_off st) (pl_out_data st) (pl_out_iocs st).
Definition ctl_blocks : list connect_block :=
  [BAr (ctl_ar ar); BIocr ctl_input; BIocr ctl_output]
  ++ (BExpected ∘ ctl_expected <$> dm_slots model) ++ [BAlarm ctl_alarm].
Definition ctl_req : ConnectReq :=
  {| cq_ar := ctl_ar ar; cq_iocrs := [ctl_input; ctl_output];
     cq_expected := ctl_expected <$> dm_slots model; cq_alarm_cr := ctl_alarm |}.
End request.

(** Every body is the wire format of the block above. *)

Lemma ar_body_wire {E} ar : wf_ArBlockReq ar →
  ar_body (E := E) ar = Ok (ArBlockReq_wire (ctl_ar ar)).
Proof.
  intros (_ & Hu & _ & _ & Ho & _ & _ & _ & Hn & _). unfold ar_body.
  rewrite !Uuid_write_Ok by done. cbn [obind]. by rewrite wrap16_id.
Qed.

Lemma put_objs_wire objs : u16 (Z.of_nat (length objs)) →
  put_objs objs = be16 (Z.of_nat (length (obj_io <$> objs)))
                  ++ concat (IocrObject_wire <$> (obj_io <$> objs)).
Proof. intros H. unfold put_objs. by rewrite wrap16_id, length_fmap, <-list_fmap_compose. Qed.

Lemma iocr_wire ty id len data iocs :
  u16 (Z.of_nat (length data)) → u16 (Z.of_nat (length iocs)) →
  iocr ty ty id len data iocs = IocrBlockReq_wire (ctl_iocr ty id len data iocs).
Proof.
  intros Hd Hi. unfold iocr. rewrite !put_objs_wire by done.
  unfold IocrBlockReq_wire, IocrApi_wire. cbn [concat fmap list_fmap ctl_iocr icr_apis].
  by rewrite app_nil_r, <-!app_assoc.
Qed.

Lemma props_range sm : 0 ≤ props sm < 4.
Proof. unfold props. repeat case_bool_decide; lia. Qed.

Lemma expected_submodule_wire sm : expected_submodule sm = ExpectedSubmodule_wire (ctl_submodule sm).
Proof.
  unfold expected_submodule, ExpectedSubmodule_wire, ctl_submodule, props.
  repeat case_bool_decide; done.
Qed.

Lemma expected_body_wire s : u16 (Z.of_nat (length (sl_submodules s))) →
  expected_body s = ExpectedSubmoduleBlockReq_wire (ctl_expected s).
Proof.
  intros H. unfold expected_body, ExpectedSubmoduleBlockReq_wire, ExpectedApi_wire.
  cbn [ctl_expected esb_apis fmap list_fmap concat length ea_api ea_slot ea_module_ident
    ea_module_properties ea_submodules].
  rewrite wrap16_id, length_fmap, app_nil_r, <-list_fmap_compose by done.
  do 6 f_equal. f_equal. apply list_fmap_ext. intros ? ? _. apply expected_submodule_wire.
Qed.

Lemma block_wire_eq ty body : u16 (Z.of_nat (length body)) → block ty body = block_wire ty body.
Proof. intros H. unfold block, block_wire. by rewrite wrap16_id. Qed.

(** ** Placement tiles the C-SDU *)

(** The plugged submodules with their slot, in the order they are placed. *)
Definition plugged (model : DeviceModel) : list (Z * SubmoduleModel) :=
  concat ((λ s, pair (sl_slot s) <$> sl_submodules s) <$> dm_slots model).

Definition carries (dir : Dir) (p : Z * SubmoduleModel) : bool :=
  match dir with DirInput => has_in p.1 p.2 | DirOutput => has_out p.2 end.
Definition opposite (dir : Dir) : Dir :=
  match dir with DirInput => DirOutput | DirOutput => DirInput end.

(** The octets of one submodule in the C-SDU of a direction: data and provider
    status when it carries data that way, a consumer status when it carries
    data the other way. *)
Definition ctl_octets (dir : Dir) (p : Z * SubmoduleModel) : Z :=
  (if carries dir p then len_of dir p.2 + 1 else 0) + (if carries (opposite dir) p then 1 else 0).
Definition ctl_sum (dir : Dir) (l : list (Z * SubmoduleModel)) : Z :=
  foldr Z.add 0 (ctl_octets dir <$> l).
Definition ctl_budget (dir : Dir) (model : DeviceModel) : Z := ctl_sum dir (plugged model).

Definition st_data (dir : Dir) (st : Placement) : list Obj :=
  match dir with DirInput => pl_in_data st | DirOutput => pl_out_data st end.
Definition st_iocs (dir : Dir) (st : Placement) : list Obj :=
  match dir with DirInput => pl_in_iocs st | DirOutput => pl_out_iocs st end.
Definition st_off (dir : Dir) (st : Placement) : Z :=
  match dir with DirInput => pl_in_off st | DirOutput => pl_out_off st end.

Definition obj_key (o : Obj) : Z * Z := (o_slot o, o_subslot o).
Definition sub_key (p : Z * SubmoduleModel) : Z * Z := (p.1, sm_subslot p.2).

Section tiling.
Context (model : DeviceModel).

(** The objects' octets are exactly the first [n] of the C-SDU, each used
    once. *)
Definition tiles (dir : Dir) (data iocs : list Obj) (n : Z) : Prop :=
  0 ≤ n ∧ Forall (λ o, 0 ≤ o_off o) (data ++ iocs) ∧ ∃ os, mapM (planned model dir) (obj_io <$> data) = Some os ∧
    footprint os (planned_cs <$> (obj_io <$> iocs)) ≡ₚ seq 0 (Z.to_nat n).

Lemma tiles_data dir data iocs n slot sm :
  tiles dir data iocs n → wf_submodule sm →
  DeviceModel_find model slot (sm_subslot sm) = Some sm →
  tiles dir (data ++ [{| o_slot := slot; o_subslot := sm_subslot sm; o_off := n |}]) iocs
        (n + len_of dir sm + 1).
Proof.
  intros (Hn & Hz & os & Hos & Hp) (_ & _ & Hi & Ho) Hf.
  assert (0 ≤ len_of dir sm) by (unfold u16 in *; destruct dir; cbn; lia).
  rewrite Forall_app in Hz. destruct Hz as [Hz1 Hz2].
  split; [lia|]. split; [rewrite !Forall_app; split_and!; [done|by constructor|done]|]. set (o := {| ob_slot := slot; ob_subslot := sm_subslot sm;
    ob_data_off := Z.to_nat n; ob_data_len := dir_len dir sm;
    ob_iops_off := Z.to_nat n + dir_len dir sm |}).
  exists (os ++ [o]). split.
  - rewrite fmap_app. apply mapM_Some, Forall2_app; [by apply mapM_Some|].
    constructor; [|constructor]. unfold planned. cbn. by rewrite Hf.
  - unfold footprint in *. rewrite fmap_app, concat_app. cbn [fmap list_fmap concat].
    rewrite app_nil_r, <-app_assoc, (Permutation_app_comm (object_bytes o)), app_assoc, Hp.
    unfold object_bytes. cbn [ob_data_off ob_data_len o].
    replace (Z.to_nat (n + len_of dir sm + 1)) with (Z.to_nat n + S (dir_len dir sm))%nat
      by (unfold dir_len, len_of in *; destruct dir; lia).
    by rewrite seq_app.
Qed.

Lemma tiles_iocs dir data iocs n slot subslot :
  tiles dir data iocs n →
  tiles dir data (iocs ++ [{| o_slot := slot; o_subslot := subslot; o_off := n |}]) (n + 1).
Proof.
  intros (Hn & Hz & os & Hos & Hp). split; [lia|].
  split; [rewrite app_assoc; apply Forall_app; split; [done|by constructor]|]. exists os. split; [done|].
  unfold footprint in *. rewrite !fmap_app, app_assoc, Hp. cbn.
  replace (Z.to_nat (n + 1)) with (Z.to_nat n + 1)%nat by lia. by rewrite seq_app.
Qed.

(** What the placement of [l] has reached. *)
Record placed (l : list (Z * SubmoduleModel)) (st : Placement) : Prop := {
  pd_tiles : ∀ dir, tiles dir (st_data dir st) (st_iocs dir st) (st_off dir st);
  pd_off : ∀ dir, st_off dir st = ctl_sum dir l;
  pd_data : ∀ dir, obj_key <$> st_data dir st = sub_key <$> filter (λ p, carries dir p = true) l;
  pd_iocs : ∀ dir, obj_key <$> st_iocs dir st = obj_key <$> st_data (opposite dir) st
}.

Lemma placed_nil : placed [] Placement_new.
Proof.
  constructor; intros []; try done; (split; [done|]); (split; [constructor|]); by exists [].
Qed.

Lemma ctl_sum_app dir l k : ctl_sum dir (l ++ k) = ctl_sum dir l + ctl_sum dir k.
Proof.
  unfold ctl_sum. rewrite fmap_app. induction (ctl_octets dir <$> l) as [|x j IH]; cbn in *; lia.
Qed.

Lemma ctl_sum_snoc dir l p : ctl_sum dir (l ++ [p]) = ctl_sum dir l + ctl_octets dir p.
Proof. rewrite ctl_sum_app. unfold ctl_sum at 2. cbn. lia. Qed.

Lemma ctl_octets_nonneg dir p : wf_submodule p.2 → 0 ≤ ctl_octets dir p.
Proof.
  intros (_ & _ & Hi & Ho). unfold ctl_octets, u16 in *.
  assert (0 ≤ len_of dir p.2) by (destruct dir; cbn; lia).
  repeat case_match; lia.
Qed.

Lemma ctl_sum_nonneg dir l : Forall (λ p, wf_submodule p.2) l → 0 ≤ ctl_sum dir l.
Proof.
  unfold ctl_sum. induction 1 as [|p l Hp _ IH]; cbn in *; [done|].
  pose proof (ctl_octets_nonneg dir p Hp). lia.
Qed.

(** A submodule is where the model finds it. *)
Definition found (p : Z * SubmoduleModel) : Prop :=
  wf_submodule p.2 ∧ DeviceModel_find model p.1 (sm_subslot p.2) = Some p.2.

Lemma add16_Ok {E} a b : a + b < 65536 → add16 (E := E) a b = Ok (a + b).
Proof. intros. unfold add16. by rewrite decide_True. Qed.

Lemma place_submodule_placed {E} l st p :
  placed l st → found p →
  (∀ dir, ctl_sum dir l + ctl_octets dir p < 65536) →
  ∃ st', place_submodule (E := E) p.1 st p.2 = Ok st' ∧ placed (l ++ [p]) st'.
Proof.
  intros [Ht Ho Hd Hi] [Hwf Hf] Hb. destruct p as [slot sm]. cbn [fst snd] in *.
  pose proof Hwf as (_ & _ & Hin & Hout).
  pose proof (Hb DirInput) as Bi. pose proof (Hb DirOutput) as Bo.
  pose proof (Ho DirInput) as Oi. pose proof (Ho DirOutput) as Oo.
  pose proof (Hi DirInput) as Ii. pose proof (Hi DirOutput) as Io.
  pose proof (Ht DirInput) as Ti. pose proof (Ht DirOutput) as To.
  destruct (Ti) as [Ni _], (To) as [No _].
  unfold ctl_octets in Bi, Bo. cbn [st_off carries opposite len_of fst snd st_data st_iocs] in *.
  unfold place_submodule, place_in, place_out. unfold u16 in *.
  assert (∀ dir, filter (λ q, carries dir q = true) [(slot, sm)] =
                 if carries dir (slot, sm) then [(slot, sm)] else []) as Hfl
    by (intros dir; unfold filter; cbn; by destruct (carries dir (slot, sm))).
  destruct (has_in slot sm) eqn:E1, (has_out sm) eqn:E2; cbn [obind];
    repeat (rewrite add16_Ok by (cbn; lia); cbn [obind pl_in_off pl_out_off]).
  all: eexists; split; [reflexivity|]; constructor; intros dir;
    rewrite ?ctl_sum_snoc, ?list.filter_app, ?Hfl, ?fmap_app, <-?Hd, <-?Ho; unfold ctl_octets;
    destruct dir; cbn [carries opposite fst snd st_data st_iocs st_off pl_in_data pl_in_iocs
      pl_out_data pl_out_iocs pl_in_off pl_out_off len_of]; rewrite ?E1, ?E2;
    rewrite ?fmap_app, ?app_nil_r, ?Ii, ?Io; try done; try lia.
  all: rewrite ?Z.add_assoc; auto using tiles_iocs.
  all: try (apply (tiles_iocs _ _ _ (_ + _))).
  all: try (apply (tiles_data DirInput)); try (apply (tiles_data DirOutput)); auto using tiles_iocs.
Qed.

Lemma place_list_placed {E} k : ∀ l st,
  placed l st → Forall found k → (∀ dir, ctl_sum dir (l ++ k) < 65536) →
  ∃ st', ofold (λ st p, place_submodule (E := E) p.1 st p.2) st k = Ok st' ∧ placed (l ++ k) st'.
Proof.
  induction k as [|p k IH]; intros l st Hp Hk Hb; cbn [ofold].
  { rewrite app_nil_r. eauto. }
  apply Forall_cons_1 in Hk as [Hp1 Hk].
  assert (l ++ p :: k = (l ++ [p]) ++ k) as E1 by by rewrite <-app_assoc.
  rewrite E1 in *.
  destruct (place_submodule_placed (E := E) l st p Hp Hp1) as (st' & -> & Hp').
  { intros dir. specialize (Hb dir). rewrite ctl_sum_app, ctl_sum_snoc in Hb.
    assert (0 ≤ ctl_sum dir k) by (apply ctl_sum_nonneg; by eapply Forall_weaken; [done|intros ? []]).
    lia. }
  cbn [obind]. by apply IH.
Qed.
End tiling.

Lemma ofold_app {E A S} (f : S → A → outcome E S) l k : ∀ s,
  ofold f s (l ++ k) = let! s := ofold f s l in ofold f s k.
Proof.
  induction l as [|a l IH]; intros s; cbn [app ofold]; [done|].
  destruct (f s a); cbn [obind]; [apply IH|done..].
Qed.

Lemma ofold_fmap {E A B S} (f : S → B → outcome E S) (g : A → B) l : ∀ s,
  ofold f s (g <$> l) = ofold (λ s a, f s (g a)) s l.
Proof.
  induction l as [|a l IH]; intros s; cbn [fmap list_fmap ofold]; [done|].
  destruct (f s (g a)); cbn [obind]; [apply IH|done..].
Qed.

(** The two nested loops walk the plugged submodules. *)
Lemma place_all_plugged {E} model :
  place_all (E := E) model =
  ofold (λ st p, place_submodule p.1 st p.2) Placement_new (plugged model).
Proof.
  unfold place_all, plugged. generalize Placement_new.
  induction (dm_slots model) as [|s ss IH]; intros st; cbn [fmap list_fmap concat ofold]; [done|].
  rewrite ofold_app, ofold_fmap. cbn [fst snd].
  destruct (ofold _ st (sl_submodules s)); cbn [obind]; [apply IH|done..].
Qed.

Lemma plugged_elem model p :
  p ∈ plugged model ↔ ∃ s, s ∈ dm_slots model ∧ p.1 = sl_slot s ∧ p.2 ∈ sl_submodules s.
Proof.
  unfold plugged. rewrite list_elem_of_In, in_concat. split.
  - intros (l & Hl & Hp). apply list_elem_of_In, list_elem_of_fmap in Hl as (s & -> & Hs).
    apply list_elem_of_In, list_elem_of_fmap in Hp as (sm & -> & Hsm). eauto.
  - intros (s & Hs & H1 & H2). exists (pair (sl_slot s) <$> sl_submodules s).
    split; apply list_elem_of_In; [apply list_elem_of_fmap; by exists s|].
    destruct p as [x sm]. cbn in *. subst x. by apply list_elem_of_fmap_2.
Qed.

Lemma plugged_found model : wf_model model → unique_keys model → Forall (found model) (plugged model).
Proof.
  intros (_ & _ & _ & _ & _ & _ & Hs) Hu. apply list.Forall_forall. intros [x sm] Hp.
  apply plugged_elem in Hp as (s & Hin & Hx & Hsm). cbn in *. subst x. split; cbn.
  - rewrite list.Forall_forall in Hs. destruct (Hs s Hin) as (_ & _ & H).
    rewrite list.Forall_forall in H. by apply H.
  - by apply DeviceModel_find_unique.
Qed.

(** Placing the whole model. *)
Lemma place_all_placed {E} model :
  wf_model model → unique_keys model → (∀ dir, ctl_budget dir model < 65536) →
  ∃ st, place_all (E := E) model = Ok st ∧ placed model (plugged model) st.
Proof.
  intros Hm Hu Hb. rewrite place_all_plugged.
  apply (place_list_placed model (plugged model) [] Placement_new);
    [apply placed_nil|by apply plugged_found|done].
Qed.

(** ** What tiling gives the device *)

Section tiled.
Context (model : DeviceModel) (dir : Dir) (data iocs : list Obj) (n : Z).
Hypothesis (Ht : tiles model dir data iocs n).

Lemma tiled_data o : o ∈ data →
  ∃ sm, DeviceModel_find model (o_slot o) (o_subslot o) = Some sm ∧
        0 ≤ o_off o ∧ o_off o + Z.of_nat (dir_len dir sm) + 1 ≤ n.
Proof using Ht.
  destruct Ht as (Hn & Hz & os & Hos & Hp). intros Ho.
  apply mapM_Some in Hos. apply list_elem_of_lookup in Ho as [i Hi].
  assert ((obj_io <$> data) !! i = Some (obj_io o)) as Hi' by by rewrite list_lookup_fmap, Hi.
  destruct (Forall2_lookup_l _ _ _ _ _ Hos Hi') as (e & He & Hpl).
  unfold planned in Hpl. cbn in Hpl. destruct (DeviceModel_find _ _ _) as [sm|] eqn:Hf; [|done].
  cbn in Hpl. injection Hpl as <-. exists sm. split; [done|].
  assert (0 ≤ o_off o) by (rewrite Forall_app in Hz; destruct Hz as [Hz _];
    by eapply Forall_lookup_1 in Hz).
  set (e := {| ob_slot := o_slot o |}) in He.
  assert ((Z.to_nat (o_off o) + dir_len dir sm)%nat ∈ seq 0 (Z.to_nat n)) as Hin.
  { rewrite <-Hp. apply elem_of_app. left. apply list_elem_of_In, in_concat.
    exists (object_bytes e). split; apply list_elem_of_In.
    - apply list_elem_of_fmap_2. by eapply list_elem_of_lookup_2.
    - apply elem_of_seq. cbn. lia. }
  apply elem_of_seq in Hin. lia.
Qed.

Lemma tiled_iocs o : o ∈ iocs → 0 ≤ o_off o ∧ o_off o + 1 ≤ n.
Proof using Ht.
  destruct Ht as (Hn & Hz & os & Hos & Hp). intros Ho.
  assert (0 ≤ o_off o) by (rewrite list.Forall_forall in Hz; apply Hz, elem_of_app; by right).
  assert (Z.to_nat (o_off o) ∈ seq 0 (Z.to_nat n)) as Hin.
  { rewrite <-Hp. apply elem_of_app. right. rewrite <-!list_fmap_compose.
    apply list_elem_of_fmap. by exists o. }
  apply elem_of_seq in Hin. lia.
Qed.

(** Every object takes at least one octet. *)
Lemma tiled_count : Z.of_nat (length data + length iocs) ≤ n.
Proof using Ht.
  destruct Ht as (Hn & _ & os & Hos & Hp). apply Permutation_length in Hp.
  unfold footprint in Hp. rewrite length_app, !length_fmap, length_seq in Hp.
  apply mapM_Some, list.Forall2_length in Hos. rewrite length_fmap in Hos.
  assert (length os ≤ length (concat (object_bytes <$> os)))%nat.
  { clear. induction os as [|o os IH]; cbn [fmap list_fmap concat length]; [lia|].
    rewrite length_app. unfold object_bytes at 1. rewrite length_seq. lia. }
  lia.
Qed.

Lemma tiled_cr_fits ty id : wf_model model →
  cr_fits model (len_of dir) (ctl_iocr ty id n data iocs).
Proof using Ht.
  intros Hm. eexists. split; [done|]. cbn [ia_io_data ia_iocs icr_data_length ctl_iocr].
  split; apply list.Forall_forall; intros ? (o & -> & Ho)%list_elem_of_fmap.
  - destruct (tiled_data o Ho) as (sm & Hf & Hb). exists sm. split; [done|]. cbn.
    destruct (find_wf _ _ _ _ Hm Hf) as (_ & _ & H1 & H2). unfold u16, dir_len, len_of in *.
    destruct dir; lia.
  - destruct (tiled_iocs o Ho). cbn. lia.
Qed.

(** The device's plan of the CR succeeds, object by object. *)
Lemma tiled_build_cr p :
  ip_io_data p = obj_io <$> data → ip_iocs p = obj_io <$> iocs → n ≤ ip_data_length p →
  ip_send_clock_factor p * ip_reduction_ratio p < 65536 →
  ∃ os, mapM (planned model dir) (obj_io <$> data) = Some os ∧
        build_cr p model dir = Ok (cr_plan p os).
Proof using Ht.
  intros Hd Hi Hl Hs. destruct Ht as (Hn & _ & os & Hos & Hp). exists os. split; [done|].
  assert (plan_fits (cr_plan p os)) as Hfit.
  { split; cbn [cr_plan cl_objects cl_iocs cl_data_length]; rewrite Hi, Hp.
    - apply NoDup_seq.
    - apply list.Forall_forall. intros i Hi'%elem_of_seq. unfold in_cr. lia. }
  pose proof (build_cr_cases p model dir) as H. rewrite Hd in H.
  destruct (build_cr p model dir) as [l|e|]; [| |done].
  - destruct H as (_ & os' & Hos' & -> & _). congruence.
  - by destruct (H Hs os Hos).
Qed.
End tiled.

(** ** The size of the request *)

(** The C-SDUs fit one Ethernet frame, and the module list one PDU. *)
Record request_fits (model : DeviceModel) : Prop := {
  rf_budget : ∀ dir, ctl_budget dir model ≤ MAX_SUBMODULE_BYTES;
  rf_slots : Z.of_nat (length (dm_slots model)) ≤ 32768;
  rf_submodules : Forall (λ s, Z.of_nat (length (sl_submodules s)) ≤ 2000) (dm_slots model)
}.

Lemma length_objs_wire l : length (concat (IocrObject_wire <$> l)) = (6 * length l)%nat.
Proof.
  induction l as [|o l IH]; cbn [fmap list_fmap concat]; [done|].
  rewrite length_app, IH. cbn. lia.
Qed.

Lemma length_concat_le {A B} (f : A → list B) c l :
  (∀ a, (length (f a) ≤ c)%nat) → (length (concat (f <$> l)) ≤ c * length l)%nat.
Proof.
  intros H. induction l as [|a l IH]; cbn [fmap list_fmap concat length]; [lia|].
  rewrite length_app. specialize (H a). lia.
Qed.

Lemma length_ctl_iocr ty id len data iocs :
  length (IocrBlockReq_wire (ctl_iocr ty id len data iocs)) =
  (48 + 6 * length data + 6 * length iocs)%nat.
Proof.
  unfold IocrBlockReq_wire, IocrApi_wire. cbn [ctl_iocr icr_apis fmap list_fmap concat ia_io_data ia_iocs].
  rewrite app_nil_r. autorewrite with len. rewrite !length_objs_wire, !length_fmap. cbn. lia.
Qed.

Lemma length_ctl_submodule sm : (length (ExpectedSubmodule_wire (ctl_submodule sm)) ≤ 20)%nat.
Proof.
  unfold ExpectedSubmodule_wire, ctl_submodule. cbn [es_input es_output].
  repeat case_decide; cbn; lia.
Qed.

Lemma length_ctl_expected s :
  (length (ExpectedSubmoduleBlockReq_wire (ctl_expected s)) ≤ 16 + 20 * length (sl_submodules s))%nat.
Proof.
  unfold ExpectedSubmoduleBlockReq_wire, ExpectedApi_wire.
  cbn [ctl_expected esb_apis fmap list_fmap concat ea_submodules].
  rewrite app_nil_r. autorewrite with len.
  rewrite <-list_fmap_compose.
  pose proof (length_concat_le (ExpectedSubmodule_wire ∘ ctl_submodule) 20 (sl_submodules s)
    length_ctl_submodule). cbn in *. lia.
Qed.

(** ** The request is well formed *)

Section accepted.
Context (model : DeviceModel).
Context (Hm : wf_model model) (Hu : unique_keys model) (Hfit : request_fits model).

Lemma ctl_placed : ∃ st, (∀ E, place_all (E := E) model = Ok st) ∧ placed model (plugged model) st.
Proof using Hm Hu Hfit.
  destruct (place_all_placed (E := unit) model Hm Hu) as (st & Hst & Hp).
  { intros dir. pose proof (rf_budget model Hfit dir). unfold MAX_SUBMODULE_BYTES in *. lia. }
  exists st. split; [|done]. intros E.
  destruct (place_all_placed (E := E) model Hm Hu) as (st' & Hst' & _).
  { intros dir. pose proof (rf_budget model Hfit dir). unfold MAX_SUBMODULE_BYTES in *. lia. }
  rewrite Hst'. f_equal. revert Hst Hst'. unfold place_all.
  assert (∀ A S (f : S → A → outcome unit S) (g : S → A → outcome E S) l s a b,
    (∀ s x a b, f s x = Ok a → g s x = Ok b → a = b) →
    ofold f s l = Ok a → ofold g s l = Ok b → a = b) as Hof.
  { intros A S f g l. induction l as [|x l IH]; intros s a b H; cbn [ofold]; [congruence|].
    intros (s1 & H1 & Ha)%obind_Ok (s2 & H2 & Hb)%obind_Ok.
    rewrite (H _ _ _ _ H1 H2) in Ha. by eapply IH. }
  intros H1 H2. symmetry. revert H1 H2. apply Hof. intros s x a b. apply Hof. clear.
  intros s sm a b. unfold place_submodule, place_in, place_out, add16.
  destruct (has_in _ _), (has_out _); cbn [obind]; repeat (case_decide; cbn [obind]); congruence.
Qed.

Context (st : Placement) (Hst : placed model (plugged model) st).

Lemma ctl_off dir : 0 ≤ st_off dir st ≤ MAX_SUBMODULE_BYTES.
Proof using Hst Hfit.
  rewrite (pd_off _ _ _ Hst dir). split; [|apply (rf_budget _ Hfit)].
  destruct (pd_tiles _ _ _ Hst dir) as [H _]. by rewrite (pd_off _ _ _ Hst dir) in H.
Qed.

Lemma ctl_key_u16 dir o : o ∈ st_data dir st → u16 (o_slot o) ∧ u16 (o_subslot o).
Proof using Hst Hm.
  intros Ho. assert (obj_key o ∈ sub_key <$> filter (λ p, carries dir p = true) (plugged model)) as Hk
    by (rewrite <-(pd_data _ _ _ Hst dir); by apply list_elem_of_fmap_2).
  apply list_elem_of_fmap in Hk as ([x sm] & Heq & Hin). injection Heq as -> ->.
  apply list_elem_of_filter in Hin as [_ Hin]. apply plugged_elem in Hin as (s & Hs & Hx & Hsm).
  cbn in *. subst x. destruct Hm as (_ & _ & _ & _ & _ & _ & Hsl).
  rewrite list.Forall_forall in Hsl. destruct (Hsl s Hs) as (? & _ & Hss).
  rewrite list.Forall_forall in Hss. split; [done|]. by destruct (Hss sm Hsm).
Qed.

Lemma ctl_iocs_u16 dir o : o ∈ st_iocs dir st → u16 (o_slot o) ∧ u16 (o_subslot o).
Proof using Hst Hm.
  intros Ho. assert (obj_key o ∈ obj_key <$> st_data (opposite dir) st) as Hk
    by (rewrite <-(pd_iocs _ _ _ Hst dir); by apply list_elem_of_fmap_2).
  apply list_elem_of_fmap in Hk as (o' & Heq & Hin). injection Heq as -> ->. by eapply ctl_key_u16.
Qed.

Lemma ctl_iocr_wf dir ty id :
  u16 ty → u16 id →
  wf_connect_block (BIocr (ctl_iocr ty id (st_off dir st) (st_data dir st) (st_iocs dir st))).
Proof using Hst Hm Hfit.
  intros Hty Hid. pose proof (ctl_off dir) as Hoff. unfold MAX_SUBMODULE_BYTES in Hoff.
  pose proof (pd_tiles _ _ _ Hst dir) as Ht.
  pose proof (tiled_count _ _ _ _ _ Ht) as Hc. split.
  - unfold wf_IocrBlockReq, ctl_iocr. cbn [icr_iocr_type icr_reference icr_lt icr_properties
      icr_data_length icr_frame_id icr_send_clock_factor icr_reduction_ratio icr_phase icr_sequence
      icr_frame_send_offset icr_watchdog_factor icr_data_hold_factor icr_tag_header
      icr_multicast_mac icr_apis length].
    split_and!; try (unfold u16, u32 in *; lia); [unfold wf_mac; by_decide|].
    constructor; [|constructor]. unfold wf_IocrApi. cbn [ia_api ia_io_data ia_iocs].
    rewrite !length_fmap. split_and!; try (unfold u16, u32; lia).
    + apply list.Forall_forall. intros ? (o & -> & Ho)%list_elem_of_fmap.
      destruct (ctl_key_u16 dir o Ho), (tiled_data _ _ _ _ _ Ht o Ho) as (sm & _ & ? & ?).
      split_and!; cbn; try done. unfold u16; lia.
    + apply list.Forall_forall. intros ? (o & -> & Ho)%list_elem_of_fmap.
      destruct (ctl_iocs_u16 dir o Ho), (tiled_iocs _ _ _ _ _ Ht o Ho).
      split_and!; cbn; try done. unfold u16; lia.
  - cbn [connect_block_wire snd]. rewrite length_ctl_iocr. lia.
Qed.

Lemma ctl_expected_wf s : s ∈ dm_slots model → wf_connect_block (BExpected (ctl_expected s)).
Proof using Hm Hfit.
  intros Hs. pose proof (rf_submodules _ Hfit) as Hn. rewrite list.Forall_forall in Hn.
  specialize (Hn s Hs). cbn in Hn. destruct Hm as (_ & _ & _ & _ & _ & _ & Hsl).
  rewrite list.Forall_forall in Hsl. destruct (Hsl s Hs) as (H1 & H2 & H3). split.
  - split; [cbn; unfold u16; lia|]. constructor; [|constructor].
    unfold wf_ExpectedApi. cbn. rewrite length_fmap.
    split_and!; try done; try (unfold u16, u32; lia).
    apply list.Forall_forall. intros ? (sm & -> & Hsm)%list_elem_of_fmap.
    rewrite list.Forall_forall in H3. destruct (H3 sm Hsm) as (? & ? & ? & ?).
    unfold wf_ExpectedSubmodule, ctl_submodule.
    cbn [es_subslot es_submodule_ident es_properties es_input es_output].
    unfold props. repeat case_bool_decide; cbn; split_and!; try done; try (unfold u16; lia);
      first [ apply List.Forall_nil
            | apply List.Forall_cons; [done|apply List.Forall_nil]
            | split; [intros [? Hd]; vm_compute in Hd; done
                     |by eauto || (intros Hd; vm_compute in Hd; by destruct Hd)] ].
  - cbn [connect_block_wire snd]. pose proof (length_ctl_expected s). lia.
Qed.

Lemma ctl_matches s : s ∈ dm_slots model → Forall (api_matches model) (esb_apis (ctl_expected s)).
Proof using Hm Hu.
  intros Hs. apply List.Forall_cons; [|constructor]. split; cbn.
  - intros s' Hf. unfold find_slot in Hf. rewrite (find_NoDup sl_slot _ s) in Hf; [|apply Hu|done].
    congruence.
  - apply list.Forall_forall. intros ? (sm & -> & Hsm)%list_elem_of_fmap. exists sm.
    pose proof (DeviceModel_find_unique _ _ _ Hu Hs Hsm) as Hf.
    destruct (find_wf _ _ _ _ Hm Hf) as (_ & _ & H1 & H2). unfold u16 in *.
    split_and!; [exact Hf|done|..]; cbn; unfold props; repeat case_bool_decide; cbn; dec; cbn; lia.
Qed.

Context (ar : ArBlockReq) (Har : wf_ArBlockReq ar).
Context (Hname : (length (arb_station_name ar) ≤ 240)%nat).

Lemma ctl_ar_wf : wf_connect_block (BAr (ctl_ar ar)).
Proof using Har Hname.
  destruct Har as (H1 & H2 & H3 & H4 & H5 & H6 & H7 & H8 & H9 & H10). split.
  - split_and!; try done; cbn; unfold u16; lia.
  - cbn [connect_block_wire snd]. unfold ArBlockReq_wire. cbn [ctl_ar arb_station_name].
    autorewrite with len. rewrite !length_Uuid_wire by done.
    cbn [ctl_ar arb_initiator_mac]. destruct H4 as [-> _]. cbn. lia.
Qed.

Lemma ctl_blocks_wf : Forall wf_connect_block (ctl_blocks ar model st).
Proof using Har Hname Hm Hfit Hst.
  unfold ctl_blocks. rewrite !Forall_app. split_and!.
  - apply List.Forall_cons; [apply ctl_ar_wf|].
    apply List.Forall_cons; [apply (ctl_iocr_wf DirInput); unfold u16; lia|].
    apply List.Forall_cons; [apply (ctl_iocr_wf DirOutput); unfold u16; lia|constructor].
  - apply list.Forall_forall. intros ? (s & -> & Hs)%list_elem_of_fmap. by apply ctl_expected_wf.
  - constructor; [|constructor]. unfold wf_connect_block, wf_AlarmCrBlockReq. by_decide.
Qed.

Lemma omap_expected {A} (f : connect_block → option A) (g : SlotModel → option A) (l : list SlotModel) :
  (∀ s, f (BExpected (ctl_expected s)) = g s) → omap f (BExpected ∘ ctl_expected <$> l) = omap g l.
Proof using. intros H. induction l as [|s l IH]; cbn; [done|]. rewrite H, IH. done. Qed.

Lemma omap_none {A B} (l : list A) : omap (λ _, None : option B) l = [].
Proof using. by induction l. Qed.

Lemma ctl_parse : ConnectReq_parse (connect_wire (ctl_blocks ar model st)) = Ok (ctl_req ar model st).
Proof using Har Hname Hm Hfit Hst.
  unfold ctl_req. erewrite (connect_wire_parses _ (ctl_ar ar) ctl_alarm ctl_blocks_wf);
    unfold ctl_blocks, ars, alarms, iocrs, expecteds; rewrite !omap_app.
  - rewrite (omap_expected _ (λ _, None)), (omap_expected _ (Some ∘ ctl_expected)) by done.
    rewrite omap_none. cbn. rewrite app_nil_r. do 2 f_equal.
  - rewrite (omap_expected _ (λ _, None)) by done. by rewrite omap_none.
  - rewrite (omap_expected _ (λ _, None)) by done. by rewrite omap_none.
Qed.

Context (Hnil : arb_ar_uuid ar ≠ Uuid_NIL).

Lemma ctl_acceptable : Connect.acceptable model (ctl_req ar model st) (ctl_input st) (ctl_output st).
Proof using Hm Hu Hst Hnil Hname.
  constructor; try done; cbn; try (unfold rt_frame_id; lia); auto.
  - apply list.Forall_forall. intros ? (s & -> & Hs)%list_elem_of_fmap. by apply ctl_matches.
  - apply (tiled_cr_fits model DirInput); [apply (pd_tiles _ _ _ Hst)|done].
  - apply (tiled_cr_fits model DirOutput); [apply (pd_tiles _ _ _ Hst)|done].
Qed.

Definition ctl_cr (dir : Dir) : IocrBlockReq :=
  match dir with DirInput => ctl_input st | DirOutput => ctl_output st end.
Definition params_cr (dir : Dir) (p : ArParams) : IocrParams :=
  match dir with DirInput => ap_input_cr p | DirOutput => ap_output_cr p end.

(** The parameters negotiated are the ones requested. *)
Lemma ctl_validate : ∃ p, validate (ctl_req ar model st) model = Ok p ∧
  ∀ dir, ip_io_data (params_cr dir p) = obj_io <$> st_data dir st ∧
         ip_iocs (params_cr dir p) = obj_io <$> st_iocs dir st ∧
         ip_data_length (params_cr dir p) = Z.max (st_off dir st) 40 ∧
         ip_send_clock_factor (params_cr dir p) * ip_reduction_ratio (params_cr dir p) = 32.
Proof using Hm Hu Hst Hnil Hname.
  pose proof (acceptable_Ok _ _ _ _ ctl_acceptable) as Hok.
  destruct (validate _ _) as [p|e|] eqn:Hv; [|done..]. exists p. split; [done|].
  destruct (validate_Ok _ _ _ Hv) as (i & o & Ha & Hi & Hf & Hl & Hd & Hs & Hc & Hr).
  assert (i = ctl_input st ∧ o = ctl_output st) as [-> ->].
  { pose proof (acc_input _ _ _ _ Ha) as Ti. pose proof (acc_output _ _ _ _ Ha) as To.
    destruct (acc_iocrs _ _ _ _ Ha) as [[= <- <-]|[= <- <-]]; [done|]. cbn in Ti. lia. }
  intros [|]; cbn [params_cr st_data st_iocs st_off].
  - rewrite Hi. done.
  - rewrite Hl, Hd, Hs, Hc, Hr. done.
Qed.
End accepted.

(** ** The device's plan *)

Section plan.
Context (model : DeviceModel).

(** The device's plan of an accepted request covers exactly the submodules
    that carry data. *)
Definition planned_for (la : Layout) : Prop := ∀ dir,
  cl_data_length (layout_cr dir la) = Z.to_nat (Z.max (ctl_budget dir model) 40) ∧
  footprint (cl_objects (layout_cr dir la)) (cl_iocs (layout_cr dir la))
    ≡ₚ seq 0 (Z.to_nat (ctl_budget dir model)) ∧
  ∀ p, p ∈ plugged model →
    (is_Some (find_off (layout_cr dir la) p.1 (sm_subslot p.2)) ↔ carries dir p = true).

Lemma find_off_Some cr slot subslot :
  is_Some (find_off cr slot subslot) ↔
  (slot, subslot) ∈ ((λ o, (ob_slot o, ob_subslot o)) <$> cl_objects cr).
Proof using.
  unfold find_off. rewrite fmap_is_Some. split.
  - intros [o Hf]. apply find_some in Hf as [Hin Hk]. apply bool_decide_eq_true in Hk as [<- <-].
    apply list_elem_of_fmap. exists o. by rewrite list_elem_of_In.
  - intros (o & Hk & Hin)%list_elem_of_fmap. injection Hk as -> ->.
    destruct (List.find _ (cl_objects cr)) as [o'|] eqn:Hf; [by eauto|].
    apply list_elem_of_In in Hin. eapply find_none in Hf; [|done].
    cbn in Hf. apply bool_decide_eq_false in Hf. by destruct Hf.
Qed.

Lemma planned_keys dir data os :
  mapM (planned model dir) (obj_io <$> data) = Some os →
  (λ o, (ob_slot o, ob_subslot o)) <$> os = obj_key <$> data.
Proof using.
  intros Hos%mapM_Some. revert os Hos. induction data as [|o data IH]; intros os Hos.
  - apply list.Forall2_nil_inv_l in Hos as ->. done.
  - rewrite fmap_cons in Hos. apply list.Forall2_cons_inv_l in Hos as (e & os' & He & Hos & ->).
    cbn. f_equal; [|by apply IH]. unfold planned in He.
    apply bind_Some in He as (sm & _ & [= <-]). done.
Qed.

Lemma key_inj p q : p ∈ plugged model → q ∈ plugged model → Forall (found model) (plugged model) →
  sub_key p = sub_key q → p = q.
Proof using.
  intros Hp Hq Hf Hk. rewrite list.Forall_forall in Hf.
  destruct (Hf p Hp) as [_ H1], (Hf q Hq) as [_ H2].
  destruct p as [x sm], q as [y tm]. injection Hk as -> Hk. cbn in *. rewrite Hk in H1. congruence.
Qed.

Lemma ctl_layout st p :
  wf_model model → unique_keys model → placed model (plugged model) st →
  (∀ dir, ip_io_data (params_cr dir p) = obj_io <$> st_data dir st ∧
          ip_iocs (params_cr dir p) = obj_io <$> st_iocs dir st ∧
          ip_data_length (params_cr dir p) = Z.max (st_off dir st) 40 ∧
          ip_send_clock_factor (params_cr dir p) * ip_reduction_ratio (params_cr dir p) = 32) →
  ∃ la, Layout_from_ar p model = Ok la ∧ planned_for la.
Proof using.
  intros Hm Hu Hst Hp.
  assert (∀ dir, ∃ os, mapM (planned model dir) (obj_io <$> st_data dir st) = Some os ∧
            build_cr (params_cr dir p) model dir = Ok (cr_plan (params_cr dir p) os)) as Hb.
  { intros dir. destruct (Hp dir) as (H1 & H2 & H3 & H4).
    apply (tiled_build_cr model dir _ (st_iocs dir st) (st_off dir st)); [|done..|lia|lia].
    apply (pd_tiles _ _ _ Hst). }
  destruct (Hb DirInput) as (oi & Hoi & Bi), (Hb DirOutput) as (oo & Hoo & Bo).
  unfold Layout_from_ar. cbn [params_cr] in *. rewrite Bi, Bo. cbn [obind].
  eexists. split; [done|].
  assert (∀ dir os, mapM (planned model dir) (obj_io <$> st_data dir st) = Some os →
    let cr := cr_plan (params_cr dir p) os in
    cl_data_length cr = Z.to_nat (Z.max (ctl_budget dir model) 40) ∧
    footprint (cl_objects cr) (cl_iocs cr) ≡ₚ seq 0 (Z.to_nat (ctl_budget dir model)) ∧
    ∀ q, q ∈ plugged model →
      (is_Some (find_off cr q.1 (sm_subslot q.2)) ↔ carries dir q = true)) as H.
  { intros dir os Hos cr. destruct (Hp dir) as (_ & H2 & H3 & _).
    pose proof (pd_off _ _ _ Hst dir) as Ho. fold (ctl_budget dir model) in Ho.
    cbn [cr cr_plan cl_data_length cl_objects cl_iocs]. rewrite H2, H3, Ho. split; [done|].
    destruct (pd_tiles _ _ _ Hst dir) as (_ & _ & os' & Hos' & Hpm). rewrite Ho in Hpm.
    assert (os' = os) as -> by congruence. split; [done|].
    intros q Hq. rewrite find_off_Some. change (cl_objects _) with os.
    rewrite (planned_keys _ _ _ Hos), (pd_data _ _ _ Hst dir), list_elem_of_fmap. split.
    - intros (q' & Hk & Hin). apply list_elem_of_filter in Hin as [Hc Hin].
      by rewrite (key_inj q q' Hq Hin (plugged_found _ Hm Hu) Hk).
    - intros Hc. exists q. split; [done|]. by apply list_elem_of_filter. }
  intros [|]; [apply (H DirInput _ Hoi)|apply (H DirOutput _ Hoo)].
Qed.
End plan.

(** ** The datagram *)

Lemma RpcHeader_parse_header buf h :
  Forall u8 buf → RpcHeader_parse buf = Ok h → wf_rpc_header h ∧ unfragmented h.
Proof.
  intros Hb H. unfold RpcHeader_parse in H. ok_inv.
  match goal with H : ¬ (_ ∨ _) |- _ => apply Decidable.not_or in H as [Hn Hf] end.
  split.
  - unfold wf_rpc_header; cbn. split_and!; eauto using uuid_at_wf, drep_u32_at_u32, drep_u16_at_u16.
  - split; cbn; by apply dec_stable.
Qed.

Lemma length_connect_wire bs : Forall wf_connect_block bs →
  Z.of_nat (length (connect_wire bs)) ≤ 65540 * Z.of_nat (length bs).
Proof.
  unfold connect_wire. induction 1 as [|b bs [_ Hb] _ IH]; cbn [fmap list_fmap concat length]; [done|].
  rewrite length_app, length_block_wire. cbn [fmap list_fmap] in IH. lia.
Qed.

Lemma expected_blocks_wire l :
  Forall wf_connect_block (BExpected ∘ ctl_expected <$> l) →
  Forall (λ s, Z.of_nat (length (sl_submodules s)) ≤ 2000) l →
  (λ s, block EXPECTED_SUBMODULE_BLOCK_REQ (expected_body s)) <$> l =
  (λ b, block_wire b.1 b.2) <$> (connect_block_wire <$> (BExpected ∘ ctl_expected <$> l)).
Proof.
  intros Hexp Hn. induction l as [|s l IH]; [done|].
  rewrite fmap_cons in Hexp. apply Forall_cons_1 in Hexp as [[_ Hs] Hexp].
  apply Forall_cons_1 in Hn as [Hn1 Hn]. cbn [compose connect_block_wire snd] in Hs.
  cbn [fmap list_fmap]. f_equal; [|by apply IH]. cbn [compose connect_block_wire fst snd].
  rewrite expected_body_wire by (unfold u16; lia). apply block_wire_eq. unfold u16; lia.
Qed.

Section datagram.
Context (golden : list Z) (hdr : RpcHeader) (ar : ArBlockReq) (model : DeviceModel).
Context (Hg : Forall u8 golden) (Hparts : golden_parts (E := Empty_set) golden = Ok (hdr, ar)).
Context (Hnil : arb_ar_uuid ar ≠ Uuid_NIL) (Hname : (length (arb_station_name ar) ≤ 240)%nat).
Context (Hm : wf_model model) (Hu : unique_keys model) (Hfit : request_fits model).

Lemma golden_parts_wf : wf_rpc_header hdr ∧ unfragmented hdr ∧ wf_ArBlockReq ar.
Proof using Hg Hparts.
  unfold golden_parts, slice_from in Hparts. ok_inv.
  repeat match goal with H : unwrap _ = _ |- _ => apply unwrap_Ok in H end.
  match goal with H : RpcHeader_parse _ = _ |- _ => apply RpcHeader_parse_header in H as [? ?] end;
    [|by apply Forall_drop].
  split_and!; [done..|]. eapply (run_parser_yields _ _ _ _ yields_ArBlockReq); [|done].
  by apply Forall_drop.
Qed.

Lemma synthetic_blocks_wire {E} st : place_all (E := E) model = Ok st →
  placed model (plugged model) st →
  synthetic_blocks (E := E) ar model = Ok (connect_wire (ctl_blocks ar model st)).
Proof using Hg Hparts Hname Hm Hfit.
  intros Hpl Hst. destruct golden_parts_wf as (_ & _ & Har).
  pose proof (ctl_blocks_wf model Hm Hfit st Hst ar Har Hname) as Hwf.
  unfold synthetic_blocks. rewrite ar_body_wire, Hpl by done. cbn [obind]. f_equal.
  unfold ctl_blocks in *. rewrite !Forall_app in Hwf. destruct Hwf as (Hwf & Hexp & _).
  repeat match goal with H : Forall _ (_ :: _) |- _ => apply Forall_cons_1 in H as [[_ ?] ?] end.
  cbn [connect_block_wire snd] in *.
  unfold connect_wire. rewrite !fmap_app, !concat_app. cbn [fmap list_fmap concat connect_block_wire fst snd].
  rewrite !app_nil_r, <-!app_assoc.
  pose proof (tiled_count _ _ _ _ _ (pd_tiles _ _ _ Hst DirInput)) as Ci.
  pose proof (tiled_count _ _ _ _ _ (pd_tiles _ _ _ Hst DirOutput)) as Co.
  pose proof (ctl_off model Hfit st Hst DirInput). pose proof (ctl_off model Hfit st Hst DirOutput).
  unfold MAX_SUBMODULE_BYTES in *. cbn [st_data st_iocs st_off] in *.
  unfold ctl_input, ctl_output in *. rewrite !iocr_wire by (unfold u16; lia).
  rewrite !block_wire_eq by (unfold u16; lia || (vm_compute; split; congruence)).
  by rewrite (expected_blocks_wire (dm_slots model)) by (done || apply (rf_submodules _ Hfit)).
Qed.

Definition ctl_hdr (blocks : list Z) : RpcHeader :=
  with_frag_len hdr (wrap16 (Z.of_nat (NdrRequest_LEN + length blocks))).

Lemma ctl_hdr_wf blocks : wf_rpc_header (ctl_hdr blocks) ∧ unfragmented (ctl_hdr blocks).
Proof using Hg Hparts.
  destruct golden_parts_wf as ((? & ? & ? & ? & ? & ? & ? & ? & ? & ? & ?) & [? ?] & _).
  split; [|done]. unfold wf_rpc_header, ctl_hdr; cbn. by split_and!.
Qed.

(** The request that is sent, and what the device reads from it. *)
Lemma synthetic_pdu {E} st : place_all (E := E) model = Ok st →
  placed model (plugged model) st →
  ∃ pdu n, synthetic_connect_req (E := E) golden model = Ok pdu ∧
    let blocks := connect_wire (ctl_blocks ar model st) in
    RpcHeader_parse pdu = Ok (ctl_hdr blocks) ∧
    NdrRequest_parse (drop RpcHeader_LEN pdu) (rh_drep hdr) = Ok (n, blocks) ∧
    u32 (nq_args_max n) ∧ (RpcHeader_LEN ≤ length pdu)%nat ∧ drop SYNTH_BLOCKS_OFF pdu = blocks.
Proof using Hg Hparts Hname Hm Hfit.
  intros Hpl Hst. destruct golden_parts_wf as (_ & _ & Har).
  pose proof (ctl_blocks_wf model Hm Hfit st Hst ar Har Hname) as Hwf.
  pose proof (length_connect_wire _ Hwf) as Hlen.
  assert (Z.of_nat (length (ctl_blocks ar model st)) ≤ 32772) as Hl.
  { unfold ctl_blocks. rewrite !length_app, length_fmap. pose proof (rf_slots _ Hfit). cbn. lia. }
  unfold synthetic_connect_req.
  assert (golden_parts (E := E) golden = Ok (hdr, ar)) as -> by
    (revert Hparts; clear; unfold golden_parts, slice_from, unwrap; repeat case_decide; cbn [obind];
     repeat (case_match; cbn [obind]); congruence).
  cbn [obind]. rewrite (synthetic_blocks_wire st) by done. cbn [obind].
  set (blocks := connect_wire _) in *.
  rewrite wrap32_id by (unfold u32; lia). rewrite decide_True by lia. cbn [obind].
  fold (ctl_hdr blocks). destruct (ctl_hdr_wf blocks) as [Hw Hf].
  rewrite RpcHeader_write_Ok by done. cbn [obind].
  eexists _, _. split; [done|]. rewrite RpcHeader_parse_wire by done. split; [done|].
  rewrite drop_app_length' by (by rewrite length_RpcHeader_wire). split_and!.
  - pose proof (NdrRequest_parse_write (rh_drep hdr) (Z.of_nat (length blocks) + 16) blocks [])
      as Hn. cbv zeta in Hn. rewrite (app_nil_r blocks) in Hn. apply Hn; unfold u32; lia.
  - unfold u32. cbn [NdrRequest_for_blocks nq_args_max]. lia.
  - rewrite !length_app, length_RpcHeader_wire by done. unfold RpcHeader_LEN. lia.
  - unfold NdrRequest_write. rewrite app_assoc.
    rewrite drop_app_length'; [done|]. rewrite length_app, length_RpcHeader_wire by done. len.
    done.
Qed.
End datagram.

(** ** Connecting *)

(** A Connect request that parses and validates, received while no AR is
    open: it is answered positively and opens the AR with its parameters. *)
Lemma connect_step c buf from now h n blocks req p :
  wf_cm c → Cm_state c = Idle →
  is_pnio_request buf h n blocks → wf_echo h → u32 (nq_args_max n) →
  (RpcHeader_LEN ≤ length buf)%nat → rh_opnum h = 0 →
  cache_lookup (cm_cache c) (rh_activity h, rh_seq_num h) = None →
  ConnectReq_parse blocks = Ok req → wf_ConnectReq req → validate req (cm_model c) = Ok p →
  ∃ c' out reply ctx, handle_datagram c buf from now = Ok (c', out) ∧ wf_cm c' ∧
    Cm_state c' = Connected ∧ co_notify out = [(Connected, None)] ∧
    co_send out = [reply] ∧ og_to reply = from ∧
    answers (reply_ctx h n from) PnioStatus_OK
      (concat ((λ b, block_wire b.1 b.2) <$> connect_res_blocks p (cm_model c))) (og_bytes reply) ∧
    ar_ctx (cm_ar c') = Some ctx ∧ cx_params ctx = p.
Proof.
  intros Hc Hidle (Hh & Hpt & Hif & Hn) (? & ? & ? & ? & ?) Hargs Hlen Hop Hmiss Hp Hreq Hv.
  pose proof Hc as ((Har & Hmod & _) & _). pose proof Har as (Hm & _).
  rewrite Hmod in Hm.
  unfold handle_datagram. rewrite Hh. cbn [obind]. unfold slice_from.
  rewrite decide_True by done. cbn [obind]. rewrite Hpt, Hif.
  rewrite !decide_False by (done || tauto). rewrite Hmiss, Hn. cbn [obind].
  unfold serve_request. rewrite Hop. change (Opnum_from_u16 0) with (Some OpConnect).
  unfold or_respond. rewrite Hp.
  destruct (drive_ok (ev := EvConnectReq req) (now := now) Hc Hreq eq_refl)
    as (a & acts & Hd & Ha & Hf & Hl).
  rewrite Hd. cbn [obind]. unfold drive, Ar_on, handle_connect in Hd. unfold Cm_state in Hidle.
  rewrite Hidle in Hd. unfold handle_connect_idle in Hd. rewrite Hmod, Hv in Hd.
  rewrite build_connect_res_Ok in Hd by (done || by eapply validate_wf). cbn [obind] in Hd.
  injection Hd as Hd Hacts. rewrite <-Hacts in *. cbn [establishes existsb].
  set (x := {| rx_object := rh_object h |}).
  assert (wf_respond_ctx x) as Hx by (subst x; unfold wf_respond_ctx; cbn; by rewrite <-Hif).
  pose proof (connect_ready c req a _ {| sa_ip := sa_ip from; sa_port := PNIO_UDP_PORT |} Hc Ha Hf)
    as Hready. cbn [establishes existsb orb] in Hready.
  destruct (Cm_apply_ok (E := RpcError) _ _ (Some (x, (rh_activity h, rh_seq_num h))) true
    {| co_send := []; co_notify := []; co_persist := [] |} Hready)
    as (c' & out & outs & replies & callouts & Happ & Hwf & Har' & _);
    [by intros ? ? [= <- <-]|].
  cbn [orb]. change (cm_call_seq (with_ar c a)) with (cm_call_seq c). rewrite Happ.
  destruct Hready as (_ & _ & _ & _ & _ & _ & Hok). apply Forall_cons_1 in Hok as [Hok _].
  destruct (build_response_pdu_ok (E := RpcError) x _ _ Hx Hok) as (pdu & Hpdu & Hans).
  cbn [Cm_apply] in Happ. rewrite Hpdu in Happ. cbn [obind] in Happ. injection Happ as <- <-.
  do 4 eexists. split; [done|]. split; [done|]. rewrite <-Hd. cbn.
  split_and!; try done. subst x. unfold reply_ctx. rewrite Hif, Hop. exact Hans.
Qed.

(** ** Claims *)

(** The captured request the controller's values are taken from: a Connect
    request to a device, with a usable AR UUID. *)
Record golden_ok (golden : list Z) (hdr : RpcHeader) (ar : ArBlockReq) : Prop := {
  go_u8 : Forall u8 golden;
  go_parts : golden_parts (E := Empty_set) golden = Ok (hdr, ar);
  go_uuid : arb_ar_uuid ar ≠ Uuid_NIL;
  go_name : (length (arb_station_name ar) ≤ 240)%nat;
  go_request : rh_ptype hdr = PtRequest ∧ rh_interface hdr = PNIO_DEVICE_INTERFACE ∧ rh_opnum hdr = 0
}.

(** The device side of a synthetic request: accepted, laid out, connected. *)
Lemma controller_connects golden hdr ar model c from now :
  golden_ok golden hdr ar → unique_keys model → request_fits model →
  wf_cm c → cm_model c = model → Cm_state c = Idle →
  cache_lookup (cm_cache c) (rh_activity hdr, rh_seq_num hdr) = None →
  ∃ pdu req p la, synthetic_connect_req (E := Empty_set) golden model = Ok pdu ∧
    ConnectReq_parse (drop SYNTH_BLOCKS_OFF pdu) = Ok req ∧ validate req model = Ok p ∧
    Layout_from_ar p model = Ok la ∧ planned_for model la ∧
    ∃ c' out reply ctx, handle_datagram c pdu from now = Ok (c', out) ∧ wf_cm c' ∧
      Cm_state c' = Connected ∧ co_notify out = [(Connected, None)] ∧
      co_send out = [reply] ∧ og_to reply = from ∧
      (∃ n, answers (reply_ctx (ctl_hdr hdr (drop SYNTH_BLOCKS_OFF pdu)) n from) PnioStatus_OK
        (concat ((λ b, block_wire b.1 b.2) <$> connect_res_blocks p model)) (og_bytes reply)) ∧
      ar_ctx (cm_ar c') = Some ctx ∧ cx_params ctx = p.
Proof.
  intros [Hg Hparts Hnil Hname (Hpt & Hif & Hop)] Hu Hfit Hc Hmod Hidle Hmiss.
  assert (wf_model model) as Hm.
  { destruct Hc as (((Hm & _) & Ham & _) & _). by rewrite Ham, Hmod in Hm. }
  destruct (ctl_placed model Hm Hu Hfit) as (st & Hpl & Hst).
  destruct (golden_parts_wf golden hdr ar Hg Hparts) as (Hh & _ & Har).
  destruct (synthetic_pdu golden hdr ar model Hg Hparts Hname Hm Hfit st (Hpl Empty_set) Hst)
    as (pdu & n & Hpdu & Hhp & Hn & Hargs & Hlen & Hblocks).
  destruct (ctl_validate model Hm Hu st Hst ar Hname Hnil) as (p & Hv & Hp).
  destruct (ctl_layout model st p Hm Hu Hst Hp) as (la & Hla & Hpf).
  pose proof (ctl_parse model Hm Hfit st Hst ar Har Hname) as Hparse.
  exists pdu, (ctl_req ar model st), p, la. rewrite Hblocks. split_and!; try done. subst model.
  set (blocks := connect_wire _) in *.
  destruct (ctl_hdr_wf golden hdr ar Hg Hparts blocks) as [(Ho & Hi & Ha & _ & _ & Hs & Hopn & _) _].
  assert (wf_ConnectReq (ctl_req ar (cm_model c) st)) as Hreq.
  { pose proof (ctl_blocks_wf _ Hm Hfit st Hst ar Har Hname) as Hwf.
    unfold ctl_blocks in Hwf. rewrite !Forall_app in Hwf. destruct Hwf as (Hwf & _ & Hal).
    apply Forall_cons_1 in Hwf as [[H1 _] Hwf]. apply Forall_cons_1 in Hwf as [[H2 _] Hwf].
    apply Forall_cons_1 in Hwf as [[H3 _] _]. apply Forall_cons_1 in Hal as [[H4 _] _].
    split; [done|]. split; [|done]. by repeat apply List.Forall_cons. }
  destruct (connect_step c pdu from now (ctl_hdr hdr blocks) n blocks (ctl_req ar (cm_model c) st) p)
    as (c' & out & reply & ctx & H1 & H2 & H3 & H4 & H5 & H6 & H7 & H8 & H9); try done.
  exists c', out, reply, ctx. split_and!; try done. by exists n.
Qed.

Section config.
Context (b : DeviceConfigBuilder) (c : DeviceConfig) (mac : MacAddr).
Context (Hs : Forall sane_submodule (bd_submodules b)) (Hb : build b = Ok c).
Context (Hids : wf_builder_ids c) (Hmac : wf_mac mac).
Let model := cf_model c mac.

Definition plug (sd : SubmoduleSpec * Derived) : Z * SubmoduleModel :=
  (ss_slot sd.1, model_sm 1 0x1 (de_input_len sd.2) (de_output_len sd.2)).

Lemma plugged_cf : plugged model =
  [(0, model_sm 1 0x1 0 0); (0, model_sm 0x8000 0x8000 0 0); (0, model_sm 0x8001 0x8001 0 0)]
  ++ (plug <$> zip (cf_submodules c) (cf_derived c)).
Proof using.
  unfold plugged, model, cf_model. cbn [dm_slots fmap list_fmap concat dap_slot sl_slot sl_submodules app].
  do 3 f_equal. induction (zip (cf_submodules c) (cf_derived c)) as [|sd l IH]; [done|].
  cbn [fmap list_fmap concat slot_model sl_slot sl_submodules app plug] in *. f_equal. exact IH.
Qed.

Definition declares (dir : Dir) (sm : SubmoduleSpec) : bool :=
  negb (is_nil (match dir with DirInput => ss_inputs sm | DirOutput => ss_outputs sm end)).

(** A declared slot carries data where it has fields. *)
Lemma carries_plug dir sm d :
  derived_ok sm d → ss_slot sm ≠ 0 → carries dir (plug (sm, d)) = declares dir sm.
Proof using.
  intros (Hi & Hi0 & _ & Ho & Ho0 & _) Hz. unfold carries, declares, plug, has_in, has_out.
  cbn [fst snd model_sm sm_input_len sm_output_len].
  pose proof (packed_octets_pos (ss_inputs sm) 0 ltac:(lia)) as Pi. rewrite <-Hi in Pi.
  pose proof (packed_octets_pos (ss_outputs sm) 0 ltac:(lia)) as Po. rewrite <-Ho in Po.
  rewrite (bool_decide_eq_false_2 (ss_slot sm = 0)) by done. rewrite orb_false_r.
  destruct dir; [destruct (ss_inputs sm)|destruct (ss_outputs sm)]; cbn [is_nil negb];
    case_bool_decide; try done; exfalso; naive_solver lia.
Qed.

Lemma octets_plug dir sm d :
  derived_ok sm d → ss_slot sm ≠ 0 → ctl_octets dir (plug (sm, d)) = cr_octets dir sm.
Proof using.
  intros Hd Hz. unfold ctl_octets. rewrite !carries_plug by done.
  destruct Hd as (Hi & _ & _ & Ho & _). unfold cr_octets, declares, plug.
  destruct dir; cbn [opposite len_of snd model_sm sm_input_len sm_output_len fst];
    rewrite ?Hi, ?Ho; destruct (is_nil (ss_inputs sm)), (is_nil (ss_outputs sm)); cbn; lia.
Qed.

Lemma cf_facts : cf_ok c ∧ Forall (λ sm, ss_slot sm ≠ 0) (cf_submodules c) ∧
  ∀ dir, cr_budget dir (cf_submodules c) ≤ MAX_SUBMODULE_BYTES.
Proof using Hs Hb Hids.
  destruct (build_cases b Hs) as (_ & [Ha _] & Hbt). specialize (Hbt c Hb).
  rewrite Hb in Ha. destruct (Ha eq_refl). pose proof (built_ok _ _ Hbt) as Hok. split; [done|]. split.
  - eapply Forall_weaken; [by apply cf_slots_pos|]. cbn. lia.
  - intros dir. rewrite (cr_budget_perm _ _ _ (bt_submodules _ _ Hbt)). by destruct dir.
Qed.

(** The controller and the configuration agree on the C-SDU. *)
Lemma ctl_budget_cf dir : ctl_budget dir model = cr_budget dir (cf_submodules c).
Proof using Hs Hb Hids.
  destruct cf_facts as ([_ _ _ Hd] & Hz & _). unfold ctl_budget. rewrite plugged_cf, ctl_sum_app.
  unfold cr_budget. f_equal; [by destruct dir|]. unfold ctl_sum, sum_octets.
  clear - Hd Hz. induction Hd as [|sm d l ds Hd Hds IH]; [done|].
  apply Forall_cons_1 in Hz as [Hz Hzs]. cbn [zip zip_with fmap list_fmap foldr] in *.
  rewrite octets_plug by done. f_equal. by apply IH.
Qed.

Lemma cr_len_cf : cf_input_cr_len c = cr_budget DirInput (cf_submodules c) ∧
                  cf_output_cr_len c = cr_budget DirOutput (cf_submodules c).
Proof using Hs Hb Hids.
  destruct cf_facts as ([_ _ _ Hd] & _ & Hbud). unfold cf_input_cr_len, cf_output_cr_len.
  rewrite cr_lengths_budget by done. cbn [fst snd].
  fold (cr_budget DirInput (cf_submodules c)) (cr_budget DirOutput (cf_submodules c)).
  pose proof (Hbud DirInput). pose proof (Hbud DirOutput). unfold MAX_SUBMODULE_BYTES in *.
  split; apply wrap16_id; unfold u16, cr_budget in *;
    [pose proof (sum_octets_nonneg DirInput (cf_submodules c))
    |pose proof (sum_octets_nonneg DirOutput (cf_submodules c))]; lia.
Qed.

(** Every declared slot takes at least one octet of the Input CR. *)
Lemma slots_bounded dir l : Forall good_submodule l → Z.of_nat (length l) ≤ sum_octets dir l.
Proof using.
  unfold sum_octets. induction 1 as [|sm l (_ & Hne & _) _ IH]; cbn [fmap list_fmap foldr length]; [done|].
  assert (1 ≤ cr_octets dir sm); [|lia]. unfold cr_octets.
  pose proof (packed_octets_nonneg (ss_inputs sm) 0 ltac:(lia)).
  pose proof (packed_octets_nonneg (ss_outputs sm) 0 ltac:(lia)).
  destruct dir, (ss_inputs sm), (ss_outputs sm); cbn [is_nil]; try lia; by destruct Hne.
Qed.

Lemma cf_fits : request_fits model.
Proof using Hs Hb Hids.
  destruct cf_facts as ([_ _ Hg Hd] & _ & Hbud). constructor.
  - intros dir. by rewrite ctl_budget_cf.
  - pose proof (slots_bounded DirInput _ Hg) as Hl. specialize (Hbud DirInput).
    unfold model, cf_model. cbn [dm_slots length]. rewrite length_fmap, length_zip_with.
    unfold cr_budget, MAX_SUBMODULE_BYTES in *. lia.
  - apply List.Forall_cons; [cbn; lia|]. rewrite Forall_fmap. apply list.Forall_forall. intros ? _. cbn. lia.
Qed.
End config.

(** C6: a controller and a device that start from the same declaration
    connect.  For every declaration the builder accepts, the Connect request
    derived from its device model is parsed, validated and laid out by the
    device, and the connection manager answers it positively, keeps its
    parameters and enters Connected; the C-SDU lengths are the ones the
    configuration announces (at least 40), and exactly the declared slots with
    fields in a direction are planned in that direction's CR. *)
Theorem declaration_connects b c mac golden hdr ar from now :
  Forall sane_submodule (bd_submodules b) → build b = Ok c → wf_builder_ids c → wf_mac mac →
  golden_ok golden hdr ar →
  let model := cf_model c mac in
  ∃ pdu req p la, synthetic_connect_req (E := Empty_set) golden model = Ok pdu ∧
    ConnectReq_parse (drop SYNTH_BLOCKS_OFF pdu) = Ok req ∧ validate req model = Ok p ∧
    Layout_from_ar p model = Ok la ∧
    cl_data_length (la_input_cr la) = Z.to_nat (Z.max (cf_input_cr_len c) 40) ∧
    cl_data_length (la_output_cr la) = Z.to_nat (Z.max (cf_output_cr_len c) 40) ∧
    (∀ dir sm, sm ∈ cf_submodules c →
       is_Some (find_off (layout_cr dir la) (ss_slot sm) 1) ↔ declares dir sm = true) ∧
    ∃ c' out reply ctx n,
      handle_datagram (Cm_new model (activity_seed mac)) pdu from now = Ok (c', out) ∧
      Cm_state c' = Connected ∧ co_notify out = [(Connected, None)] ∧
      co_send out = [reply] ∧ og_to reply = from ∧
      answers (reply_ctx (ctl_hdr hdr (drop SYNTH_BLOCKS_OFF pdu)) n from) PnioStatus_OK
        (concat ((λ x, block_wire x.1 x.2) <$> connect_res_blocks p model)) (og_bytes reply) ∧
      ar_ctx (cm_ar c') = Some ctx ∧ cx_params ctx = p.
Proof.
  intros Hs Hb Hids Hmac Hgo model.
  destruct (cf_facts b c Hs Hb Hids) as (Hok & Hz & _).
  destruct (cf_model_wf c mac Hok Hids Hmac) as [Hm Hu].
  destruct (cr_len_cf b c Hs Hb Hids) as [Hil Hol].
  destruct (controller_connects golden hdr ar model (Cm_new model (activity_seed mac)) from now)
    as (pdu & req & p & la & H1 & H2 & H3 & H4 & H5 & c' & out & reply & ctx & G1 & _ & G2 & G3 & G4 & G5 & (n & G6) & G7 & G8);
    try done.
  { by apply (cf_fits b). }
  { apply wf_Cm_new; [done|]. destruct Hmac as [Hl H8]. split; cbn; [by rewrite Hl|].
    repeat (apply List.Forall_cons; [by_decide|]). done. }
  exists pdu, req, p, la. split_and!; try done.
  - destruct (H5 DirInput) as [Hl _]. cbn [layout_cr] in Hl. by rewrite Hl, (ctl_budget_cf b c mac), Hil.
  - destruct (H5 DirOutput) as [Hl _]. cbn [layout_cr] in Hl. by rewrite Hl, (ctl_budget_cf b c mac), Hol.
  - intros dir sm Hsm. apply list_elem_of_lookup in Hsm as [i Hi].
    destruct (Forall2_lookup_l _ _ _ _ _ (ck_derived _ Hok) Hi) as (d & Hd & Hdo).
    assert (plug (sm, d) ∈ plugged model) as Hin.
    { unfold model. rewrite plugged_cf. apply elem_of_app. right. apply list_elem_of_fmap_2.
      apply list_elem_of_lookup. exists i. apply lookup_zip_with_Some. by exists sm, d. }
    destruct (H5 dir) as (_ & _ & Hc). rewrite <-(carries_plug dir sm d Hdo).
    + by apply (Hc (plug (sm, d))).
    + by eapply Forall_lookup_1 in Hz.
  - by exists c', out, reply, ctx, n.
Qed.

(** ** Witnesses *)

(** The captured request itself, [testdata/cm/connect_req.hex]. *)
Definition connect_req_hex : string :=
"# frame 50: CPU Connect request, DREP LE, 699 bytes (RPC PDU at offset 42)
8c f3 19 cd 19 f8 ec 1c 5d 61 e7 3f 08 00 45 00
02 ad ea 68 00 00 40 11 31 49 ac 10 02 64 ac 10
02 0a d5 ee 88 94 02 99 3a a4 04 00 20 00 10 00
00 00 00 00 a0 de 97 6c d1 11 82 71 00 01 00 02
04 93 01 00 a0 de 97 6c d1 11 82 71 00 a0 24 42
df 7d ae a1 ac d2 32 00 10 10 b0 58 ec 1c 5d 61
e7 3f 00 00 00 00 01 00 00 00 00 00 00 00 00 00
ff ff ff ff 41 02 00 00 00 00 2d 02 00 00 2d 02
00 00 2d 02 00 00 00 00 00 00 2d 02 00 00 01 01
00 5b 01 00 00 01 e5 e1 ae cc b1 33 4b 4d b1 87
cc 68 b0 21 1e d2 00 02 ec 1c 5d 61 e7 3f de a0
00 00 6c 97 11 d1 82 71 10 64 01 0e 00 2a 40 00
00 11 00 c8 88 92 00 25 70 6c 63 78 62 62 65 6e
63 68 2e 70 72 6f 66 69 6e 65 74 78 61 69 6e 74
65 72 66 61 63 65 78 62 32 35 66 62 64 01 02 00
68 01 00 00 01 00 01 88 92 00 00 00 02 00 28 80
00 00 20 00 20 00 01 00 00 ff ff ff ff 00 03 00
03 c0 00 00 00 00 00 00 00 00 01 00 00 00 00 00
06 00 00 00 01 00 00 00 00 80 00 00 01 00 00 80
01 00 02 00 01 00 01 00 03 00 03 00 01 00 06 00
04 00 01 00 09 00 03 00 02 00 01 00 05 00 03 00
01 00 08 00 04 00 01 00 12 01 02 00 68 01 00 00
02 00 02 88 92 00 00 00 02 00 28 80 01 00 20 00
20 00 01 00 00 ff ff ff ff 00 03 00 03 c0 00 00
00 00 00 00 00 00 01 00 00 00 00 00 03 00 02 00
01 00 04 00 03 00 01 00 07 00 04 00 01 00 0a 00
06 00 00 00 01 00 00 00 00 80 00 00 01 00 00 80
01 00 02 00 01 00 01 00 03 00 03 00 01 00 06 00
04 00 01 00 09 01 04 00 3c 01 00 00 01 00 00 00
00 00 00 00 00 00 01 00 00 00 03 00 01 00 00 00
01 00 00 00 01 00 00 01 01 80 00 00 00 80 00 00
00 00 01 00 00 01 01 80 01 00 00 80 01 00 00 00
01 00 00 01 01 01 04 00 20 01 00 00 01 00 00 00
00 00 01 00 00 00 30 00 00 00 01 00 01 00 00 01
30 00 01 00 01 00 01 01 01 01 04 00 20 01 00 00
01 00 00 00 00 00 02 00 00 00 31 00 00 00 01 00
01 00 00 01 31 00 02 00 02 00 01 01 01 01 04 00
26 01 00 00 01 00 00 00 00 00 03 00 00 00 32 00
00 00 01 00 01 00 00 01 32 00 03 00 01 00 01 01
01 00 02 00 01 01 01 01 04 00 26 01 00 00 01 00
00 00 00 00 04 00 00 00 40 00 00 00 01 00 01 00
00 01 40 00 03 00 01 00 08 01 01 00 02 00 08 01
01 01 03 00 16 01 00 00 01 88 92 00 00 00 00 00
01 00 03 00 00 01 00 c0 00 a0 00
".

Definition golden_connect_req : list Z :=
  Eval vm_compute in match parse_hex (E := unit) (ascii_bytes connect_req_hex) with Ok l => l | _ => [] end.
Definition golden_hdr_ar : RpcHeader * ArBlockReq :=
  Eval vm_compute in
    match golden_parts (E := unit) golden_connect_req with
    | Ok x => x
    | _ => ({| rh_ptype := PtRequest; rh_flags1 := 0; rh_flags2 := 0; rh_drep := Drep_BIG;
               rh_serial_hi := 0; rh_object := Uuid_NIL; rh_interface := Uuid_NIL;
               rh_activity := Uuid_NIL; rh_server_boot := 0; rh_if_version := 0; rh_seq_num := 0;
               rh_opnum := 0; rh_ihint := 0; rh_ahint := 0; rh_frag_len := 0; rh_frag_num := 0;
               rh_auth_proto := 0; rh_serial_lo := 0 |}, sample_ar)
    end.

Lemma golden_connect_req_ok :
  parse_hex (E := Empty_set) (ascii_bytes connect_req_hex) = Ok golden_connect_req ∧
  golden_ok golden_connect_req golden_hdr_ar.1 golden_hdr_ar.2.
Proof.
  split; [vm_compute; reflexivity|].
  constructor; [by_decide|vm_compute; reflexivity|by_decide|by_decide|by_decide].
Qed.

Lemma declaration_connects_witness :
  build sample_builder = Ok sample_config ∧
  ∃ pdu, synthetic_connect_req (E := Empty_set) golden_connect_req
           (cf_model sample_config sample_mac) = Ok pdu ∧
    is_Ok (ConnectReq_parse (drop SYNTH_BLOCKS_OFF pdu)) = true.
Proof.
  split; [reflexivity|].
  destruct (declaration_connects sample_builder sample_config sample_mac golden_connect_req
    golden_hdr_ar.1 golden_hdr_ar.2 sample_from 0) as (pdu & req & p & la & Hpdu & Hreq & _).
  - exact sample_builder_sane.
  - reflexivity.
  - by_decide.
  - unfold wf_mac. by_decide.
  - exact (proj2 golden_connect_req_ok).
  - exists pdu. split; [exact Hpdu|]. rewrite Hreq. reflexivity.
Defined.
