(* ===== verification/Capture.v ===== *)
(** * Capture: frames from a capture file

    Models [crates/pnio/src/capture.rs]: the format is told from the first
    four octets, which are put back in front of the rest, and the iterator
    delivers the packets of the capture, skipping the other blocks of a
    pcapng file.

    The two container readers come from a library; they are an interface here
    ([CaptureReaders]), and what is relied on is that a reader delivers a
    sequence of results one by one ([CaptureLaws]). *)

From S2P Require Import Prelude.
Local Open Scope Z_scope.

(** A block of a pcapng file: the three kinds that carry a packet, or another. *)
Inductive NgBlock :=
| EnhancedPacket (data : list Z)
| SimplePacket (data : list Z)
| Packet (data : list Z)
| OtherBlock.

(** [new] of each reader over the whole source, and its [next]. *)
Class CaptureReaders (PcapError PcapReader NgReader : Type) := {
  pcap_new : list Z → outcome PcapError PcapReader;
  pcap_next : PcapReader → option (outcome PcapError (list Z)) * PcapReader;
  ng_new : list Z → outcome PcapError NgReader;
  ng_next : NgReader → option (outcome PcapError NgBlock) * NgReader;
  ng_left : NgReader → nat
}.

(** A reader is a sequence still to come; [ng_left] is its length. *)
Class CaptureLaws `(CaptureReaders PcapError PcapReader NgReader) := {
  pcap_stream : PcapReader → list (outcome PcapError (list Z));
  pcap_next_law r : let '(x, r') := pcap_next r in
    x = head (pcap_stream r) ∧ pcap_stream r' = tail (pcap_stream r);
  ng_stream : NgReader → list (outcome PcapError NgBlock);
  ng_next_law r : let '(x, r') := ng_next r in
    x = head (ng_stream r) ∧ ng_stream r' = tail (ng_stream r);
  ng_left_law r : ng_left r = length (ng_stream r);
  ng_total_law r : Forall (λ x, x ≠ Panic) (ng_stream r)
}.

Section capture.
Context `{CaptureReaders PcapError PcapReader NgReader}.

(** capture.rs:13-25 CaptureError *)
Inductive CaptureError :=
| CeIo
| CePcap (e : PcapError)
| CeUnknownFormat (magic : list Z).

(** capture.rs:29-32 Inner *)
Inductive Inner := InPcap (rd : PcapReader) | InPcapNg (rd : NgReader).

(** capture.rs:34-37 PcapFrames *)
Record PcapFrames := { pf_inner : Inner }.

(** capture.rs:46-65 PcapFrames::from_reader *)
Definition from_reader (r : list Z) : outcome CaptureError PcapFrames :=
  if decide (length r < 4)%nat then Err CeIo else
  let magic := take 4 r in
  let chained := magic ++ drop 4 r in
  let! inner :=
    if decide (magic = [0x0a; 0x0d; 0x0d; 0x0a]) then
      let! rd := map_err CePcap (ng_new chained) in Ok (InPcapNg rd)
    else if decide (magic = [0xd4; 0xc3; 0xb2; 0xa1] ∨ magic = [0xa1; 0xb2; 0xc3; 0xd4] ∨
                    magic = [0x4d; 0x3c; 0xb2; 0xa1] ∨ magic = [0xa1; 0xb2; 0x3c; 0x4d]) then
      let! rd := map_err CePcap (pcap_new chained) in Ok (InPcap rd)
    else Err (CeUnknownFormat magic) in
  Ok {| pf_inner := inner |}.

(** [None] when the file cannot be opened. *)
(** capture.rs:39-44 PcapFrames::open *)
Definition open (file : option (list Z)) : outcome CaptureError PcapFrames :=
  let! r := ok_or file CeIo in from_reader r.

(** The data of a block that carries a packet. *)
(** capture.rs:81-86 PcapFrames::next *)
Definition block_data (b : NgBlock) : option (list Z) :=
  match b with
  | EnhancedPacket d | SimplePacket d | Packet d => Some d
  | OtherBlock => None
  end.

(** The loop over the blocks: each turn takes one, so one more turn than there
    are blocks is enough. *)
(** capture.rs:77-94 PcapFrames::next *)
Fixpoint next_block (fuel : nat) (rd : NgReader) :
    option (outcome CaptureError (list Z)) * NgReader :=
  match fuel with
  | O => (Some Panic, rd)
  | S fuel =>
    match ng_next rd with
    | (Some (Ok block), rd) =>
      match block_data block with
      | Some d => (Some (Ok d), rd)
      | None => next_block fuel rd
      end
    | (Some (Err e), rd) => (Some (Err (CePcap e)), rd)
    | (Some Panic, rd) => (Some Panic, rd)
    | (None, rd) => (None, rd)
    end
  end.

(** capture.rs:67-97 PcapFrames::next *)
Definition next (f : PcapFrames) : option (outcome CaptureError (list Z)) * PcapFrames :=
  match pf_inner f with
  | InPcap rd =>
    let '(x, rd) := pcap_next rd in
    (match x with
     | Some (Ok d) => Some (Ok d)
     | Some (Err e) => Some (Err (CePcap e))
     | Some Panic => Some Panic
     | None => None
     end, {| pf_inner := InPcap rd |})
  | InPcapNg rd =>
    let '(x, rd) := next_block (S (ng_left rd)) rd in (x, {| pf_inner := InPcapNg rd |})
  end.

(** The frame_items of the iterator, at most [n]. *)
Fixpoint frame_items (n : nat) (f : PcapFrames) : list (outcome CaptureError (list Z)) :=
  match n with
  | O => []
  | S n => match next f with (Some x, f) => x :: frame_items n f | (None, _) => [] end
  end.

Context `{!CaptureLaws _}.

(** What a block contributes. *)
Definition ng_item (x : outcome PcapError NgBlock) : option (outcome CaptureError (list Z)) :=
  match x with
  | Ok b => Ok <$> block_data b
  | Err e => Some (Err (CePcap e))
  | Panic => Some Panic
  end.

(** What the capture holds: every packet and every error, in file order. *)
Definition contents (f : PcapFrames) : list (outcome CaptureError (list Z)) :=
  match pf_inner f with
  | InPcap rd => map_err CePcap <$> pcap_stream rd
  | InPcapNg rd =>
    omap ng_item (ng_stream rd)
  end.

Lemma next_block_spec fuel : ∀ rd, (length (ng_stream rd) < fuel)%nat →
  let '(x, rd') := next_block fuel rd in
  x = head (omap ng_item (ng_stream rd)) ∧
  omap ng_item (ng_stream rd') = tail (omap ng_item (ng_stream rd)).
Proof.
  induction fuel as [|fuel IH]; intros rd Hf; [lia|]. cbn [next_block].
  pose proof (ng_next_law rd) as Hn. pose proof (ng_total_law rd) as Hp.
  destruct (ng_next rd) as [x rd1]. destruct Hn as [-> Hs].
  destruct (ng_stream rd) as [|y ys] eqn:E; cbn [head tail] in *; [by rewrite Hs|].
  apply Forall_cons_1 in Hp as [Hp _]. destruct y as [b|e|]; [| |done].
  - destruct (block_data b) as [d|] eqn:Hb; cbn [omap list_omap ng_item]; rewrite Hb; cbn.
    + by rewrite Hs.
    + specialize (IH rd1). rewrite Hs in IH. apply IH. cbn in Hf. lia.
  - cbn. by rewrite Hs.
Qed.

Lemma next_spec f : let '(x, f') := next f in
  x = head (contents f) ∧ contents f' = tail (contents f).
Proof.
  unfold next, contents. destruct f as [[rd|rd]]; cbn [pf_inner].
  - pose proof (pcap_next_law rd) as Hn. destruct (pcap_next rd) as [x rd']. destruct Hn as [-> Hs].
    cbn. rewrite Hs. by destruct (pcap_stream rd) as [|[] ?].
  - pose proof (next_block_spec (S (ng_left rd)) rd) as Hn. rewrite ng_left_law in *.
    specialize (Hn ltac:(lia)). by destruct (next_block _ rd).
Qed.

(** The iterator delivers what the capture holds.  For a pcap file every
    packet and for a pcapng file the data of every packet block, with every
    reader error in its place, in file order and nothing else; other blocks
    are skipped, each call returns, and the iterator ends exactly when the
    file does. *)
Theorem frames_in_order f n :
  frame_items n f = take n (contents f).
Proof.
  revert f. induction n as [|n IH]; intros f; [done|]. cbn [frame_items].
  pose proof (next_spec f) as Hn. destruct (next f) as [x f']. destruct Hn as [-> Ht].
  destruct (contents f) as [|y ys] eqn:E; [done|]. cbn in *. by rewrite IH, Ht.
Qed.

(** Which source is given to which reader, and when none is. *)
Lemma from_reader_format r :
  match from_reader r with
  | Ok {| pf_inner := InPcapNg rd |} => take 4 r = [0x0a; 0x0d; 0x0d; 0x0a] ∧ ng_new r = Ok rd
  | Ok {| pf_inner := InPcap rd |} => pcap_new r = Ok rd
  | Err CeIo => (length r < 4)%nat
  | Err (CeUnknownFormat m) => m = take 4 r ∧ length m = 4%nat
  | _ => True
  end.
Proof.
  unfold from_reader. case_decide; [done|]. rewrite take_drop.
  case_decide; [destruct (ng_new r); cbn; by auto|].
  case_decide; [destruct (pcap_new r); cbn; by auto|]. cbn. split; [done|].
  rewrite length_take. lia.
Qed.
End capture.

(** ** Witness *)

(** Readers that hold their results: an error is [None]. *)
Definition result {A} (x : option A) : outcome unit A := match x with Some a => Ok a | None => Err tt end.
#[local] Instance list_readers :
  CaptureReaders unit (list (option (list Z))) (list (option NgBlock)) := {|
  pcap_new _ := Err tt;
  pcap_next l := (result <$> head l, tail l);
  ng_new _ := Ok [Some OtherBlock; Some (EnhancedPacket [0xaa; 0xbb]); None; Some OtherBlock;
                  Some (SimplePacket [0xcc])];
  ng_next l := (result <$> head l, tail l);
  ng_left := length |}.

#[local] Instance list_laws : CaptureLaws list_readers.
Proof.
  refine {| pcap_stream (l : list (option (list Z))) := result <$> l;
            ng_stream (l : list (option NgBlock)) := result <$> l |}.
  - intros [|x l]; done.
  - intros [|x l]; done.
  - intros l. by rewrite length_fmap.
  - intros l. apply Forall_fmap, list.Forall_forall. intros [x|] _; done.
Defined.

Lemma frames_in_order_witness :
  ∃ f, from_reader [0x0a; 0x0d; 0x0d; 0x0a; 0] = Ok f ∧
    frame_items 5 f = [Ok [0xaa; 0xbb]; Err (CePcap tt); Ok [0xcc]].
Proof.
  eexists. split; [reflexivity|]. rewrite frames_in_order. reflexivity.
Defined.
