(* ===== verification/Device.v ===== *)
(** * Device: the acyclic loop

    Models [crates/pnio/src/device/mod.rs]: the loop that owns both sockets,
    drives the connection manager with what they deliver, and starts and stops
    the alarm channel and the cyclic thread with the AR.  The transports are
    any [EthTransport] and [RpcTransport]; the cyclic thread is seen through
    its handle ([RtShared], Runner.v) and the shared image.

    An operation that fails returns the error together with the device as the
    failure left it.  [dispatch], [apply_alarm_actions] and
    [abort_with_err_rta_in] call each other; [dispatch] takes the depth of the
    recursion as fuel, and [DISPATCH_DEPTH] is proved enough.  The loops that
    drain a socket take its backlog as fuel. *)

From stdpp Require Import gmap.
From S2P Require Import Prelude Eth Rpc Block Connect Records Ar Cm Rta AlarmChannel Diag Dcp.
From S2P Require Import Layout Config Hist Engine Image Transport Runner.
Local Open Scope Z_scope.

(** ** Data *)

(** device/mod.rs:72-87 DiagCommand *)
Inductive DiagCommand :=
| DcRaise (d : Diagnosis)
| DcClear (slot channel : Z) (error : ChannelError).

(** device/mod.rs:89-123 DiagShared *)
Record DiagShared := {
  dh_queue : list DiagCommand;
  dh_active : list Diagnosis;
  dh_stats : AlarmStats;  (** [sent] to [rx_err_rta], the mirrored counters *)
  dh_rx_no_channel : Z
}.
Definition DiagShared_default : DiagShared :=
  {| dh_queue := []; dh_active := []; dh_stats := AlarmStats_default; dh_rx_no_channel := 0 |}.

(** device/mod.rs:125-146 err_rta_code2 *)
Definition err_rta_code2 (reason : AbortReason) : option Z :=
  match reason with
  | ControllerErrRta _ => None
  | RtWatchdog => Some RTA_ABORT_DHT_WDT_EXPIRED
  | AlarmSendFailed => Some RTA_ABORT_ALARM_SEND_FAILED
  | RtSocket | Shutdown | ControllerRelease | ControllerReconnect | AppReadyFailed
  | AppReadyRejected _ | ActivityTimeout | External _ => Some RTA_ABORT_AR_REMOVED
  end.

(** device/mod.rs:148-151 ALARM_POLL_INTERVAL *)
Definition ALARM_POLL_INTERVAL : Z := 20000000.
(** device/mod.rs:153-154 RTA_TIMEOUT_UNIT *)
Definition RTA_TIMEOUT_UNIT : Z := 100000000.

(** device/mod.rs:156-166 StepReport *)
Record StepReport := { sr_eth_frames : Z; sr_rpc_datagrams : Z; sr_sent : Z }.
Definition StepReport_default : StepReport :=
  {| sr_eth_frames := 0; sr_rpc_datagrams := 0; sr_sent := 0 |}.
Definition count_eth (r : StepReport) : StepReport :=
  {| sr_eth_frames := sr_eth_frames r + 1; sr_rpc_datagrams := sr_rpc_datagrams r;
     sr_sent := sr_sent r |}.
Definition count_rpc (r : StepReport) : StepReport :=
  {| sr_eth_frames := sr_eth_frames r; sr_rpc_datagrams := sr_rpc_datagrams r + 1;
     sr_sent := sr_sent r |}.
Definition count_sent (r : StepReport) : StepReport :=
  {| sr_eth_frames := sr_eth_frames r; sr_rpc_datagrams := sr_rpc_datagrams r;
     sr_sent := sr_sent r + 1 |}.

(** device/mod.rs:168-178 DeviceError *)
Inductive DeviceError := DeEth (e : TransportError) | DeRpc (e : RpcError).

(** The callback is the list of its calls, if one is registered; the spawned
    thread is its handle. *)
(** device/mod.rs:180-228 Device *)
Record Device (E R : Type) := {
  dv_setup : DeviceSetup;
  dv_eth : E;
  dv_rpc : R;
  dv_cm : Cm;
  dv_on_state_change : option (list (ArState * option AbortReason));
  dv_image : IoImage;
  dv_stats : RtStats;
  dv_problem : bool;
  dv_diag : DiagStore;
  dv_shared : DiagShared;
  dv_alarm : option AlarmChannel;
  dv_next_alarm_id : Z;
  dv_alarm_epoch : Z;
  dv_runner : option RtShared;
  dv_runner_factory : RtConfig → option RtShared
}.
Arguments dv_setup {E R}. Arguments dv_eth {E R}. Arguments dv_rpc {E R}. Arguments dv_cm {E R}.
Arguments dv_on_state_change {E R}. Arguments dv_image {E R}. Arguments dv_stats {E R}.
Arguments dv_problem {E R}. Arguments dv_diag {E R}. Arguments dv_shared {E R}.
Arguments dv_alarm {E R}. Arguments dv_next_alarm_id {E R}. Arguments dv_alarm_epoch {E R}.
Arguments dv_runner {E R}. Arguments dv_runner_factory {E R}.

Section setters.
Context {E R : Type}.
Implicit Types d : Device E R.

(** Field assignments, by the groups the code changes together. *)
Definition with_eth d (e : E) : Device E R :=
  {| dv_setup := dv_setup d; dv_eth := e; dv_rpc := dv_rpc d; dv_cm := dv_cm d;
     dv_on_state_change := dv_on_state_change d; dv_image := dv_image d; dv_stats := dv_stats d;
     dv_problem := dv_problem d; dv_diag := dv_diag d; dv_shared := dv_shared d;
     dv_alarm := dv_alarm d; dv_next_alarm_id := dv_next_alarm_id d;
     dv_alarm_epoch := dv_alarm_epoch d; dv_runner := dv_runner d;
     dv_runner_factory := dv_runner_factory d |}.
Definition with_rpc d (r : R) : Device E R :=
  {| dv_setup := dv_setup d; dv_eth := dv_eth d; dv_rpc := r; dv_cm := dv_cm d;
     dv_on_state_change := dv_on_state_change d; dv_image := dv_image d; dv_stats := dv_stats d;
     dv_problem := dv_problem d; dv_diag := dv_diag d; dv_shared := dv_shared d;
     dv_alarm := dv_alarm d; dv_next_alarm_id := dv_next_alarm_id d;
     dv_alarm_epoch := dv_alarm_epoch d; dv_runner := dv_runner d;
     dv_runner_factory := dv_runner_factory d |}.
Definition with_cm d (c : Cm) : Device E R :=
  {| dv_setup := dv_setup d; dv_eth := dv_eth d; dv_rpc := dv_rpc d; dv_cm := c;
     dv_on_state_change := dv_on_state_change d; dv_image := dv_image d; dv_stats := dv_stats d;
     dv_problem := dv_problem d; dv_diag := dv_diag d; dv_shared := dv_shared d;
     dv_alarm := dv_alarm d; dv_next_alarm_id := dv_next_alarm_id d;
     dv_alarm_epoch := dv_alarm_epoch d; dv_runner := dv_runner d;
     dv_runner_factory := dv_runner_factory d |}.
Definition with_calls d (l : option (list (ArState * option AbortReason))) : Device E R :=
  {| dv_setup := dv_setup d; dv_eth := dv_eth d; dv_rpc := dv_rpc d; dv_cm := dv_cm d;
     dv_on_state_change := l; dv_image := dv_image d; dv_stats := dv_stats d;
     dv_problem := dv_problem d; dv_diag := dv_diag d; dv_shared := dv_shared d;
     dv_alarm := dv_alarm d; dv_next_alarm_id := dv_next_alarm_id d;
     dv_alarm_epoch := dv_alarm_epoch d; dv_runner := dv_runner d;
     dv_runner_factory := dv_runner_factory d |}.
Definition with_diag d (st : DiagStore) (sh : DiagShared) (problem : bool) : Device E R :=
  {| dv_setup := dv_setup d; dv_eth := dv_eth d; dv_rpc := dv_rpc d; dv_cm := dv_cm d;
     dv_on_state_change := dv_on_state_change d; dv_image := dv_image d; dv_stats := dv_stats d;
     dv_problem := problem; dv_diag := st; dv_shared := sh;
     dv_alarm := dv_alarm d; dv_next_alarm_id := dv_next_alarm_id d;
     dv_alarm_epoch := dv_alarm_epoch d; dv_runner := dv_runner d;
     dv_runner_factory := dv_runner_factory d |}.
Definition with_alarm d (ch : option AlarmChannel) (id epoch : Z) : Device E R :=
  {| dv_setup := dv_setup d; dv_eth := dv_eth d; dv_rpc := dv_rpc d; dv_cm := dv_cm d;
     dv_on_state_change := dv_on_state_change d; dv_image := dv_image d; dv_stats := dv_stats d;
     dv_problem := dv_problem d; dv_diag := dv_diag d; dv_shared := dv_shared d;
     dv_alarm := ch; dv_next_alarm_id := id; dv_alarm_epoch := epoch; dv_runner := dv_runner d;
     dv_runner_factory := dv_runner_factory d |}.
Definition with_runner d (img : IoImage) (h : option RtShared) : Device E R :=
  {| dv_setup := dv_setup d; dv_eth := dv_eth d; dv_rpc := dv_rpc d; dv_cm := dv_cm d;
     dv_on_state_change := dv_on_state_change d; dv_image := img; dv_stats := dv_stats d;
     dv_problem := dv_problem d; dv_diag := dv_diag d; dv_shared := dv_shared d;
     dv_alarm := dv_alarm d; dv_next_alarm_id := dv_next_alarm_id d;
     dv_alarm_epoch := dv_alarm_epoch d; dv_runner := h;
     dv_runner_factory := dv_runner_factory d |}.
Definition set_shared d (sh : DiagShared) : Device E R := with_diag d (dv_diag d) sh (dv_problem d).
Definition set_channel d (ch : option AlarmChannel) : Device E R :=
  with_alarm d ch (dv_next_alarm_id d) (dv_alarm_epoch d).
End setters.

(** ** Operations *)

Section device.
Context `{EthTransport E} `{RpcTransport R}.
Implicit Types d : Device E R.

(** Results of the fallible operations. *)
Notation result A := (outcome (DeviceError * Device E R) A).

(** [read] is what reading the I&M file gave. *)
(** device/mod.rs:231-257 Device::new *)
Definition Device_new (setup : DeviceSetup) (eth : E) (rpc : R) (read : option (list Z))
    (factory : RtConfig → option RtShared) : Device E R :=
  let cm := Cm_new (su_model setup) (su_activity_seed setup) in
  {| dv_setup := setup; dv_eth := eth; dv_rpc := rpc;
     dv_cm := set_im cm (su_im0 setup) (ImStore_load (su_im_store setup) read);
     dv_on_state_change := None; dv_image := IoImage_empty; dv_stats := RtStats_default;
     dv_problem := false; dv_diag := DiagStore_from_model (su_model setup);
     dv_shared := DiagShared_default; dv_alarm := None; dv_next_alarm_id := 0;
     dv_alarm_epoch := 0; dv_runner := None; dv_runner_factory := factory |}.

(** device/mod.rs:259-262 Device::state *)
Definition dv_state d : ArState := Cm_state (dv_cm d).

(** device/mod.rs:300-306 Device::alarm_in_flight *)
Definition alarm_in_flight d : bool :=
  match dv_alarm d with
  | Some ch => bool_decide (is_Some (in_flight ch))
  | None => false
  end.

(** device/mod.rs:308-323 Device::poll_interval *)
Definition poll_interval d (default : Z) : Z :=
  let queued := negb (is_nil (dh_queue (dv_shared d))) in
  if alarm_in_flight d || queued then Z.min ALARM_POLL_INTERVAL default else default.

(** device/mod.rs:325-328 Device::ar_params *)
Definition ar_params d : option ArParams := cx_params <$> ar_ctx (cm_ar (dv_cm d)).

(** device/mod.rs:330-337 Device::on_state_change *)
Definition on_state_change d : Device E R := with_calls d (Some []).

Definition dv_send d (frame : list Z) : result (Device E R) :=
  match eth_send (dv_eth d) frame with
  | Ok e => Ok (with_eth d e)
  | Err (x, e) => Err (DeEth x, with_eth d e)
  | Panic => Panic
  end.

(** device/mod.rs:533-543 Device::publish_diag_state *)
Definition publish_diag_state d : Device E R :=
  let sh := dv_shared d in
  with_diag d (dv_diag d)
    {| dh_queue := dh_queue sh; dh_active := ds_active_list (dv_diag d);
       dh_stats := dh_stats sh; dh_rx_no_channel := dh_rx_no_channel sh |}
    (problem_indicator (dv_diag d)).

(** device/mod.rs:545-560 Device::publish_alarm_stats *)
Definition publish_alarm_stats d : Device E R :=
  match dv_alarm d with
  | None => d
  | Some ch =>
    let sh := dv_shared d in
    set_shared d {| dh_queue := dh_queue sh; dh_active := dh_active sh;
                    dh_stats := ch_stats ch; dh_rx_no_channel := dh_rx_no_channel sh |}
  end.

Definition with_sequence (n : AlarmNotification) (seq : Z) : AlarmNotification :=
  let s := an_specifier n in
  {| an_alarm_type := an_alarm_type n; an_api := an_api n; an_slot := an_slot n;
     an_subslot := an_subslot n; an_module_ident := an_module_ident n;
     an_submodule_ident := an_submodule_ident n;
     an_specifier := {| as_sequence := seq; as_channel_diag := as_channel_diag s;
                        as_manufacturer_diag := as_manufacturer_diag s;
                        as_submodule_diag := as_submodule_diag s; as_ar_diag := as_ar_diag s |};
     an_usi := an_usi n; an_data := an_data n |}.

(** device/mod.rs:562-589 Device::queue_notification *)
Definition queue_notification {X} d (n : AlarmNotification) (now : Z) :
    outcome X (Device E R * list AlarmAction) :=
  let id := dv_next_alarm_id d in
  match dv_alarm d with
  | None => Ok (d, [])
  | Some ch =>
    let (ch, seq) := next_specifier_sequence ch in
    let req := {| ar_id := id; ar_priority := Low; ar_notification := with_sequence n seq |} in
    match enqueue ch req now with
    | Ok (ch, actions) => Ok (with_alarm d (Some ch) (wrap32 (id + 1)) (dv_alarm_epoch d), actions)
    | Err _ => Ok (set_channel d (Some ch), [])
    | Panic => Panic
    end
  end.

(** The body of the loop of [drain_diag_queue]. *)
(** device/mod.rs:509-529 Device::drain_diag_queue *)
Definition apply_command {X} d (cmd : DiagCommand) (now : Z) (pending : list (Z * list AlarmAction)) :
    outcome X (Device E R * list (Z * list AlarmAction)) :=
  let '(st, notification) :=
    match cmd with
    | DcRaise dg => ds_raise (dv_diag d) dg
    | DcClear slot channel error => ds_clear (dv_diag d) slot channel error
    end in
  let d := with_diag d st (dv_shared d) (dv_problem d) in
  match notification with
  | None => Ok (d, pending)
  | Some n =>
    let! (d, a) := queue_notification d n now in
    Ok (d, match a with [] => pending | _ => pending ++ [(dv_alarm_epoch d, a)] end)
  end.
Fixpoint apply_commands {X} d (cmds : list DiagCommand) (now : Z)
    (pending : list (Z * list AlarmAction)) :
    outcome X (Device E R * list (Z * list AlarmAction)) :=
  match cmds with
  | [] => Ok (d, pending)
  | cmd :: cmds =>
    let! (d, pending) := apply_command d cmd now pending in apply_commands d cmds now pending
  end.

(** device/mod.rs:495-531 Device::drain_diag_queue *)
Definition drain_diag_queue {X} d (now : Z) (pending : list (Z * list AlarmAction)) :
    outcome X (Device E R * list (Z * list AlarmAction)) :=
  let sh := dv_shared d in
  let cmds := dh_queue sh in
  let d := set_shared d {| dh_queue := []; dh_active := dh_active sh; dh_stats := dh_stats sh;
                           dh_rx_no_channel := dh_rx_no_channel sh |} in
  match cmds with
  | [] => Ok (d, pending)
  | _ =>
    let! (d, pending) := apply_commands d cmds now pending in Ok (publish_diag_state d, pending)
  end.

(** device/mod.rs:649-666 Device::open_alarm_channel *)
Definition open_alarm_channel d : Device E R :=
  match ar_params d with
  | None => d
  | Some p =>
    with_alarm d (Some (AlarmChannel_new
      {| ac_local_ref := ap_alarm_ref_local p; ac_remote_ref := ap_alarm_ref_remote p;
         ac_rta_timeout := RTA_TIMEOUT_UNIT * Z.max (ap_rta_timeout_factor p) 1;
         ac_rta_retries := ap_rta_retries p;
         ac_max_alarm_data_length := ap_max_alarm_data_length_remote p;
         ac_peer_mac := ap_initiator_mac p; ac_our_mac := dc_mac (su_dcp (dv_setup d)) |}))
      (dv_next_alarm_id d) (wrap64 (dv_alarm_epoch d + 1))
  end.

(** device/mod.rs:736-771 Device::start_runner *)
Definition start_runner d : result (Device E R) :=
  match su_rt (dv_setup d), ar_params d with
  | Some rt, Some p =>
    match Layout_from_ar p (su_model (dv_setup d)) with
    | Ok layout =>
      let image := im_rebuild (dv_image d) layout in
      let cfg := {| rg_iface := ro_iface rt; rg_our_mac := dc_mac (su_dcp (dv_setup d));
                    rg_cpu_mac := ap_initiator_mac p; rg_layout := layout;
                    rg_cpu_pin := ro_cpu_pin rt; rg_rt_priority := ro_rt_priority rt;
                    rg_lock_memory := ro_lock_memory rt |} in
      match dv_runner_factory d cfg with
      | Some handle => Ok (with_runner d image (Some handle))
      | None => Ok (with_runner d image (dv_runner d))
      end
    | Err _ => Ok d
    | Panic => Panic
    end
  | _, _ => Ok d
  end.

(** The joined thread is gone, and with it its handle. *)
(** device/mod.rs:773-798 Device::stop_runner *)
Definition stop_runner d : Device E R :=
  match dv_runner d with
  | None => d
  | Some _ =>
    let v := im_validity (dv_image d) in
    let v := {| va_provider_run := false; va_primary := va_primary v; va_watchdog := IwExpired;
                va_last_rx_age := va_last_rx_age v; va_cycle := va_cycle v |} in
    with_runner d (im_clear (set_validity (dv_image d) v)) None
  end.

(** The mutually recursive operations, each over the next one down. *)

(** device/mod.rs:614-628 Device::apply_alarm_actions *)
Fixpoint alarm_actions (abort : Device E R → AbortReason → StepReport → result (Device E R * StepReport))
    d (actions : list AlarmAction) (report : StepReport) : result (Device E R * StepReport) :=
  match actions with
  | [] => Ok (d, report)
  | action :: actions =>
    let! (d, report) :=
      match action with
      | AaSend frame => let! d := dv_send d frame in Ok (d, report)
      | AaAcked _ _ | AaUnexpectedRx => Ok (d, report)
      | AaAbort reason => abort d reason report
      end in
    alarm_actions abort d actions report
  end.

(** device/mod.rs:591-631 Device::apply_alarm_actions *)
Definition apply_alarm_actions
    (abort : Device E R → AbortReason → StepReport → result (Device E R * StepReport))
    d (actions : list AlarmAction) (epoch : Z) (report : StepReport) :
    result (Device E R * StepReport) :=
  if decide (dv_alarm d = None ∨ dv_alarm_epoch d ≠ epoch) then Ok (d, report) else
  let! (d, report) := alarm_actions abort d actions report in
  Ok (publish_alarm_stats d, report).

(** device/mod.rs:633-647 Device::abort_with_err_rta_in *)
Definition abort_with_err_rta_in
    (dispatch : Device E R → CmOutput → StepReport → result (Device E R * StepReport))
    d (reason : AbortReason) (now : Z) (report : StepReport) : result (Device E R * StepReport) :=
  let! d :=
    match err_rta_code2 reason, dv_alarm d with
    | Some code2, Some ch => dv_send d (err_rta ch (rta_abort code2))
    | _, _ => Ok d
    end in
  let! (cm, out) := Cm_abort (dv_cm d) reason now in
  dispatch (with_cm d cm) out report.

(** device/mod.rs:677-680 Device::dispatch *)
Fixpoint dispatch_send d (send : list Outgoing) (report : StepReport) :
    result (Device E R * StepReport) :=
  match send with
  | [] => Ok (d, report)
  | o :: send =>
    match rpc_send (dv_rpc d) (og_bytes o) (og_to o) with
    | Ok r => dispatch_send (with_rpc d r) send (count_sent report)
    | Err (x, r) => Err (DeRpc x, with_rpc d r)
    | Panic => Panic
    end
  end.

(** device/mod.rs:698-701 Device::dispatch *)
Fixpoint replay_all (apply : Device E R → list AlarmAction → StepReport → result (Device E R * StepReport))
    d (ns : list AlarmNotification) (now : Z) (report : StepReport) :
    result (Device E R * StepReport) :=
  match ns with
  | [] => Ok (d, report)
  | n :: ns =>
    let! (d, actions) := queue_notification d n now in
    let! (d, report) := apply d actions report in
    replay_all apply d ns now report
  end.

(** device/mod.rs:681-711 Device::dispatch *)
Fixpoint dispatch_notify
    (abort : Device E R → AbortReason → StepReport → result (Device E R * StepReport))
    d (notify : list (ArState * option AbortReason)) (now : Z) (report : StepReport) :
    result (Device E R * StepReport) :=
  match notify with
  | [] => Ok (d, report)
  | (state, reason) :: notify =>
    let d := with_calls d ((λ l, l ++ [(state, reason)]) <$> dv_on_state_change d) in
    let! (d, report) :=
      match state, reason with
      | Data, None =>
        let! d := start_runner d in
        let d := open_alarm_channel d in
        let epoch := dv_alarm_epoch d in
        let! (d, report) :=
          replay_all (λ d actions report, apply_alarm_actions abort d actions epoch report)
            d (ds_replay (dv_diag d)) now report in
        Ok (publish_diag_state d, report)
      | Idle, Some _ => Ok (set_channel (stop_runner d) None, report)
      | _, _ => Ok (d, report)
      end in
    dispatch_notify abort d notify now report
  end.

(** device/mod.rs:668-713 Device::dispatch *)
Fixpoint dispatch (fuel : nat) d (out : CmOutput) (now : Z) (report : StepReport) :
    result (Device E R * StepReport) :=
  match fuel with
  | O => Panic
  | S fuel =>
    let! (d, report) := dispatch_send d (co_send out) report in
    dispatch_notify
      (λ d reason report,
        abort_with_err_rta_in (λ d out report, dispatch fuel d out now report) d reason now report)
      d (co_notify out) now report
  end.

(** A Data notification replays, which never aborts; an abort notifies Idle
    only.  One level is enough, and one is spare. *)
Definition DISPATCH_DEPTH : nat := 2.
Definition dispatch_in d (out : CmOutput) (now : Z) (report : StepReport) :=
  dispatch DISPATCH_DEPTH d out now report.
Definition abort_in d (reason : AbortReason) (now : Z) (report : StepReport) :
    result (Device E R * StepReport) :=
  abort_with_err_rta_in (λ d out report, dispatch_in d out now report) d reason now report.

(** device/mod.rs:349-360 Device::abort_with_err_rta *)
Definition abort_with_err_rta d (reason : AbortReason) (now : Z) : result (Device E R) :=
  let! (d, _) := abort_in d reason now StepReport_default in Ok d.

(** device/mod.rs:362-370 Device::shutdown *)
Definition shutdown d (now : Z) : result (Device E R) :=
  if decide (dv_state d = Idle) then Ok d else abort_with_err_rta d Shutdown now.

(** The event just taken, acted upon. *)
(** device/mod.rs:809-820 Device::drain_rt_events *)
Definition on_rt_event d (ev : RtEvent) (now : Z) (report : StepReport) :
    result (Device E R * StepReport) :=
  match ev with
  | EvWatchdogExpired => abort_in d RtWatchdog now report
  | EvSocketError _ => abort_in d RtSocket now report
  | EvSchedWarning _ | EvExited => Ok (d, report)
  end.

(** device/mod.rs:800-823 Device::drain_rt_events *)
Fixpoint drain_rt_events (fuel : nat) d (now : Z) (report : StepReport) :
    result (Device E R * StepReport) :=
  match fuel with
  | O => Panic
  | S fuel =>
    match dv_runner d with
    | None => Ok (d, report)
    | Some h =>
      let '(h, ev) := take_event h in
      let d := with_runner d (dv_image d) (Some h) in
      match ev with
      | None => Ok (d, report)
      | Some ev =>
        let! (d, report) := on_rt_event d ev now report in
        drain_rt_events fuel d now report
      end
    end
  end.

(** Stage 1 on one frame. *)
(** device/mod.rs:427-454 Device::step *)
Definition on_eth_frame d (frame : list Z) (now : Z) (pending : list (Z * list AlarmAction)) :
    result (Device E R * list (Z * list AlarmAction)) :=
  let! alarm := is_alarm_frame frame in
  if (alarm : bool) then
    if decide (length frame < 6 ∨ take 6 frame ≠ mac_octets (dc_mac (su_dcp (dv_setup d))))%nat
    then Ok (d, pending) else
    match dv_alarm d with
    | Some ch =>
      let! (ch, a) := on_frame ch frame now in
      Ok (set_channel d (Some ch),
          match a with [] => pending | _ => pending ++ [(dv_alarm_epoch d, a)] end)
    | None =>
      let sh := dv_shared d in
      Ok (set_shared d {| dh_queue := dh_queue sh; dh_active := dh_active sh;
                          dh_stats := dh_stats sh; dh_rx_no_channel := inc64 (dh_rx_no_channel sh) |},
          pending)
    end
  else
    match handle_dcp_frame frame (su_dcp (dv_setup d)) with
    | Ok (Some resp) => let! d := dv_send d resp in Ok (d, pending)
    | Ok None | Err _ => Ok (d, pending)
    | Panic => Panic
    end.

(** device/mod.rs:424-455 Device::step *)
Fixpoint drain_eth (fuel : nat) d (now : Z) (pending : list (Z * list AlarmAction))
    (report : StepReport) : result (Device E R * list (Z * list AlarmAction) * StepReport) :=
  match fuel with
  | O => Panic
  | S fuel =>
    match eth_recv (dv_eth d) (Some 0) with
    | Panic => Panic
    | Err (x, e) => Err (DeEth x, with_eth d e)
    | Ok (e, None) => Ok (with_eth d e, pending, report)
    | Ok (e, Some frame) =>
      let! (d, pending) := on_eth_frame (with_eth d e) frame now pending in
      drain_eth fuel d now pending (count_eth report)
    end
  end.

(** device/mod.rs:461-468 Device::step *)
Fixpoint drain_rpc (fuel : nat) d (now : Z) (report : StepReport) :
    result (Device E R * StepReport) :=
  match fuel with
  | O => Panic
  | S fuel =>
    match rpc_recv (dv_rpc d) (Some 0) with
    | Panic => Panic
    | Err (x, r) => Err (DeRpc x, with_rpc d r)
    | Ok (r, None) => Ok (with_rpc d r, report)
    | Ok (r, Some (buf, from)) =>
      let d := with_rpc d r in
      let report := count_rpc report in
      let! (d, report) :=
        match handle_datagram (dv_cm d) buf from now with
        | Ok (cm, out) => dispatch_in (with_cm d cm) out now report
        | Err _ => Ok (d, report)
        | Panic => Panic
        end in
      drain_rpc fuel d now report
    end
  end.

(** device/mod.rs:487-490 Device::step *)
Fixpoint apply_pending d (pending : list (Z * list AlarmAction)) (now : Z) (report : StepReport) :
    result (Device E R * StepReport) :=
  match pending with
  | [] => Ok (d, report)
  | (epoch, batch) :: pending =>
    let! (d, report) :=
      apply_alarm_actions (λ d reason report, abort_in d reason now report) d batch epoch report in
    apply_pending d pending now report
  end.

Definition min_opt (a b : option Z) : option Z :=
  match a, b with
  | Some a, Some b => Some (Z.min a b)
  | Some a, None | None, Some a => Some a
  | None, None => None
  end.

(** device/mod.rs:381-392 Device::step *)
Definition effective_wait d (now : Z) (wait : option Z) : option Z :=
  let alarm_deadline := dv_alarm d ≫= AlarmChannel_next_deadline in
  let deadline := min_opt (Ar_next_deadline (cm_ar (dv_cm d))) alarm_deadline in
  min_opt wait ((λ t, Z.max 0 (t - now)) <$> deadline).

(** What [poll] says, given the descriptors and the wait: an error, or not; the
    clock after it, and the number of the thread's event descriptor. *)
Record StepEnv := { sv_poll : list Z → option Z → option Z; sv_clock : Z; sv_event_fd : Z }.

(** device/mod.rs:393-414 Device::step *)
Definition wait_ready d (env : StepEnv) (now : Z) (wait : option Z) : result Z :=
  match eth_raw_fd (dv_eth d), rpc_raw_fd (dv_rpc d) with
  | Some eth_fd, Some rpc_fd =>
    let fds := [eth_fd; rpc_fd] ++
      match dv_runner d with Some _ => [sv_event_fd env] | None => [] end in
    match sv_poll env fds (effective_wait d now wait) with
    | Some errno => Err (DeEth (TeIo errno), d)
    | None => Ok (sv_clock env)
    end
  | _, _ => Ok now
  end.

(** device/mod.rs:372-493 Device::step *)
Definition dv_step d (env : StepEnv) (now : Z) (wait : option Z) : result (Device E R * StepReport) :=
  let! now := wait_ready d env now wait in
  (* (1) *)
  let! (d, pending, report) :=
    drain_eth (S (eth_backlog (dv_eth d))) d now [] StepReport_default in
  let d := publish_alarm_stats d in
  (* (2) *)
  let! (d, pending) := drain_diag_queue d now pending in
  (* (3) *)
  let! (d, report) := drain_rpc (S (rpc_backlog (dv_rpc d))) d now report in
  (* (4) *)
  let events := match dv_runner d with Some h => length (sh_events h) | None => O end in
  let! (d, report) := drain_rt_events (S events) d now report in
  (* (5) *)
  let! (cm, out) := Cm_tick (dv_cm d) now in
  let! (d, report) := dispatch_in (with_cm d cm) out now report in
  (* (6) *)
  let! (d, pending) :=
    match dv_alarm d with
    | None => Ok (d, pending)
    | Some ch =>
      let! (ch, a) := on_tick ch now in
      Ok (set_channel d (Some ch),
          match a with [] => pending | _ => pending ++ [(dv_alarm_epoch d, a)] end)
    end in
  let d := publish_alarm_stats d in
  (* (7) *)
  apply_pending d pending now report.

(** device/mod.rs:720-729 Device::with_runner_factory *)
Definition with_runner_factory d (f : RtConfig → option RtShared) : Device E R :=
  {| dv_setup := dv_setup d; dv_eth := dv_eth d; dv_rpc := dv_rpc d; dv_cm := dv_cm d;
     dv_on_state_change := dv_on_state_change d; dv_image := dv_image d; dv_stats := dv_stats d;
     dv_problem := dv_problem d; dv_diag := dv_diag d; dv_shared := dv_shared d;
     dv_alarm := dv_alarm d; dv_next_alarm_id := dv_next_alarm_id d;
     dv_alarm_epoch := dv_alarm_epoch d; dv_runner := dv_runner d; dv_runner_factory := f |}.

(** device/mod.rs:731-734 Device::rt_running *)
Definition rt_running d : bool :=
  match dv_runner d with Some h => sh_running h | None => false end.

(** device/mod.rs:826-833 Device::drop *)
Definition dv_drop d : Device E R := stop_runner d.
End device.

(** ** Invariants *)

(** An [Abort] is the only action of its batch. *)
Definition sends_only (acts : list AlarmAction) : Prop :=
  Forall (λ a, match a with AaAbort _ => False | _ => True end) acts.
Definition batch_ok (acts : list AlarmAction) : Prop :=
  sends_only acts ∨ ∃ reason, acts = [AaAbort reason].

Lemma send_next_sends c now : sends_only (send_next c now).2.
Proof. unfold send_next, sends_only. destruct (ch_state c), (ch_queue c); repeat constructor. Qed.

Lemma enqueue_sends c req now c' acts : enqueue c req now = Ok (c', acts) → sends_only acts.
Proof.
  unfold enqueue. case_decide; [done|]. intros [= Heq].
  pose proof (send_next_sends (set_queue c (ch_queue c ++ [req])) now) as Hs. by rewrite Heq in Hs.
Qed.

Lemma on_tick_batch {X} c now c' acts : on_tick (E := X) c now = Ok (c', acts) → batch_ok acts.
Proof.
  unfold on_tick, retry_or_abort, drop_unacknowledged. intros Heq.
  destruct (ch_state c) eqn:Hs; [injection Heq as <- <-; left; constructor|..].
  - case_decide; [injection Heq as <- <-; left; constructor|].
    case_decide; [|injection Heq as <- <-; right; by eexists].
    cbn in Heq. rewrite Hs in Heq. injection Heq as <- <-. left. repeat constructor.
  - case_decide; [injection Heq as <- <-; left; constructor|]. injection Heq as Heq.
    left. pose proof (send_next_sends (bump CtAckTimeouts (set_state c ChIdle)) now) as Hb.
    by rewrite Heq in Hb.
Qed.

Lemma on_frame_batch {X} c frame now c' acts :
  on_frame (E := X) c frame now = Ok (c', acts) → batch_ok acts.
Proof.
  unfold on_frame. destruct (parse_frame frame) as [pdu|e|]; [| |done].
  2: { intros [= <- <-]. left. repeat constructor. }
  destruct (EthHeader_parse frame) as [[h off]|e|]; [| |done].
  2: { intros [= <- <-]. left. repeat constructor. }
  case_decide; [intros [= <- <-]; left; repeat constructor|].
  destruct (rp_body pdu) as [dt| | |st]; [|..|intros [= <- <-]; right; by eexists].
  - intros [= Hd]. left. unfold on_data in Hd. case_decide; [injection Hd as <- <-; repeat constructor|].
    destruct dt as [n|a|ty b]; [injection Hd as <- <-; repeat constructor| |injection Hd as <- <-; repeat constructor].
    destruct (in_flight_req _) as [req|]; [|injection Hd as <- <-; repeat constructor].
    destruct (acks a req); [|injection Hd as <- <-; repeat constructor].
    pose proof (send_next_sends (bump CtAcked (set_state (set_last_rx_seq c
      (rt_send_seq (rp_header pdu))) ChIdle)) now) as Hs.
    destruct (send_next _ _) as [c2 more]. injection Hd as <- <-. by repeat constructor.
  - intros [= Hd]. left. unfold on_transport_ack in Hd.
    destruct (ch_state c); try case_decide; injection Hd as <- <-; constructor.
  - intros [= <- <-]. left. repeat constructor.
Qed.

(** The handle of the same thread, with events taken from its queue. *)
Record took (h h' : RtShared) : Prop := {
  tk_stop : sh_stop h' = sh_stop h;
  tk_running : sh_running h' = sh_running h;
  tk_bell : bell_ok h → bell_ok h'
}.
#[global] Instance took_preorder : PreOrder took.
Proof. split; [by split|]. intros h1 h2 h3 [] []. split; [congruence..|by auto]. Qed.

Lemma took_event h : took h (take_event h).1.
Proof. split; [unfold take_event; by destruct (sh_events h) as [|? []]..|apply bell_ok_take]. Qed.

Section invariant.
#[local] Set Default Proof Using "Type*".
Context {E R : Type} `{!EthTransport E, EthL : !EthTransportLaws E}
  `{!RpcTransport R, RpcL : !RpcTransportLaws R}.
Implicit Types d : Device E R.

(** The image of a device: octets, and either no layout or one negotiated for
    the model. *)
Definition laid_out (model : DeviceModel) (img : IoImage) : Prop :=
  ∃ params la, Layout_from_ar params model = Ok la ∧ im_ok la img.
Definition image_for (model : DeviceModel) (img : IoImage) : Prop :=
  Forall u8 (im_inputs img) ∧ Forall u8 (im_csdu img) ∧ (im_cells img = [] ∨ laid_out model img).

Lemma image_for_clear model img : image_for model (im_clear img).
Proof. split_and!; [constructor..|by left]. Qed.
Lemma image_for_rebuild model img params la :
  Layout_from_ar params model = Ok la →
  image_for model (im_rebuild img la) ∧ laid_out model (im_rebuild img la).
Proof.
  intros Hla. assert (laid_out model (im_rebuild img la)) as Hl
    by (exists params, la; split; [done|apply im_ok_rebuild]).
  split; [|done]. split_and!; [apply Forall_replicate; unfold u8; lia..|by right].
Qed.

Context {su : DeviceSetup}.

(** What holds of a device of a given set-up whatever happened to it, transport
    errors included. *)
Record dv_ok d : Prop := {
  do_cm : wf_cm (dv_cm d);
  do_model : ar_model (cm_ar (dv_cm d)) = su_model (dv_setup d);
  do_mac : wf_mac (dc_mac (su_dcp (dv_setup d)));
  do_eth : eth_wf (dv_eth d);
  do_rpc : rpc_wf (dv_rpc d);
  do_alarm : ∀ ch, dv_alarm d = Some ch → ch_inv ch ∧ wf_cfg (ch_cfg ch);
  do_active : dh_active (dv_shared d) = ds_active_list (dv_diag d);
  do_problem : dv_problem d = problem_indicator (dv_diag d);
  do_diag : dg_inv (dv_diag d);
  do_image : image_for (su_model (dv_setup d)) (dv_image d);
  do_runner : is_Some (dv_runner d) → laid_out (su_model (dv_setup d)) (dv_image d);
  do_setup : dv_setup d = su
}.

(** The alarm channel and the cyclic thread live with the AR in [Data]. *)
Definition tied (up : bool) d : Prop :=
  (is_Some (dv_alarm d) ↔ up = true) ∧ (is_Some (dv_runner d) → up = true).
Definition linked d : Prop := tied (bool_decide (dv_state d = Data)) d.

(** An operation that touches only the transports, the counters and the alarms
    of the open channel. *)
Record keeps d d' : Prop := {
  kp_cm : dv_cm d' = dv_cm d;
  kp_setup : dv_setup d' = dv_setup d;
  kp_diag : dv_diag d' = dv_diag d;
  kp_runner : dv_runner d' = dv_runner d;
  kp_image : dv_image d' = dv_image d;
  kp_calls : dv_on_state_change d' = dv_on_state_change d;
  kp_epoch : dv_alarm_epoch d' = dv_alarm_epoch d;
  kp_alarm : ch_cfg <$> dv_alarm d' = ch_cfg <$> dv_alarm d;
  kp_eth : (eth_backlog (dv_eth d') ≤ eth_backlog (dv_eth d))%nat;
  kp_rpc : (rpc_backlog (dv_rpc d') ≤ rpc_backlog (dv_rpc d))%nat
}.

Lemma keeps_refl d : keeps d d.
Proof. by split. Qed.
Lemma keeps_trans d1 d2 d3 : keeps d1 d2 → keeps d2 d3 → keeps d1 d3.
Proof. intros [] []. split; try congruence; lia. Qed.

Lemma keeps_linked d d' : keeps d d' → linked d → linked d'.
Proof.
  intros [Hc _ _ Hr _ _ _ Ha _ _] [H1 H2]. unfold linked, tied, dv_state in *.
  rewrite Hc, Hr. split; [|done]. rewrite <-H1, <-!(fmap_is_Some ch_cfg). by rewrite Ha.
Qed.

Lemma keeps_tied up d d' : keeps d d' → tied up d → tied up d'.
Proof.
  intros [_ _ _ Hr _ _ _ Ha _ _] [H1 H2]. unfold tied in *.
  rewrite Hr. split; [|done]. rewrite <-H1, <-!(fmap_is_Some ch_cfg). by rewrite Ha.
Qed.

(** The result of a fallible operation: never a panic, an error leaves a
    device in order, and success has the property. *)
Definition leads {A} (m : outcome (DeviceError * Device E R) A) (P : A → Prop) : Prop :=
  match m with Ok a => P a | Err (_, d') => dv_ok d' | Panic => False end.

Lemma leads_bind {A B} (m : outcome (DeviceError * Device E R) A) (f : A → outcome _ B)
    (P : A → Prop) (Q : B → Prop) :
  leads m P → (∀ a, P a → leads (f a) Q) → leads (obind m f) Q.
Proof. destruct m as [a|[x d]|]; cbn; auto. Qed.

Lemma leads_mono {A} (m : outcome (DeviceError * Device E R) A) (P Q : A → Prop) :
  leads m P → (∀ a, P a → Q a) → leads m Q.
Proof. destruct m as [a|[x d]|]; cbn; auto. Qed.

(** *** Sending *)

Lemma with_eth_ok d e : dv_ok d → eth_wf e → dv_ok (with_eth d e).
Proof. intros [] ?. by split. Qed.
Lemma with_rpc_ok d r : dv_ok d → rpc_wf r → dv_ok (with_rpc d r).
Proof. intros [] ?. by split. Qed.

Lemma dv_send_ok d frame : dv_ok d → leads (dv_send d frame) (λ d', dv_ok d' ∧ keeps d d').
Proof.
  intros Hd. unfold dv_send. pose proof (eth_send_total (dv_eth d) frame (do_eth d Hd)) as Hnp.
  destruct (eth_send _ _) as [e|[x e]|] eqn:Hs; [| |done]; cbn.
  - apply eth_send_wf in Hs as [? ?]; [|apply Hd]. split; [by apply with_eth_ok|]. by split.
  - apply eth_send_err in Hs as [? _]; [|apply Hd]. by apply with_eth_ok.
Qed.

Lemma dispatch_send_ok send : ∀ d report,
  dv_ok d → leads (dispatch_send d send report) (λ '(d', _), dv_ok d' ∧ keeps d d').
Proof.
  induction send as [|o send IH]; intros d report Hd; cbn [dispatch_send]; [by split; [|apply keeps_refl]|].
  pose proof (rpc_send_total (dv_rpc d) (og_bytes o) (og_to o) (do_rpc d Hd)) as Hnp.
  destruct (rpc_send _ _ _) as [r|[x r]|] eqn:Hs; [| |done].
  - apply rpc_send_wf in Hs as [? ?]; [|apply Hd].
    eapply leads_mono; [apply IH; by apply with_rpc_ok|]. intros [d' ?] [? Hk]. split; [done|].
    eapply keeps_trans; [|exact Hk]. by split.
  - apply rpc_send_err in Hs as [? _]; [|apply Hd]. by apply with_rpc_ok.
Qed.

Lemma publish_alarm_stats_ok d : dv_ok d → dv_ok (publish_alarm_stats d) ∧ keeps d (publish_alarm_stats d).
Proof.
  intros Hd. unfold publish_alarm_stats. destruct (dv_alarm d) as [ch|] eqn:Ha; [|by split; [|apply keeps_refl]].
  destruct Hd. split; [by split|]. by split.
Qed.

(** The pure part of the device the alarm channel may not touch. *)
Lemma set_channel_ok d ch ch' :
  dv_ok d → dv_alarm d = Some ch → ch_inv ch' → ch_cfg ch' = ch_cfg ch →
  ∀ id, dv_ok (with_alarm d (Some ch') id (dv_alarm_epoch d)) ∧
        keeps d (with_alarm d (Some ch') id (dv_alarm_epoch d)).
Proof.
  intros [? ? ? ? ? Hal ? ? ?] Ha Hi Hc id. destruct (Hal ch Ha) as [_ Hw]. split.
  - split; try done. cbn. intros ? [= <-]. by rewrite Hc.
  - split; try done. cbn. rewrite Ha. cbn. by rewrite Hc.
Qed.

Lemma next_specifier_ok ch :
  ch_inv ch → ch_inv (next_specifier_sequence ch).1 ∧ ch_cfg (next_specifier_sequence ch).1 = ch_cfg ch.
Proof.
  intros [[] ?]. split; [|done]. split; [|done]. split; try done. cbn.
  change 0x7FF with (Z.ones 11). rewrite Z.land_ones by lia. by apply Z.mod_pos_bound.
Qed.

Lemma queue_notification_ok {X} d n now :
  dv_ok d →
  ∃ d' acts, queue_notification (X := X) d n now = Ok (d', acts) ∧ dv_ok d' ∧ keeps d d' ∧
    sends_only acts ∧ dv_shared d' = dv_shared d ∧ dv_problem d' = dv_problem d.
Proof.
  intros Hd. unfold queue_notification. destruct (dv_alarm d) as [ch|] eqn:Ha.
  2: { exists d, []. split_and!; [done|done|apply keeps_refl|constructor|done|done]. }
  destruct (do_alarm d Hd ch Ha) as [Hi Hw]. pose proof (next_specifier_ok ch Hi) as [Hi1 Hc1].
  destruct (next_specifier_sequence ch) as [ch1 seq]. cbn [fst] in *.
  set (req := {| ar_id := _ |}).
  destruct (decide (fits (ch_cfg ch1) req)) as [Hf|Hf].
  - destruct (enqueue_refines ch1 Hi1 ltac:(by rewrite Hc1) req now Hf) as ([ch2 acts] & He & Hi2 & Hc2 & _).
    rewrite He. cbn in Hi2, Hc2. apply enqueue_sends in He.
    destruct (set_channel_ok d ch ch2 Hd Ha Hi2 ltac:(congruence) (wrap32 (dv_next_alarm_id d + 1))).
    do 2 eexists. by split_and!.
  - destruct (enqueue_refused ch1 req now Hf) as (e & ->).
    destruct (set_channel_ok d ch ch1 Hd Ha Hi1 Hc1 (dv_next_alarm_id d)).
    exists (set_channel d (Some ch1)), []. split_and!; try done. constructor.
Qed.

Lemma alarm_actions_ok abort acts : ∀ d report,
  dv_ok d → sends_only acts →
  leads (alarm_actions abort d acts report) (λ '(d', _), dv_ok d' ∧ keeps d d').
Proof.
  induction acts as [|a acts IH]; intros d report Hd Hs; cbn [alarm_actions]; [by split; [|apply keeps_refl]|].
  apply Forall_cons_1 in Hs as [Ha Hs].
  eapply (leads_bind _ _ (λ '(d', _), dv_ok d' ∧ keeps d d')).
  - destruct a; [|by split; [|apply keeps_refl]|done|by split; [|apply keeps_refl]].
    eapply leads_bind; [by apply dv_send_ok|]. by intros d' ?.
  - intros [d1 r1] [H1 K1]. eapply leads_mono; [by apply IH|]. intros [d2 ?] [? ?].
    split; [done|by eapply keeps_trans].
Qed.

Lemma apply_sends_ok abort d acts epoch report :
  dv_ok d → sends_only acts →
  leads (apply_alarm_actions abort d acts epoch report) (λ '(d', _), dv_ok d' ∧ keeps d d').
Proof.
  intros Hd Hs. unfold apply_alarm_actions. case_decide; [by split; [|apply keeps_refl]|].
  eapply leads_bind; [by apply alarm_actions_ok|]. intros [d1 r1] [H1 K1].
  destruct (publish_alarm_stats_ok d1 H1) as [H2 K2]. split; [done|by eapply keeps_trans].
Qed.

Lemma replay_all_ok abort epoch ns : ∀ d now report,
  dv_ok d →
  leads (replay_all (λ d acts report, apply_alarm_actions abort d acts epoch report) d ns now report)
    (λ '(d', _), dv_ok d' ∧ keeps d d').
Proof.
  induction ns as [|n ns IH]; intros d now report Hd; cbn [replay_all]; [by split; [|apply keeps_refl]|].
  destruct (queue_notification_ok (X := DeviceError * Device E R) d n now Hd)
    as (d1 & acts & -> & H1 & K1 & Hs & _ & _). cbn [obind].
  eapply leads_bind; [by apply apply_sends_ok|]. intros [d2 r2] [H2 K2].
  eapply leads_mono; [by apply IH|]. intros [d3 ?] [? ?]. split; [done|].
  eapply keeps_trans; [done|]. by eapply keeps_trans.
Qed.

(** *** Dispatching *)

(** Whether an observer of the notifications believes the AR in [Data]. *)
Definition up_after (up : bool) (ns : list (ArState * option AbortReason)) : bool :=
  foldl (λ up n, match n with (Data, None) => true | (Idle, Some _) => false | _ => up end) up ns.

Lemma lifecycle_up s ev s' ns :
  lifecycle s ev s' ns → up_after (bool_decide (s = Data)) ns = bool_decide (s' = Data).
Proof. by inversion 1; subst. Qed.

Lemma lifecycle_data s ev s' ns : lifecycle s ev s' ns → (Data, None) ∈ ns → s' = Data.
Proof.
  inversion 1; subst; try done; intros Hin;
    repeat match goal with Hx : _ ∈ _ |- _ => inversion Hx; clear Hx; subst end.
Qed.

(** The image is as it was and the cyclic thread, if any, the same. *)
Definition same_io d d' : Prop :=
  dv_image d' = dv_image d ∧ option_Forall2 took (dv_runner d) (dv_runner d').
Lemma same_io_eq d d' : dv_image d' = dv_image d → dv_runner d' = dv_runner d → same_io d d'.
Proof. intros Hi Hr. split; [done|]. by rewrite Hr. Qed.
Lemma same_io_trans d1 d2 d3 : same_io d1 d2 → same_io d2 d3 → same_io d1 d3.
Proof. intros [H1 R1] [H2 R2]. split; [congruence|by etrans]. Qed.

(** What a batch of notifications does to the device. *)
Record notified d (ns : list (ArState * option AbortReason)) d' : Prop := {
  nt_cm : dv_cm d' = dv_cm d;
  nt_setup : dv_setup d' = dv_setup d;
  nt_diag : dv_diag d' = dv_diag d;
  nt_calls : dv_on_state_change d' = (λ l, l ++ ns) <$> dv_on_state_change d;
  nt_tied : ∀ up, tied up d → ((Data, None) ∈ ns → is_Some (ar_params d)) → tied (up_after up ns) d';
  nt_eth : (eth_backlog (dv_eth d') ≤ eth_backlog (dv_eth d))%nat;
  nt_rpc : (rpc_backlog (dv_rpc d') ≤ rpc_backlog (dv_rpc d))%nat;
  nt_same : ns = [] → same_io d d'
}.

Lemma notified_nil d d' : keeps d d' → notified d [] d'.
Proof.
  intros K. pose proof K as [].
  split; [done..| |by intros; eapply keeps_tied|done|done|by intros _; apply same_io_eq].
  rewrite kp_calls0. destruct (dv_on_state_change d); cbn; [by rewrite app_nil_r|done].
Qed.

Lemma notified_app d1 ns1 d2 ns2 d3 :
  notified d1 ns1 d2 → notified d2 ns2 d3 → notified d1 (ns1 ++ ns2) d3.
Proof.
  intros [Hc1 Hs1 Hd1 Hl1 Ht1 He1 Hr1 Hi1] [Hc2 Hs2 Hd2 Hl2 Ht2 He2 Hr2 Hi2].
  split; [congruence..| | |lia|lia|].
  - rewrite Hl2, Hl1. destruct (dv_on_state_change d1); cbn; [by rewrite app_assoc|done].
  - intros up Hup Hdata. unfold up_after. rewrite foldl_app. apply Ht2.
    + apply Ht1; [done|]. intros ?. apply Hdata. set_solver.
    + intros ?. unfold ar_params. rewrite Hc1. apply Hdata. set_solver.
  - intros [?%Hi1 ?%Hi2]%app_nil. by eapply same_io_trans.
Qed.

Lemma with_calls_ok d l : dv_ok d → dv_ok (with_calls d l).
Proof. by intros []. Qed.

Lemma start_runner_ok d :
  dv_ok d → ∃ d', start_runner d = Ok d' ∧ dv_ok d' ∧ dv_cm d' = dv_cm d ∧ dv_setup d' = dv_setup d ∧
  dv_diag d' = dv_diag d ∧ dv_on_state_change d' = dv_on_state_change d ∧ dv_eth d' = dv_eth d ∧
  dv_rpc d' = dv_rpc d ∧ dv_alarm d' = dv_alarm d ∧ dv_alarm_epoch d' = dv_alarm_epoch d.
Proof.
  intros Hd. unfold start_runner. destruct (su_rt _), (ar_params d) as [p|]; try by exists d.
  pose proof (Layout_from_ar_no_panic p (su_model (dv_setup d))) as Hnp.
  destruct (Layout_from_ar _ _) as [la| |] eqn:Hla; [|by exists d|done].
  destruct (image_for_rebuild _ (dv_image d) _ _ Hla).
  destruct (dv_runner_factory d _); eexists; (split; [done|]); destruct Hd; by split_and!.
Qed.

Lemma ar_params_wf d p : dv_ok d → ar_params d = Some p → wf_params p.
Proof.
  intros Hd Hp. unfold ar_params in Hp. apply fmap_Some in Hp as (x & Hx & ->).
  destruct (do_cm d Hd) as (((_ & _ & Hc) & _) & _). by destruct (Hc x Hx) as [? _].
Qed.

Lemma open_alarm_channel_ok d :
  dv_ok d → dv_ok (open_alarm_channel d) ∧ dv_cm (open_alarm_channel d) = dv_cm d ∧
  dv_setup (open_alarm_channel d) = dv_setup d ∧ dv_diag (open_alarm_channel d) = dv_diag d ∧
  dv_on_state_change (open_alarm_channel d) = dv_on_state_change d ∧
  dv_eth (open_alarm_channel d) = dv_eth d ∧ dv_rpc (open_alarm_channel d) = dv_rpc d ∧
  (is_Some (ar_params d) → is_Some (dv_alarm (open_alarm_channel d))).
Proof.
  intros Hd. unfold open_alarm_channel. destruct (ar_params d) as [p|] eqn:Hp; [|by split_and!; try intros []].
  split_and!; try done. 
  assert (wf_cfg {| ac_local_ref := ap_alarm_ref_local p; ac_remote_ref := ap_alarm_ref_remote p;
    ac_rta_timeout := RTA_TIMEOUT_UNIT * Z.max (ap_rta_timeout_factor p) 1;
    ac_rta_retries := ap_rta_retries p; ac_max_alarm_data_length := ap_max_alarm_data_length_remote p;
    ac_peer_mac := ap_initiator_mac p; ac_our_mac := dc_mac (su_dcp (dv_setup d)) |}) as Hw.
  { destruct (ar_params_wf d p Hd Hp) as (? & ? & ? & ? & ? & ? & ? & ? & ? & ? & ? & ? & ? & ? & ?).
    split_and!; try done. apply Hd. }
  destruct Hd. split; try done. cbn. intros ? [= <-]. split; [by apply ch_inv_new|done].
Qed.

Lemma publish_diag_state_ok d : dv_ok d → dv_ok (publish_diag_state d) ∧ keeps d (publish_diag_state d).
Proof. intros []. split; by split. Qed.

Lemma on_data_notify_ok abort d now report :
  dv_ok d →
  leads
    (let! d := start_runner (with_calls d ((λ l, l ++ [(Data, None)]) <$> dv_on_state_change d)) in
     let d := open_alarm_channel d in
     let! (d, report) :=
       replay_all (λ d' actions report, apply_alarm_actions abort d' actions (dv_alarm_epoch d) report)
         d (ds_replay (dv_diag d)) now report in
     Ok (publish_diag_state d, report))
    (λ '(d', _), dv_ok d' ∧ notified d [(Data, None)] d').
Proof.
  intros Hd. set (d0 := with_calls d _).
  destruct (start_runner_ok d0) as (d1 & -> & H1 & Hc1 & Hs1 & Hg1 & Hl1 & He1 & Hr1 & Ha1 & _);
    [by apply with_calls_ok|]. cbn [obind].
  destruct (open_alarm_channel_ok d1 H1) as (H2 & Hc2 & Hs2 & Hg2 & Hl2 & He2 & Hr2 & Ha2).
  cbn zeta. eapply leads_bind; [by apply replay_all_ok|]. intros [d3 r3] [H3 K3].
  destruct (publish_diag_state_ok d3 H3) as [H4 K4]. pose proof (keeps_trans _ _ _ K3 K4) as K.
  split; [done|]. pose proof K as [Kc Ks Kg Kr _ Kl _ Ka Ke Kp].
  split; [by rewrite Kc, Hc2, Hc1|by rewrite Ks, Hs2, Hs1|by rewrite Kg, Hg2, Hg1| | |by rewrite He2, He1 in Ke|by rewrite Hr2, Hr1 in Kp|done].
  - by rewrite Kl, Hl2, Hl1.
  - intros up _ Hp. assert (is_Some (ar_params d1)) as Hp'.
    { unfold ar_params. rewrite Hc1. apply Hp. by left. }
    split; [|done]. cbn. split; [done|]. intros _. apply Ha2 in Hp'.
    apply (fmap_is_Some ch_cfg). rewrite (kp_alarm _ _ K3). by apply fmap_is_Some.
Qed.

Lemma stop_runner_ok d :
  dv_ok d → dv_ok (set_channel (stop_runner d) None) ∧ dv_runner (stop_runner d) = None.
Proof.
  intros Hd. unfold stop_runner. destruct (dv_runner d) eqn:Hr; [|split; [|done]];
    destruct Hd; split; try done. split; try done; [apply image_for_clear|by intros []].
Qed.

Lemma dispatch_notify_ok abort ns : ∀ d now report,
  dv_ok d →
  leads (dispatch_notify abort d ns now report) (λ '(d', _), dv_ok d' ∧ notified d ns d').
Proof.
  induction ns as [|[s r] ns IH]; intros d now report Hd; cbn [dispatch_notify].
  { split; [done|]. apply notified_nil, keeps_refl. }
  set (d0 := with_calls d _).
  assert (dv_ok d0) as H0 by by apply with_calls_ok.
  assert (∀ d1 report1, dv_ok d1 → notified d [(s, r)] d1 →
    leads (dispatch_notify abort d1 ns now report1) (λ '(d', _), dv_ok d' ∧ notified d ((s, r) :: ns) d'))
    as Hgo.
  { intros d1 r1 H1 N1. eapply leads_mono; [by apply IH|]. intros [d2 ?] [? ?]. split; [done|].
    by eapply (notified_app d [(s, r)]). }
  assert (s ≠ Data ∨ is_Some r → s ≠ Idle ∨ r = None →
    leads (dispatch_notify abort d0 ns now report) (λ '(d', _), dv_ok d' ∧ notified d ((s, r) :: ns) d'))
    as Hother.
  { intros Hx Hy. apply Hgo; [done|]. split; try done. intros up Hup _. cbn.
    destruct s, r; try done; naive_solver. }
  destruct s, r as [reason|]; cbn [obind];
    try (apply Hother; [by (left + (right; eexists))|by (left + right)]).
  - apply Hgo; [by apply stop_runner_ok|].
    assert (dv_runner (stop_runner d0) = None) as Hr by by apply stop_runner_ok.
    split; try (unfold stop_runner; by destruct (dv_runner d0)).
    intros up _ _. split; cbn; [split; [by intros []|done]|]. rewrite Hr. by intros [].
  - eapply leads_bind; [by apply (on_data_notify_ok abort d now report Hd)|].
    intros [d1 r1] [H1 N1]. by apply Hgo.
Qed.

Lemma dispatch_ok fuel d out now report :
  dv_ok d →
  leads (dispatch (S fuel) d out now report) (λ '(d', _), dv_ok d' ∧ notified d (co_notify out) d').
Proof.
  intros Hd. cbn [dispatch]. eapply leads_bind; [by apply dispatch_send_ok|]. intros [d1 r1] [H1 K1].
  eapply leads_mono; [by apply dispatch_notify_ok|]. intros [d2 r2] [H2 N2]. split; [done|].
  eapply (notified_app d [] d1); [by apply notified_nil|done].
Qed.

(** The connection manager took a step along its life cycle, and the device
    followed. *)
Lemma dispatch_linked fuel d cm out now report :
  dv_ok d → wf_cm cm → cm_follows (dv_cm d) cm (co_notify out) →
  leads (dispatch (S fuel) (with_cm d cm) out now report)
    (λ '(d', _), dv_ok d' ∧ (linked d → linked d') ∧ notified (with_cm d cm) (co_notify out) d').
Proof.
  intros Hd Hcm [[ev Hl] Hm].
  assert (dv_ok (with_cm d cm)) as H1 by (destruct Hd; split; try done; cbn; congruence).
  eapply leads_mono; [by apply dispatch_ok|]. intros [d' r'] [H' N]. split_and!; [done| |done].
  intros Hlk. unfold linked, dv_state. rewrite (nt_cm _ _ _ N). cbn [dv_cm with_cm].
  unfold Cm_state at 1. fold (Cm_state cm). rewrite <-(lifecycle_up _ _ _ _ Hl).
  apply (nt_tied _ _ _ N); [exact Hlk|]. intros Hin. apply (lifecycle_data _ _ _ _ Hl) in Hin.
  unfold ar_params. cbn. apply fmap_is_Some. destruct Hcm as [[Har _] _].
  destruct (wf_ar_ctx _ Har) as (x & -> & _); [unfold Cm_state in Hin; by rewrite Hin|done].
Qed.

(** *** The stages of a step *)

(** The state of the AR as one who heard the notifications knows it. *)
Definition heard (st : ArState) (l : list (ArState * option AbortReason)) : ArState :=
  foldl (λ _ n, n.1) st l.

Lemma lifecycle_heard st ev st' ns :
  lifecycle st ev st' ns → heard (announced st) ns = announced st'.
Proof. by inversion 1; subst. Qed.

(** The application is told of the state changes, and without one the image
    and the cyclic thread are left alone. *)
Definition calm d d' : Prop :=
  ∃ l, dv_on_state_change d' = (λ c, c ++ l) <$> dv_on_state_change d ∧ (l = [] → same_io d d') ∧
    heard (announced (dv_state d)) l = announced (dv_state d').

Record goes d d' : Prop := {
  go_ok : dv_ok d';
  go_linked : linked d → linked d';
  go_setup : dv_setup d' = dv_setup d;
  go_eth : (eth_backlog (dv_eth d') ≤ eth_backlog (dv_eth d))%nat;
  go_rpc : (rpc_backlog (dv_rpc d') ≤ rpc_backlog (dv_rpc d))%nat;
  go_calm : calm d d'
}.

Lemma same_io_calm d d' :
  dv_on_state_change d' = dv_on_state_change d → dv_state d' = dv_state d → same_io d d' → calm d d'.
Proof.
  intros He Hst Hs. exists []. cbn. rewrite Hst. split; [|done]. rewrite He.
  destruct (dv_on_state_change d); cbn; [by rewrite app_nil_r|done].
Qed.
Lemma calm_trans d1 d2 d3 : calm d1 d2 → calm d2 d3 → calm d1 d3.
Proof.
  intros (l1 & H1 & S1 & O1) (l2 & H2 & S2 & O2). exists (l1 ++ l2). split_and!.
  - rewrite H2, H1. destruct (dv_on_state_change d1); cbn; [by rewrite app_assoc|done].
  - intros [?%S1 ?%S2]%app_nil. by eapply same_io_trans.
  - unfold heard in *. by rewrite foldl_app, O1.
Qed.
Lemma calm_told d d' : calm d d' → is_Some (dv_on_state_change d) →
  dv_on_state_change d' = dv_on_state_change d → same_io d d'.
Proof.
  intros (l & Hl & Hs & _) [c Hc] He. apply Hs. rewrite He, Hc in Hl. injection Hl as Hl.
  symmetry in Hl. apply (app_inv_head c). by rewrite app_nil_r.
Qed.

Lemma goes_refl d : dv_ok d → goes d d.
Proof. split; try done. by apply same_io_calm; [| |apply same_io_eq]. Qed.
Lemma goes_trans d1 d2 d3 : goes d1 d2 → goes d2 d3 → goes d1 d3.
Proof. intros [] []. split; [done|by auto|congruence|lia|lia|by eapply calm_trans]. Qed.
Lemma keeps_goes d d' : dv_ok d' → keeps d d' → goes d d'.
Proof.
  intros Hd K. pose proof K as []. split; [done|by apply keeps_linked|done..|].
  apply same_io_calm; [done|unfold dv_state; by rewrite kp_cm0|by apply same_io_eq].
Qed.

Lemma dispatch_goes fuel d cm out now report :
  dv_ok d → wf_cm cm → cm_follows (dv_cm d) cm (co_notify out) →
  leads (dispatch (S fuel) (with_cm d cm) out now report) (λ '(d', _), goes d d').
Proof.
  intros Hd Hcm Hf. eapply leads_mono; [by apply dispatch_linked|].
  intros [d' r'] (? & ? & [Hc]). split; try done. eexists. split_and!; [done|done|].
  destruct Hf as [[ev Hl] _]. unfold dv_state. rewrite Hc. by eapply lifecycle_heard.
Qed.

(** The device after the AR is gone. *)
Definition torn d (reason : AbortReason) : Device E R :=
  set_channel (stop_runner (with_calls d
    ((λ l, l ++ [(Idle, Some reason)]) <$> dv_on_state_change d))) None.

Lemma dispatch_idle fuel d reason now report :
  dispatch (S fuel) d {| co_send := []; co_notify := [(Idle, Some reason)]; co_persist := [] |} now report
  = Ok (torn d reason, report).
Proof. done. Qed.

(** An abort: the ERR-RTA if there is a channel to send it on, then the end of
    the AR. *)
Lemma abort_in_spec d reason now report :
  dv_ok d →
  ∃ cm, wf_cm cm ∧ Cm_state cm = Idle ∧ ar_model (cm_ar cm) = su_model (dv_setup d) ∧
  abort_in d reason now report =
    (let! d := match err_rta_code2 reason, dv_alarm d with
               | Some code2, Some ch => dv_send d (err_rta ch (rta_abort code2))
               | _, _ => Ok d
               end in
     Ok (if decide (dv_state d = Idle) then with_cm d cm else torn (with_cm d cm) reason, report)).
Proof.
  intros Hd. destruct (Cm_abort_ok (E := DeviceError * Device E R) (dv_cm d) reason now (do_cm d Hd))
    as (cm & Hab & Hwf & Hs & Hm). exists cm. split_and!; [done|done|by rewrite Hm, (do_model d Hd)|].
  unfold abort_in, abort_with_err_rta_in.
  assert (∀ d1, dv_cm d1 = dv_cm d →
    (let! (cm0, out) := Cm_abort (dv_cm d1) reason now in
     dispatch_in (with_cm d1 cm0) out now report) =
    Ok (if decide (dv_state d1 = Idle) then with_cm d1 cm else torn (with_cm d1 cm) reason, report)) as Ha.
  { intros d1 Hc. rewrite Hc, Hab. cbn [obind]. unfold dv_state. rewrite Hc.
    by destruct (decide (Cm_state (dv_cm d) = Idle)). }
  destruct (err_rta_code2 reason) as [code2|]; [|by apply Ha].
  destruct (dv_alarm d) as [ch|]; [|by apply Ha].
  unfold dv_send. destruct (eth_send _ _) as [e|[x e]|]; [|done|done]. cbn [obind]. by apply Ha.
Qed.

Lemma torn_goes d cm reason :
  dv_ok d → wf_cm cm → Cm_state cm = Idle → ar_model (cm_ar cm) = su_model (dv_setup d) →
  goes d (torn (with_cm d cm) reason) ∧ dv_runner (torn (with_cm d cm) reason) = None ∧
  linked (torn (with_cm d cm) reason).
Proof.
  intros Hd Hwf Hs Hm. unfold torn. set (d1 := with_calls (with_cm d cm) _).
  assert (dv_ok d1) as H1 by (destruct Hd; by split).
  destruct (stop_runner_ok d1 H1) as [H2 Hr].
  assert (dv_state (set_channel (stop_runner d1) None) = Idle) as Hi.
  { unfold dv_state, stop_runner. by destruct (dv_runner d1). }
  assert (linked (set_channel (stop_runner d1) None)) as Hl.
  { unfold linked. rewrite Hi. split; cbn; [split; [by intros []|done]|]. rewrite Hr. by intros []. }
  split_and!; [|done|done]. split; [done|done|..]; [| | |eexists [_]; split_and!; [|done|]];
    try (unfold stop_runner; by destruct (dv_runner d1)). by rewrite Hi.
Qed.

Lemma abort_in_ok d reason now report :
  dv_ok d →
  leads (abort_in d reason now report)
    (λ '(d', _), goes d d' ∧ dv_state d' = Idle ∧ (dv_runner d' = None ∨ dv_runner d' = dv_runner d)).
Proof.
  intros Hd. destruct (abort_in_spec d reason now report Hd) as (cm & Hwf & Hs & Hm & ->).
  eapply (leads_bind _ _ (λ d', dv_ok d' ∧ keeps d d')).
  { destruct (err_rta_code2 reason), (dv_alarm d); try (by split; [|apply keeps_refl]). by apply dv_send_ok. }
  intros d1 [H1 K1]. cbn [leads]. pose proof K1 as [_ Ks _ Kr _ _ _ _ _ _]. rewrite <-Ks in Hm.
  pose proof (keeps_goes d d1 H1 K1) as G1. case_decide as Hi.
  - split_and!; [|done|by right]. eapply goes_trans; [exact G1|].
    split; try done; [destruct H1; by split| |apply same_io_calm; [done|by rewrite Hi|by apply same_io_eq]].
    unfold linked, dv_state in *. cbn. by rewrite Hi, Hs.
  - destruct (torn_goes d1 cm reason H1 Hwf Hs Hm) as (G2 & Hr & _).
    split_and!; [by eapply goes_trans| |by left]. unfold dv_state, torn, stop_runner.
    by destruct (dv_runner _).
Qed.

Lemma with_runner_ok d h :
  dv_ok d → (is_Some h → is_Some (dv_runner d)) → dv_ok (with_runner d (dv_image d) h).
Proof. intros [] Hh. split; try done. cbn. auto. Qed.

Lemma with_handle_goes d h h' :
  dv_ok d → dv_runner d = Some h → took h h' → goes d (with_runner d (dv_image d) (Some h')).
Proof.
  intros Hd Hr Ht. assert (is_Some (Some h') ↔ is_Some (dv_runner d)) as Hs by by rewrite Hr.
  split; cbn; [apply with_runner_ok; [done|apply Hs]| |done|done|done|].
  2: { apply same_io_calm; [done|done|]. split; [done|]. cbn. rewrite Hr. by constructor. }
  intros [? Hl]. split; [done|]. intros ?. by apply Hl, Hs.
Qed.

Lemma drain_rt_events_ok fuel : ∀ d now report,
  dv_ok d → (∀ h, dv_runner d = Some h → length (sh_events h) < fuel)%nat → (0 < fuel)%nat →
  leads (drain_rt_events fuel d now report) (λ '(d', _), goes d d').
Proof.
  induction fuel as [|fuel IH]; intros d now report Hd Hf Hpos; [lia|]. cbn [drain_rt_events].
  destruct (dv_runner d) as [h|] eqn:Hr; [|by apply goes_refl]. specialize (Hf h eq_refl).
  pose proof (took_event h) as Htook. unfold take_event in *.
  destruct (sh_events h) as [|ev evs]; [|set (h' := {| sh_events := evs |}) in *].
  - by apply (with_handle_goes d h).
  - set (d1 := with_runner d (dv_image d) (Some h')).
    assert (goes d d1) as G1 by by apply (with_handle_goes d h).
    cbn in Hf. eapply (leads_bind _ _ (λ '(d', _), goes d d' ∧ (dv_runner d' = None ∨ dv_runner d' = Some h'))).
    + destruct ev; cbn [on_rt_event]; try (by split; [|right]);
        (eapply leads_mono; [apply abort_in_ok; apply G1|]; intros [d2 r2] (G2 & _ & Hr2);
         split; [by eapply goes_trans|exact Hr2]).
    + intros [d2 r2] [G2 Hr2]. eapply leads_mono; [apply IH; [apply G2| |lia]|].
      * intros h2 Hh2. destruct Hr2 as [Hr2|Hr2]; rewrite Hr2 in Hh2; [done|]. injection Hh2 as <-. cbn. lia.
      * intros [d3 r3] G3. by eapply goes_trans.
Qed.

Definition pending_ok (p : list (Z * list AlarmAction)) : Prop := Forall (λ b, batch_ok b.2) p.

Lemma pending_ok_push p epoch a : pending_ok p → batch_ok a →
  pending_ok (match a with [] => p | _ => p ++ [(epoch, a)] end).
Proof. intros Hp Ha. destruct a; [done|]. apply Forall_app_2; [done|]. by apply Forall_singleton. Qed.

Lemma is_alarm_frame_Ok {X} frame : ∃ b, is_alarm_frame (E := X) frame = Ok b.
Proof.
  unfold is_alarm_frame. pose proof (EthHeader_parse_no_panic frame) as Hnp.
  destruct (EthHeader_parse frame) as [[h off]|e|]; [|by eexists|done].
  case_decide as Hl; [|by eexists]. unfold be16_at, idx. destruct Hl as [_ Hl].
  destruct (lookup_lt_is_Some_2 frame off ltac:(lia)) as [x ->].
  destruct (lookup_lt_is_Some_2 frame (off + 1) ltac:(lia)) as [y ->]. by eexists.
Qed.

Lemma on_eth_frame_ok d frame now pending :
  dv_ok d → Forall u8 frame → pending_ok pending →
  leads (on_eth_frame d frame now pending) (λ '(d', p'), goes d d' ∧ pending_ok p').
Proof.
  intros Hd H8 Hp. unfold on_eth_frame.
  destruct (is_alarm_frame_Ok (X := DeviceError * Device E R) frame) as [[] ->]; cbn [obind].
  - case_decide; [by split; [apply goes_refl|]|]. destruct (dv_alarm d) as [ch|] eqn:Ha.
    + destruct (do_alarm d Hd ch Ha) as [Hi Hw].
      destruct (on_frame_refines (E := DeviceError * Device E R) ch Hi Hw frame now H8)
        as (ev & [ch' a] & _ & He & Hi' & Hc' & _). rewrite He. cbn [obind].
      cbn in Hi', Hc'. apply on_frame_batch in He.
      destruct (set_channel_ok d ch ch' Hd Ha Hi' Hc' (dv_next_alarm_id d)) as [H1 K1].
      split; [by apply keeps_goes|by apply pending_ok_push].
    + split; [|done]. apply keeps_goes; [destruct Hd; by split|by split].
  - pose proof (handle_dcp_frame_no_panic frame (su_dcp (dv_setup d))) as Hnp.
    destruct (handle_dcp_frame _ _) as [[resp|]|e|]; [|by split; [apply goes_refl|]..|done].
    eapply leads_bind; [by apply dv_send_ok|]. intros d1 [H1 K1]. split; [by apply keeps_goes|done].
Qed.

Lemma drain_eth_ok fuel : ∀ d now pending report,
  dv_ok d → pending_ok pending → (eth_backlog (dv_eth d) < fuel)%nat →
  leads (drain_eth fuel d now pending report) (λ '(d', p', _), goes d d' ∧ pending_ok p').
Proof.
  induction fuel as [|fuel IH]; intros d now pending report Hd Hp Hf; [lia|]. cbn [drain_eth].
  pose proof (eth_recv_total (dv_eth d) (Some 0) (do_eth d Hd)) as Hnp.
  destruct (eth_recv (dv_eth d) (Some 0)) as [[e [frame|]]|[x e]|] eqn:Hr; [| | |done].
  - apply eth_recv_Ok in Hr as (He & H8 & _ & Hb); [|apply Hd].
    assert (goes d (with_eth d e)) as G1 by (split; try done; [by apply with_eth_ok|cbn; lia|by apply same_io_calm; [| |apply same_io_eq]]).
    eapply leads_bind; [apply on_eth_frame_ok; [apply G1|done|done]|]. intros [d2 p2] [G2 Hp2].
    eapply leads_mono; [apply IH; [apply G2|done|]|].
    + pose proof (go_eth _ _ G2). cbn in *. lia.
    + intros [[d3 p3] ?] [G3 Hp3]. split; [|done]. eapply goes_trans; [exact G1|]. by eapply goes_trans.
  - apply eth_recv_Ok in Hr as (He & Hb); [|apply Hd]. cbn. split; [|done].
    split; try done; [by apply with_eth_ok|by apply same_io_calm; [| |apply same_io_eq]].
  - cbn. apply with_eth_ok; [done|]. unfold eth_recv in Hr.
    destruct (eth_recv_into _ _ _) as [[[? ?] ?]|[? ?]|] eqn:Hi; try done.
    apply eth_recv_into_err in Hi as [? _]; [|apply Hd]. by injection Hr as <- <-.
Qed.

Lemma drain_rpc_ok fuel : ∀ d now report,
  dv_ok d → (rpc_backlog (dv_rpc d) < fuel)%nat →
  leads (drain_rpc fuel d now report) (λ '(d', _), goes d d').
Proof.
  induction fuel as [|fuel IH]; intros d now report Hd Hf; [lia|]. cbn [drain_rpc].
  pose proof (rpc_recv_total (dv_rpc d) (Some 0) (do_rpc d Hd)) as Hnp.
  destruct (rpc_recv (dv_rpc d) (Some 0)) as [[r [[buf from]|]]|[x r]|] eqn:Hr; [| | |done].
  - apply rpc_recv_wf in Hr as (Hw & H8 & Hb); [|apply Hd].
    assert (goes d (with_rpc d r)) as G1 by (split; try done; [by apply with_rpc_ok|cbn; lia|by apply same_io_calm; [| |apply same_io_eq]]).
    eapply (leads_bind _ _ (λ '(d', _), goes (with_rpc d r) d')).
    + destruct (Cm_step_ok (dv_cm d) (InDatagram buf from now) (do_cm d Hd) H8)
        as [(e & Hs & _)|(cm & out & Hs & Hwf & _ & Hf')]; cbn [Cm_step] in Hs; cbn [dv_cm with_rpc]; rewrite Hs.
      * by apply goes_refl, G1.
      * by apply (dispatch_goes 1 (with_rpc d r)); [apply G1|..].
    + intros [d2 r2] G2. eapply leads_mono; [apply IH; [apply G2|]|].
      * pose proof (go_rpc _ _ G2). cbn in *. lia.
      * intros [d3 ?] G3. eapply goes_trans; [exact G1|]. by eapply goes_trans.
  - apply rpc_recv_wf in Hr as (Hw & Hb); [|apply Hd]. cbn.
    split; try done; [by apply with_rpc_ok|by apply same_io_calm; [| |apply same_io_eq]].
  - apply rpc_recv_err in Hr as [? _]; [|apply Hd]. cbn. by apply with_rpc_ok.
Qed.

(** Within [drain_diag_queue] the published view lags behind the store; it is
    the device with the view published that is in order. *)
Lemma queue_notification_publish {X} d n now :
  queue_notification (X := X) (publish_diag_state d) n now =
  (let! (d', acts) := queue_notification d n now in Ok (publish_diag_state d', acts)).
Proof.
  unfold queue_notification. cbn [dv_alarm publish_diag_state with_diag dv_next_alarm_id].
  destruct (dv_alarm d) as [ch|]; [|done]. destruct (next_specifier_sequence ch) as [ch1 seq].
  by destruct (enqueue _ _ _) as [[ch2 acts]| |].
Qed.

Lemma with_diag_goes d st :
  dv_ok (publish_diag_state d) → dg_inv st →
  goes (publish_diag_state d) (publish_diag_state (with_diag d st (dv_shared d) (dv_problem d))).
Proof. intros [] ?. split; try done. by apply same_io_calm; [| |apply same_io_eq]. Qed.

Lemma apply_command_ok {X} d cmd now pending :
  dv_ok (publish_diag_state d) → pending_ok pending →
  ∃ d' p', apply_command (X := X) d cmd now pending = Ok (d', p') ∧
    goes (publish_diag_state d) (publish_diag_state d') ∧ pending_ok p'.
Proof.
  intros Hd Hp. unfold apply_command.
  destruct (match cmd with DcRaise dg => _ | DcClear _ _ _ => _ end) as [st n] eqn:Hst.
  assert (dg_inv st) as Hg.
  { pose proof (do_diag _ Hd) as Hg. cbn in Hg. destruct cmd as [dg|slot channel error].
    - pose proof (ds_raise_spec _ dg Hg) as Hr. rewrite Hst in Hr. apply Hr.
    - pose proof (ds_clear_spec _ slot channel error Hg) as Hr. rewrite Hst in Hr. apply Hr. }
  pose proof (with_diag_goes d st Hd Hg) as G1. destruct n as [n|]; [|by do 2 eexists].
  set (d1 := with_diag d st _ _) in *.
  destruct (queue_notification_ok (X := X) (publish_diag_state d1) n now (go_ok _ _ G1))
    as (d2 & acts & Hq & H2 & K2 & Hs & _). rewrite queue_notification_publish in Hq.
  destruct (queue_notification d1 n now) as [[d2' acts']| |]; try done. injection Hq as <- ->.
  cbn [obind]. do 2 eexists. split_and!; [done| |].
  - eapply goes_trans; [exact G1|]. by apply keeps_goes.
  - apply pending_ok_push; [done|by left].
Qed.

Lemma apply_commands_ok {X} cmds : ∀ d now pending,
  dv_ok (publish_diag_state d) → pending_ok pending →
  ∃ d' p', apply_commands (X := X) d cmds now pending = Ok (d', p') ∧
    goes (publish_diag_state d) (publish_diag_state d') ∧ pending_ok p'.
Proof.
  induction cmds as [|cmd cmds IH]; intros d now pending Hd Hp; cbn [apply_commands].
  { do 2 eexists. split_and!; [done|by apply goes_refl|done]. }
  destruct (apply_command_ok (X := X) d cmd now pending Hd Hp) as (d1 & p1 & -> & G1 & Hp1). cbn [obind].
  destruct (IH d1 now p1 (go_ok _ _ G1) Hp1) as (d2 & p2 & -> & G2 & Hp2).
  do 2 eexists. split_and!; [done|by eapply goes_trans|done].
Qed.

Lemma drain_diag_queue_ok {X} d now pending :
  dv_ok d → pending_ok pending →
  ∃ d' p', drain_diag_queue (X := X) d now pending = Ok (d', p') ∧ goes d d' ∧ pending_ok p'.
Proof.
  intros Hd Hp. unfold drain_diag_queue. set (d0 := set_shared d _).
  assert (goes d d0) as G0 by (apply keeps_goes; [destruct Hd; by split|by split]).
  destruct (dh_queue (dv_shared d)) as [|cmd cmds]; [by do 2 eexists|].
  assert (goes d0 (publish_diag_state d0)) as G1.
  { destruct (publish_diag_state_ok d0 (go_ok _ _ G0)). by apply keeps_goes. }
  destruct (apply_commands_ok (X := X) (cmd :: cmds) d0 now pending (go_ok _ _ G1) Hp)
    as (d2 & p2 & -> & G2 & Hp2). cbn [obind]. do 2 eexists. split_and!; [done| |done].
  eapply goes_trans; [exact G0|]. by eapply goes_trans.
Qed.

Lemma apply_pending_ok p : ∀ d now report,
  dv_ok d → pending_ok p → leads (apply_pending d p now report) (λ '(d', _), goes d d').
Proof.
  induction p as [|[epoch batch] p IH]; intros d now report Hd Hp; cbn [apply_pending];
    [by apply goes_refl|]. apply Forall_cons_1 in Hp as [Hb Hp].
  eapply (leads_bind _ _ (λ '(d', _), goes d d')).
  - destruct Hb as [Hs|[reason Hr]]; cbn in *.
    + eapply leads_mono; [by apply apply_sends_ok|]. intros [d1 ?] [? ?]. by apply keeps_goes.
    + subst batch. unfold apply_alarm_actions. case_decide; [by apply goes_refl|]. cbn [alarm_actions].
      eapply (leads_bind _ _ (λ '(d', _), goes d d')).
      * eapply leads_bind; [by apply abort_in_ok|]. by intros [d1 ?] (? & _).
      * intros [d1 r1] G1. destruct (publish_alarm_stats_ok d1 (go_ok _ _ G1)).
        eapply goes_trans; [exact G1|]. by apply keeps_goes.
  - intros [d1 r1] G1. eapply leads_mono; [apply IH; [apply G1|done]|]. intros [d2 ?] ?. by eapply goes_trans.
Qed.

(** One step of the loop. *)
Lemma dv_step_ok d env now wait :
  dv_ok d → leads (dv_step d env now wait) (λ '(d', _), goes d d').
Proof.
  intros Hd. unfold dv_step. eapply (leads_bind _ _ (λ _, True)).
  { unfold wait_ready. destruct (eth_raw_fd (dv_eth d)), (rpc_raw_fd (dv_rpc d)); try done. by destruct (sv_poll env _ _). }
  clear now. intros now _.
  eapply leads_bind; [apply drain_eth_ok; [done|constructor|lia]|]. intros [[d1 p1] r1] [G1 Hp1].
  destruct (publish_alarm_stats_ok d1 (go_ok _ _ G1)) as [H1' K1].
  pose proof (goes_trans _ _ _ G1 (keeps_goes _ _ H1' K1)) as G1'.
  destruct (drain_diag_queue_ok (X := DeviceError * Device E R) _ now p1 H1' Hp1) as (d2 & p2 & -> & G2 & Hp2).
  cbn [obind]. pose proof (goes_trans _ _ _ G1' G2) as G2'.
  eapply leads_bind; [apply drain_rpc_ok; [apply G2|lia]|]. intros [d3 r3] G3.
  eapply leads_bind; [apply drain_rt_events_ok; [apply G3| |lia]|].
  { intros h Hh. rewrite Hh. lia. }
  intros [d4 r4] G4.
  destruct (silent_step (E := DeviceError * Device E R) (dv_cm d4) EvTick now (do_cm _ (go_ok _ _ G4)) I eq_refl)
    as (cm & out & Ht & Hwf & _ & Hf). fold (Cm_tick (E := DeviceError * Device E R) (dv_cm d4) now) in Ht.
  rewrite Ht. cbn [obind].
  eapply leads_bind; [by apply (dispatch_goes 1); [apply G4|..]|]. intros [d5 r5] G5.
  eapply (leads_bind _ _ (λ '(d', p'), goes d5 d' ∧ pending_ok p')).
  { destruct (dv_alarm d5) as [ch|] eqn:Ha; [|by split; [apply goes_refl, G5|]].
    destruct (do_alarm _ (go_ok _ _ G5) ch Ha) as [Hi Hw].
    destruct (on_tick_refines (E := DeviceError * Device E R) ch Hi Hw now) as (ev & [ch' a] & _ & He & Hi' & Hc' & _).
    rewrite He. cbn [obind]. cbn in Hi', Hc'. apply on_tick_batch in He.
    destruct (set_channel_ok d5 ch ch' (go_ok _ _ G5) Ha Hi' Hc' (dv_next_alarm_id d5)) as [H6 K6].
    split; [by apply keeps_goes|by apply pending_ok_push]. }
  intros [d6 p6] [G6 Hp6]. destruct (publish_alarm_stats_ok d6 (go_ok _ _ G6)) as [H7 K7].
  eapply leads_mono; [by apply apply_pending_ok|]. intros [d8 r8] G8.
  eapply goes_trans; [exact G2'|]. eapply goes_trans; [exact G3|]. eapply goes_trans; [exact G4|].
  eapply goes_trans; [exact G5|]. eapply goes_trans; [exact G6|].
  eapply goes_trans; [by apply keeps_goes|done].
Qed.

(** ** Runs of a device *)

Lemma Device_new_ok eth rpc read factory :
  wf_model (su_model su) → wf_uuid (su_activity_seed su) → wf_mac (dc_mac (su_dcp su)) →
  eth_wf eth → rpc_wf rpc →
  dv_ok (Device_new su eth rpc read factory) ∧ linked (Device_new su eth rpc read factory).
Proof.
  intros Hm Hu Hmac He Hr. split.
  - split; try done.
    + destruct (wf_Cm_new _ _ Hm Hu) as [(? & ? & _ & ? & ? & ? & ?) [? ?]]. split; [|done].
      split_and!; try done. apply wf_ImStore_load.
    + split_and!; [constructor..|by left].
    + by intros [].
  - split; cbn; [split; [by intros []|done]|by intros []].
Qed.
End invariant.
Arguments dv_ok {E R _ _ _ _} su d.
Arguments leads {E R _ _ _ _} su {A} m P.
Arguments goes {E R _ _ _ _} su d d'.

(** What happens to a device: an iteration of [run], or something from another
    thread, between two of them. *)
Inductive DvOp :=
| DoStep (env : StepEnv) (now : Z)
| DoAbort (reason : AbortReason) (now : Z)
| DoCommand (cmd : DiagCommand)
| DoWrite (slot subslot : Z) (bytes : list Z)
| DoRtEvent (ev : RtEvent)
| DoRtPublish (csdu : list Z) (v : Validity).

(** What the other threads write is octets. *)
Definition wf_op (op : DvOp) : Prop :=
  match op with
  | DoWrite _ _ bytes => Forall u8 bytes
  | DoRtPublish csdu _ => Forall u8 csdu
  | _ => True
  end.

Section runs.
Context `{EthTransport E} `{RpcTransport R}.
Implicit Types d : Device E R.

(** device/mod.rs:343-343 Device::run *)
Definition RUN_POLL : Z := 200000000.

Definition dv_op d (op : DvOp) : outcome (DeviceError * Device E R) (Device E R) :=
  match op with
  | DoStep env now =>
    let! (d, _) := dv_step d env now (Some (poll_interval d RUN_POLL)) in Ok d
  | DoAbort reason now => abort_with_err_rta d reason now
  | DoCommand cmd =>
    let sh := dv_shared d in
    Ok (set_shared d {| dh_queue := dh_queue sh ++ [cmd]; dh_active := dh_active sh;
                        dh_stats := dh_stats sh; dh_rx_no_channel := dh_rx_no_channel sh |})
  | DoWrite slot subslot bytes =>
    match write_inputs (dv_image d) slot subslot bytes with
    | Ok img => Ok (with_runner d img (dv_runner d))
    | Err _ => Ok d
    | Panic => Panic
    end
  | DoRtEvent ev => Ok (with_runner d (dv_image d) ((λ h, push_event h ev) <$> dv_runner d))
  | DoRtPublish csdu v =>
    match dv_runner d with
    | Some _ =>
      let! (img, _) := rt_publish (dv_image d) false csdu v in
      Ok (with_runner d img (dv_runner d))
    | None => Ok d
    end
  end.

(** The loop of [run] while the stop flag is clear. *)
Fixpoint dv_ops d (ops : list DvOp) : outcome (DeviceError * Device E R) (Device E R) :=
  match ops with
  | [] => Ok d
  | op :: ops => let! d := dv_op d op in dv_ops d ops
  end.

(** device/mod.rs:339-347 Device::run *)
Definition dv_run d (ops : list DvOp) (now : Z) : outcome (DeviceError * Device E R) (Device E R) :=
  let! d := dv_ops d ops in shutdown d now.

(** A caller that goes on after a transport error. *)
Fixpoint dv_persist d (ops : list DvOp) : outcome Empty_set (Device E R) :=
  match ops with
  | [] => Ok d
  | op :: ops =>
    match dv_op d op with
    | Ok d | Err (_, d) => dv_persist d ops
    | Panic => Panic
    end
  end.
End runs.

Section run_lemmas.
#[local] Set Default Proof Using "Type*".
Context {E R : Type} `{!EthTransport E, EthL : !EthTransportLaws E}
  `{!RpcTransport R, RpcL : !RpcTransportLaws R}.
Implicit Types d : Device E R.

Context {su : DeviceSetup}.

(** What an operation of any thread leaves in place. *)
Record reaches d d' : Prop := {
  re_ok : dv_ok su d';
  re_linked : linked d → linked d';
  re_setup : dv_setup d' = dv_setup d
}.
Lemma goes_reaches d d' : goes su d d' → reaches d d'.
Proof. by intros []. Qed.
Lemma reaches_trans d1 d2 d3 : reaches d1 d2 → reaches d2 d3 → reaches d1 d3.
Proof. intros [] []. split; [done|by auto|congruence]. Qed.
Lemma reaches_refl d : dv_ok su d → reaches d d.
Proof. by split. Qed.

Lemma with_image_reaches d img h :
  dv_ok su d → image_for (su_model (dv_setup d)) img →
  (laid_out (su_model (dv_setup d)) (dv_image d) → laid_out (su_model (dv_setup d)) img) →
  is_Some h ↔ is_Some (dv_runner d) → reaches d (with_runner d img h).
Proof.
  intros Hd Hi Hl Hh. split; try done.
  - destruct Hd; split; try done. cbn. intros ?%Hh. auto.
  - intros [? Hk]. split; [done|]. cbn. intros ?. by apply Hk, Hh.
Qed.

(** Writing and publishing octets keeps the image. *)
Lemma write_inputs_for model img slot sub bytes img' :
  Forall u8 bytes → image_for model img → write_inputs img slot sub bytes = Ok img' →
  image_for model img' ∧ (laid_out model img → laid_out model img').
Proof.
  intros Hb (Hi & Hc & Hl) Hw.
  destruct (write_inputs_Ok _ _ _ _ _ Hw) as (c & off & _ & _ & _ & Hcopy & Hcells & Hcs & _).
  assert (laid_out model img → laid_out model img') as Hlaid.
  { intros (params & la & Hla & Him). exists params, la. split; [done|]. by eapply write_inputs_im_ok. }
  split; [|done]. split_and!; [|by rewrite Hcs|].
  - apply copy_at_Ok in Hcopy as [_ ->]. rewrite !Forall_app.
    split_and!; [by apply Forall_take|done|by apply Forall_drop].
  - destruct Hl as [Hl|Hl]; [left; by rewrite Hcells|right; auto].
Qed.

Lemma rt_publish_for {X} model img csdu v busy :
  Forall u8 csdu → image_for model img →
  ∃ img' ok, rt_publish (E := X) img busy csdu v = Ok (img', ok) ∧ image_for model img' ∧
    (laid_out model img → laid_out model img').
Proof.
  intros Hb (Hi & Hc & Hl). unfold rt_publish. destruct busy; [by exists img, false|].
  unfold copy_front, slice, copy_at. rewrite decide_True by lia. cbn [obind].
  rewrite decide_True by (rewrite length_take, length_drop; lia). cbn [obind]. eexists _, true. split; [done|].
  set (c := _ ++ _). assert (length c = length (im_csdu img)) as Hlen.
  { unfold c. rewrite !length_app, !length_take, !length_drop. lia. }
  assert (laid_out model img → laid_out model
    {| im_cells := im_cells img; im_inputs := im_inputs img; im_csdu := c; im_validity := v |}) as Hlaid.
  { intros (params & la & Hla & [? ? ?]). exists params, la. split; [done|]. split; cbn; congruence. }
  split; [|done]. split_and!; [done| |].
  - cbn. unfold c. rewrite !Forall_app. split_and!; repeat first [apply Forall_take|apply Forall_drop]; done.
  - destruct Hl as [Hl|Hl]; [by left|right; auto].
Qed.

Lemma copy_front_Ok {X} dst src : ∃ b, copy_front (E := X) dst src = Ok b.
Proof.
  unfold copy_front, slice, copy_at. rewrite decide_True by lia. cbn [obind].
  rewrite decide_True; [by eexists|]. rewrite length_take, length_drop. lia.
Qed.

Lemma dv_op_ok d op : dv_ok su d → wf_op op → leads su (dv_op d op) (reaches d).
Proof.
  intros Hd Hop. destruct op as [env now|reason now|cmd|slot sub bytes|ev|csdu v]; cbn [dv_op].
  - eapply leads_bind; [by apply dv_step_ok|]. intros [d' ?] ?. by apply goes_reaches.
  - unfold abort_with_err_rta. eapply leads_bind; [by apply abort_in_ok|]. intros [d' ?] (? & _). by apply goes_reaches.
  - apply goes_reaches, keeps_goes; [destruct Hd; by split|by split].
  - pose proof (write_inputs_total (dv_image d) slot sub bytes) as Hnp.
    destruct (write_inputs _ _ _ _) as [img| |] eqn:Hw; [|by apply reaches_refl|done].
    destruct (write_inputs_for _ _ _ _ _ _ Hop (do_image d Hd) Hw). by apply with_image_reaches.
  - apply with_image_reaches; [done|apply Hd|done|]. apply fmap_is_Some.
  - destruct (dv_runner d) as [h|] eqn:Hr; [|by apply reaches_refl].
    destruct (rt_publish_for (X := DeviceError * Device E R) _ _ csdu v false Hop (do_image d Hd))
      as (img & ok & -> & ? & ?).
    cbn [obind]. apply with_image_reaches; [done..|]. by rewrite Hr.
Qed.

Lemma dv_ops_ok ops : ∀ d, dv_ok su d → Forall wf_op ops → leads su (dv_ops d ops) (reaches d).
Proof.
  induction ops as [|op ops IH]; intros d Hd Ho; cbn [dv_ops]; [by apply reaches_refl|].
  apply list.Forall_cons in Ho as [Ho Hos].
  eapply leads_bind; [by apply dv_op_ok|]. intros d1 G1.
  eapply leads_mono; [apply IH; [apply G1|done]|]. intros d2 ?. by eapply reaches_trans.
Qed.

Lemma dv_persist_ok ops : ∀ d, dv_ok su d → Forall wf_op ops → ∃ d', dv_persist d ops = Ok d' ∧ dv_ok su d'.
Proof.
  induction ops as [|op ops IH]; intros d Hd Hos; cbn [dv_persist]; [by eexists|].
  apply list.Forall_cons in Hos as [Hop Hos].
  pose proof (dv_op_ok d op Hd Hop) as Ho. destruct (dv_op d op) as [d1|[x d1]|]; [| |done];
    apply IH; try done. apply Ho.
Qed.

(** ** The end of an AR *)

(** What an abort puts on the wire. *)
Definition announced_on d (reason : AbortReason) : list (list Z) :=
  match err_rta_code2 reason, dv_alarm d with
  | Some code2, Some ch => [err_rta ch (rta_abort code2)]
  | _, _ => []
  end.

(** The AR is gone and everything that lived with it; the application sees
    stale outputs and no submodules. *)
Definition ar_ended d (reason : AbortReason) d' : Prop :=
  dv_state d' = Idle ∧ dv_alarm d' = None ∧ dv_runner d' = None ∧
  dv_on_state_change d' = (λ l, l ++ [(Idle, Some reason)]) <$> dv_on_state_change d ∧
  (is_Some (dv_runner d) →
   freshness (im_validity (dv_image d')) = FrStale ∧ im_cells (dv_image d') = []).

Lemma torn_ended d d1 cm reason :
  Cm_state cm = Idle → keeps d d1 → ar_ended d reason (torn (with_cm d1 cm) reason).
Proof.
  intros Hs K. pose proof K as [_ _ _ Hr Hi Hc _ _ _ _]. unfold ar_ended, torn, stop_runner, dv_state.
  cbn [dv_runner with_calls with_cm]. rewrite Hr.
  destruct (dv_runner d) eqn:Hd; cbn; rewrite Hc; split_and!; try done; by intros [].
Qed.

Lemma err_rta_parses ch code2 :
  ch_inv ch → wf_cfg (ch_cfg ch) → u8 code2 →
  parse_frame (err_rta ch (rta_abort code2)) = Ok (err_pdu ch (rta_abort code2)).
Proof.
  intros [[_ Hs _ _ Hrx _] _] (Hl & Hr & _ & _ & Hp & Ho) Hc.
  rewrite <-(app_nil_r (err_rta _ _)). apply parse_frame_at; [done..|].
  apply seq_ok_fresh in Hs as [? _]. split_and!; [by split_and!|done|].
  unfold wf_status, rta_abort, PnioStatus_new, from_be32, u8, u32 in *. cbn -[Z.mul Z.add]. lia.
Qed.

Lemma err_rta_code2_u8 reason code2 : err_rta_code2 reason = Some code2 → u8 code2.
Proof. destruct reason; intros [= <-]; by_decide. Qed.

(** The frames of an abort can be read by the controller. *)
Lemma announced_parses d reason frame :
  dv_ok su d → frame ∈ announced_on d reason →
  ∃ ch code2, dv_alarm d = Some ch ∧ err_rta_code2 reason = Some code2 ∧
    parse_frame frame = Ok (err_pdu ch (rta_abort code2)).
Proof.
  intros Hd. unfold announced_on. destruct (err_rta_code2 reason) as [code2|] eqn:Hc; [|by intros ?%elem_of_nil].
  destruct (dv_alarm d) as [ch|] eqn:Ha; [|by intros ?%elem_of_nil]. intros ->%list_elem_of_singleton.
  exists ch, code2. split_and!; [done..|]. destruct (do_alarm d Hd ch Ha).
  apply err_rta_parses; [done..|]. by eapply err_rta_code2_u8.
Qed.
End run_lemmas.
Arguments reaches {E R _ _ _ _} su d d'.

Section aborts.
#[local] Set Default Proof Using "Type*".
Context {E R : Type} `{!EthTransport E, EthL : !EthTransportLaws E}
  `{!RpcTransport R, RpcL : !RpcTransportLaws R}.
Context {su : DeviceSetup}.
Implicit Types d : Device E R.

(** The frames go out one after the other, until one is refused. *)
Fixpoint send_all (e : E) (frames : list (list Z)) : outcome (TransportError * E) E :=
  match frames with
  | [] => Ok e
  | f :: frames => let! e := eth_send e f in send_all e frames
  end.

(** The AR, its channel, its thread and what the application sees are as they
    were. *)
Definition ar_kept d d' : Prop :=
  dv_state d' = dv_state d ∧ dv_alarm d' = dv_alarm d ∧ (is_Some (dv_runner d') ↔ is_Some (dv_runner d)) ∧
  dv_on_state_change d' = dv_on_state_change d ∧ dv_image d' = dv_image d.

(** What an abort for [reason] makes of an AR that is up, and what [m] returns
    for it: the end of the AR with the frame of the abort sent; or, if the
    transport refuses that frame, its error, with the AR still up. *)
Definition aborts {A} d (reason : AbortReason) (a : Device E R → A)
    (m : outcome (DeviceError * Device E R) A) : Prop :=
  match send_all (dv_eth d) (announced_on d reason) with
  | Ok e => ∃ d', m = Ok (a d') ∧ ar_ended d reason d' ∧ dv_eth d' = e
  | Err (x, e) => ∃ d', m = Err (DeEth x, d') ∧ ar_kept d d' ∧ dv_eth d' = e
  | Panic => False
  end.

Lemma abort_in_aborts d reason now report :
  dv_ok su d → dv_state d ≠ Idle → aborts d reason (λ d', (d', report)) (abort_in d reason now report).
Proof.
  intros Hd Hs. destruct (abort_in_spec d reason now report Hd) as (cm & _ & Hi & _ & ->).
  unfold aborts, announced_on.
  assert (∀ d1, keeps d d1 → ∃ d', Ok (E := DeviceError * Device E R)
      (if decide (dv_state d1 = Idle) then with_cm d1 cm else torn (with_cm d1 cm) reason, report)
      = Ok (d', report) ∧ ar_ended d reason d' ∧ dv_eth d' = dv_eth d1) as Hgo.
  { intros d1 K1. rewrite decide_False by (unfold dv_state in *; by rewrite (kp_cm _ _ K1)).
    eexists. split_and!; [done|by apply torn_ended|]. unfold torn, stop_runner. by destruct (dv_runner _). }
  destruct (err_rta_code2 reason) as [code2|], (dv_alarm d) as [ch|] eqn:Hal; cbn [send_all obind];
    try apply (Hgo d (keeps_refl d)).
  pose proof (eth_send_total (dv_eth d) (err_rta ch (rta_abort code2)) (do_eth d Hd)) as Hnp.
  unfold dv_send. destruct (eth_send _ _) as [e|[x e]|] eqn:He; cbn [obind]; [| |done].
  - apply (Hgo (with_eth d e)). split; try done. by eapply eth_send_wf; [apply Hd|].
  - by exists (with_eth d e).
Qed.

(** The events of the thread that end the AR. *)
Definition rt_failure (ev : RtEvent) : option AbortReason :=
  match ev with
  | EvWatchdogExpired => Some RtWatchdog
  | EvSocketError _ => Some RtSocket
  | EvSchedWarning _ | EvExited => None
  end.

(** An abort from a handle that has given up some of its events. *)
Lemma aborts_handle {A} d h h' reason (a : Device E R → A) m :
  dv_runner d = Some h → aborts (with_runner d (dv_image d) (Some h')) reason a m → aborts d reason a m.
Proof.
  intros Hr. unfold aborts. cbn [dv_eth with_runner].
  change (announced_on (with_runner d (dv_image d) (Some h')) reason) with (announced_on d reason).
  destruct (send_all _ _) as [e|[x e]|]; [| |done].
  - intros (d' & Hm & (? & ? & ? & ? & Him) & He). exists d'. split_and!; [done| |done].
    split_and!; [done..|]. intros _. by apply Him.
  - intros (d' & Hm & (? & ? & Hrun & ? & ?) & He). exists d'. split_and!; [done| |done].
    split_and!; try done. rewrite Hr, Hrun. cbn. split; by eexists.
Qed.

Lemma drain_rt_failure pre : ∀ d h fuel now report ev post reason,
  dv_ok su d → dv_state d ≠ Idle → dv_runner d = Some h → sh_events h = pre ++ ev :: post →
  Forall (λ ev, rt_failure ev = None) pre → rt_failure ev = Some reason → (S (length pre) < fuel)%nat →
  aborts d reason (λ d', (d', report)) (drain_rt_events fuel d now report).
Proof.
  induction pre as [|ev0 pre IH]; intros d h fuel now report ev post reason Hd Hs Hr Hev Hpre Hf Hfu;
    (destruct fuel as [|fuel]; [cbn in Hfu; lia|]); cbn [drain_rt_events]; rewrite Hr;
    unfold take_event; rewrite Hev; cbn [app].
  - set (h' := {| sh_events := post |}). set (d1 := with_runner d (dv_image d) (Some h')).
    apply (aborts_handle d h h'); [done|]. fold d1.
    pose proof (abort_in_aborts d1 reason now report ltac:(by apply with_runner_ok) Hs) as Ha.
    assert (on_rt_event d1 ev now report = abort_in d1 reason now report) as ->.
    { destruct ev; try done; by injection Hf as <-. }
    unfold aborts in *. destruct (send_all _ _) as [e|[x e]|]; [| |done].
    + destruct Ha as (d' & -> & He & Ht). cbn [obind]. destruct fuel as [|fuel]; [cbn in Hfu; lia|].
      cbn [drain_rt_events]. pose proof He as (_ & _ & Hru & _). rewrite Hru. by exists d'.
    + destruct Ha as (d' & -> & Hk & Ht). by exists d'.
  - apply Forall_cons_1 in Hpre as [H0 Hpre]. set (h' := {| sh_events := pre ++ ev :: post |}).
    set (d1 := with_runner d (dv_image d) (Some h')).
    assert (on_rt_event d1 ev0 now report = Ok (d1, report)) as -> by (by destruct ev0).
    cbn [obind]. apply (aborts_handle d h h'); [done|]. fold d1.
    apply (IH d1 h' fuel now report ev post reason); try done; [by apply with_runner_ok|cbn in Hfu; lia].
Qed.
End aborts.

(** ** The replay *)

Section replay.
#[local] Set Default Proof Using "Type*".
Context {E R : Type} `{!EthTransport E, EthL : !EthTransportLaws E}
  `{!RpcTransport R, RpcL : !RpcTransportLaws R}.
Context {su : DeviceSetup}.
Implicit Types d : Device E R.

Lemma alarm_actions_alarm abort acts : ∀ d report d' report',
  sends_only acts → alarm_actions abort d acts report = Ok (d', report') → dv_alarm d' = dv_alarm d.
Proof.
  induction acts as [|a acts IH]; intros d report d' report' Hs; cbn [alarm_actions]; [by intros [= <- _]|].
  apply Forall_cons_1 in Hs as [Ha Hs]. intros ([d1 r1] & H1 & H2)%obind_Ok.
  apply IH in H2; [|done]. rewrite H2. destruct a; try done; [|by injection H1 as <- _..].
  apply obind_Ok in H1 as (d2 & Hd2 & [= <- _]). unfold dv_send in Hd2.
  destruct (eth_send _ _) as [e|[? ?]|]; [|done|done]. by injection Hd2 as <-.
Qed.

Lemma apply_sends_alarm abort d acts epoch report d' report' :
  sends_only acts → apply_alarm_actions abort d acts epoch report = Ok (d', report') →
  dv_alarm d' = dv_alarm d.
Proof.
  intros Hs. unfold apply_alarm_actions. case_decide; [by intros [= <- _]|].
  intros ([d1 r1] & H1%alarm_actions_alarm & [= <- _])%obind_Ok; [|done].
  unfold publish_alarm_stats. destruct (dv_alarm d1) eqn:Ha; cbn; congruence.
Qed.

(** Channel diagnoses fit every channel that takes 30 octets. *)
Definition takes_diagnosis (ch : AlarmChannel) : Prop := 30 ≤ ac_max_alarm_data_length (ch_cfg ch).
Definition is_diagnosis (n : AlarmNotification) : Prop := data_len (an_data n) = 6%nat.

Lemma ds_replay_diagnoses st : Forall is_diagnosis (ds_replay st).
Proof.
  unfold ds_replay. induction (ds_active_list st) as [|dg l IH]; [constructor|]. cbn.
  destruct (ds_info st (dg_slot dg)); [|done]. by constructor.
Qed.

Lemma queue_notification_pending {X} d ch n now :
  dv_ok su d → dv_alarm d = Some ch → takes_diagnosis ch → is_diagnosis n →
  ∃ d' acts ch' seq, queue_notification (X := X) d n now = Ok (d', acts) ∧ dv_alarm d' = Some ch' ∧
    ch_cfg ch' = ch_cfg ch ∧ sends_only acts ∧
    ch_pending ch' = ch_pending ch ++
      [{| ar_id := dv_next_alarm_id d; ar_priority := Low; ar_notification := with_sequence n seq |}].
Proof.
  intros Hd Ha Ht Hn. unfold queue_notification. rewrite Ha.
  destruct (do_alarm d Hd ch Ha) as [Hi Hw]. pose proof (next_specifier_ok ch Hi) as [Hi1 Hc1].
  assert (ch_pending (next_specifier_sequence ch).1 = ch_pending ch) as Hp by done.
  destruct (next_specifier_sequence ch) as [ch1 seq]. cbn [fst] in *. set (req := {| ar_id := _ |}).
  assert (fits (ch_cfg ch1) req) as Hf.
  { unfold fits, takes_diagnosis, is_diagnosis, NOTIFICATION_FIXED_LEN in *. cbn. rewrite Hc1, Hn. lia. }
  destruct (enqueue_refines ch1 Hi1 ltac:(by rewrite Hc1) req now Hf) as ([ch2 acts] & He & Hi2 & Hc2 & Hst).
  rewrite He. cbn in Hst. injection Hst as Hst _. apply enqueue_sends in He.
  eexists _, acts, ch2, seq. split_and!; [done|done| |done|].
  - cbn in Hc2. congruence.
  - by rewrite <-Hst, Hp.
Qed.

Lemma replay_all_pending abort epoch ns : ∀ d ch now report d' report' v,
  dv_ok su d → dv_alarm d = Some ch → takes_diagnosis ch → Forall is_diagnosis ns →
  replay_all (λ d acts report, apply_alarm_actions abort d acts epoch report) d ns now report
    = Ok (d', report') →
  ∃ ch', dv_alarm d' = Some ch' ∧
    foldl learn v (ar_notification <$> ch_pending ch')
    = foldl learn (foldl learn v (ar_notification <$> ch_pending ch)) ns.
Proof.
  induction ns as [|n ns IH]; intros d ch now report d' report' v Hd Ha Ht Hns; cbn [replay_all].
  { intros [= <- _]. by exists ch. }
  apply Forall_cons_1 in Hns as [Hn Hns].
  destruct (queue_notification_pending (X := DeviceError * Device E R) d ch n now Hd Ha Ht Hn)
    as (d1 & acts & ch1 & seq & Hq & Ha1 & Hc1 & Hs & Hp1).
  destruct (queue_notification_ok (X := DeviceError * Device E R) d n now Hd) as (? & ? & Hq' & H1 & _).
  rewrite Hq in Hq'. injection Hq' as <- <-. rewrite Hq. cbn [obind].
  intros ([d2 r2] & H2 & H3)%obind_Ok.
  pose proof (apply_sends_ok abort d1 acts epoch report H1 Hs) as Hok. rewrite H2 in Hok. destruct Hok as [Hok _].
  apply apply_sends_alarm in H2; [|done]. rewrite Ha1 in H2.
  destruct (IH d2 ch1 now r2 d' report' v) as (ch' & Ha' & Hv); [done|done| |done|done|].
  { unfold takes_diagnosis. by rewrite Hc1. }
  exists ch'. split; [done|]. rewrite Hv, Hp1, fmap_app, foldl_app. done.
Qed.
End replay.

(** ** Claims *)

Section claims.
#[local] Set Default Proof Using "Type*".
Context {E R : Type} `{!EthTransport E, EthL : !EthTransportLaws E}
  `{!RpcTransport R, RpcL : !RpcTransportLaws R}.
Variables (setup : DeviceSetup) (eth : E) (rpc : R) (read : option (list Z))
  (factory : RtConfig → option RtShared).
Hypothesis Hmodel : wf_model (su_model setup).
Hypothesis Hseed : wf_uuid (su_activity_seed setup).
Hypothesis Hmac : wf_mac (dc_mac (su_dcp setup)).
Hypothesis Heth : eth_wf eth.
Hypothesis Hrpc : rpc_wf rpc.

(** C1: the device loop never panics and its loops all end, whatever frames
    and datagrams arrive, whatever the application and the cyclic thread do in
    between, and even if the caller goes on after transport errors; afterwards
    the connection manager, the alarm channel, the diagnosis store and what is
    published of it are in order, the set-up is the original one, and the image
    is empty or laid out for its model, as it is while there is a thread. *)
Theorem device_never_panics ops :
  Forall wf_op ops →
  ∃ d, dv_persist (Device_new setup eth rpc read factory) ops = Ok d ∧ dv_ok setup d.
Proof.
  apply dv_persist_ok. by destruct (Device_new_ok (su := setup) eth rpc read factory).
Qed.

(** C5: as long as no transport fails, the parts of the device stay in step
    with the AR after any sequence of iterations: the alarm channel is open
    exactly while the AR is in Data, a cyclic thread exists only then, and the
    published diagnoses and the problem indicator are the store's.  When [run]
    returns, the AR, the channel and the thread are gone. *)
Theorem device_consistent ops now :
  Forall wf_op ops →
  leads setup (dv_ops (Device_new setup eth rpc read factory) ops) (λ d, dv_ok setup d ∧ linked d) ∧
  leads setup (dv_run (Device_new setup eth rpc read factory) ops now)
    (λ d, dv_state d = Idle ∧ dv_alarm d = None ∧ dv_runner d = None).
Proof.
  intros Hwf. destruct (Device_new_ok (su := setup) eth rpc read factory) as [H0 L0]; [done..|].
  set (d0 := Device_new _ _ _ _ _) in *. pose proof (dv_ops_ok ops d0 H0 Hwf) as Hops. split.
  { eapply leads_mono; [exact Hops|]. intros d G. split; apply G. done. }
  unfold dv_run. eapply leads_bind; [exact Hops|]. intros d G. pose proof (re_linked _ _ G L0) as Hl.
  assert (∀ d' : Device E R, linked d' → dv_state d' = Idle →
    dv_state d' = Idle ∧ dv_alarm d' = None ∧ dv_runner d' = None) as Hidle.
  { intros d' [Ha Hr] Hi. rewrite Hi in Ha, Hr. cbn in Ha, Hr. split_and!; [done| |].
    - apply eq_None_not_Some. by intros ?%Ha.
    - apply eq_None_not_Some. by intros ?%Hr. }
  unfold shutdown. case_decide; [by apply Hidle|]. unfold abort_with_err_rta.
  eapply leads_bind; [by apply abort_in_ok, G|]. intros [d' ?] (G' & Hi & _).
  cbn. apply Hidle; [by apply G'|done].
Qed.
End claims.

Section data.
#[local] Set Default Proof Using "Type*".
Context {E R : Type} `{!EthTransport E, EthL : !EthTransportLaws E}
  `{!RpcTransport R, RpcL : !RpcTransportLaws R}.
Context {su : DeviceSetup}.
Implicit Types d : Device E R.

(** A fresh channel of the AR's parameters. *)
Definition channel_of (p : ArParams) (ch : AlarmChannel) : Prop :=
  ac_peer_mac (ch_cfg ch) = ap_initiator_mac p ∧
  ac_remote_ref (ch_cfg ch) = ap_alarm_ref_remote p ∧
  ac_max_alarm_data_length (ch_cfg ch) = ap_max_alarm_data_length_remote p.

Lemma fresh_channel d p :
  dv_ok su d → ar_params d = Some p →
  ∃ d1, start_runner d = Ok d1 ∧
  let d' := open_alarm_channel d1 in
  dv_ok su d' ∧ dv_diag d' = dv_diag d ∧ dv_alarm_epoch d' = wrap64 (dv_alarm_epoch d + 1) ∧
  ∃ ch, dv_alarm d' = Some ch ∧ ch_pending ch = [] ∧ channel_of p ch.
Proof.
  intros Hd Hp. destruct (start_runner_ok d Hd) as (d1 & Hr & H3 & Hc3 & _ & Hg3 & _ & _ & _ & _ & Hep3).
  exists d1. split; [done|]. cbn zeta.
  assert (ar_params d1 = Some p) as Hp3 by (unfold ar_params; by rewrite Hc3).
  destruct (open_alarm_channel_ok _ H3) as (H4 & _ & _ & Hg4 & _).
  split_and!; [done|congruence|..]; unfold open_alarm_channel; rewrite Hp3.
  - cbn. by rewrite Hep3.
  - by eexists.
Qed.

(** The whole branch of the Data notification. *)
Lemma on_data_notify_view abort d p now report :
  dv_ok su d → ar_params d = Some p → 30 ≤ ap_max_alarm_data_length_remote p →
  leads su
    (let! d := start_runner d in
     let d := open_alarm_channel d in
     let! (d, report) :=
       replay_all (λ d' actions report, apply_alarm_actions abort d' actions (dv_alarm_epoch d) report)
         d (ds_replay (dv_diag d)) now report in
     Ok (publish_diag_state d, report))
    (λ '(d', _), ∃ ch, dv_ok su d' ∧ dv_alarm d' = Some ch ∧ channel_of p ch ∧
      dv_alarm_epoch d' = wrap64 (dv_alarm_epoch d + 1) ∧
      foldl learn ∅ (ar_notification <$> ch_pending ch) = store_view (dv_diag d)).
Proof.
  intros Hd Hp Hmax. destruct (fresh_channel d p Hd Hp) as (d1 & -> & H4 & Hg & Hep & ch & Ha & Hpe & Hm & Hrf & Hx).
  cbn zeta. cbn [obind]. set (d4 := open_alarm_channel _) in *.
  pose proof (replay_all_ok abort (dv_alarm_epoch d4) (ds_replay (dv_diag d4)) d4 now report H4) as Hok.
  destruct (replay_all _ _ _ _ _) as [[d5 r5]|[x d5]|] eqn:Hr; [|done|done]. destruct Hok as [H5 K5].
  destruct (replay_all_pending abort (dv_alarm_epoch d4) (ds_replay (dv_diag d4)) d4 ch now report d5 r5 ∅ H4 Ha) as (ch5 & Ha5 & Hv);
    [unfold takes_diagnosis; by rewrite Hx|apply ds_replay_diagnoses|exact Hr|].
  pose proof (kp_alarm _ _ K5) as Hk. rewrite Ha5, Ha in Hk. injection Hk as Hk.
  exists ch5. split_and!; [by apply publish_diag_state_ok|done| | |].
  - unfold channel_of. by rewrite Hk.
  - cbn. by rewrite (kp_epoch _ _ K5).
  - rewrite Hv, Hpe. cbn [fmap list_fmap foldl]. rewrite Hg. apply replay_learns, Hd.
Qed.

(** C21: when the AR enters Data the controller is brought up to date.  Unless a
    transport fails, and for a controller that takes alarm data of at least 30
    octets (enough for every channel diagnosis), the device then has a fresh
    alarm channel with the negotiated parameters, of a new epoch, and a
    controller that processes the alarms pending on it, from nothing, knows
    exactly the active diagnoses; the first of them is in flight if there is
    any. *)
Theorem data_replays_diagnoses d p send now report :
  dv_ok su d → ar_params d = Some p → 30 ≤ ap_max_alarm_data_length_remote p →
  leads su (dispatch_in d {| co_send := send; co_notify := [(Data, None)]; co_persist := [] |} now report)
    (λ '(d', _), ∃ ch, dv_alarm d' = Some ch ∧ ch_inv ch ∧
      channel_of p ch ∧
      dv_alarm_epoch d' = wrap64 (dv_alarm_epoch d + 1) ∧
      foldl learn ∅ (ar_notification <$> ch_pending ch) = store_view (dv_diag d) ∧
      (ds_active (dv_diag d) ≠ ∅ → is_Some (in_flight ch))).
Proof.
  intros Hd Hp Hmax. unfold dispatch_in, DISPATCH_DEPTH. cbn [dispatch co_send co_notify].
  eapply leads_bind; [by apply dispatch_send_ok|]. intros [d1 r1] [H1 K1]. cbn [dispatch_notify].
  set (d2 := with_calls d1 _).
  eapply leads_bind; [apply (on_data_notify_view _ d2 p); [by apply with_calls_ok| |done]|].
  { rewrite <-Hp. unfold ar_params. cbn. by rewrite (kp_cm _ _ K1). }
  intros [d6 r6] (ch & H6 & Ha & Hc & He & Hv). exists ch. destruct (do_alarm d6 H6 ch Ha) as [Hi _].
  cbn in He, Hv. rewrite (kp_epoch _ _ K1) in He. rewrite (kp_diag _ _ K1) in Hv.
  split_and!; try done. intros Hne. destruct Hi as [_ Hq]. unfold in_flight, ch_pending, in_flight_req in *.
  destruct (ch_state ch); [|by eexists..]. exfalso. rewrite Hq in Hv by done. cbn in Hv.
  apply Hne. unfold store_view in Hv. symmetry in Hv. by apply fmap_empty_inv in Hv.
Qed.
End data.

Section ends.
#[local] Set Default Proof Using "Type*".
Context {E R : Type} `{!EthTransport E, EthL : !EthTransportLaws E}
  `{!RpcTransport R, RpcL : !RpcTransportLaws R}.
Context {su : DeviceSetup}.
Implicit Types d : Device E R.

(** C19: what an abort, and so a shutdown, does to an established AR, on any
    transport.  If a channel is open and the controller did not abort first,
    exactly one frame is to be sent, which the controller reads as the ERR-RTA
    of the reason; otherwise none.  If the transport takes what is to be sent,
    the AR ends at once: it is Idle, the channel and the thread are gone, and
    the application is told the reason once and sees stale outputs.  If the
    transport refuses the frame, the abort returns its error and does not take
    place: the AR, the channel and the thread stay, and the application is told
    nothing. *)
Theorem abort_ends_ar d reason now :
  dv_ok su d → dv_state d ≠ Idle →
  aborts d reason (λ d', d') (abort_with_err_rta d reason now) ∧
  ∀ frame, frame ∈ announced_on d reason →
    announced_on d reason = [frame] ∧
    ∃ ch code2, dv_alarm d = Some ch ∧ err_rta_code2 reason = Some code2 ∧
      parse_frame frame = Ok (err_pdu ch (rta_abort code2)).
Proof.
  intros Hd Hs. pose proof (abort_in_aborts d reason now StepReport_default Hd Hs) as Ha. split.
  - unfold aborts, abort_with_err_rta in *. destruct (send_all _ _) as [e|[x e]|]; [| |done];
      destruct Ha as (d' & -> & ?); by exists d'.
  - intros frame Hf. split; [|by eapply announced_parses]. unfold announced_on in *.
    destruct (err_rta_code2 reason), (dv_alarm d); try by apply elem_of_nil in Hf.
    by apply list_elem_of_singleton in Hf as ->.
Qed.

(** C23: the loss of the controller, or a broken socket, reported by the cyclic
    thread aborts the AR in the stage that finds it, however many warnings are
    queued before it, on any transport.  If the ERR-RTA of the matching reason
    is sent, or none is to be sent, the state, the application and the wire
    show exactly that abort, and the events behind it are dropped with the
    thread.  If the transport refuses the ERR-RTA, the stage ends with its
    error, and the AR is still up. *)
Theorem rt_failure_ends_ar d h pre ev post reason now report :
  dv_ok su d → dv_state d ≠ Idle → dv_runner d = Some h → sh_events h = pre ++ ev :: post →
  Forall (λ ev, rt_failure ev = None) pre → rt_failure ev = Some reason →
  aborts d reason (λ d', (d', report)) (drain_rt_events (S (length (sh_events h))) d now report).
Proof.
  intros Hd Hs Hr Hev Hpre Hf. apply (drain_rt_failure (su := su) pre d h _ now report ev post reason); try done.
  rewrite Hev, length_app. cbn. lia.
Qed.
End ends.

(** ** Witnesses *)

Definition sample_setup : DeviceSetup :=
  {| su_dcp := sample_dcp_cfg; su_model := sample_model; su_activity_seed := sample_seed;
     su_rt := Some {| ro_iface := "eth0"; ro_cpu_pin := None; ro_rt_priority := None;
                      ro_lock_memory := false |};
     su_im0 := Im0_default; su_im_store := None |}.

(** The controller's answer to the ApplicationReady call. *)
Definition sample_ready_response : list Z :=
  match build_response_pdu (E := Empty_set)
    {| rx_object := sample_uuid 1; rx_interface := PNIO_CONTROLLER_INTERFACE;
       rx_activity := sample_seed; rx_seq_num := 0; rx_opnum := 4; rx_args_max := 1340;
       rx_from := sample_from |} PnioStatus_OK [] with
  | Ok pdu => pdu
  | _ => []
  end.
Definition sample_rpc : MockRpcTransport :=
  mr_push_rx (mr_push_rx (mr_push_rx MockRpcTransport_new sample_connect sample_from)
    sample_prm_end sample_from) sample_ready_response sample_from.

Definition sample_device_new : Device MockTransport MockRpcTransport :=
  Device_new sample_setup MockTransport_new sample_rpc None (λ _, Some RtShared_new).
Definition sample_step_env : StepEnv :=
  {| sv_poll _ _ := None; sv_clock := 0; sv_event_fd := 9 |}.
Definition sample_diagnosis : Diagnosis :=
  {| dg_slot := 4; dg_channel := 3; dg_error := LineBreak; dg_severity := SvFault;
     dg_direction := DrInput |}.
Definition sample_ops : list DvOp :=
  [DoCommand (DcRaise sample_diagnosis); DoStep sample_step_env 1000].

(** Brought to Data by the three datagrams. *)
Definition sample_device : Device MockTransport MockRpcTransport :=
  match dv_ops (on_state_change sample_device_new) sample_ops with Ok d => d | _ => sample_device_new end.

Lemma sample_device_new_ok : dv_ok sample_setup sample_device_new ∧ linked sample_device_new.
Proof.
  apply Device_new_ok; [exact sample_wf_model|unfold wf_uuid; by_decide|unfold wf_mac; by_decide|
    constructor|cbn; by_decide].
Qed.

Lemma sample_device_ok : dv_ok sample_setup sample_device.
Proof.
  destruct sample_device_new_ok as [H0 _]. unfold sample_device.
  pose proof (dv_ops_ok sample_ops (on_state_change sample_device_new) ltac:(by apply with_calls_ok)
    ltac:(by repeat constructor)) as Ho.
  destruct (dv_ops _ _) as [d|[x d]|]; [apply Ho|done|done].
Qed.

Lemma sample_device_up :
  dv_state sample_device = Data ∧ dv_on_state_change sample_device = Some [(Connected, None); (Data, None)] ∧
  alarm_in_flight sample_device = true ∧ rt_running sample_device = true ∧
  length (mt_tx (dv_eth sample_device)) = 1%nat ∧ dv_problem sample_device = true.
Proof. split_and!; vm_compute; reflexivity. Qed.

Lemma device_never_panics_witness :
  ∃ d, dv_persist sample_device_new
    (sample_ops ++ [DoRtEvent EvWatchdogExpired; DoWrite 4 1 sample_bytes; DoStep sample_step_env 2000])
    = Ok d ∧ dv_ok sample_setup d.
Proof.
  apply (device_never_panics sample_setup MockTransport_new sample_rpc None (λ _, Some RtShared_new)
    sample_wf_model ltac:(unfold wf_uuid; by_decide) ltac:(unfold wf_mac; by_decide)
    ltac:(constructor) ltac:(cbn; by_decide)).
  do 3 (apply List.Forall_cons; [exact I|]). apply List.Forall_cons; [cbn; by_decide|].
  apply List.Forall_cons; [exact I|apply List.Forall_nil].
Defined.

Lemma device_consistent_witness :
  ∃ d, dv_run sample_device_new sample_ops 5000 = Ok d ∧
    dv_state d = Idle ∧ dv_alarm d = None ∧ dv_runner d = None.
Proof.
  destruct (device_consistent sample_setup MockTransport_new sample_rpc None (λ _, Some RtShared_new)
    sample_wf_model ltac:(unfold wf_uuid; by_decide) ltac:(unfold wf_mac; by_decide)
    ltac:(constructor) ltac:(cbn; by_decide) sample_ops 5000 ltac:(by repeat constructor)) as [_ Hr].
  fold sample_device_new in Hr.
  assert (is_Ok (dv_run sample_device_new sample_ops 5000) = true) as Hok by (vm_compute; reflexivity).
  destruct (dv_run sample_device_new sample_ops 5000) as [d| |]; [|discriminate|discriminate].
  exists d. split; [reflexivity|exact Hr].
Defined.

(** The device just before the notification of Data, with a diagnosis active. *)
Definition sample_ready_device : Device MockTransport MockRpcTransport :=
  with_cm (set_channel (with_runner sample_device IoImage_empty None) None) (dv_cm sample_device).

Lemma sample_ready_device_ok : dv_ok sample_setup sample_ready_device.
Proof.
  unfold sample_ready_device. generalize sample_device sample_device_ok. intros d [].
  split; try done; [split_and!; [constructor..|by left]|by intros []].
Qed.

Lemma data_replays_diagnoses_witness :
  ∃ d' ch, dispatch_in sample_ready_device
      {| co_send := []; co_notify := [(Data, None)]; co_persist := [] |} 0 StepReport_default
      = Ok (d', StepReport_default) ∧
    dv_alarm d' = Some ch ∧
    foldl learn ∅ (ar_notification <$> ch_pending ch) = store_view (dv_diag sample_ready_device) ∧
    is_Some (in_flight ch).
Proof.
  assert (ap_max_alarm_data_length_remote <$> ar_params sample_ready_device = Some 256) as Hx
    by (vm_compute; reflexivity).
  apply fmap_Some in Hx as (p & Hp & Hx).
  pose proof (data_replays_diagnoses (su := sample_setup) sample_ready_device p [] 0 StepReport_default
    sample_ready_device_ok Hp) as Hl.
  assert (∃ d', dispatch_in sample_ready_device
      {| co_send := []; co_notify := [(Data, None)]; co_persist := [] |} 0 StepReport_default
      = Ok (d', StepReport_default)) as [d' Hd] by (eexists; vm_compute; reflexivity).
  rewrite Hd in Hl. destruct Hl as (ch & Ha & _ & _ & _ & Hv & Hf).
  - lia.
  - exists d', ch. split_and!; [exact Hd|exact Ha|exact Hv|]. apply Hf.
    apply (bool_decide_eq_true_1 _). vm_compute. reflexivity.
Defined.

(** A link that is down, and the sample device behind it. *)
Inductive DownTransport := LinkDown.
#[global] Instance DownTransport_eth : EthTransport DownTransport := {|
  eth_send _ _ := Err (TeIo 100, LinkDown); eth_recv_into _ buf _ := Ok (LinkDown, buf, None);
  eth_raw_fd _ := None; eth_backlog _ := 0%nat |}.
#[global] Instance DownTransport_laws : EthTransportLaws DownTransport.
Proof. refine {| eth_wf _ := True |}; cbn; try done; intros; by simplify_eq. Defined.

Definition with_link {E R : Type} (e : E) (d : Device MockTransport R) : Device E R :=
  {| dv_setup := dv_setup d; dv_eth := e; dv_rpc := dv_rpc d; dv_cm := dv_cm d;
     dv_on_state_change := dv_on_state_change d; dv_image := dv_image d; dv_stats := dv_stats d;
     dv_problem := dv_problem d; dv_diag := dv_diag d; dv_shared := dv_shared d;
     dv_alarm := dv_alarm d; dv_next_alarm_id := dv_next_alarm_id d;
     dv_alarm_epoch := dv_alarm_epoch d; dv_runner := dv_runner d;
     dv_runner_factory := dv_runner_factory d |}.
Lemma with_link_ok (d : Device MockTransport MockRpcTransport) :
  dv_ok sample_setup d → dv_ok sample_setup (with_link LinkDown d).
Proof. intros []. by split. Qed.

Lemma announced_on_short {E R : Type} (d : Device E R) reason : (length (announced_on d reason) ≤ 1)%nat.
Proof. unfold announced_on. destruct (err_rta_code2 reason), (dv_alarm d); cbn; lia. Qed.

(** On the in-memory transport, and on a link that is down. *)
Lemma aborts_mock {R A : Type} (d : Device MockTransport R) reason (a : Device MockTransport R → A) m :
  aborts d reason a m →
  ∃ d', m = Ok (a d') ∧ ar_ended d reason d' ∧
    mt_tx (dv_eth d') = mt_tx (dv_eth d) ++ announced_on d reason.
Proof.
  unfold aborts. pose proof (announced_on_short d reason) as Hs.
  destruct (announced_on d reason) as [|f [|]]; [|..|cbn in Hs; lia]; intros (d' & ? & ? & He);
    exists d'; rewrite He; [by rewrite app_nil_r|done].
Qed.
Lemma aborts_down {R A : Type} (d : Device DownTransport R) reason (a : Device DownTransport R → A) m :
  announced_on d reason ≠ [] → aborts d reason a m →
  ∃ d', m = Err (DeEth (TeIo 100), d') ∧ ar_kept d d'.
Proof.
  unfold aborts. destruct (announced_on d reason) as [|f fs]; [done|]. intros _ (d' & ? & ? & _). by exists d'.
Qed.

Lemma with_link_state {E R : Type} (e : E) (d : Device MockTransport R) :
  dv_state d ≠ Idle → dv_state (with_link e d) ≠ Idle.
Proof. done. Qed.
Lemma with_link_announced {E R : Type} (e : E) (d : Device MockTransport R) reason :
  announced_on (with_link e d) reason = announced_on d reason.
Proof. done. Qed.

Lemma sample_device_not_idle : dv_state sample_device ≠ Idle.
Proof. destruct sample_device_up as [-> _]. discriminate. Qed.

Lemma abort_ends_ar_witness :
  (∃ d', abort_with_err_rta sample_device Shutdown 9 = Ok d' ∧ ar_ended sample_device Shutdown d') ∧
  (∃ d', abort_with_err_rta (with_link LinkDown sample_device) Shutdown 9 = Err (DeEth (TeIo 100), d') ∧
    ar_kept (with_link LinkDown sample_device) d').
Proof.
  destruct (abort_ends_ar (su := sample_setup) sample_device Shutdown 9 sample_device_ok
    sample_device_not_idle) as [H1 _].
  destruct (abort_ends_ar (su := sample_setup) (with_link LinkDown sample_device) Shutdown 9
    (with_link_ok _ sample_device_ok) (with_link_state _ _ sample_device_not_idle)) as [H2 _].
  split.
  - pose proof (aborts_mock sample_device Shutdown (λ d', d') _ H1) as H3.
    destruct H3 as (d' & Ha & He & _).
    exists d'.
    split.
    + exact Ha.
    + exact He.
  - apply aborts_down in H2; [exact H2|]. rewrite with_link_announced.
    apply (bool_decide_eq_true_1 _). vm_compute. reflexivity.
Defined.

Definition sample_handle : RtShared :=
  push_event (push_event RtShared_new (EvSchedWarning "mlockall")) EvWatchdogExpired.
Definition sample_watchdog_device : Device MockTransport MockRpcTransport :=
  with_runner sample_device (dv_image sample_device) (Some sample_handle).

Lemma sample_watchdog_device_ok :
  dv_ok sample_setup sample_watchdog_device ∧ dv_state sample_watchdog_device ≠ Idle.
Proof.
  split; [|assert (dv_state sample_watchdog_device = Data) as -> by (vm_compute; reflexivity); discriminate].
  apply (with_runner_ok sample_device (Some sample_handle) sample_device_ok). intros _.
  apply (bool_decide_eq_true (is_Some (dv_runner sample_device))). vm_compute. reflexivity.
Qed.

Lemma rt_failure_ends_ar_witness :
  ∃ d', drain_rt_events 3 sample_watchdog_device 9 StepReport_default = Ok (d', StepReport_default) ∧
    ar_ended sample_watchdog_device RtWatchdog d' ∧
    mt_tx (dv_eth d') =
      mt_tx (dv_eth sample_watchdog_device) ++ announced_on sample_watchdog_device RtWatchdog.
Proof.
  apply (aborts_mock sample_watchdog_device RtWatchdog (λ d', (d', StepReport_default))).
  apply (rt_failure_ends_ar (su := sample_setup) sample_watchdog_device sample_handle
    [EvSchedWarning "mlockall"] EvWatchdogExpired [] RtWatchdog 9 StepReport_default).
  - apply sample_watchdog_device_ok.
  - apply sample_watchdog_device_ok.
  - reflexivity.
  - reflexivity.
  - by repeat constructor.
  - reflexivity.
Defined.

(** ** Two behaviours worth knowing *)

(** One frame longer than the receive buffer ends the loop with an error; the
    cyclic thread counts the same frame as invalid and goes on. *)
Lemma oversized_frame_ends_loop :
  ∃ d, dv_step (Device_new sample_setup (mt_push_rx MockTransport_new (replicate 1523 0))
      sample_rpc None (λ _, Some RtShared_new)) sample_step_env 0 None
    = Err (DeEth (TeFrameTooLong 1523), d).
Proof. eexists. vm_compute. reflexivity. Qed.

(** When the cyclic thread cannot be spawned, the image rebuilt for it keeps
    its submodules after the AR is gone. *)
Lemma failed_spawn_keeps_cells :
  ∃ d, dv_run (Device_new sample_setup MockTransport_new sample_rpc None (λ _, None)) sample_ops 5000
    = Ok d ∧ dv_state d = Idle ∧ is_nil (im_cells (dv_image d)) = false.
Proof. eexists. split; [vm_compute; reflexivity|]. split; reflexivity. Qed.
