(* ===== verification/Api.v ===== *)
(** * Api: typed access for the application

    Models [crates/pnio/src/api.rs]: the [IoDevice] handle, with the reads and
    writes by slot and field index over the configuration's field tables, the
    diagnosis calls, and the loop of the acyclic thread.  The handle shares the
    image, the diagnosis queue and the last state change with the device
    (Device.v); here it holds them as they are when a call is made.

    A method that changes the handle returns the new one, on the error path
    too.  The [unreachable!] arms of the typed reads are [Panic]. *)

From S2P Require Import Prelude Eth Rpc Block Connect Records Ar Cm AlarmChannel Diag Dcp Data.
From S2P Require Import RtFrame Layout Config Hist Engine Image Transport Runner Device.
Local Open Scope Z_scope.

(** ** Data *)

(** An I/O error carries no more here than its being one. *)
(** api.rs:41-98 ApiError *)
Inductive ApiError :=
| AeUnknownSlot (slot : Z)
| AeIndexOutOfRange (slot : Z) (index len : nat)
| AeTypeMismatch (slot : Z) (index : nat) (declared requested : FieldType)
| AeWrongDirection (slot : Z) (expected : Direction)
| AeNoLayoutYet
| AeImage (e : ImageError)
| AeCodec (e : CodecError)
| AeDevice (e : DeviceError)
| AeIo.

(** api.rs:156-167 ApiError::from *)
Definition from_image (e : ImageError) : ApiError :=
  match e with ImUnknownSubmodule _ _ => AeNoLayoutYet | e => AeImage e end.

(** [io_state] is what [Shared] holds. *)
(** api.rs:169-193 IoDevice *)
Record IoDevice := {
  io_cfg : DeviceConfig;
  io_image : IoImage;
  io_stats : RtStats;
  io_state : ArState * option AbortReason;
  io_stop : bool;
  io_inputs : list (list Z);
  io_params : option ArParams;
  io_diag : DiagShared
}.

Definition set_image (d : IoDevice) (img : IoImage) (inputs : list (list Z)) : IoDevice :=
  {| io_cfg := io_cfg d; io_image := img; io_stats := io_stats d; io_state := io_state d;
     io_stop := io_stop d; io_inputs := inputs; io_params := io_params d; io_diag := io_diag d |}.
Definition push_command (d : IoDevice) (cmd : DiagCommand) : IoDevice :=
  let sh := io_diag d in
  {| io_cfg := io_cfg d; io_image := io_image d; io_stats := io_stats d; io_state := io_state d;
     io_stop := io_stop d; io_inputs := io_inputs d; io_params := io_params d;
     io_diag := {| dh_queue := dh_queue sh ++ [cmd]; dh_active := dh_active sh;
                   dh_stats := dh_stats sh; dh_rx_no_channel := dh_rx_no_channel sh |} |}.

(** api.rs:753-761 SlotSnapshot *)
Record SlotSnapshot := {
  sp_slot : Z; sp_bytes : list Z; sp_validity : Validity; sp_fields : list FieldRef
}.

(** api.rs:826-832 SlotWriter *)
Record SlotWriter := { sw_slot : Z; sw_fields : list FieldRef; sw_bytes : list Z }.

#[global] Instance IocrObject_eq_dec : EqDecision IocrObject.
Proof. solve_decision. Defined.
#[global] Instance IocrParams_eq_dec : EqDecision IocrParams.
Proof. solve_decision. Defined.
#[global] Instance ArParams_eq_dec : EqDecision ArParams.
Proof. solve_decision. Defined.

(** ** Starting *)

(** The working copies of the input submodules. *)
(** api.rs:268-272 IoDevice::start_inner *)
Fixpoint blank_inputs {X} (cfg : DeviceConfig) (l : list SubmoduleSpec) : outcome X (list (list Z)) :=
  match l with
  | [] => Ok []
  | s :: l =>
    let! len := cf_input_len cfg (ss_slot s) in
    let! rest := blank_inputs cfg l in
    Ok (replicate (Z.to_nat (default 0 len)) 0 :: rest)
  end.

(** The device the acyclic thread takes, and the handle. *)
(** api.rs:236-304 IoDevice::start_inner *)
Definition start_inner {E R} `{EthTransport E} `{RpcTransport R} (cfg : DeviceConfig) (mac : MacAddr)
    (ip : list Z) (rt : option RtOptions) (eth : E) (rpc : R) (runner : RtConfig → option RtShared)
    (im_store : option string) (read : option (list Z)) : outcome ApiError (Device E R * IoDevice) :=
  let! setup := cf_setup cfg mac ip rt in
  let setup := {| su_dcp := su_dcp setup; su_model := su_model setup;
                  su_activity_seed := su_activity_seed setup; su_rt := su_rt setup;
                  su_im0 := su_im0 setup; su_im_store := im_store |} in
  let dev := on_state_change (Device_new setup eth rpc read runner) in
  let! inputs := blank_inputs cfg (cf_submodules cfg) in
  Ok (dev, {| io_cfg := cfg; io_image := dv_image dev; io_stats := dv_stats dev;
              io_state := (Idle, None); io_stop := false; io_inputs := inputs; io_params := None;
              io_diag := dv_shared dev |}).

(** api.rs:218-234 IoDevice::start_with *)
Definition start_with {E R} `{EthTransport E} `{RpcTransport R} (cfg : DeviceConfig) (mac : MacAddr)
    (ip : list Z) (rt : option RtOptions) (eth : E) (rpc : R) (runner : RtConfig → option RtShared) :
    outcome ApiError (Device E R * IoDevice) :=
  start_inner cfg mac ip rt eth rpc runner None None.

(** What the two threads share, as the handle sees it after the device acted. *)
Definition mirror {E R} (dev : Device E R) (d : IoDevice) : IoDevice :=
  {| io_cfg := io_cfg d; io_image := dv_image dev; io_stats := dv_stats dev;
     io_state := match dv_on_state_change dev with
                 | Some calls => default (io_state d) (list.last calls)
                 | None => io_state d
                 end;
     io_stop := io_stop d; io_inputs := io_inputs d; io_params := io_params d;
     io_diag := dv_shared dev |}.

(** One iteration of the acyclic thread, with the parameters mirrored when they
    changed. *)
(** api.rs:738-744 run_publishing_params *)
Definition publishing_step {E R} `{EthTransport E} `{RpcTransport R} (dev : Device E R)
    (last params : option ArParams) (env : StepEnv) (now : Z) :
    outcome (DeviceError * Device E R) (Device E R * option ArParams * option ArParams) :=
  let! (dev, _) := dv_step dev env now (Some (poll_interval dev RUN_POLL)) in
  let p := ar_params dev in
  Ok (dev, p, if decide (p = last) then params else p).

(** api.rs:726-751 run_publishing_params *)
Fixpoint run_publishing_params {E R} `{EthTransport E} `{RpcTransport R} (dev : Device E R)
    (last params : option ArParams) (steps : list (StepEnv * Z)) (stop_at : Z) :
    outcome (DeviceError * Device E R) (Device E R * option ArParams) :=
  match steps with
  | [] => let! dev := shutdown dev stop_at in Ok (dev, params)
  | (env, now) :: steps =>
    let! (dev, last, params) := publishing_step dev last params env now in
    run_publishing_params dev last params steps stop_at
  end.

(** ** Queries *)

(** api.rs:322-333 IoDevice::ar_state *)
Definition io_ar_state (d : IoDevice) : ArState := fst (io_state d).
(** api.rs:334-357 IoDevice::ready *)
Definition ready (d : IoDevice) : bool :=
  bool_decide (io_ar_state d = Data) && negb (is_nil (im_cells (io_image d))) &&
  bool_decide (is_Some (io_params d)).
(** api.rs:358-367 IoDevice::last_abort *)
Definition last_abort (d : IoDevice) : option AbortReason := snd (io_state d).
(** api.rs:377-380 IoDevice::validity *)
Definition io_validity (d : IoDevice) : Validity := im_validity (io_image d).
(** api.rs:381-385 IoDevice::freshness *)
Definition io_freshness (d : IoDevice) : Freshness := freshness (im_validity (io_image d)).
(** api.rs:386-390 IoDevice::stats *)
Definition io_snapshot (d : IoDevice) : StatsSnapshot := stats_snapshot (io_stats d).

(** api.rs:398-404 IoDevice::index_of *)
Definition index_of (d : IoDevice) (slot : Z) : outcome ApiError nat :=
  ok_or (cf_index_of (io_cfg d) slot) (AeUnknownSlot slot).

(** The fields of a slot in the direction of an accessor. *)
(** api.rs:418-425 IoDevice::field *)
Definition fields_of (d : IoDevice) (slot : Z) (dir : Direction) : outcome ApiError (list FieldRef) :=
  let! sm := cf_submodule (io_cfg d) slot in
  let! sm := ok_or sm (AeUnknownSlot slot) in
  let! fields := cf_fields (io_cfg d) slot dir in
  ok_or fields (AeWrongDirection slot (direction sm)).

(** api.rs:406-442 IoDevice::field *)
Definition io_field (d : IoDevice) (slot : Z) (dir : Direction) (index : nat)
    (want : option FieldType) : outcome ApiError FieldRef :=
  let! fields := fields_of d slot dir in
  let! f := ok_or (fields !! index) (AeIndexOutOfRange slot index (length fields)) in
  match want with
  | Some w => if decide (w ≠ fr_ty f) then Err (AeTypeMismatch slot index (fr_ty f) w) else Ok f
  | None => Ok f
  end.

(** ** Reading outputs *)

(** Decode one field out of the octets of its slot. *)
(** api.rs:497-501 IoDevice::typed *)
Definition decode_field (f : FieldRef) (b : list Z) : outcome ApiError Value :=
  let! src := slice_from b (Z.to_nat (fr_byte f)) in
  map_err AeCodec (decode (fr_ty f) src (Z.to_nat (fr_bit f))).

(** api.rs:450-454 IoDevice::read *)
Definition read_field (d : IoDevice) (slot : Z) (f : FieldRef) : outcome ApiError Value :=
  let! r := map_err from_image (read_outputs (io_image d) slot 1 (λ b _, decode_field f b)) in r.

(** api.rs:444-455 IoDevice::read *)
Definition io_read (d : IoDevice) (slot : Z) (index : nat) : outcome ApiError Value :=
  let! f := io_field d slot DrOutput index None in read_field d slot f.
(** api.rs:496-502 IoDevice::typed *)
Definition typed (d : IoDevice) (slot : Z) (index : nat) (want : FieldType) : outcome ApiError Value :=
  let! f := io_field d slot DrOutput index (Some want) in read_field d slot f.

(** api.rs:456-463 IoDevice::read_bool *)
Definition read_bool (d : IoDevice) (s : Z) (i : nat) : outcome ApiError bool :=
  let! v := typed d s i FtBool in match v with VBool b => Ok b | _ => Panic end.
(** api.rs:464-471 IoDevice::read_int *)
Definition read_int (d : IoDevice) (s : Z) (i : nat) : outcome ApiError Z :=
  let! v := typed d s i FtInt in match v with VInt x => Ok x | _ => Panic end.
(** api.rs:472-479 IoDevice::read_word *)
Definition read_word (d : IoDevice) (s : Z) (i : nat) : outcome ApiError Z :=
  let! v := typed d s i FtWord in match v with VWord x => Ok x | _ => Panic end.
(** api.rs:480-487 IoDevice::read_dint *)
Definition read_dint (d : IoDevice) (s : Z) (i : nat) : outcome ApiError Z :=
  let! v := typed d s i FtDint in match v with VDint x => Ok x | _ => Panic end.
(** api.rs:488-495 IoDevice::read_real *)
Definition read_real (d : IoDevice) (s : Z) (i : nat) : outcome ApiError Z :=
  let! v := typed d s i FtReal in match v with VReal x => Ok x | _ => Panic end.

(** api.rs:503-526 IoDevice::outputs *)
Definition outputs (d : IoDevice) (slot : Z) : outcome ApiError SlotSnapshot :=
  let! fields := fields_of d slot DrOutput in
  let! (bytes, validity) := map_err from_image (read_outputs (io_image d) slot 1 pair) in
  Ok {| sp_slot := slot; sp_bytes := bytes; sp_validity := validity; sp_fields := fields |}.

(** api.rs:763-776 SlotSnapshot::get *)
Definition snap_get (s : SlotSnapshot) (index : nat) : outcome ApiError Value :=
  let! f := ok_or (sp_fields s !! index)
                  (AeIndexOutOfRange (sp_slot s) index (length (sp_fields s))) in
  decode_field f (sp_bytes s).
(** api.rs:816-823 SlotSnapshot::mismatch *)
Definition mismatch (s : SlotSnapshot) (index : nat) (requested : FieldType) (v : Value) : ApiError :=
  AeTypeMismatch (sp_slot s) index (field_type v) requested.
(** api.rs:777-783 SlotSnapshot::real *)
Definition snap_real (s : SlotSnapshot) (i : nat) : outcome ApiError Z :=
  let! v := snap_get s i in match v with VReal x => Ok x | v => Err (mismatch s i FtReal v) end.
(** api.rs:784-790 SlotSnapshot::bool *)
Definition snap_bool (s : SlotSnapshot) (i : nat) : outcome ApiError bool :=
  let! v := snap_get s i in match v with VBool x => Ok x | v => Err (mismatch s i FtBool v) end.
(** api.rs:791-797 SlotSnapshot::int *)
Definition snap_int (s : SlotSnapshot) (i : nat) : outcome ApiError Z :=
  let! v := snap_get s i in match v with VInt x => Ok x | v => Err (mismatch s i FtInt v) end.
(** api.rs:798-804 SlotSnapshot::word *)
Definition snap_word (s : SlotSnapshot) (i : nat) : outcome ApiError Z :=
  let! v := snap_get s i in match v with VWord x => Ok x | v => Err (mismatch s i FtWord v) end.
(** api.rs:805-811 SlotSnapshot::dint *)
Definition snap_dint (s : SlotSnapshot) (i : nat) : outcome ApiError Z :=
  let! v := snap_get s i in match v with VDint x => Ok x | v => Err (mismatch s i FtDint v) end.

(** ** Writing inputs *)

(** Encode one field into the octets of its slot. *)
(** api.rs:851-851 SlotWriter::set *)
Definition set_field (f : FieldRef) (b : list Z) (v : Value) : outcome ApiError (list Z) :=
  let byte := Z.to_nat (fr_byte f) in
  let! dst := slice_from b byte in
  let! dst := map_err AeCodec (encode v dst (Z.to_nat (fr_bit f))) in
  Ok (take byte b ++ dst).

(** api.rs:834-853 SlotWriter::set *)
Definition sw_set (w : SlotWriter) (index : nat) (v : Value) : outcome ApiError SlotWriter :=
  let! f := ok_or (sw_fields w !! index)
                  (AeIndexOutOfRange (sw_slot w) index (length (sw_fields w))) in
  if decide (fr_ty f ≠ field_type v)
  then Err (AeTypeMismatch (sw_slot w) index (fr_ty f) (field_type v)) else
  let! bytes := set_field f (sw_bytes w) v in
  Ok {| sw_slot := sw_slot w; sw_fields := sw_fields w; sw_bytes := bytes |}.

(** api.rs:854-857 SlotWriter::bool *)
Definition sw_bool w i (v : bool) := sw_set w i (VBool v).
(** api.rs:858-861 SlotWriter::int *)
Definition sw_int w i (v : Z) := sw_set w i (VInt v).
(** api.rs:862-865 SlotWriter::word *)
Definition sw_word w i (v : Z) := sw_set w i (VWord v).
(** api.rs:866-869 SlotWriter::dint *)
Definition sw_dint w i (v : Z) := sw_set w i (VDint v).
(** api.rs:870-873 SlotWriter::real *)
Definition sw_real w i (v : Z) := sw_set w i (VReal v).

(** api.rs:557-598 IoDevice::with_inputs *)
Definition with_inputs {T} (d : IoDevice) (slot : Z)
    (f : SlotWriter → outcome ApiError (SlotWriter * T)) : outcome (ApiError * IoDevice) (IoDevice * T) :=
  let keep {A} (m : outcome ApiError A) := map_err (λ e, (e, d)) m in
  let! i := keep (index_of d slot) in
  let! sm := idx (cf_submodules (io_cfg d)) i in
  let! fields := cf_fields (io_cfg d) slot DrInput in
  let! fields := keep (ok_or fields (AeWrongDirection slot (direction sm))) in
  let! buf := idx (io_inputs d) i in
  let! (w, out) := keep (f {| sw_slot := slot; sw_fields := fields; sw_bytes := buf |}) in
  let inputs := <[i := sw_bytes w]> (io_inputs d) in
  match write_inputs (io_image d) slot 1 (sw_bytes w) with
  | Ok img => Ok (set_image d img inputs, out)
  | Err e => Err (from_image e, set_image d (io_image d) inputs)
  | Panic => Panic
  end.

(** api.rs:527-536 IoDevice::write *)
Definition io_write (d : IoDevice) (slot : Z) (index : nat) (v : Value) :
    outcome (ApiError * IoDevice) IoDevice :=
  let! (d, _) := with_inputs d slot (λ w, let! w := sw_set w index v in Ok (w, tt)) in Ok d.
(** api.rs:537-540 IoDevice::write_bool *)
Definition write_bool d s i (v : bool) := io_write d s i (VBool v).
(** api.rs:541-544 IoDevice::write_int *)
Definition write_int d s i (v : Z) := io_write d s i (VInt v).
(** api.rs:545-548 IoDevice::write_word *)
Definition write_word d s i (v : Z) := io_write d s i (VWord v).
(** api.rs:549-552 IoDevice::write_dint *)
Definition write_dint d s i (v : Z) := io_write d s i (VDint v).
(** api.rs:553-556 IoDevice::write_real *)
Definition write_real d s i (v : Z) := io_write d s i (VReal v).

(** ** Diagnoses *)

(** api.rs:600-633 IoDevice::raise_diagnosis *)
Definition raise_diagnosis (d : IoDevice) (slot channel : Z) (error : ChannelError)
    (severity : Severity) : outcome ApiError IoDevice :=
  let! sm := cf_submodule (io_cfg d) slot in
  let! _ := ok_or sm (AeUnknownSlot slot) in
  Ok (push_command d (DcRaise {| dg_slot := slot; dg_channel := channel; dg_error := error;
                                 dg_severity := severity; dg_direction := DrInput |})).
(** api.rs:635-656 IoDevice::clear_diagnosis *)
Definition clear_diagnosis (d : IoDevice) (slot channel : Z) (error : ChannelError) :
    outcome ApiError IoDevice :=
  let! sm := cf_submodule (io_cfg d) slot in
  let! _ := ok_or sm (AeUnknownSlot slot) in
  Ok (push_command d (DcClear slot channel error)).
(** api.rs:658-666 IoDevice::diagnoses *)
Definition diagnoses (d : IoDevice) : list Diagnosis := dh_active (io_diag d).
(** api.rs:668-685 IoDevice::alarm_stats *)
Definition alarm_stats (d : IoDevice) : AlarmStats := dh_stats (io_diag d).
(** api.rs:687-691 IoDevice::alarm_rx_no_channel *)
Definition alarm_rx_no_channel (d : IoDevice) : Z := dh_rx_no_channel (io_diag d).

(** ** Stopping *)

(** What joining the acyclic thread gives: the outcome of its loop, a panic of
    the thread included.  [None] when it was joined before. *)
(** api.rs:693-708 IoDevice::stop *)
Definition stop {E R} (d : IoDevice)
    (thread : option (outcome (DeviceError * Device E R) (Device E R * option ArParams))) :
    IoDevice * outcome DeviceError unit :=
  ({| io_cfg := io_cfg d; io_image := io_image d; io_stats := io_stats d; io_state := io_state d;
      io_stop := true; io_inputs := io_inputs d; io_params := io_params d; io_diag := io_diag d |},
   match thread with
   | Some (Ok _) => Ok tt
   | Some (Err (e, _)) => Err e
   | Some Panic => Ok tt
   | None => Ok tt
   end).

(** api.rs:717-724 IoDevice::drop *)
Definition drop_handle (d : IoDevice) : IoDevice := fst (stop (E := unit) (R := unit) d None).

(** ** The image under a configuration *)

(** The image the device keeps: no layout, or the one negotiated for the
    model of the configuration. *)
Definition image_of (c : DeviceConfig) (img : IoImage) : Prop :=
  Forall u8 (im_inputs img) ∧ Forall u8 (im_csdu img) ∧
  (im_cells img = [] ∨
   ∃ params mac la, Layout_from_ar params (cf_model c mac) = Ok la ∧ im_ok la img).

Lemma u8_zeros n : Forall u8 (replicate n 0).
Proof. apply Forall_replicate. unfold u8. lia. Qed.

Lemma image_of_empty c : image_of c IoImage_empty.
Proof. split_and!; [constructor|constructor|by left]. Qed.
Lemma image_of_clear c img : image_of c img → image_of c (im_clear img).
Proof. intros _. split_and!; [constructor|constructor|by left]. Qed.
Lemma image_of_rebuild c img params mac la :
  Layout_from_ar params (cf_model c mac) = Ok la → image_of c (im_rebuild img la).
Proof.
  intros Hla. split_and!; [apply u8_zeros..|]. right. exists params, mac, la.
  split; [done|apply im_ok_rebuild].
Qed.
Lemma image_of_validity c img v : image_of c img → image_of c (set_validity img v).
Proof.
  intros (Hi & Hc & H). split_and!; [done..|].
  destruct H as [?|(params & mac & la & Hla & [? ? ?])]; [by left|right]. by exists params, mac, la.
Qed.

(** The slots of the model that carry I/O are the declared ones. *)
Lemma cf_unique c mac : cf_ok c → wf_builder_ids c → unique_keys (cf_model c mac).
Proof.
  intros Hc Hw. change (unique_keys (cf_model c sample_mac)).
  apply (cf_model_wf c sample_mac Hc Hw). unfold wf_mac. by_decide.
Qed.

Lemma cf_entry_inj c slot i sm d i' sm' d' :
  cf_entry c slot i sm d → cf_entry c slot i' sm' d' → i = i' ∧ sm = sm' ∧ d = d'.
Proof. intros (Hi & Hs & Hd & _) (Hi' & Hs' & Hd' & _). by simplify_eq. Qed.

(** Each slot is declared once. *)
Lemma cf_submodule_index c k sm :
  cf_ok c → cf_submodules c !! k = Some sm → cf_index_of c (ss_slot sm) = Some k.
Proof.
  intros Hc Hk.
  destruct (proj1 (cf_entry_slot c (ss_slot sm) Hc)) as [j Hj].
  { apply list_elem_of_fmap_2. by eapply list_elem_of_lookup_2. }
  destruct (cf_index_of_entry c _ j Hc Hj) as (sm' & d & _ & Hsm' & _ & Hs & _).
  rewrite Hj. f_equal. destruct Hc as [_ Hsort _ _].
  eapply (NoDup_lookup (ss_slot <$> cf_submodules c)); [by apply sorted_NoDup|..];
    rewrite list_lookup_fmap; [by rewrite Hsm'; cbn; rewrite Hs|by rewrite Hk].
Qed.

(** A cell of a declared slot has the lengths of its field tables. *)
Lemma cell_lengths c mac params la slot k sm d cell :
  cf_ok c → Layout_from_ar params (cf_model c mac) = Ok la →
  cell ∈ la_cells la → ce_slot cell = slot → ce_subslot cell = 1 → cf_entry c slot k sm d →
  ce_input_len cell = Z.to_nat (de_input_len d) ∧ ce_output_len cell = Z.to_nat (de_output_len d).
Proof.
  intros Hok Hla Hc Hs Hss (Hk & Hsm & Hd & Hslot & Hgood & _). unfold Layout_from_ar in Hla.
  apply obind_Ok in Hla as (icr & _ & Hla). apply obind_Ok in Hla as (ocr & _ & [= <-]).
  cbn [la_cells] in Hc. unfold make_cells in Hc.
  apply list_elem_of_In, in_concat in Hc as (cs & Hcs & Hc).
  apply list_elem_of_In, list_elem_of_fmap in Hcs as (s & -> & Hin).
  apply list_elem_of_In, list_elem_of_fmap in Hc as (y & -> & Hx). cbn in *.
  apply elem_of_cons in Hin as [->|Hin].
  { cbn in Hs. destruct Hgood as [Hnz _]. congruence. }
  apply list_elem_of_fmap in Hin as ([sm' d'] & -> & Hin). cbn in *.
  apply list_elem_of_singleton in Hx as ->. cbn.
  apply list_elem_of_lookup in Hin as [j Hj]. apply lookup_zip_with_Some in Hj as (a & b & [= <- <-] & Ha & Hb).
  pose proof (cf_submodule_index c j sm' Hok Ha) as Hj. by simplify_eq.
Qed.

(** ** The handle *)

(** One buffer per declared slot, of its input length. *)
Record io_wf (d : IoDevice) : Prop := {
  wf_cfg : cf_ok (io_cfg d);
  wf_ids : wf_builder_ids (io_cfg d);
  wf_image : image_of (io_cfg d) (io_image d);
  wf_inputs : Forall2 (λ der buf, length buf = Z.to_nat (de_input_len der) ∧ Forall u8 buf)
                      (cf_derived (io_cfg d)) (io_inputs d)
}.

(** The fields declared for a direction of a slot, and where they are. *)
Definition declared (dir : Direction) (sm : SubmoduleSpec) : list FieldType :=
  match dir with DrInput => ss_inputs sm | DrOutput => ss_outputs sm | DrInputOutput => [] end.
Definition placed (dir : Direction) (der : Derived) : list FieldRef :=
  match dir with DrInput => de_inputs der | DrOutput => de_outputs der | DrInputOutput => [] end.
Definition octets (dir : Direction) (der : Derived) : nat :=
  match dir with
  | DrInput => Z.to_nat (de_input_len der)
  | DrOutput => Z.to_nat (de_output_len der)
  | DrInputOutput => 0
  end.

Lemma placed_table c slot k sm der dir :
  cf_entry c slot k sm der →
  field_table (declared dir sm) (placed dir der) (Z.of_nat (octets dir der)).
Proof.
  intros (_ & _ & _ & _ & _ & Hi & Hi0 & Ht & Ho & Ho0 & Ht').
  destruct dir; cbn; rewrite ?Z2Nat.id by lia; [done|done|]. split_and!; [done|constructor|done].
Qed.

Lemma cf_submodule_entry {E} c slot k sm der :
  cf_entry c slot k sm der → cf_submodule (E := E) c slot = Ok (Some sm).
Proof. intros (Hk & Hsm & _). unfold cf_submodule, idx. by rewrite Hk, Hsm. Qed.

Lemma cf_fields_entry {E} c slot k sm der dir :
  cf_entry c slot k sm der →
  cf_fields (E := E) c slot dir =
    Ok (if is_nil (declared dir sm) then None else Some (placed dir der)).
Proof.
  intros He. pose proof (placed_table c slot k sm der dir He) as Ht. apply field_table_nil in Ht.
  destruct He as (Hk & _ & Hd & _). unfold cf_fields, idx. rewrite Hk, Hd. cbn [obind].
  destruct dir; cbn in Ht |- *; rewrite ?Ht; done.
Qed.

Lemma placed_lookup c slot k sm der dir i :
  cf_entry c slot k sm der →
  match declared dir sm !! i with
  | Some ty => ∃ f, placed dir der !! i = Some f ∧ fr_ty f = ty ∧ fr_wf (Z.of_nat (octets dir der)) f
  | None => placed dir der !! i = None
  end.
Proof.
  intros (<- & Hwf & _)%(placed_table _ _ _ _ _ dir). rewrite list_lookup_fmap.
  destruct (placed dir der !! i) as [f|] eqn:Hf; cbn; [|done]. exists f.
  split_and!; [done..|]. by eapply Forall_lookup_1 in Hwf.
Qed.

Lemma placed_length c slot k sm der dir :
  cf_entry c slot k sm der → length (placed dir der) = length (declared dir sm).
Proof. intros (<- & _)%(placed_table _ _ _ _ _ dir). by rewrite length_fmap. Qed.

(** A field of the table lies in the octets of its slot. *)
Lemma decode_field_Ok len f b :
  fr_wf (Z.of_nat len) f → length b = len → Forall u8 b →
  ∃ v, decode_field f b = Ok v ∧ field_type v = fr_ty f ∧ wf_value v.
Proof.
  intros (H0 & Hend & Hbit & _) Hl Hb. unfold fr_end in Hend.
  unfold decode_field, slice_from. rewrite decide_True by lia. cbn [obind].
  destruct (decode_Ok (fr_ty f) (drop (Z.to_nat (fr_byte f)) b) (Z.to_nat (fr_bit f))) as [v Hv];
    [lia|rewrite length_drop; lia|].
  exists v. rewrite Hv. split; [done|]. eapply decode_typed; [|exact Hv]. by apply Forall_drop.
Qed.

(** ** Reading *)

(** Every outcome of a read of the field [i] of a slot: the checks in the
    order of the code, then the value in the octets of the slot. *)
Inductive read_result (d : IoDevice) (slot : Z) (i : nat) (want : option FieldType) :
    outcome ApiError Value → Prop :=
| rr_unknown :
    slot ∉ (ss_slot <$> cf_submodules (io_cfg d)) →
    read_result d slot i want (Err (AeUnknownSlot slot))
| rr_direction k sm der :
    cf_entry (io_cfg d) slot k sm der → ss_outputs sm = [] →
    read_result d slot i want (Err (AeWrongDirection slot DrInput))
| rr_range k sm der :
    cf_entry (io_cfg d) slot k sm der → ss_outputs sm ≠ [] → ss_outputs sm !! i = None →
    read_result d slot i want (Err (AeIndexOutOfRange slot i (length (ss_outputs sm))))
| rr_type k sm der ty w :
    cf_entry (io_cfg d) slot k sm der → ss_outputs sm !! i = Some ty → want = Some w → w ≠ ty →
    read_result d slot i want (Err (AeTypeMismatch slot i ty w))
| rr_no_layout k sm der ty :
    cf_entry (io_cfg d) slot k sm der → ss_outputs sm !! i = Some ty → (∀ w, want = Some w → w = ty) →
    (∀ c, c ∈ im_cells (io_image d) → (ce_slot c, ce_subslot c) ≠ (slot, 1)) →
    read_result d slot i want (Err AeNoLayoutYet)
| rr_not_exchanged k sm der ty c :
    cf_entry (io_cfg d) slot k sm der → ss_outputs sm !! i = Some ty → (∀ w, want = Some w → w = ty) →
    find_cell (io_image d) slot 1 = Ok c → ce_output_off c = None →
    read_result d slot i want (Err (AeImage (ImNoOutput slot 1)))
| rr_value k sm der ty c off f v :
    cf_entry (io_cfg d) slot k sm der → ss_outputs sm !! i = Some ty → (∀ w, want = Some w → w = ty) →
    find_cell (io_image d) slot 1 = Ok c → ce_output_off c = Some off →
    de_outputs der !! i = Some f → field_type v = ty → wf_value v →
    decode_field f (region off (octets DrOutput der) (im_csdu (io_image d))) = Ok v →
    read_result d slot i want (Ok v).

Lemma find_cell_none img slot subslot e :
  find_cell img slot subslot = Err e →
  e = ImUnknownSubmodule slot subslot ∧
  ∀ c, c ∈ im_cells img → (ce_slot c, ce_subslot c) ≠ (slot, subslot).
Proof.
  unfold find_cell. destruct (List.find _ _) eqn:Hf; [done|]. intros [= <-]. split; [done|].
  intros c Hc [= H1 H2]. apply list_elem_of_In in Hc. eapply find_none in Hf; [|exact Hc].
  apply bool_decide_eq_false in Hf. by apply Hf.
Qed.

(** The octets of a declared slot in the image. *)
Lemma image_cell d slot k sm der c dir off :
  io_wf d → cf_entry (io_cfg d) slot k sm der → find_cell (io_image d) slot 1 = Ok c →
  cell_off dir c = Some off →
  cell_len dir c = octets (match dir with DirInput => DrInput | DirOutput => DrOutput end) der ∧
  (off + cell_len dir c ≤
     length (match dir with DirInput => im_inputs | DirOutput => im_csdu end (io_image d)))%nat.
Proof.
  intros [Hc Hids (_ & _ & [Hn|(params & mac & la & Hla & [Hcells Hi Ho])]) _] He Hf Hoff;
    apply find_cell_in in Hf as (Hin & Hs & Hss); [by rewrite Hn in Hin; apply not_elem_of_nil in Hin|].
  rewrite Hcells in Hin.
  destruct (cell_lengths _ _ _ _ _ _ _ _ _ Hc Hla Hin Hs Hss He) as [Hl1 Hl2].
  pose proof (cell_in_bounds _ _ _ dir _ _ Hla (cf_unique _ mac Hc Hids) Hin Hoff) as Hb.
  destruct dir; cbn in *; lia.
Qed.

Lemma direction_no_output sm : good_submodule sm → ss_outputs sm = [] → direction sm = DrInput.
Proof. intros (_ & Hne & _) Ho. unfold direction. rewrite Ho. destruct (ss_inputs sm); naive_solver. Qed.

Lemma read_outputs_region d slot k sm der c off T (g : list Z → Validity → T) :
  io_wf d → cf_entry (io_cfg d) slot k sm der → find_cell (io_image d) slot 1 = Ok c →
  ce_output_off c = Some off →
  let b := region off (octets DrOutput der) (im_csdu (io_image d)) in
  read_outputs (io_image d) slot 1 g = Ok (g b (im_validity (io_image d))) ∧
  length b = octets DrOutput der ∧ Forall u8 b.
Proof.
  intros Hw He Hf Hoff b.
  destruct (image_cell d slot k sm der c DirOutput off Hw He Hf Hoff) as [Hl Hb]. cbn in Hl, Hb.
  unfold read_outputs. rewrite Hf. cbn [obind]. rewrite Hoff. cbn [ok_or obind].
  rewrite decide_False by lia. unfold slice. rewrite decide_True by lia. cbn [obind].
  subst b. unfold region. cbn [octets] in Hl |- *. rewrite <-Hl. split_and!.
  - do 2 f_equal. f_equal. lia.
  - rewrite length_take, length_drop. lia.
  - apply Forall_take, Forall_drop, Hw.
Qed.

Lemma fields_of_entry d slot k sm der dir :
  cf_entry (io_cfg d) slot k sm der →
  fields_of d slot dir =
    if is_nil (declared dir sm) then Err (AeWrongDirection slot (direction sm)) else Ok (placed dir der).
Proof.
  intros He. unfold fields_of. rewrite (cf_submodule_entry _ _ _ _ _ He). cbn [obind ok_or].
  rewrite (cf_fields_entry _ _ _ _ _ dir He). cbn [obind]. by destruct (is_nil _).
Qed.

Lemma unknown_slot d slot :
  io_wf d → cf_index_of (io_cfg d) slot = None → slot ∉ (ss_slot <$> cf_submodules (io_cfg d)).
Proof. intros Hw Hk Hin. apply (cf_entry_slot _ _ (wf_cfg d Hw)) in Hin as [i Hi]. congruence. Qed.

Lemma read_field_result d slot i want k sm der ty f :
  io_wf d → cf_entry (io_cfg d) slot k sm der → ss_outputs sm !! i = Some ty →
  (∀ w, want = Some w → w = ty) → de_outputs der !! i = Some f → fr_ty f = ty →
  fr_wf (Z.of_nat (octets DrOutput der)) f →
  read_result d slot i want (read_field d slot f).
Proof.
  intros Hw He Hty Hwant Hf Hfty Hfw. unfold read_field.
  destruct (find_cell (io_image d) slot 1) as [c|e|] eqn:Hc.
  - destruct (ce_output_off c) as [off|] eqn:Hoff.
    + destruct (read_outputs_region d slot k sm der c off _ (λ b _, decode_field f b) Hw He Hc Hoff)
        as (-> & Hl & Hu). cbn [map_err obind].
      destruct (decode_field_Ok _ f _ Hfw Hl Hu) as (v & Hv & Hvt & Hvw). rewrite Hv.
      eapply rr_value; eauto. by rewrite Hvt.
    + unfold read_outputs. rewrite Hc. cbn [obind]. rewrite Hoff. cbn. by eapply rr_not_exchanged.
  - unfold read_outputs. rewrite Hc. apply find_cell_none in Hc as [-> Hc]. cbn. by eapply rr_no_layout.
  - unfold find_cell in Hc. by destruct (List.find _ _).
Qed.

Lemma read_want d slot i want :
  io_wf d → read_result d slot i want (let! f := io_field d slot DrOutput i want in read_field d slot f).
Proof.
  intros Hw. unfold io_field. destruct (cf_index_of (io_cfg d) slot) as [k|] eqn:Hk.
  2:{ unfold fields_of, cf_submodule. rewrite Hk. cbn. by apply rr_unknown, unknown_slot. }
  destruct (cf_index_of_entry _ _ _ (wf_cfg d Hw) Hk) as (sm & der & He).
  rewrite (fields_of_entry _ _ _ _ _ _ He). destruct (is_nil (declared DrOutput sm)) eqn:Hn; cbn [obind].
  { apply is_nil_spec in Hn. rewrite (direction_no_output sm); [by eapply rr_direction|apply He|done]. }
  assert (ss_outputs sm ≠ []) as Hne by (intros E; cbn in Hn; by rewrite E in Hn).
  pose proof (placed_lookup _ _ _ _ _ DrOutput i He) as Hp. cbn [declared placed] in Hp |- *.
  destruct (ss_outputs sm !! i) as [ty|] eqn:Hty.
  - destruct Hp as (f & Hf & Hfty & Hfw). rewrite Hf. cbn [ok_or obind].
    destruct want as [w|]; [case_decide as Hd; cbn [obind]|].
    + rewrite Hfty in *. by eapply rr_type.
    + eapply read_field_result; eauto. intros ? [= <-]. destruct (decide (w = fr_ty f)); congruence.
    + eapply read_field_result; eauto. done.
  - rewrite Hp. cbn. assert (length (de_outputs der) = length (ss_outputs sm)) as ->
      by apply (placed_length _ _ _ _ _ DrOutput He). by eapply rr_range.
Qed.

(** The typed reads see a value of the type they asked for. *)
Lemma typed_ty d slot i ty :
  io_wf d → no_panic (typed d slot i ty) ∧ ∀ v, typed d slot i ty = Ok v → field_type v = ty.
Proof.
  intros Hw. pose proof (read_want d slot i (Some ty) Hw) as H.
  change (read_result d slot i (Some ty) (typed d slot i ty)) in H. unfold no_panic.
  inversion H as [| | | | | |? ? ? ty' ? ? ? v' ? ? Heq ? ? ? Hv]; subst; try done.
  split; [done|]. intros ? [= <-]. symmetry. by apply Heq.
Qed.

(** A typed read against the untyped one. *)
Definition views {A} (d : IoDevice) (slot : Z) (i : nat) (ty : FieldType) (mk : A → Value)
    (r : outcome ApiError A) : Prop :=
  no_panic r ∧ (∀ x, r = Ok x ↔ typed d slot i ty = Ok (mk x)) ∧
  ∀ e, r = Err e ↔ typed d slot i ty = Err e.

Lemma typed_views {A} d slot i ty (mk : A → Value) (k : Value → outcome ApiError A) :
  io_wf d → (∀ x, k (mk x) = Ok x) → (∀ v, field_type v = ty → ∃ x, v = mk x) →
  views d slot i ty mk (obind (typed d slot i ty) k).
Proof.
  intros Hw Hk Hty. destruct (typed_ty d slot i ty Hw) as [Hn Ht]. unfold views, no_panic in *.
  destruct (typed d slot i ty) as [v|e|]; cbn [obind]; [|naive_solver|done].
  destruct (Hty v (Ht v eq_refl)) as [x ->]. rewrite Hk.
  split_and!; [done| |done]. intros y. split; [by intros [= ->]|]. intros [= Hy].
  by rewrite <-(Hk x), Hy, Hk.
Qed.

Lemma snapshot_reads d slot s j :
  io_wf d → outputs d slot = Ok s → snap_get s j = io_read d slot j.
Proof.
  intros Hw Hs. unfold outputs in Hs. apply obind_Ok in Hs as (fields & Hf & Hs).
  apply obind_Ok in Hs as ([b v] & Hr & [= <-]). unfold snap_get, io_read, io_field. rewrite Hf.
  cbn [obind sp_fields sp_slot sp_bytes]. destruct (fields !! j) as [f|]; [|done]. cbn [ok_or obind].
  unfold read_field. apply map_err_Ok in Hr. unfold read_outputs in *.
  apply obind_Ok in Hr as (c & -> & Hr). cbn [obind].
  apply obind_Ok in Hr as (off & -> & Hr). cbn [obind]. case_decide; [done|].
  apply obind_Ok in Hr as (b' & -> & [= -> <-]). done.
Qed.

(** ** Writing *)

Lemma encode_u8 v dst bit dst' :
  wf_value v → (bit < 8)%nat → Forall u8 dst → encode v dst bit = Ok dst' → Forall u8 dst'.
Proof.
  intros Hv Hb Hd. destruct v as [b|v|v|v|v]; cbn [encode wf_value] in *.
  1: { destruct dst as [|x rest]; [unfold set_bit; by rewrite decide_True by (cbn; lia)|].
    rewrite set_bit_front by done. intros [= <-]. apply Forall_cons_1 in Hd as [Hx Hr].
    constructor; [|done]. apply with_bit_u8; [done|lia]. }
  all: intros [_ ->]%put_Ok; apply Forall_app; split; [|by apply Forall_drop].
  all: unfold encode_i16, encode_u16, encode_i32, encode_f32; auto using wrap32_u32.
Qed.

(** Storing a value in its field: it fits, reads back, and no other field of
    the table changes, the other bits of a shared octet included. *)
Lemma set_field_other f g b b' len v :
  fr_wf (Z.of_nat len) f → fr_wf (Z.of_nat len) g → fr_disjoint f g →
  length b = len → Forall u8 b → field_type v = fr_ty f → set_field f b v = Ok b' →
  length b' = len → decode_field g b' = decode_field g b.
Proof.
  intros (Hf0 & Hfe & Hfb & _) (Hg0 & Hge & Hgb & _) Hd Hl Hu Hv H Hl'. unfold fr_end in *.
  apply obind_Ok in H as (src & Hsrc & H). apply obind_Ok in H as (dst & Hdst & [= <-]).
  apply map_err_Ok in Hdst. unfold slice_from in Hsrc. rewrite decide_True in Hsrc by lia.
  injection Hsrc as <-. destruct (encode_outside v _ (Z.to_nat (fr_bit f)) _ ltac:(lia) Hdst) as [Hlen Hout].
  unfold decode_field, slice_from. rewrite !decide_True by lia. cbn [obind]. f_equal.
  destruct Hd as [Hd|[Hd|(Hby & Hbi & Hft & Hgt)]]; unfold fr_end in *.
  - apply decode_ext; [lia|by rewrite !length_drop, Hl', Hl|]. intros i Hi.
    rewrite !lookup_drop, lookup_app_r; rewrite length_take; [|lia]. rewrite Hout; [|rewrite Hv; lia].
    rewrite lookup_drop. f_equal. lia.
  - apply decode_ext; [lia|by rewrite !length_drop, Hl', Hl|]. intros i Hi.
    rewrite !lookup_drop, lookup_app_l; [|rewrite length_take; lia]. by rewrite lookup_take_lt by lia.
  - rewrite <-Hby, drop_app_le, drop_ge, Hgt by (rewrite length_take; lia).
    destruct v as [x| | | |]; try (rewrite Hft in Hv; done). cbn [app encode decode] in *.
    destruct (drop (Z.to_nat (fr_byte f)) b) as [|y rest] eqn:Hdr.
    { apply (f_equal length) in Hdr. rewrite length_drop, Hft in *. cbn in *. lia. }
    rewrite set_bit_front in Hdst by lia. injection Hdst as <-. rewrite !get_bit_front by lia.
    assert (u8 y) as Hy by (eapply Forall_cons_1; rewrite <-Hdr; by apply Forall_drop).
    rewrite with_bit_spec by (done || lia). rewrite decide_False by lia. done.
Qed.

Lemma set_field_spec f b len v :
  fr_wf (Z.of_nat len) f → length b = len → Forall u8 b → field_type v = fr_ty f → wf_value v →
  ∃ b', set_field f b v = Ok b' ∧ length b' = len ∧ Forall u8 b' ∧ decode_field f b' = Ok v ∧
    ∀ g, fr_wf (Z.of_nat len) g → fr_disjoint f g → decode_field g b' = decode_field g b.
Proof.
  intros Hf Hl Hu Hv Hw. pose proof Hf as (Hf0 & Hfe & Hfb & _). unfold fr_end in *.
  pose proof (proj1 (encode_Ok v (drop (Z.to_nat (fr_byte f)) b) (Z.to_nat (fr_bit f)) ltac:(lia))) as He.
  destruct (encode v _ _) as [dst|e|] eqn:Hdst; try (exfalso; rewrite length_drop, Hv in He;
    specialize (He ltac:(lia)); done).
  destruct (encode_outside v _ (Z.to_nat (fr_bit f)) _ ltac:(lia) Hdst) as [Hlen _]. rewrite length_drop in Hlen.
  assert (set_field f b v = Ok (take (Z.to_nat (fr_byte f)) b ++ dst)) as Hs.
  { unfold set_field, slice_from. rewrite decide_True by lia. cbn [obind]. by rewrite Hdst. }
  assert (length (take (Z.to_nat (fr_byte f)) b ++ dst) = len) as Hl'
    by (rewrite length_app, length_take; lia).
  eexists. split_and!; [exact Hs|done|..].
  - apply Forall_app. split; [by apply Forall_take|]. eapply encode_u8; [| | |exact Hdst]; [done|lia|].
    by apply Forall_drop.
  - unfold decode_field, slice_from. rewrite decide_True by lia. cbn [obind].
    rewrite drop_app_le, drop_ge by (rewrite length_take; lia). cbn [app]. rewrite <-Hv.
    rewrite (decode_encode v _ (Z.to_nat (fr_bit f)) dst Hw ltac:(lia) (Forall_drop _ _ _ Hu) Hdst). done.
  - intros g Hg Hd. by apply (set_field_other f g b _ len v).
Qed.

(** What a write through the image did: the slot's octets are [buf], every
    other submodule's are what they were. *)
Definition published (img : IoImage) (slot : Z) (buf : list Z) (img' : IoImage) : Prop :=
  ∃ c off, find_cell img slot 1 = Ok c ∧ ce_input_off c = Some off ∧ ce_input_len c = length buf ∧
    region off (length buf) (im_inputs img') = buf ∧ length (im_inputs img') = length (im_inputs img) ∧
    (∀ c' off', c' ∈ im_cells img → ce_input_off c' = Some off' →
       (ce_slot c', ce_subslot c') ≠ (slot, 1) →
       region off' (ce_input_len c') (im_inputs img') = region off' (ce_input_len c') (im_inputs img)) ∧
    im_cells img' = im_cells img ∧ im_csdu img' = im_csdu img ∧ im_validity img' = im_validity img.

(** Every outcome of publishing the working copy of a declared slot. *)
Lemma write_inputs_result d slot k sm der buf :
  io_wf d → cf_entry (io_cfg d) slot k sm der → length buf = octets DrInput der → Forall u8 buf →
  match write_inputs (io_image d) slot 1 buf with
  | Ok img => published (io_image d) slot buf img ∧ image_of (io_cfg d) img
  | Err e => (from_image e = AeNoLayoutYet ∧
              ∀ c, c ∈ im_cells (io_image d) → (ce_slot c, ce_subslot c) ≠ (slot, 1)) ∨
             (e = ImNoInput slot 1 ∧
              ∃ c, find_cell (io_image d) slot 1 = Ok c ∧ ce_input_off c = None)
  | Panic => False
  end.
Proof.
  intros Hw He Hl Hu. destruct (write_inputs (io_image d) slot 1 buf) as [img|e|] eqn:Hwr.
  - destruct (write_inputs_Ok _ _ _ _ _ Hwr) as (c & off & Hc & Hoff & Hlen & Hcopy & Hce & Hcs & Hv).
    destruct (wf_image d Hw) as (Hi8 & Hc8 & Him). pose proof (find_cell_in _ _ _ _ Hc) as (Hin & Hs & Hss).
    destruct Him as [Hn|(params & mac & la & Hla & [Hcells Hli Hlo])];
      [by rewrite Hn in Hin; apply not_elem_of_nil in Hin|].
    pose proof (cf_unique _ mac (wf_cfg d Hw) (wf_ids d Hw)) as Hun.
    pose proof (copy_at_length _ _ _ _ Hcopy) as Hlc. split.
    + exists c, off. split_and!; try done; [by eapply region_copy|].
      intros c' off' Hc' Hoff' Hne. rewrite Hcells in Hin, Hc'.
      eapply (write_elsewhere params _ la c off c' off'); try eassumption. congruence.
    + split_and!; [|by rewrite Hcs|right; exists params, mac, la; split; [done|]].
      * apply copy_at_Ok in Hcopy as [_ ->]. rewrite !Forall_app.
        split_and!; [by apply Forall_take|done|by apply Forall_drop].
      * split; [by rewrite Hce|by rewrite Hlc|by rewrite Hcs].
  - revert Hwr. unfold write_inputs. destruct (find_cell (io_image d) slot 1) as [c|e'|] eqn:Hc;
      cbn [obind]; [|intros [= ->]; left; by apply find_cell_none in Hc as [-> ?]|done].
    destruct (ce_input_off c) as [off|] eqn:Hoff; cbn [ok_or obind]; [|intros [= <-]; right; by eauto].
    destruct (image_cell d slot k sm der c DirInput off Hw He Hc Hoff) as [Hcl Hb]. cbn in *.
    rewrite decide_False by lia. rewrite decide_False by lia. unfold copy_at.
    rewrite decide_True by lia. done.
  - revert Hwr. unfold write_inputs. destruct (find_cell (io_image d) slot 1) as [c|e'|] eqn:Hc;
      cbn [obind]; [|done|unfold find_cell in Hc; by destruct (List.find _ _)].
    destruct (ce_input_off c) as [off|] eqn:Hoff; cbn [ok_or obind]; [|done].
    repeat case_decide; try done. unfold copy_at. rewrite decide_True by lia. done.
Qed.

(** A closure of [with_inputs] can only set fields: the sets it makes, in
    order, stopping at the first error. *)
Fixpoint set_all (w : SlotWriter) (sets : list (nat * Value)) : outcome ApiError SlotWriter :=
  match sets with
  | [] => Ok w
  | (i, v) :: sets => let! w := sw_set w i v in set_all w sets
  end.
Definition write_all (d : IoDevice) (slot : Z) (sets : list (nat * Value)) :
    outcome (ApiError * IoDevice) (IoDevice * unit) :=
  with_inputs d slot (λ w, let! w := set_all w sets in Ok (w, tt)).

Lemma io_write_all d slot i v :
  io_write d slot i v = let! (d, _) := write_all d slot [(i, v)] in Ok d.
Proof.
  unfold io_write, write_all, with_inputs.
  destruct (index_of d slot); cbn [map_err obind]; [|done..].
  destruct (idx _ _); cbn [obind]; [|done..]. destruct (cf_fields _ _ _); cbn [obind]; [|done..].
  destruct (ok_or _ _); cbn [map_err obind]; [|done..]. destruct (idx _ _); cbn [obind]; [|done..].
  cbn [set_all]. by destruct (sw_set _ i v).
Qed.

(** The last value set for a field. *)
Fixpoint final (sets : list (nat * Value)) (j : nat) : option Value :=
  match sets with
  | [] => None
  | (i, v) :: sets =>
    match final sets j with Some x => Some x | None => if decide (i = j) then Some v else None end
  end.

Lemma final_app s t j : final (s ++ t) j = match final t j with Some v => Some v | None => final s j end.
Proof. induction s as [|[i v] s IH]; cbn; [by destruct (final t j)|]. rewrite IH. by destruct (final t j). Qed.

(** The buffer of a slot after some sets. *)
Definition batch (der : Derived) (sets : list (nat * Value)) (buf buf' : list Z) : Prop :=
  length buf' = length buf ∧ Forall u8 buf' ∧
  ∀ j g, de_inputs der !! j = Some g →
    decode_field g buf' = match final sets j with Some v => Ok v | None => decode_field g buf end.
Definition fits (sm : SubmoduleSpec) (set : nat * Value) : Prop :=
  ss_inputs sm !! set.1 = Some (field_type set.2).
Definition bad_set (slot : Z) (sm : SubmoduleSpec) (set : nat * Value) (e : ApiError) : Prop :=
  (ss_inputs sm !! set.1 = None ∧ e = AeIndexOutOfRange slot set.1 (length (ss_inputs sm))) ∨
  ∃ ty, ss_inputs sm !! set.1 = Some ty ∧ ty ≠ field_type set.2 ∧
        e = AeTypeMismatch slot set.1 ty (field_type set.2).

Lemma batch_cons der i v sets buf b1 b2 f :
  de_inputs der !! i = Some f → decode_field f b1 = Ok v →
  (∀ j g, j ≠ i → de_inputs der !! j = Some g → decode_field g b1 = decode_field g buf) →
  length b1 = length buf → batch der sets b1 b2 → batch der ((i, v) :: sets) buf b2.
Proof.
  intros Hf Hv Ho Hl (Hl' & Hu & Hg). split_and!; [lia|done|]. intros j g Hj. rewrite (Hg j g Hj). cbn.
  destruct (final sets j); [done|]. case_decide as Hij; [subst; by simplify_eq|]. by apply (Ho j).
Qed.

Lemma sw_set_result c slot k sm der w i v :
  cf_entry c slot k sm der → sw_slot w = slot → sw_fields w = de_inputs der →
  length (sw_bytes w) = octets DrInput der → Forall u8 (sw_bytes w) → wf_value v →
  match sw_set w i v with
  | Ok w' => fits sm (i, v) ∧ sw_slot w' = slot ∧ sw_fields w' = de_inputs der ∧
             batch der [(i, v)] (sw_bytes w) (sw_bytes w')
  | Err e => bad_set slot sm (i, v) e
  | Panic => False
  end.
Proof.
  intros He Hs Hf Hl Hu Hv. unfold sw_set. rewrite Hs, Hf.
  pose proof (placed_lookup _ _ _ _ _ DrInput i He) as Hp. cbn [declared placed] in Hp.
  destruct (ss_inputs sm !! i) as [ty|] eqn:Hty.
  2:{ rewrite Hp. left. split; [done|]. cbn. f_equal. apply (placed_length _ _ _ _ _ DrInput He). }
  destruct Hp as (f & Hfi & Hft & Hfw). rewrite Hfi. cbn [ok_or obind].
  destruct (decide (fr_ty f ≠ field_type v)) as [Hne|Heq].
  { right. exists ty. rewrite Hft in *. done. }
  assert (field_type v = fr_ty f) as Hvt by (symmetry; by apply dec_stable).
  destruct (set_field_spec f (sw_bytes w) _ v Hfw Hl Hu Hvt Hv) as (b & -> & Hlb & Hub & Hd & Ho).
  cbn [obind]. split_and!; [red; cbn; congruence|done|done|].
  eapply batch_cons; [done|exact Hd| |cbn; lia|split_and!; [done|done|done]].
  intros j g Hj Hg. destruct (placed_table _ _ _ _ _ DrInput He) as (_ & Hwf & Hdis).
  apply Ho; [by eapply Forall_lookup_1 in Hwf|by eapply (Hdis i j)].
Qed.

Lemma batch_trans der s t a b c : batch der s a b → batch der t b c → batch der (s ++ t) a c.
Proof.
  intros (Hl & _ & Hs) (Hl' & Hu & Ht). split_and!; [lia|done|]. intros j g Hj.
  rewrite (Ht j g Hj), (Hs j g Hj), final_app. by destruct (final t j).
Qed.

Lemma set_all_result c slot k sm der sets : ∀ w,
  cf_entry c slot k sm der → sw_slot w = slot → sw_fields w = de_inputs der →
  length (sw_bytes w) = octets DrInput der → Forall u8 (sw_bytes w) → Forall (wf_value ∘ snd) sets →
  match set_all w sets with
  | Ok w' => Forall (fits sm) sets ∧ batch der sets (sw_bytes w) (sw_bytes w')
  | Err e => ∃ pre set post, sets = pre ++ set :: post ∧ Forall (fits sm) pre ∧ bad_set slot sm set e
  | Panic => False
  end.
Proof.
  induction sets as [|[i v] sets IH]; intros w He Hs Hf Hl Hu Hv; cbn [set_all].
  { split; [constructor|]. by split_and!. }
  apply Forall_cons_1 in Hv as [Hv Hvs]. cbn in Hv.
  pose proof (sw_set_result c slot k sm der w i v He Hs Hf Hl Hu Hv) as Hset.
  destruct (sw_set w i v) as [w1|e|]; cbn [obind]; [|by exists [], (i, v), sets|done].
  destruct Hset as (Hfit & Hs1 & Hf1 & Hb). pose proof Hb as (Hl1 & Hu1 & _).
  specialize (IH w1 He Hs1 Hf1 ltac:(lia) Hu1 Hvs). destruct (set_all w1 sets) as [w2|e|]; [|..|done].
  - destruct IH as [Hfits Hb2]. split; [by constructor|]. by apply (batch_trans der [(i, v)] sets _ _ _ Hb).
  - destruct IH as (pre & set & post & -> & Hpre & Hbad). exists ((i, v) :: pre), set, post.
    split_and!; [done|by constructor|done].
Qed.

(** Every outcome of a batch of sets on one slot. *)
Inductive write_result (d : IoDevice) (slot : Z) (sets : list (nat * Value)) :
    outcome (ApiError * IoDevice) (IoDevice * unit) → Prop :=
| wr_unknown :
    slot ∉ (ss_slot <$> cf_submodules (io_cfg d)) →
    write_result d slot sets (Err (AeUnknownSlot slot, d))
| wr_direction k sm der :
    cf_entry (io_cfg d) slot k sm der → ss_inputs sm = [] →
    write_result d slot sets (Err (AeWrongDirection slot DrOutput, d))
| wr_bad_set k sm der pre set post e :
    cf_entry (io_cfg d) slot k sm der → sets = pre ++ set :: post → Forall (fits sm) pre →
    bad_set slot sm set e →
    write_result d slot sets (Err (e, d))
| wr_kept k sm der buf buf' e :
    cf_entry (io_cfg d) slot k sm der → Forall (fits sm) sets → io_inputs d !! k = Some buf →
    batch der sets buf buf' →
    (e = AeNoLayoutYet ∧
       (∀ c, c ∈ im_cells (io_image d) → (ce_slot c, ce_subslot c) ≠ (slot, 1)) ∨
     e = AeImage (ImNoInput slot 1) ∧
       ∃ c, find_cell (io_image d) slot 1 = Ok c ∧ ce_input_off c = None) →
    write_result d slot sets (Err (e, set_image d (io_image d) (<[k := buf']> (io_inputs d))))
| wr_published k sm der buf buf' img :
    cf_entry (io_cfg d) slot k sm der → Forall (fits sm) sets → io_inputs d !! k = Some buf →
    batch der sets buf buf' → published (io_image d) slot buf' img →
    write_result d slot sets (Ok (set_image d img (<[k := buf']> (io_inputs d)), tt)).

Lemma direction_no_input sm : good_submodule sm → ss_inputs sm = [] → direction sm = DrOutput.
Proof. intros (_ & Hne & _) Ho. unfold direction. rewrite Ho. destruct (ss_outputs sm); naive_solver. Qed.

Lemma set_image_wf d slot k sm der buf buf' img sets :
  io_wf d → cf_entry (io_cfg d) slot k sm der → io_inputs d !! k = Some buf →
  batch der sets buf buf' → image_of (io_cfg d) img →
  io_wf (set_image d img (<[k := buf']> (io_inputs d))).
Proof.
  intros [Hc Hi _ Hin] (_ & _ & Hd & _) Hbuf (Hl & Hu & _) Himg. split; cbn; [done..|].
  destruct (Forall2_lookup_lr _ _ _ _ _ _ Hin Hd Hbuf) as [Hlen _].
  apply Forall2_lookup. intros j. destruct (decide (j = k)) as [->|Hne].
  - rewrite Hd, list_lookup_insert_eq by (by eapply lookup_lt_Some). constructor. split; [lia|done].
  - rewrite list_lookup_insert_ne by done. by apply Forall2_lookup.
Qed.

Definition after_write {A} (r : outcome (ApiError * IoDevice) (IoDevice * A)) : option IoDevice :=
  match r with Ok (d, _) | Err (_, d) => Some d | Panic => None end.

Lemma write_all_result d slot sets :
  io_wf d → Forall (wf_value ∘ snd) sets →
  write_result d slot sets (write_all d slot sets) ∧
  ∀ d', after_write (write_all d slot sets) = Some d' → io_wf d'.
Proof.
  intros Hw Hv. unfold write_all, with_inputs, index_of.
  destruct (cf_index_of (io_cfg d) slot) as [k|] eqn:Hk; cbn [ok_or map_err obind].
  2:{ split; [by apply wr_unknown, unknown_slot|by cbn; intros ? [= <-]]. }
  destruct (cf_index_of_entry _ _ _ (wf_cfg d Hw) Hk) as (sm & der & He).
  pose proof He as (_ & Hsm & Hd & _ & Hgood & _). rewrite (proj2 (idx_Ok _ _ _) Hsm). cbn [obind].
  rewrite (cf_fields_entry _ _ _ _ _ DrInput He). cbn [obind declared placed].
  destruct (is_nil (ss_inputs sm)) eqn:Hn; cbn [ok_or map_err obind].
  { apply is_nil_spec in Hn. rewrite direction_no_input by done.
    split; [by eapply wr_direction|by cbn; intros ? [= <-]]. }
  destruct (Forall2_lookup_l _ _ _ _ _ (wf_inputs d Hw) Hd) as (buf & Hbuf & Hl & Hu).
  rewrite (proj2 (idx_Ok _ _ _) Hbuf). cbn [obind].
  pose proof (set_all_result _ _ _ _ _ sets {| sw_slot := slot; sw_fields := de_inputs der; sw_bytes := buf |}
    He eq_refl eq_refl Hl Hu Hv) as Hset.
  destruct (set_all _ sets) as [w|e|]; cbn [map_err obind]; [|..|done].
  2:{ destruct Hset as (pre & set & post & Hs & Hpre & Hbad).
      split; [by eapply wr_bad_set|by cbn; intros ? [= <-]]. }
  destruct Hset as (Hfits & Hb). pose proof Hb as (Hl' & Hu' & _). cbn in Hl', Hb.
  pose proof (write_inputs_result d slot k sm der (sw_bytes w) Hw He ltac:(cbn; lia) Hu') as Hwr.
  destruct (write_inputs _ _ _ _) as [img|e|]; [|..|done].
  - destruct Hwr as [Hpub Himg]. split; [by eapply wr_published|]. cbn. intros ? [= <-].
    by eapply set_image_wf.
  - split; [|cbn; intros ? [= <-]; eapply set_image_wf; try done; apply Hw].
    eapply wr_kept; try done. destruct Hwr as [[-> ?]|(-> & ?)]; [by left|by right].
Qed.

(** ** Starting and mirroring *)

Lemma blank_inputs_ok {X} c : ∀ l, cf_ok c → l ⊆ cf_submodules c →
  ∃ bufs, blank_inputs (X := X) c l = Ok bufs ∧
    Forall2 (λ s buf, ∃ k sm der, cf_entry c (ss_slot s) k sm der ∧
               buf = replicate (Z.to_nat (de_input_len der)) 0) l bufs.
Proof.
  intros l Hc. induction l as [|s l IH]; intros Hl; cbn [blank_inputs]; [by exists []|].
  destruct (proj1 (cf_entry_slot c (ss_slot s) Hc)) as [k Hk].
  { apply list_elem_of_fmap_2, Hl, elem_of_cons. by left. }
  destruct (cf_index_of_entry c _ k Hc Hk) as (sm & der & He). pose proof He as (_ & _ & Hd & _).
  unfold cf_input_len. rewrite Hk, (proj2 (idx_Ok _ _ _) Hd). cbn [obind].
  destruct IH as (bufs & -> & Hb); [intros x Hx; apply Hl, elem_of_cons; by right|].
  cbn [obind default]. eexists. split; [done|]. constructor; [|done]. by exists k, sm, der.
Qed.

(** The handle that comes out of a start, with the device behind it. *)
Lemma start_inner_wf {E R} `{EthTransport E} `{RpcTransport R} cfg mac ip rt (eth : E) (rpc : R)
    runner store read dev d :
  cf_ok cfg → wf_builder_ids cfg →
  start_inner cfg mac ip rt eth rpc runner store read = Ok (dev, d) → io_wf d.
Proof.
  intros Hc Hi Hs. unfold start_inner in Hs. apply obind_Ok in Hs as (setup & _ & Hs).
  apply obind_Ok in Hs as (bufs & Hb & [= <- <-]).
  destruct (blank_inputs_ok (X := ApiError) cfg (cf_submodules cfg) Hc ltac:(done)) as (bufs' & Hb' & Hall).
  assert (bufs' = bufs) as -> by congruence.
  split; cbn; [done|done|apply image_of_empty|].
  apply Forall2_same_length_lookup_2.
  { rewrite <-(list.Forall2_length _ _ _ Hall). symmetry. eapply list.Forall2_length, Hc. }
  intros k der buf Hder Hbuf.
  destruct (Forall2_lookup_r _ _ _ _ _ Hall Hbuf) as (s & Hs & k' & sm & der' & He & ->).
  pose proof (cf_submodule_index cfg k s Hc Hs) as Hk. destruct He as (Hk' & _ & Hd' & _).
  simplify_eq. split; [apply length_replicate|apply u8_zeros].
Qed.

(** The mirrored parameters are those of the device after every iteration. *)
Lemma params_mirrored {E R} `{EthTransport E} `{RpcTransport R} (dev : Device E R) params env now
    dev' last' params' :
  publishing_step dev params params env now = Ok (dev', last', params') →
  last' = ar_params dev' ∧ params' = ar_params dev'.
Proof.
  intros Hs. unfold publishing_step in Hs.
  apply obind_Ok in Hs as ([dev1 rep] & _ & [= <- <- <-]). split; [done|]. by case_decide.
Qed.

(** Published octets are in the frame of the next tick. *)
Lemma published_tick params mac c0 e img slot buf img' dst problem n :
  cf_ok c0 → wf_builder_ids c0 → Layout_from_ar params (cf_model c0 mac) = Ok (en_layout e) →
  im_ok (en_layout e) img → en_inv e → published img slot buf img' →
  length dst = cl_data_length (la_input_cr (en_layout e)) →
  ∃ c off snap e' frame eth rt,
    find_cell img slot 1 = Ok c ∧ ce_input_off c = Some off ∧
    rt_snapshot_inputs (E := Empty_set) img' false dst = Ok (snap, true) ∧
    en_on_tick (E := Empty_set) e problem n snap = Ok (e', frame) ∧
    RtFrame_parse frame = Ok (eth, rt) ∧ region off (length buf) (rf_csdu rt) = buf.
Proof.
  intros Hc0 Hids Hla [Hcells Hin _] He (c & off & Hf & Hoff & Hl & Hreg & Hli & _) Hdst.
  pose proof (cf_unique _ mac Hc0 Hids) as Hu.
  pose proof (find_cell_in _ _ _ _ Hf) as (Hc & _). rewrite Hcells in Hc.
  destruct (en_on_tick_says e problem n (im_inputs img') He) as (e' & frame & rt & Ht & _ & Hp & _ & Hsay);
    [by rewrite Hli|].
  destruct Hsay as (_ & _ & _ & _ & _ & _ & _ & Hprov).
  assert (cr_sound (la_input_cr (en_layout e))) as Hsound by apply He.
  destruct (provides_region _ _ _ _ _ _ _ Hla Hu Hc Hoff Hsound Hprov) as [Heq _].
  exists c, off, (im_inputs img'), e', frame. do 2 eexists. unfold rt_snapshot_inputs.
  rewrite copy_front_same by lia. split_and!; [done|done|done|done|exact Hp|].
  rewrite Hl in Heq. by rewrite Heq.
Qed.

(** What a write left behind when there was no layout, or published. *)
Lemma write_all_kept d slot sets d1 :
  io_wf d → Forall (wf_value ∘ snd) sets → write_all d slot sets = Err (AeNoLayoutYet, d1) →
  io_wf d1 ∧ io_cfg d1 = io_cfg d ∧
  ∃ k sm der buf buf', cf_entry (io_cfg d) slot k sm der ∧ io_inputs d !! k = Some buf ∧
    io_inputs d1 !! k = Some buf' ∧ batch der sets buf buf'.
Proof.
  intros Hw Hv H. destruct (write_all_result d slot sets Hw Hv) as [Hr Hwf]. rewrite H in Hr, Hwf.
  split; [by apply Hwf|]. inversion Hr as [| |? ? ? ? ? ? ? ? ? ? Hbad|k sm der buf buf' ? Hen ? Hbuf Hb|]; subst.
  - destruct Hbad as [[_ ?]|(? & _ & _ & ?)]; done.
  - split; [done|]. exists k, sm, der, buf, buf'. split_and!; [done|done| |done].
    cbn. apply list_lookup_insert_eq. by eapply lookup_lt_Some.
Qed.

Lemma write_all_published d slot sets d1 :
  io_wf d → Forall (wf_value ∘ snd) sets → write_all d slot sets = Ok (d1, tt) →
  ∃ k sm der buf buf', cf_entry (io_cfg d) slot k sm der ∧ io_inputs d !! k = Some buf ∧
    batch der sets buf buf' ∧ published (io_image d) slot buf' (io_image d1).
Proof.
  intros Hw Hv H. destruct (write_all_result d slot sets Hw Hv) as [Hr _]. rewrite H in Hr.
  inversion Hr as [| | | |k sm der buf buf' img Hen ? Hbuf Hb Hp]; subst. by exists k, sm, der, buf, buf'.
Qed.

(** ** Claims *)

(** C14: a read by slot and index returns the field's value or the right
    error.  The checks come in the order slot, direction, index, type, layout;
    when all pass, the result is the value encoded in the field's octets of
    the slot's region of the controller's data, of the declared type and in
    its range, and no codec error, slice overrun or unreachable arm is ever
    hit.  The five typed reads return exactly that value, and a snapshot of
    the slot reads the same as the device it was taken from. *)
Theorem reads_declared_fields d slot i :
  io_wf d →
  read_result d slot i None (io_read d slot i) ∧
  (∀ want, read_result d slot i (Some want) (typed d slot i want)) ∧
  views d slot i FtBool VBool (read_bool d slot i) ∧
  views d slot i FtInt VInt (read_int d slot i) ∧
  views d slot i FtWord VWord (read_word d slot i) ∧
  views d slot i FtDint VDint (read_dint d slot i) ∧
  views d slot i FtReal VReal (read_real d slot i) ∧
  ∀ s j, outputs d slot = Ok s → snap_get s j = io_read d slot j.
Proof.
  intros Hw. split_and!; [apply (read_want d slot i None Hw)|intros w; apply (read_want d slot i (Some w) Hw)|..].
  - apply typed_views; [done..|]. intros []; naive_solver.
  - apply typed_views; [done..|]. intros []; naive_solver.
  - apply typed_views; [done..|]. intros []; naive_solver.
  - apply typed_views; [done..|]. intros []; naive_solver.
  - apply typed_views; [done..|]. intros []; naive_solver.
  - intros s j. by apply snapshot_reads.
Qed.

(** C13: a batch of field writes is all or nothing.  A rejected batch (slot,
    direction, index or type) changes nothing at all and reports the first bad
    set; an accepted one leaves in the slot's working copy the last value set
    for each field and every other field as it was, down to the bits sharing
    an octet, and publishes those octets to the slot's region of the image and
    to no other; without a layout the working copy alone keeps them.  The
    handle stays well formed in every case and nothing panics. *)
Theorem writes_all_or_nothing d slot sets :
  io_wf d → Forall (wf_value ∘ snd) sets →
  write_result d slot sets (write_all d slot sets) ∧ no_panic (write_all d slot sets) ∧
  (∀ d', after_write (write_all d slot sets) = Some d' → io_wf d') ∧
  ∀ i v, sets = [(i, v)] → io_write d slot i v = let! (d, _) := write_all d slot sets in Ok d.
Proof.
  intros Hw Hv. destruct (write_all_result d slot sets Hw Hv) as [Hr Hwf]. split_and!; [done|..|done|].
  - unfold no_panic. by inversion Hr.
  - intros i v ->. apply io_write_all.
Qed.

(** C25: a value written while the connection is down reaches the controller.
    After a batch that only the working copy kept and a later one that was
    published under a new layout, the next tick's frame carries in the slot's
    region the last value set for every field over both batches. *)
Theorem kept_writes_reach_wire d slot sets d1 img params mac e sets' d2 dst problem n :
  io_wf d → Forall (wf_value ∘ snd) sets → Forall (wf_value ∘ snd) sets' →
  write_all d slot sets = Err (AeNoLayoutYet, d1) →
  Layout_from_ar params (cf_model (io_cfg d) mac) = Ok (en_layout e) → im_ok (en_layout e) img →
  Forall u8 (im_inputs img) → Forall u8 (im_csdu img) → en_inv e →
  write_all (set_image d1 img (io_inputs d1)) slot sets' = Ok (d2, tt) →
  length dst = cl_data_length (la_input_cr (en_layout e)) →
  ∃ k sm der c off snap e' frame eth rt,
    cf_entry (io_cfg d) slot k sm der ∧ find_cell img slot 1 = Ok c ∧ ce_input_off c = Some off ∧
    rt_snapshot_inputs (E := Empty_set) (io_image d2) false dst = Ok (snap, true) ∧
    en_on_tick (E := Empty_set) e problem n snap = Ok (e', frame) ∧
    RtFrame_parse frame = Ok (eth, rt) ∧
    ∀ j g v, de_inputs der !! j = Some g → final (sets ++ sets') j = Some v →
      decode_field g (region off (octets DrInput der) (rf_csdu rt)) = Ok v.
Proof.
  intros Hw Hv Hv' H1 Hla Him Hi8 Hc8 He H2 Hdst.
  destruct (write_all_kept _ _ _ _ Hw Hv H1) as (Hw1 & Hcfg & k & sm & der & buf & b1 & Hen & Hbuf & Hb1 & Hbat).
  assert (io_wf (set_image d1 img (io_inputs d1))) as Hw1'.
  { destruct Hw1. split; cbn; [done..| |done]. split_and!; [done..|]. right.
    exists params, mac, (en_layout e). by rewrite Hcfg. }
  destruct (write_all_published _ _ _ _ Hw1' Hv' H2) as (k' & sm' & der' & b1' & b2 & Hen' & Hb1' & Hbat' & Hpub).
  cbn in Hen', Hb1', Hpub. rewrite Hcfg in Hen'.
  destruct (cf_entry_inj _ _ _ _ _ _ _ _ Hen Hen') as (<- & <- & <-).
  assert (b1' = b1) as -> by congruence. pose proof (batch_trans _ _ _ _ _ _ Hbat Hbat') as (Hl & _ & Hval).
  destruct (published_tick params mac (io_cfg d) e img slot b2 _ dst problem n (wf_cfg d Hw) (wf_ids d Hw)
    Hla Him He Hpub Hdst) as (c & off & snap & e' & frame & eth & rt & ? & ? & ? & ? & ? & Hreg).
  exists k, sm, der, c, off, snap, e', frame, eth, rt. split_and!; try done.
  intros j g v Hg Hf. specialize (Hval j g Hg). rewrite Hf in Hval.
  destruct (Forall2_lookup_lr _ _ _ _ _ _ (wf_inputs d Hw) (proj1 (proj2 (proj2 Hen))) Hbuf) as [Hlb _].
  cbn [octets]. rewrite <-Hlb, <-Hl, Hreg. done.
Qed.

(** ** Witnesses *)

(** An AR for [sample_config]: slots 1 and 5 provide, 3 and 5 consume. *)
Definition at_off (slot off : Z) : IocrObject :=
  {| io_slot := slot; io_subslot := 1; io_frame_offset := off |}.
Definition typed_cr (frame_id : Z) (data iocs : list IocrObject) : IocrParams :=
  {| ip_reference := 1; ip_frame_id := frame_id; ip_data_length := 40; ip_send_clock_factor := 32;
     ip_reduction_ratio := 1; ip_watchdog_factor := 3; ip_data_hold_factor := 3;
     ip_io_data := data; ip_iocs := iocs |}.
Definition typed_params : ArParams := {|
  ap_ar_uuid := sample_uuid 7; ap_session_key := 3; ap_initiator_mac := sample_mac;
  ap_initiator_object_uuid := sample_uuid 9; ap_activity_timeout_factor := 600;
  ap_input_cr := typed_cr 0x8001 [at_off 1 0; at_off 5 11] [at_off 3 16; at_off 5 17];
  ap_output_cr := typed_cr 0x8002 [at_off 3 0; at_off 5 3] [at_off 1 10; at_off 5 11];
  ap_alarm_ref_remote := 1; ap_max_alarm_data_length := 200;
  ap_max_alarm_data_length_remote := 200; ap_rta_timeout_factor := 1; ap_rta_retries := 3;
  ap_alarm_ref_local := 0; ap_alarm_tag_high := 0xC000; ap_alarm_tag_low := 0xA000 |}.
Definition typed_layout : Layout :=
  match Layout_from_ar typed_params (cf_model sample_config sample_mac) with
  | Ok la => la
  | _ => sample_layout
  end.
Lemma typed_layout_ok : Layout_from_ar typed_params (cf_model sample_config sample_mac) = Ok typed_layout.
Proof. vm_compute. reflexivity. Qed.

Lemma sample_config_ok : cf_ok sample_config ∧ wf_builder_ids sample_config.
Proof. split; [apply (build_ok sample_builder); [exact sample_builder_sane|reflexivity]|by_decide]. Qed.

Definition typed_engine : RtEngine := RtEngine_new typed_layout sample_mac sample_cpu RtStats_default.
Lemma typed_engine_inv : en_inv typed_engine.
Proof.
  apply (en_inv_new typed_params (cf_model sample_config sample_mac));
    [apply typed_layout_ok|by_decide..| |]; unfold wf_mac; by_decide.
Qed.

(** The handle before the first connection, and with an image. *)
Definition sample_handle : IoDevice :=
  {| io_cfg := sample_config; io_image := IoImage_empty; io_stats := RtStats_default;
     io_state := (Idle, None); io_stop := false;
     io_inputs := [replicate 10 0; []; replicate 4 0]; io_params := None;
     io_diag := DiagShared_default |}.
Definition typed_image : IoImage :=
  {| im_cells := la_cells typed_layout; im_inputs := replicate 40 0;
     im_csdu := [1; 2; 128; 255; 254; 1] ++ replicate 34 0; im_validity := Validity_default |}.
Definition connected_handle : IoDevice := set_image sample_handle typed_image (io_inputs sample_handle).

Lemma typed_image_ok : im_ok typed_layout typed_image ∧ image_of sample_config typed_image.
Proof.
  assert (im_ok typed_layout typed_image) as H by (split; vm_compute; reflexivity).
  split; [done|]. split_and!; [by_decide..|]. right.
  exists typed_params, sample_mac, typed_layout. split; [apply typed_layout_ok|done].
Qed.

Lemma sample_handle_wf : io_wf sample_handle.
Proof.
  split; [apply sample_config_ok..|apply image_of_empty|].
  repeat constructor; unfold u8; vm_compute; (reflexivity || lia || (intros; discriminate)).
Qed.
Lemma connected_handle_wf : io_wf connected_handle.
Proof. destruct sample_handle_wf. split; [done..|apply typed_image_ok|done]. Qed.

Lemma reads_declared_fields_witness :
  read_result connected_handle 5 0 None (io_read connected_handle 5 0) ∧
  read_int connected_handle 5 0 = Ok (-2) ∧ read_bool connected_handle 5 1 = Ok true ∧
  read_int connected_handle 3 0 = Err (AeTypeMismatch 3 0 FtWord FtInt) ∧
  read_int sample_handle 5 0 = Err AeNoLayoutYet.
Proof.
  pose proof (reads_declared_fields connected_handle 5 0 connected_handle_wf) as [H _].
  split; [exact H|]. vm_compute. done.
Defined.

Definition two_sets : list (nat * Value) := [(1%nat, VBool true); (4%nat, VInt (-5))].

Lemma writes_all_or_nothing_witness :
  write_result connected_handle 1 two_sets (write_all connected_handle 1 two_sets) ∧
  (∃ d, write_all connected_handle 1 two_sets = Ok (d, tt) ∧
        take 3 (io_inputs d) = [[2; 0; 0; 0; 0; 0; 255; 251; 0; 0]; []; [0; 0; 0; 0]]) ∧
  write_all connected_handle 1 [(1%nat, VBool true); (4%nat, VReal 0)] =
    Err (AeTypeMismatch 1 4 FtInt FtReal, connected_handle).
Proof.
  destruct (writes_all_or_nothing connected_handle 1 two_sets connected_handle_wf) as [H _];
    [by_decide|]. split; [exact H|]. split; [|vm_compute; reflexivity].
  eexists. split; [vm_compute; reflexivity|]. reflexivity.
Defined.

Definition kept_handle : IoDevice :=
  match write_all sample_handle 1 two_sets with Err (_, d) => d | _ => sample_handle end.
Definition more_sets : list (nat * Value) := [(1%nat, VBool false); (0%nat, VBool true)].
Definition resumed_handle : IoDevice :=
  match write_all (set_image kept_handle typed_image (io_inputs kept_handle)) 1 more_sets with
  | Ok (d, _) => d
  | _ => sample_handle
  end.

Lemma kept_writes_reach_wire_witness :
  ∃ k sm der c off snap e' frame eth rt,
    cf_entry sample_config 1 k sm der ∧ find_cell typed_image 1 1 = Ok c ∧ ce_input_off c = Some off ∧
    rt_snapshot_inputs (E := Empty_set) (io_image resumed_handle) false (replicate 40 0) = Ok (snap, true) ∧
    en_on_tick (E := Empty_set) typed_engine false 1 snap = Ok (e', frame) ∧
    RtFrame_parse frame = Ok (eth, rt) ∧
    ∀ j g v, de_inputs der !! j = Some g → final (two_sets ++ more_sets) j = Some v →
      decode_field g (region off (octets DrInput der) (rf_csdu rt)) = Ok v.
Proof.
  apply (kept_writes_reach_wire sample_handle 1 two_sets kept_handle typed_image typed_params sample_mac
    typed_engine more_sets resumed_handle (replicate 40 0) false 1).
  - exact sample_handle_wf.
  - by_decide.
  - by_decide.
  - vm_compute. reflexivity.
  - exact typed_layout_ok.
  - apply typed_image_ok.
  - by_decide.
  - by_decide.
  - exact typed_engine_inv.
  - vm_compute. reflexivity.
  - vm_compute. reflexivity.
Defined.
