(* ===== verification/Os.v ===== *)
(** * Os: what the program asks of the operating system

    Models the calls that create or configure kernel objects: the scheduling
    helpers of [crates/pnio/src/rt/sched.rs], the sockets opened by
    [eth/afpacket.rs] and [rpc/udp.rs], the descriptors and the thread created
    by [rt/runner.rs], and [IoDevice::start] of [api.rs].

    The kernel is a parameter: a function from what was asked so far and the
    next call to an answer, a negative one standing for a failure with that
    [errno].  The state is the log of calls and answers, from which the set of
    open descriptors is read off.  A value that owns a descriptor closes it
    when it is dropped: [owning fd m] is the rest of a function after the
    descriptor was wrapped, and closes it on every path that does not return
    it. *)

From S2P Require Import Prelude Eth Bpf Rpc Block Connect Records Ar Cm Diag Dcp Data RtFrame Layout.
From S2P Require Import Config Hist Engine Image Transport Runner Text Device Api.
Local Open Scope Z_scope.

(** ** Calls *)

(** eth/afpacket.rs:80-83 AfPacketTransport::open *)
Record SockaddrLl := { sll_family : Z; sll_protocol : Z; sll_ifindex : Z }.
(** eth/afpacket.rs:102-106 AfPacketTransport::open *)
Record PacketMreq := { mr_ifindex : Z; mr_type : Z; mr_alen : Z; mr_address : list Z }.
Record Timespec := { tv_sec : Z; tv_nsec : Z }.

Inductive OsCall :=
| OcSocket (domain type protocol : Z)
| OcNameToIndex (ifname : string)
| OcBind (fd : Z) (sll : SockaddrLl)
| OcAddMembership (fd : Z) (mreq : PacketMreq)
| OcAttachFilter (fd len : Z) (filter : list SockFilter)
| OcUdpBind (addr : SocketAddr)
| OcSetNonblocking (fd : Z) (on : bool)
| OcTimerfdCreate (clock flags : Z)
| OcTimerfdSettime (fd : Z) (interval value : Timespec)
| OcEventfd (init flags : Z)
| OcSpawn (name : string)
| OcSetscheduler (pid policy priority : Z)
| OcSetaffinity (pid size : Z) (mask : list bool)
| OcMlockall (flags : Z)
| OcClose (fd : Z).

Definition oslog : Type := list (OsCall * Z).
Definition os (E A : Type) : Type := oslog → outcome E A * oslog.

(** The Linux values of the constants used. *)
Definition AF_PACKET : Z := 17.
Definition SOCK_RAW_CLOEXEC : Z := Z.lor 3 0x80000.
Definition PACKET_MR_MULTICAST : Z := 0.
Definition CLOCK_MONOTONIC : Z := 1.
Definition TFD_FLAGS : Z := Z.lor 0x800 0x80000.
Definition EFD_FLAGS : Z := Z.lor 0x800 0x80000.
Definition SCHED_FIFO : Z := 1.
Definition MCL_CURRENT_FUTURE : Z := Z.lor 1 2.
Definition EINVAL : Z := 22.
(** [size_of::<cpu_set_t>()] *)
Definition CPU_SET_SIZE : Z := 128.

Definition os_ret {E A} (a : A) : os E A := λ l, (Ok a, l).
Definition os_lift {E A} (m : outcome E A) : os E A := λ l, (m, l).
Definition os_bind {E A B} (m : os E A) (k : A → os E B) : os E B := λ l,
  match m l with
  | (Ok a, l) => k a l
  | (Err e, l) => (Err e, l)
  | (Panic, l) => (Panic, l)
  end.
Definition os_map_err {E F A} (f : E → F) (m : os E A) : os F A := λ l,
  let '(r, l) := m l in (map_err f r, l).

Declare Scope os_scope.
Delimit Scope os_scope with os.
Open Scope os_scope.
Notation "'do!' x := m 'in' k" := (os_bind m (λ x, k))
  (at level 10, x pattern, m at level 100, k at level 200,
   format "'[v' 'do!'  x  :=  m  'in' '/' k ']'") : os_scope.

(** An [io::Error]: one the kernel reported, or one the program makes up. *)
Inductive OsError :=
| OeErrno (errno : Z)
| OeInvalidInput (message : list Z).

Section kernel.
Context (answer : oslog → OsCall → Z).

Definition os_call {E} (c : OsCall) : os E Z := λ l,
  let r := answer l c in (Ok r, l ++ [(c, r)]).

(** [if ret < 0 { return Err(last_os_error()) }] *)
Definition checked {E} (err : Z → E) (c : OsCall) : os E Z :=
  do! r := os_call c in
  if decide (r < 0) then os_lift (Err (err (- r))) else os_ret r.

(** The rest of a function that owns [fd]. *)
Definition owning {E A} (fd : Z) (m : os E A) : os E A := λ l,
  match m l with
  | (Ok a, l) => (Ok a, l)
  | (r, l) => (r, l ++ [(OcClose fd, answer l (OcClose fd))])
  end.

(** ** Scheduling *)

(** rt/sched.rs:12-14 STACK_PREFAULT_BYTES *)
Definition STACK_PREFAULT_BYTES : Z := 256 * 1024.

(** rt/sched.rs:16-37 set_fifo *)
Definition set_fifo (priority : Z) : os OsError unit :=
  do! _ := checked OeErrno (OcSetscheduler 0 SCHED_FIFO priority) in os_ret tt.

(** [CPU_SET]: a bit outside the map would be a write out of bounds. *)
(** rt/sched.rs:39-50 cpu_set *)
Fixpoint cpu_set {E} (set : list bool) (cpus : list Z) : outcome E (list bool) :=
  match cpus with
  | [] => Ok set
  | cpu :: cpus => let! set := set_at set (Z.to_nat cpu) true in cpu_set set cpus
  end.

(** rt/sched.rs:52-83 set_affinity *)
Definition set_affinity (cpus : list Z) : os OsError unit :=
  match cpus with
  | [] => os_lift (Err (OeInvalidInput (ascii_bytes "empty CPU list")))
  | _ =>
    let max_cpu := 8 * CPU_SET_SIZE in
    match List.find (λ cpu, bool_decide (max_cpu ≤ cpu)) cpus with
    | Some cpu =>
      os_lift (Err (OeInvalidInput (ascii_bytes "cpu " ++ decimal cpu ++ ascii_bytes " out of range (max "
        ++ decimal max_cpu ++ ascii_bytes ")")))
    | None =>
      do! set := os_lift (cpu_set (replicate (Z.to_nat max_cpu) false) cpus) in
      do! _ := checked OeErrno (OcSetaffinity 0 CPU_SET_SIZE set) in os_ret tt
    end
  end.

(** rt/sched.rs:85-94 lock_memory *)
Definition lock_memory : os OsError unit :=
  do! _ := checked OeErrno (OcMlockall MCL_CURRENT_FUTURE) in os_ret tt.

(** The loop touches one byte per page; every turn moves on by a page, so the
    length of the buffer is fuel enough. *)
(** rt/sched.rs:102-105 prefault_stack *)
Fixpoint touch {E} (fuel : nat) (page : nat) (buf : list Z) (i : nat) : outcome E (list Z) :=
  if decide (i < length buf)%nat then
    match fuel with
    | O => Panic
    | S fuel => let! buf := set_at buf i 1 in touch fuel page buf (i + page)
    end
  else Ok buf.
(** rt/sched.rs:96-107 prefault_stack *)
Definition prefault_stack {E} : outcome E (list Z) :=
  let buf := replicate (Z.to_nat STACK_PREFAULT_BYTES) 0 in
  touch (length buf) 4096 buf 0.

(** ** Sockets *)

(** [u16::to_be] as a number: the octets in the order of the network. *)
Definition to_be (big_endian : bool) (x : Z) : Z :=
  if big_endian then x else 256 * (x mod 256) + x / 256.
Context (big_endian : bool).

(** dcp/frame.rs:6-7 DCP_MULTICAST_MAC *)
Definition DCP_MULTICAST_MAC : MacAddr := Mac [0x01; 0x0e; 0xcf; 0x00; 0x00; 0x00].

(** eth/afpacket.rs:49-124 AfPacketTransport::open *)
Definition af_open (ifname : string) : os TransportError Z :=
  let profinet_protocol := to_be big_endian ETHERTYPE_PROFINET in
  do! fd := checked TeIo (OcSocket AF_PACKET SOCK_RAW_CLOEXEC profinet_protocol) in
  owning fd (
    do! ifindex := checked TeIo (OcNameToIndex ifname) in
    let sll := {| sll_family := AF_PACKET; sll_protocol := to_be big_endian ETHERTYPE_PROFINET;
                  sll_ifindex := ifindex |} in
    do! _ := checked TeIo (OcBind fd sll) in
    let mreq := {| mr_ifindex := ifindex; mr_type := PACKET_MR_MULTICAST; mr_alen := 6;
                   mr_address := mac_octets DCP_MULTICAST_MAC |} in
    do! _ := checked TeIo (OcAddMembership fd mreq) in
    os_ret fd).

(** The error of kind [InvalidInput] has no errno; [EINVAL] is of that kind. *)
(** eth/afpacket.rs:126-155 AfPacketTransport::attach_filter *)
Definition attach_filter (fd : Z) (prog : list SockFilter) : os TransportError unit :=
  let len := Z.of_nat (length prog) in
  if decide (65535 < len) then os_lift (Err (TeIo EINVAL)) else
  do! _ := checked TeIo (OcAttachFilter fd len prog) in os_ret tt.

(** rpc/udp.rs:19-25 UdpRpcTransport::bind *)
Definition udp_bind (addr : SocketAddr) : os RpcError Z :=
  do! fd := checked RpcIo (OcUdpBind addr) in
  owning fd (
    do! _ := checked RpcIo (OcSetNonblocking fd false) in
    os_ret fd).

(** ** The cyclic thread *)

(** rt/mod.rs:29-52 RtError *)
Inductive RtError :=
| RtFrameError (e : FrameError)
| RtLayoutError (e : LayoutError)
| RtIo (errno : Z)
| RtTransport (e : TransportError)
| RtSched (errno : Z)
| RtStopped.

(** rt/runner.rs:636-655 new_timerfd *)
Definition new_timerfd : os RtError Z :=
  checked RtIo (OcTimerfdCreate CLOCK_MONOTONIC TFD_FLAGS).

(** rt/runner.rs:677-685 to_timespec *)
Definition to_timespec (d : Z) : Timespec := {| tv_sec := d / 1000000000; tv_nsec := d mod 1000000000 |}.

(** rt/runner.rs:657-675 arm_timerfd *)
Definition arm_timer (fd period : Z) : os RtError unit :=
  if decide (period = 0) then os_lift (Err (RtIo EINVAL)) else
  do! _ := checked RtIo (OcTimerfdSettime fd (to_timespec period) (to_timespec period)) in
  os_ret tt.

(** rt/runner.rs:710-721 new_eventfd *)
Definition new_eventfd : os RtError Z := checked RtIo (OcEventfd 0 EFD_FLAGS).

(** The descriptors the thread and the handle share: the socket, the timer and
    the two doorbells. *)
(** rt/runner.rs:121-130 RtHandle *)
Record RtHandle := { rt_socket : Z; rt_timer : Z; rt_event_fd : Z; rt_wake_fd : Z }.

(** rt/runner.rs:220-255 RtRunner::spawn_with_transport *)
Definition spawn_with_transport (socket : Z) : os RtError RtHandle :=
  owning socket (
    do! timer := new_timerfd in
    owning timer (
      do! event_fd := new_eventfd in
      owning event_fd (
        do! wake_fd := new_eventfd in
        owning wake_fd (
          do! _ := checked RtIo (OcSpawn "pnio-rt") in
          os_ret {| rt_socket := socket; rt_timer := timer; rt_event_fd := event_fd;
                    rt_wake_fd := wake_fd |})))).

(** rt/runner.rs:208-219 RtRunner::spawn *)
Definition rt_spawn (cfg : RtConfig) : os RtError RtHandle :=
  do! transport := os_map_err RtTransport (af_open (rg_iface cfg)) in
  do! _ := owning transport (os_map_err RtTransport (attach_filter transport rt_filter)) in
  spawn_with_transport transport.

(** ** Starting the device *)

(** api.rs:22-39 StartOptions *)
Record StartOptions := {
  so_iface : string; so_ip : list Z; so_rt : option RtOptions; so_app_cpus : option (list Z);
  so_im_store : option string
}.

(** api.rs:894-896 io_err *)
Definition io_err (e : TransportError) : ApiError := AeIo.

(** [mac_text] is the content of the interface's address file, [k] the kernel
    as the transports use it later, [im_file] the content of the I&M store. *)
(** api.rs:196-216 IoDevice::start *)
Definition start `{Kernel K} (k : K) (cfg : DeviceConfig) (opts : StartOptions)
    (mac_text : option (list Z)) (runner : RtConfig → option RtShared) (im_file : option (list Z)) :
    os ApiError (Device (AfPacketTransport K) (UdpRpcTransport K) * IoDevice) :=
  do! mac := os_lift (ok_or (read_mac mac_text) AeIo) in
  do! eth := os_map_err io_err (af_open (so_iface opts)) in
  owning eth (
    do! _ := os_map_err io_err (attach_filter eth acyclic_filter) in
    do! rpc := os_map_err (λ _, AeIo)
                 (udp_bind {| sa_ip := [0; 0; 0; 0]; sa_port := PNIO_UDP_PORT |}) in
    owning rpc (
      do! (dev, handle) := os_lift (start_inner cfg mac (so_ip opts) (so_rt opts)
        {| ap_fd := eth; ap_k := k |} {| ud_fd := rpc; ud_k := k |} runner (so_im_store opts) im_file) in
      do! _ := checked (λ _, AeIo) (OcSpawn "pnio-acyclic") in
      os_ret (dev, handle))).

(** What the acyclic thread does first. *)
(** api.rs:282-286 IoDevice::start_inner *)
Definition acyclic_affinity (app_cpus : option (list Z)) : os OsError unit :=
  match app_cpus with
  | Some cpus => λ l,
    let '(r, l) := set_affinity cpus l in (match r with Panic => Panic | _ => Ok tt end, l)
  | None => os_ret tt
  end.
End kernel.

(** ** Waiting for the cyclic thread *)

(** One look at the thread: whether it has finished, and the time after.  [slot]
    is whether the handle still holds the thread; [None] when the looks end
    before the loop does. *)
(** rt/runner.rs:157-173 RtHandle::join *)
Fixpoint join_loop (slot : bool) (deadline : Z) (looks : list (bool * Z)) :
    option (bool * outcome RtError unit) :=
  match slot, looks with
  | false, _ => Some (false, Ok tt)
  | true, [] => None
  | true, (finished, now) :: looks =>
    if (finished : bool) then Some (false, Ok tt)
    else if decide (deadline ≤ now) then Some (true, Err RtStopped)
    else join_loop slot deadline looks
  end.
(** rt/runner.rs:148-174 RtHandle::join *)
Definition rt_join (slot : bool) (started timeout : Z) (looks : list (bool * Z)) :
    option (bool * outcome RtError unit) :=
  join_loop slot (started + timeout) looks.

(** ** Open descriptors *)

(** The descriptor a call creates. *)
Definition creates (c : OsCall) : bool :=
  match c with
  | OcSocket _ _ _ | OcUdpBind _ | OcTimerfdCreate _ _ | OcEventfd _ _ => true
  | _ => false
  end.

Fixpoint remove_one (x : Z) (l : list Z) : list Z :=
  match l with [] => [] | y :: l => if decide (x = y) then l else y :: remove_one x l end.

Definition fd_step (fds : list Z) (e : OsCall * Z) : list Z :=
  match e.1 with
  | OcClose fd => remove_one fd fds
  | c => if creates c then if decide (0 ≤ e.2) then e.2 :: fds else fds else fds
  end.
Definition opened (l : oslog) : list Z := foldl fd_step [] l.

Lemma opened_snoc l e : opened (l ++ [e]) = fd_step (opened l) e.
Proof. unfold opened. by rewrite foldl_app. Qed.

Lemma remove_one_perm x l : x ∈ l → x :: remove_one x l ≡ₚ l.
Proof.
  induction l as [|y l IH]; intros Hx; [by apply not_elem_of_nil in Hx|]. cbn.
  case_decide as Hxy; [by subst|]. apply elem_of_cons in Hx as [?|Hx]; [done|].
  rewrite Permutation_swap. by rewrite IH.
Qed.

(** A function that owns what it opens: on success the descriptors [fds] that
    [res] relates to its result are open on top of those that were, on failure
    no more than those are, and it never panics. *)
Definition owns {E A} (m : os E A) (res : A → list Z → Prop) : Prop := ∀ l,
  match m l with
  | (Ok a, l') => ∃ fds, res a fds ∧ opened l' ≡ₚ fds ++ opened l
  | (Err _, l') => opened l' ≡ₚ opened l
  | (Panic, _) => False
  end.
Definition nothing {A} (_ : A) (fds : list Z) : Prop := fds = [].
Definition just (fd : Z) (fds : list Z) : Prop := fds = [fd].

Lemma owns_weaken {E A} (m : os E A) (P Q : A → list Z → Prop) :
  owns m P → (∀ a fds, P a fds → Q a fds) → owns m Q.
Proof. intros Hm H l. specialize (Hm l). destruct (m l) as [[a|e|] l']; naive_solver. Qed.

Lemma owns_ret {E A} (a : A) (P : A → list Z → Prop) : P a [] → owns (os_ret (E := E) a) P.
Proof. intros H l. by exists []. Qed.

Lemma owns_lift {E A} (m : outcome E A) (P : A → list Z → Prop) :
  no_panic m → (∀ a, m = Ok a → P a []) → owns (os_lift m) P.
Proof. intros H HP l. unfold os_lift. destruct m; [|done|done]. exists []. by auto. Qed.

Lemma owns_map_err {E F A} (f : E → F) (m : os E A) P : owns m P → owns (os_map_err f m) P.
Proof. intros Hm l. specialize (Hm l). unfold os_map_err. by destruct (m l) as [[a|e|] l']. Qed.

(** After a part that opens nothing and returns what [Q] says. *)
Lemma owns_after {E A B} (m : os E A) (k : A → os E B) (Q : A → Prop) P :
  owns m (λ a fds, Q a ∧ fds = []) → (∀ a, Q a → owns (k a) P) → owns (os_bind m k) P.
Proof.
  intros Hm Hk l. specialize (Hm l). unfold os_bind. destruct (m l) as [[a|e|] l']; [|done..].
  destruct Hm as (fds & [Ha ->] & Hp). specialize (Hk a Ha l').
  destruct (k a l') as [[b|e|] l'']; [|by rewrite Hk|done].
  destruct Hk as (fds & Hb & Hp'). exists fds. by rewrite Hp', Hp.
Qed.

Lemma owns_then {E A B} (m : os E A) (k : A → os E B) P :
  owns m nothing → (∀ a, owns (k a) P) → owns (os_bind m k) P.
Proof. intros Hm Hk. apply (owns_after _ _ (λ _, True)); [|auto]. eapply owns_weaken; [done|]. done. Qed.

Section ownership.
Context (answer : oslog → OsCall → Z).

Lemma owns_call {E} (err : Z → E) c :
  (∀ fd, c ≠ OcClose fd) → creates c = false → owns (checked answer err c) nothing.
Proof.
  intros Hc Hn l. unfold checked, os_bind, os_call. case_decide; cbn.
  all: rewrite opened_snoc; unfold fd_step; destruct c; try done; try by destruct (Hc fd).
  all: by exists [].
Qed.

Lemma owns_create {E} (err : Z → E) c : creates c = true → owns (checked answer err c) just.
Proof.
  intros Hc l. unfold checked, os_bind, os_call. case_decide; cbn.
  - rewrite opened_snoc. unfold fd_step; cbn. destruct c; try done; cbn; by rewrite decide_False by lia.
  - exists [answer l c]. split; [done|]. rewrite opened_snoc. unfold fd_step; cbn.
    destruct c; try done; cbn; by rewrite decide_True by lia.
Qed.

(** The owner of [fd] closes it unless it returns. *)
Lemma owning_step {E A} (m : os E A) P fd l rest :
  owns m P → opened l ≡ₚ fd :: rest →
  match owning answer fd m l with
  | (Ok a, l') => ∃ fds, P a fds ∧ opened l' ≡ₚ fd :: fds ++ rest
  | (Err _, l') => opened l' ≡ₚ rest
  | (Panic, _) => False
  end.
Proof.
  intros Hm Hl. specialize (Hm l). unfold owning. destruct (m l) as [[a|e|] l']; [|..|done].
  - destruct Hm as (fds & Ha & Hp). exists fds. split; [done|]. rewrite Hp, Hl.
    by rewrite Permutation_middle.
  - rewrite opened_snoc. unfold fd_step; cbn.
    assert (fd ∈ opened l') as Hin by (rewrite Hm, Hl; left).
    apply (Permutation_cons_inv (a := fd)). by rewrite remove_one_perm, Hm, Hl.
Qed.

(** After a part that opens a descriptor the rest owns. *)
Lemma owns_open {E A} (m : os E Z) (k : Z → os E A) (P : Z → A → list Z → Prop) :
  owns m just → (∀ fd, owns (k fd) (P fd)) →
  owns (os_bind m (λ fd, owning answer fd (k fd)))
       (λ a fds, ∃ fd fds', P fd a fds' ∧ fds = fd :: fds').
Proof.
  intros Hm Hk l. specialize (Hm l). unfold os_bind. destruct (m l) as [[fd|e|] l']; [|done..].
  destruct Hm as (fds & -> & Hp).
  pose proof (owning_step (k fd) (P fd) fd l' (opened l) (Hk fd) Hp) as H.
  destruct (owning answer fd (k fd) l') as [[a|e|] l'']; [|done..].
  destruct H as (fds & Ha & Hp'). exists (fd :: fds). by eauto 6.
Qed.
End ownership.

Section opening.
Context (answer : oslog → OsCall → Z) (big_endian : bool).

Lemma af_open_owns ifname : owns (af_open answer big_endian ifname) just.
Proof.
  unfold af_open. eapply owns_weaken.
  - apply (owns_open answer _ _ (λ fd a fds, a = fd ∧ fds = [])); [by apply owns_create|].
    intros fd. repeat (apply owns_then; [by apply owns_call|intros ?]). by apply owns_ret.
  - cbn. by intros a fds (fd & fds' & [-> ->] & ->).
Qed.

Lemma attach_filter_owns fd prog : owns (attach_filter answer fd prog) nothing.
Proof.
  unfold attach_filter. case_decide; [by apply owns_lift|].
  apply owns_then; [by apply owns_call|intros ?]. by apply owns_ret.
Qed.

Lemma udp_bind_owns addr : owns (udp_bind answer addr) just.
Proof.
  unfold udp_bind. eapply owns_weaken.
  - apply (owns_open answer _ _ (λ fd a fds, a = fd ∧ fds = [])); [by apply owns_create|].
    intros fd. apply owns_then; [by apply owns_call|intros ?]. by apply owns_ret.
  - cbn. by intros a fds (fd & fds' & [-> ->] & ->).
Qed.

(** What a running cyclic thread holds. *)
Definition rt_fds (h : RtHandle) (fds : list Z) : Prop :=
  fds = [rt_socket h; rt_timer h; rt_event_fd h; rt_wake_fd h].

Lemma spawn_rest_owns socket :
  owns (do! timer := new_timerfd answer in
        owning answer timer (
          do! event_fd := new_eventfd answer in
          owning answer event_fd (
            do! wake_fd := new_eventfd answer in
            owning answer wake_fd (
              do! _ := checked answer RtIo (OcSpawn "pnio-rt") in
              os_ret {| rt_socket := socket; rt_timer := timer; rt_event_fd := event_fd;
                        rt_wake_fd := wake_fd |}))))
       (λ h fds, rt_socket h = socket ∧ fds = [rt_timer h; rt_event_fd h; rt_wake_fd h]).
Proof.
  eapply owns_weaken.
  - apply (owns_open answer _ _ (λ t h fds, rt_socket h = socket ∧ rt_timer h = t ∧
      fds = [rt_event_fd h; rt_wake_fd h])); [by apply owns_create|]. intros t. eapply owns_weaken.
    + apply (owns_open answer _ _ (λ e h fds, rt_socket h = socket ∧ rt_timer h = t ∧
        rt_event_fd h = e ∧ fds = [rt_wake_fd h])); [by apply owns_create|]. intros e.
      eapply owns_weaken.
      * apply (owns_open answer _ _ (λ w h fds, rt_socket h = socket ∧ rt_timer h = t ∧
          rt_event_fd h = e ∧ rt_wake_fd h = w ∧ fds = [])); [by apply owns_create|]. intros w.
        apply owns_then; [by apply owns_call|intros ?]. by apply owns_ret.
      * cbn. intros h fds (w & fds' & (? & ? & ? & <- & ->) & ->). done.
    + cbn. intros h fds (e & fds' & (? & ? & <- & ->) & ->). done.
  - cbn. intros h fds (t & fds' & (? & <- & ->) & ->). done.
Qed.

Lemma rt_spawn_owns cfg : owns (rt_spawn answer big_endian cfg) rt_fds.
Proof.
  intros l. unfold rt_spawn, os_bind at 1.
  pose proof (owns_map_err RtTransport _ _ (af_open_owns (rg_iface cfg)) l) as Ho.
  destruct (os_map_err RtTransport _ l) as [[fd|e|] l1]; [|done..].
  destruct Ho as (fds & -> & Hp).
  pose proof (owning_step answer _ _ fd l1 (opened l)
    (owns_map_err RtTransport _ _ (attach_filter_owns fd rt_filter)) Hp) as Ha.
  unfold os_bind. destruct (owning answer fd _ l1) as [[u|e|] l2]; [|done..].
  destruct Ha as (fds & -> & Hp2).
  pose proof (owning_step answer _ _ fd l2 (opened l) (spawn_rest_owns fd) Hp2) as Hs.
  unfold spawn_with_transport, os_bind in *. destruct (owning answer fd _ l2) as [[h|e|] l3]; [|done..].
  destruct Hs as (fds & [<- ->] & Hp3). eexists. by split.
Qed.

Lemma read_mac_length text m : read_mac text = Some m → length (mac_octets m) = 6%nat.
Proof.
  unfold read_mac. destruct text as [t|]; [|done]. cbn [mbind option_bind]. case_decide; [done|].
  intros (l & Hl & [= <-])%bind_Some. cbn. apply mapM_Some, list.Forall2_length in Hl. lia.
Qed.

Lemma start_inner_no_panic `{EthTransport E} `{RpcTransport R} cfg mac ip rt (eth : E) (rpc : R) runner store read :
  cf_ok cfg → length (mac_octets mac) = 6%nat →
  no_panic (start_inner cfg mac ip rt eth rpc runner store read).
Proof.
  intros Hc Hm. unfold start_inner.
  destruct (blank_inputs_ok (X := ApiError) cfg (cf_submodules cfg) Hc ltac:(done)) as (bufs & Hb & _).
  apply no_panic_bind.
  - unfold cf_setup. apply no_panic_bind; [|done]. destruct (is_nil _); [|done]. np.
  - intros setup _. by rewrite Hb.
Qed.

(** The two sockets of a started device. *)
Definition device_fds `{Kernel K} (x : Device (AfPacketTransport K) (UdpRpcTransport K) * IoDevice)
    (fds : list Z) : Prop :=
  fds = [ap_fd (dv_eth x.1); ud_fd (dv_rpc x.1)].

Lemma start_owns `{Kernel K} (k : K) cfg opts text runner im_file :
  cf_ok cfg → owns (start answer big_endian k cfg opts text runner im_file) device_fds.
Proof.
  intros Hc. unfold start.
  apply (owns_after _ _ (λ mac, length (mac_octets mac) = 6%nat)).
  { apply owns_lift; [apply no_panic_ok_or|]. intros mac. destruct (read_mac text) eqn:Hm; [|done].
    intros [= <-]. split; [by eapply read_mac_length|done]. }
  intros mac Hmac. eapply owns_weaken.
  - apply (owns_open answer _ _ (λ eth x fds, ap_fd (dv_eth x.1) = eth ∧ fds = [ud_fd (dv_rpc x.1)])).
    { apply owns_map_err, af_open_owns. }
    intros eth. apply owns_then; [apply owns_map_err, attach_filter_owns|intros _]. eapply owns_weaken.
    + apply (owns_open answer _ _ (λ rpc x fds, ap_fd (dv_eth x.1) = eth ∧ ud_fd (dv_rpc x.1) = rpc ∧
        fds = [])); [apply owns_map_err, udp_bind_owns|]. intros rpc.
      apply (owns_after _ _ (λ x, ap_fd (dv_eth x.1) = eth ∧ ud_fd (dv_rpc x.1) = rpc)).
      * apply owns_lift; [by apply start_inner_no_panic|]. intros [dev d] Hs. split; [|done].
        unfold start_inner in Hs. apply obind_Ok in Hs as (setup & _ & Hs).
        apply obind_Ok in Hs as (bufs & _ & [= <- _]). done.
      * intros [dev d] [He Hr]. apply owns_then; [by apply owns_call|intros _]. by apply owns_ret.
    + cbn. intros x fds (rpc & fds' & (? & <- & ->) & ->). done.
  - cbn. intros x fds (eth & fds' & (<- & ->) & ->). done.
Qed.
End opening.

(** ** Affinity masks and the stack *)

Lemma cpu_set_spec {E} cpus : ∀ set,
  Forall (λ c, (Z.to_nat c < length set)%nat) cpus →
  ∃ set', cpu_set (E := E) set cpus = Ok set' ∧ length set' = length set ∧
    ∀ i, (i < length set)%nat →
      set' !! i = Some true ↔ set !! i = Some true ∨ i ∈ (Z.to_nat <$> cpus).
Proof.
  induction cpus as [|c cpus IH]; intros set Hc; cbn [cpu_set].
  { exists set. split_and!; [done..|]. intros i _. set_solver. }
  apply Forall_cons_1 in Hc as [Hc Hcs]. unfold set_at. rewrite decide_True by done. cbn [obind].
  destruct (IH (<[Z.to_nat c := true]> set)) as (set' & -> & Hl & Hs); [by rewrite length_insert|].
  rewrite length_insert in *. exists set'. split_and!; [done..|]. intros i Hi.
  rewrite (Hs i Hi), fmap_cons, elem_of_cons. destruct (decide (i = Z.to_nat c)) as [->|Hne].
  - rewrite list_lookup_insert_eq by done. tauto.
  - rewrite list_lookup_insert_ne by done. tauto.
Qed.

Lemma touch_spec {E} page fuel : ∀ buf i,
  (0 < page)%nat → (length buf ≤ i + fuel)%nat →
  ∃ buf', touch (E := E) fuel page buf i = Ok buf' ∧ length buf' = length buf ∧
    (∀ j, (j < i)%nat → buf' !! j = buf !! j) ∧
    ∀ k, (i + k * page < length buf)%nat → buf' !! (i + k * page)%nat = Some 1.
Proof.
  induction fuel as [|fuel IH]; intros buf i Hp Hf; cbn [touch].
  { rewrite decide_False by lia. exists buf. split_and!; [done..|]. intros k Hk. lia. }
  case_decide as Hi; [|exists buf; split_and!; [done..|]; intros k Hk; lia].
  unfold set_at. rewrite decide_True by done. cbn [obind].
  destruct (IH (<[i := 1]> buf) (i + page)%nat Hp) as (buf' & -> & Hl & Hkeep & Ht);
    [rewrite length_insert; lia|].
  rewrite length_insert in *. exists buf'. split_and!; [done|done| |].
  - intros j Hj. rewrite Hkeep by lia. apply list_lookup_insert_ne. lia.
  - intros [|k] Hk.
    + rewrite Nat.add_0_r, Hkeep by lia. by apply list_lookup_insert_eq.
    + specialize (Ht k). replace (i + S k * page)%nat with (i + page + k * page)%nat in * by lia.
      by apply Ht.
Qed.

(** ** Claims *)

(** C15: no descriptor leaks, whatever the kernel answers.  Opening the raw
    socket, binding the UDP socket, spawning the cyclic thread (socket, timer,
    two eventfds, thread) and starting the device either succeed, and exactly
    the descriptors of the result are open on top of those that were, or
    fail, and exactly those that were are open: whichever call fails, what the
    earlier ones opened has been closed.  None of them panics. *)
Theorem no_descriptor_leaks `{Kernel K} answer big_endian ifname addr rt_cfg (k : K) cfg opts text
    runner im_file :
  cf_ok cfg →
  owns (af_open answer big_endian ifname) just ∧
  owns (udp_bind answer addr) just ∧
  owns (rt_spawn answer big_endian rt_cfg) rt_fds ∧
  owns (start answer big_endian k cfg opts text runner im_file) device_fds.
Proof.
  intros Hc. split_and!;
    [apply af_open_owns|apply udp_bind_owns|apply rt_spawn_owns|by apply start_owns].
Qed.

(** The mask that has the bits of exactly these CPUs, all of them inside. *)
Definition mask_of (cpus : list Z) (mask : list bool) : Prop :=
  length mask = Z.to_nat (8 * CPU_SET_SIZE) ∧ Forall (λ c, c < 8 * CPU_SET_SIZE) cpus ∧
  ∀ i, (i < length mask)%nat → mask !! i = Some true ↔ i ∈ (Z.to_nat <$> cpus).

(** C40: [set_affinity] hands the kernel exactly the CPUs asked for.  It makes
    no call and refuses the request exactly when the list is empty or a CPU is
    beyond the mask.  Otherwise it makes one call, for the calling thread, with
    a mask of the full size, written in bounds, that has the bit of a CPU set
    exactly when the CPU is in the list; and it succeeds or fails with the
    error number as that call did. *)
Theorem set_affinity_spec answer cpus l :
  let refused := cpus = [] ∨ ∃ c, c ∈ cpus ∧ 8 * CPU_SET_SIZE ≤ c in
  match set_affinity answer cpus l with
  | (Panic, _) => False
  | (Ok _, l') => ¬ refused ∧
      ∃ mask r, l' = l ++ [(OcSetaffinity 0 CPU_SET_SIZE mask, r)] ∧ 0 ≤ r ∧ mask_of cpus mask
  | (Err (OeInvalidInput _), l') => refused ∧ l' = l
  | (Err (OeErrno e), l') => ¬ refused ∧
      ∃ mask, l' = l ++ [(OcSetaffinity 0 CPU_SET_SIZE mask, - e)] ∧ 0 < e ∧ mask_of cpus mask
  end.
Proof.
  cbn zeta. unfold set_affinity. destruct cpus as [|c0 cpus0] eqn:Hcs; [by cbn; auto|]. rewrite <-Hcs.
  destruct (List.find _ cpus) as [c|] eqn:Hf.
  { apply find_some in Hf as [Hin Hc%bool_decide_eq_true]. cbn. split; [|done]. right.
    exists c. by rewrite list_elem_of_In. }
  assert (Forall (λ c, c < 8 * CPU_SET_SIZE) cpus) as Hall.
  { apply list.Forall_forall. intros c Hc%list_elem_of_In. eapply find_none in Hf; [|done].
    cbn in Hf. apply bool_decide_eq_false in Hf. lia. }
  assert (¬ (cpus = [] ∨ ∃ c, c ∈ cpus ∧ 8 * CPU_SET_SIZE ≤ c)) as Hok.
  { intros [?|(c & Hc & Hb)]; [by rewrite Hcs in *|]. rewrite list.Forall_forall in Hall.
    specialize (Hall c Hc). lia. }
  destruct (cpu_set_spec (E := OsError) cpus (replicate (Z.to_nat (8 * CPU_SET_SIZE)) false))
    as (mask & Hm & Hlen & Hbits).
  { eapply list.Forall_impl; [exact Hall|]. intros c Hc. cbn in Hc. rewrite length_replicate.
    unfold CPU_SET_SIZE in *. lia. }
  rewrite length_replicate in *.
  assert (mask_of cpus mask) as Hmask.
  { split_and!; [done|done|]. intros i Hi. rewrite Hlen in Hi. rewrite (Hbits i Hi). split; [|by right].
    intros [Hr2|?]; [|done]. by apply lookup_replicate in Hr2 as [? _]. }
  unfold os_bind, os_lift at 1. rewrite Hm.
  unfold checked, os_bind, os_call. case_decide as Hr; cbn; (split; [done|]); exists mask.
  - rewrite Z.opp_involutive. split_and!; [done|lia|done].
  - eexists. split_and!; [done|lia|done].
Qed.

(** [prefault_stack] touches every page of the 256 KiB it claims. *)
Theorem prefault_touches_every_page {E} :
  ∃ buf, prefault_stack (E := E) = Ok buf ∧
    ∀ p, (p < 64)%nat → buf !! (p * 4096)%nat = Some 1.
Proof.
  unfold prefault_stack.
  destruct (touch_spec (E := E) 4096 (length (replicate (Z.to_nat STACK_PREFAULT_BYTES) 0))
    (replicate (Z.to_nat STACK_PREFAULT_BYTES) 0) 0) as (buf & Hb & _ & _ & Ht); [lia|lia|].
  exists buf. split; [exact Hb|]. intros p Hp. apply (Ht p).
  rewrite length_replicate. unfold STACK_PREFAULT_BYTES. lia.
Qed.

(** [RtHandle::join] gives up exactly at the deadline.  It returns as soon
    as a look finds the thread finished, and then no longer holds it; it
    reports [Stopped], still holding the thread, at the first look past the
    deadline before that; and it returns by the first look past the deadline. *)
Theorem rt_join_bounded started timeout looks :
  (∃ l, l ∈ looks ∧ (l.1 = true ∨ started + timeout ≤ l.2)) →
  ∃ pre l post, looks = pre ++ l :: post ∧
    Forall (λ x, x.1 = false ∧ x.2 < started + timeout) pre ∧
    rt_join true started timeout looks =
      Some (if l.1 then (false, Ok tt) else (true, Err RtStopped)) ∧
    (l.1 = true ∨ started + timeout ≤ l.2).
Proof.
  unfold rt_join. generalize (started + timeout) as deadline. intros deadline.
  induction looks as [|[f now] looks IH]; intros (l & Hl & Hc); [by apply not_elem_of_nil in Hl|].
  cbn [join_loop]. destruct f.
  { exists [], (true, now), looks. split_and!; [done|constructor|done|by left]. }
  case_decide as Hd; [exists [], (false, now), looks; split_and!; [done|constructor|done|by right]|].
  destruct IH as (pre & l' & post & -> & Hpre & Hj & Hc').
  { apply elem_of_cons in Hl as [->|Hl]; [cbn in *; destruct Hc; [done|lia]|by exists l]. }
  exists ((false, now) :: pre), l', post. split_and!; [done| |done|done].
  constructor; [|done]. cbn. split; [done|lia].
Qed.

(** ** Witnesses *)

(** A kernel that hands out descriptors in order and refuses the second
    eventfd. *)
Definition refusing (l : oslog) (c : OsCall) : Z :=
  match c with
  | OcEventfd _ _ => if decide (length (List.filter (λ e, match e.1 with OcEventfd _ _ => true | _ => false end) l) = 0%nat)
                     then 3 + Z.of_nat (length l) else -24
  | _ => 3 + Z.of_nat (length l)
  end.

(** A kernel whose sockets have nothing to say. *)
#[local] Instance unit_kernel : Kernel unit := {|
  k_signals _ := 0%nat; k_poll k fds _ := (k, PoOk (replicate (length fds) false));
  k_recvfrom k _ _ := (k, RcErr 11); k_send k _ _ := (k, None); k_sendto k _ _ _ := (k, None);
  k_recv_udp k _ _ := (k, inl 11); k_backlog _ _ := 0%nat; k_timeout_max := 2147483647 |}.

Definition sample_rt_config : RtConfig :=
  {| rg_iface := "eno2"; rg_our_mac := sample_mac; rg_cpu_mac := sample_cpu; rg_layout := sample_layout;
     rg_cpu_pin := None; rg_rt_priority := None; rg_lock_memory := false |}.
Definition sample_options : StartOptions :=
  {| so_iface := "eno2"; so_ip := [10; 0; 0; 9]; so_rt := None; so_app_cpus := None;
     so_im_store := None |}.

Lemma no_descriptor_leaks_witness :
  owns (rt_spawn refusing false sample_rt_config) rt_fds ∧
  ∃ l, rt_spawn refusing false sample_rt_config [] = (Err (RtIo 24), l) ∧ opened l = [].
Proof.
  destruct (no_descriptor_leaks refusing false "eno2" sample_from sample_rt_config tt sample_config
    sample_options (Some (mac_text sample_mac)) (λ _, None) None) as (_ & _ & H & _).
  - exact (proj1 sample_config_ok).
  - split; [exact H|]. eexists. split; [vm_compute; reflexivity|vm_compute; reflexivity].
Defined.

Lemma rt_join_bounded_witness :
  ∃ pre l post, [(false, 3); (false, 12); (true, 13)] = pre ++ l :: post ∧
    rt_join true 1 10 [(false, 3); (false, 12); (true, 13)] = Some (if l.1 then (false, Ok tt) else (true, Err RtStopped)).
Proof.
  destruct (rt_join_bounded 1 10 [(false, 3); (false, 12); (true, 13)]) as (pre & l & post & Hl & _ & Hj & _).
  - exists (true, 13). split; [by_decide|left; reflexivity].
  - exists pre, l, post. split; [exact Hl|exact Hj].
Defined.
