(* ===== verification/Cli.v ===== *)
(** * Cli: the command lines and reports of the example programs

    Models the parts of [crates/pnio/examples/] that turn text into values and
    values into text: the CPU lists and diagnosis arguments of the bring-up
    programs, the interface address, the verdict with its thresholds, the CSV
    files and the address map printed by [gen_gsdml].  A string is the list of
    its octets; what goes to the log or to standard error is left out, a
    [format!] that is returned is not. *)

From stdpp Require Import pretty.
From S2P Require Import Prelude Eth Rpc Block Connect Records Diag Data Layout Config Hist Engine Text.
From S2P Require Import Gsdml Api.
Local Open Scope Z_scope.

(** ** Text *)

(** The characters of [White_Space], in UTF-8. *)
Definition WHITE_SPACE : list (list Z) :=
  [[9]; [10]; [11]; [12]; [13]; [32]; [0xC2; 0x85]; [0xC2; 0xA0]; [0xE1; 0x9A; 0x80]] ++
  ((λ b, [0xE2; 0x80; b]) <$> seqZ 0x80 11) ++
  [[0xE2; 0x80; 0xA8]; [0xE2; 0x80; 0xA9]; [0xE2; 0x80; 0xAF]; [0xE2; 0x81; 0x9F];
   [0xE3; 0x80; 0x80]].

(** Remove the texts of [ws] from the front as long as there is one. *)
Fixpoint strip_all (ws : list (list Z)) (fuel : nat) (s : list Z) : list Z :=
  match fuel with
  | O => s
  | S fuel =>
    match list_find (λ w, is_Some (strip_prefix w s)) ws with
    | Some (_, w) => strip_all ws fuel (drop (length w) s)
    | None => s
    end
  end.

(** [str::trim] of UTF-8 text; every step removes at least an octet. *)
Definition trim_text (s : list Z) : list Z :=
  let s := strip_all WHITE_SPACE (length s) s in
  reverse (strip_all (reverse <$> WHITE_SPACE) (length s) (reverse s)).

(** The digits of an unsigned integer up to [max]. *)
Fixpoint uint_digits (max acc : Z) (s : list Z) : option Z :=
  match s with
  | [] => Some acc
  | c :: s =>
    if decide (48 ≤ c ≤ 57) then
      if decide (max < 10 * acc + (c - 48)) then None else uint_digits max (10 * acc + (c - 48)) s
    else None
  end.

(** [str::parse] into an unsigned integer: an optional plus sign in front of
    at least one digit. *)
Definition parse_uint (max : Z) (s : list Z) : option Z :=
  match s with
  | [] => None
  | c :: rest => if decide (c = 43 ∧ rest ≠ []) then uint_digits max 0 rest else uint_digits max 0 s
  end.

Fixpoint joined (c : Z) (l : list (list Z)) : list Z :=
  match l with
  | [] => []
  | [s] => s
  | s :: l => s ++ c :: joined c l
  end.

Definition USIZE_MAX : Z := 18446744073709551615.
Definition ISIZE_MAX : Z := 9223372036854775807.
Definition quoted (s : list Z) : list Z := [39] ++ s ++ [39].

(** ** CPU lists *)

(** A range that does not fit a vector of [usize] is a capacity overflow. *)
(** examples/linux/typed_bringup.rs:526-536 parse_cpu_list *)
Definition parse_cpu_part (cpus part : list Z) : outcome (list Z) (list Z) :=
  match split_once 45 part with
  | Some (a, b) =>
    let! a := ok_or (parse_uint USIZE_MAX a) (ascii_bytes "bad cpu " ++ quoted a) in
    let! b := ok_or (parse_uint USIZE_MAX b) (ascii_bytes "bad cpu " ++ quoted b) in
    let! _ := guard (bool_decide (b < a)) (ascii_bytes "bad range " ++ quoted part) in
    if decide (ISIZE_MAX < 8 * (Z.of_nat (length cpus) + (b - a + 1))) then Panic
    else Ok (cpus ++ seqZ a (b - a + 1))
  | None =>
    let! c := ok_or (parse_uint USIZE_MAX part) (ascii_bytes "bad cpu " ++ quoted part) in
    Ok (cpus ++ [c])
  end.

Fixpoint parse_cpu_parts (cpus : list Z) (parts : list (list Z)) : outcome (list Z) (list Z) :=
  match parts with
  | [] => Ok cpus
  | part :: parts => let! cpus := parse_cpu_part cpus part in parse_cpu_parts cpus parts
  end.

(** examples/linux/typed_bringup.rs:522-542 parse_cpu_list *)
Definition parse_cpu_list (s : list Z) : outcome (list Z) (list Z) :=
  let! cpus := parse_cpu_parts [] (filter (.≠ []) (trim_text <$> split_on 44 s)) in
  let! _ := guard (is_nil cpus) (ascii_bytes "empty cpu list") in
  Ok cpus.

(** The other two programs carry their own copy of the same text. *)
(** examples/linux/rt_bringup.rs:412-432 parse_cpu_list *)
Definition rt_parse_cpu_list : list Z → outcome (list Z) (list Z) := parse_cpu_list.
(** examples/linux/latency_probe.rs:243-263 parse_cpu_list *)
Definition probe_parse_cpu_list : list Z → outcome (list Z) (list Z) := parse_cpu_list.

(** ** Diagnosis arguments *)

(** examples/linux/typed_bringup.rs:64-69 DiagSpec *)
Record DiagSpec := { dsp_slot : Z; dsp_channel : Z; dsp_error : ChannelError }.

(** Octets as the text they spell. *)
Definition text_of (b : list Z) : string :=
  foldr (λ c s, String (Ascii.ascii_of_N (Z.to_N c)) s) EmptyString b.

(** examples/linux/typed_bringup.rs:71-94 parse_diag_spec *)
Definition parse_diag_spec (s : list Z) : outcome (list Z) DiagSpec :=
  let parts := split_on 58 s in
  match parts with
  | [slot; channel; error] =>
    let! slot := ok_or (parse_uint 65535 slot)
      (quoted s ++ ascii_bytes ": bad slot " ++ quoted slot) in
    let! channel := ok_or (parse_uint 65535 channel)
      (quoted s ++ ascii_bytes ": bad channel " ++ quoted channel) in
    let! error := ok_or (ChannelError_from_name (text_of error))
      (quoted s ++ ascii_bytes ": unknown error " ++ quoted error) in
    Ok {| dsp_slot := slot; dsp_channel := channel; dsp_error := error |}
  | _ =>
    Err (quoted s ++ ascii_bytes ": expected <slot>:<channel>:<error-name>, got " ++
         decimal (Z.of_nat (length parts)) ++ ascii_bytes " field(s)")
  end.

(** ** The interface address *)

(** [m[i] = u8::from_str_radix(p, 16).expect("mac")] for the parts in turn: an
    index beyond the array and a part that is no octet are panics. *)
Fixpoint mac_fill {E} (m : list Z) (i : nat) (parts : list (list Z)) : outcome E (list Z) :=
  match parts with
  | [] => Ok m
  | p :: parts =>
    let! b := expect (from_str_radix_16 p) in
    let! m := set_at m i b in
    mac_fill m (S i) parts
  end.

(** [content] is the text of [/sys/class/net/<iface>/address]. *)
(** examples/linux/rt_bringup.rs:56-63 mac_of *)
Definition mac_of {E} (content : option (list Z)) : outcome E MacAddr :=
  let! s := expect content in
  let! m := mac_fill (replicate 6 0) 0 (split_on 58 (trim_text s)) in
  Ok (Mac m).
(** examples/linux/ar_bringup.rs:24-31 mac_of *)
Definition ar_mac_of {E} : option (list Z) → outcome E MacAddr := mac_of.

(** ** The verdict *)

(** examples/linux/typed_bringup.rs:396-400 Thresholds *)
Record Thresholds := {
  th_max_lateness_us : Z; th_p9999_lateness_us : Z; th_max_rx_interval_us : Z
}.

(** The literal [99.99]: the quotient rounds to the same double. *)
Definition P9999 : f64 := f64_div (f64_of_int 9999) (f64_of_int 100).

Definition fail_if (b : bool) (text : list Z) : list (list Z) := if b then [text] else [].
Definition percentile_or_0 (h : Histogram) (p : f64) : Z := Z.of_nat (default 0%nat (percentile h p)).

(** examples/linux/typed_bringup.rs:452-482 verdict *)
Definition verdict_fails (stats : RtStats) (t : Thresholds) : list (list Z) :=
  let s := stats_snapshot stats in
  let lat_max := sn_max_tick_lateness_ns s / 1000 in
  let p := percentile_or_0 (rs_tick_lateness stats) P9999 in
  let rx := sn_max_rx_interval_ns s / 1000 in
  fail_if (bool_decide (sn_missed_ticks s ≠ 0))
    (ascii_bytes "missed_ticks=" ++ decimal (sn_missed_ticks s)) ++
  fail_if (bool_decide (sn_watchdog_expirations s ≠ 0))
    (ascii_bytes "watchdog_expirations=" ++ decimal (sn_watchdog_expirations s)) ++
  fail_if (bool_decide (th_max_lateness_us t ≤ lat_max))
    (ascii_bytes "lateness max " ++ decimal lat_max ++ ascii_bytes "us >= " ++
     decimal (th_max_lateness_us t) ++ ascii_bytes "us") ++
  fail_if (bool_decide (th_p9999_lateness_us t ≤ p))
    (ascii_bytes "lateness p99.99 " ++ decimal p ++ ascii_bytes "us >= " ++
     decimal (th_p9999_lateness_us t) ++ ascii_bytes "us") ++
  fail_if (bool_decide (th_max_rx_interval_us t ≤ rx))
    (ascii_bytes "rx_interval max " ++ decimal rx ++ ascii_bytes "us >= " ++
     decimal (th_max_rx_interval_us t) ++ ascii_bytes "us") ++
  fail_if (bool_decide (sn_tx s = 0)) (ascii_bytes "no cyclic exchange happened").

(** The other arguments are only printed. *)
(** examples/linux/typed_bringup.rs:402-491 verdict *)
Definition verdict (stats : RtStats) (t : Thresholds) : bool := is_nil (verdict_fails stats t).
(** examples/linux/rt_bringup.rs:312-381 verdict *)
Definition rt_verdict : RtStats → Thresholds → bool := verdict.

(** ** The CSV files *)

(** A line of a file; the results of the writes are given one by one. *)
Definition csv_line (fields : list (list Z)) : list Z := joined 44 fields ++ newline.

Section csv.
Context {X : Type}.

(** [writeln!(f, ...)?] for a list of lines: what is in the file and whether
    all went well. *)
Fixpoint write_lines (io : nat → outcome X unit) (i : nat) (lines : list (list Z)) :
    list Z * outcome X unit :=
  match lines with
  | [] => ([], Ok tt)
  | l :: lines =>
    match io i with
    | Ok _ => let (text, r) := write_lines io (S i) lines in (l ++ text, r)
    | r => ([], r)
    end
  end.

Definition csv_header : list Z :=
  csv_line (ascii_bytes <$> ["t_s"; "tx"; "rx_accepted"; "rx_dropped"; "missed_ticks";
    "watchdog_expirations"; "reused"; "deferred"; "lat_max_us"; "lat_p9999_us"; "work_max_us";
    "rxint_max_us"]%string).

(** examples/linux/typed_bringup.rs:493-505 open_csv *)
Definition open_csv (create write : outcome X unit) : outcome X (list Z) :=
  let! _ := create in let! _ := write in Ok csv_header.
(** examples/linux/rt_bringup.rs:383-395 open_csv *)
Definition rt_open_csv (create write : outcome X unit) : outcome X (list Z) := open_csv create write.

(** examples/linux/typed_bringup.rs:285-300 main *)
Definition csv_row (elapsed : Z) (stats : RtStats) : list Z :=
  let s := stats_snapshot stats in
  csv_line (decimal <$>
    [elapsed; sn_tx s; sn_rx_accepted s; sn_rx_dropped s; sn_missed_ticks s;
     sn_watchdog_expirations s; sn_input_snapshot_reused s; sn_output_publish_deferred s;
     sn_max_tick_lateness_ns s / 1000; percentile_or_0 (rs_tick_lateness stats) P9999;
     sn_max_cycle_work_ns s / 1000; sn_max_rx_interval_ns s / 1000]).

(** [for i in 0..HIST_BINS] from [i] on; indexing the three snapshots. *)
Fixpoint hist_lines (a b c : HistSnapshot) (i n : nat) : outcome X (list (list Z)) :=
  match n with
  | O => Ok []
  | S n =>
    let! x := idx (hs_bins a) i in
    let! y := idx (hs_bins b) i in
    let! z := idx (hs_bins c) i in
    let! lines := hist_lines a b c (S i) n in
    Ok (csv_line [nat_decimal i; decimal x; decimal y; decimal z] :: lines)
  end.

(** The text in the file and the result; a panic leaves no result. *)
(** examples/linux/typed_bringup.rs:507-520 write_hist_csv *)
Definition write_hist_csv (create : outcome X unit) (io : nat → outcome X unit) (stats : RtStats) :
    outcome X (list Z * outcome X unit) :=
  let a := hist_snapshot (rs_tick_lateness stats) in
  let b := hist_snapshot (rs_cycle_work stats) in
  let c := hist_snapshot (rs_rx_interval stats) in
  let! _ := create in
  let! lines := hist_lines a b c 0 HIST_BINS in
  Ok (write_lines io 0
    (csv_line (ascii_bytes <$> ["bin_us"; "tick_lateness"; "cycle_work"; "rx_interval"]%string) :: lines)).
(** examples/linux/rt_bringup.rs:397-410 write_hist_csv *)
Definition rt_write_hist_csv (create : outcome X unit) (io : nat → outcome X unit) (stats : RtStats) :=
  write_hist_csv create io stats.
End csv.

(** ** The sample configurations *)

Definition sample_im0 : Im0 :=
  {| im0_order_id := ascii_bytes "PNIO-SAMPLE";
     im0_serial_number := im0_serial_number Im0_default;
     im0_hardware_revision := im0_hardware_revision Im0_default;
     im0_software_revision := im0_software_revision Im0_default;
     im0_revision_counter := im0_revision_counter Im0_default;
     im0_profile_id := im0_profile_id Im0_default;
     im0_profile_specific_type := im0_profile_specific_type Im0_default |}.

(** The four submodules all the programs declare. *)
Definition sample_slots (b : DeviceConfigBuilder) : DeviceConfigBuilder :=
  let b := bd_input b 1 (replicate 16 FtReal) in
  let b := bd_input b 2 (replicate 32 FtBool) in
  let b := bd_output b 3 (replicate 16 FtReal) in
  bd_output b 4 (replicate 32 FtBool).

Definition expect_Ok {E X A} (m : outcome E A) : outcome X A :=
  match m with Ok a => Ok a | _ => Panic end.

(** examples/linux/typed_bringup.rs:96-115 sample_config *)
Definition typed_sample_config {X} (station : list Z) : outcome X DeviceConfig :=
  let b := bd_set_station_type (builder station) (ascii_bytes "pnio sample device") in
  let b := bd_set_im0 b sample_im0 in
  let b := bd_identity b 0xFFFF 0x0001 in
  let b := bd_set_interval b 32 in
  expect_Ok (build (sample_slots b)).

(** examples/linux/latency_probe.rs:49-64 sample_config *)
Definition probe_sample_config {X} (station : list Z) : outcome X DeviceConfig :=
  let b := bd_set_station_type (builder station) (ascii_bytes "pnio latency probe") in
  let b := bd_set_im0 b sample_im0 in
  expect_Ok (build (sample_slots b)).

(** examples/gen_gsdml.rs:9-25 Args *)
Record GenArgs := {
  ga_out : list Z; ga_station : list Z; ga_vendor_id : Z; ga_device_id : Z; ga_interval : Z
}.

(** examples/gen_gsdml.rs:27-42 sample_config *)
Definition gen_sample_config {X} (a : GenArgs) : outcome X DeviceConfig :=
  let b := bd_set_station_type (builder (ga_station a)) (ascii_bytes "pnio sample device") in
  let b := bd_identity b (ga_vendor_id a) (ga_device_id a) in
  let b := bd_set_interval b (ga_interval a) in
  expect_Ok (build (bd_set_im0 (sample_slots b) sample_im0)).

(** ** The address map of [gen_gsdml] *)

(** One printed line. *)
Record AddrLine := {
  al_slot : Z; al_dir : Direction; al_len : Z; al_fields : nat; al_base : Z; al_last : Z
}.

(** [{:<w}] *)
Definition pad_right (w : nat) (s : list Z) : list Z := s ++ replicate (w - length s) 32.
Definition dir_name (d : Direction) : list Z :=
  match d with DrInput => ascii_bytes "Input" | DrOutput => ascii_bytes "Output"
  | DrInputOutput => ascii_bytes "InputOutput" end.

(** examples/gen_gsdml.rs:77-85 main *)
Definition addr_text (l : AddrLine) : list Z :=
  pad_right 5 (decimal (al_slot l)) ++ [32] ++ pad_right 7 (dir_name (al_dir l)) ++ [32] ++
  pad_right 6 (decimal (al_len l)) ++ [32] ++ nat_decimal (al_fields l) ++
  ascii_bytes " fields -> " ++
  (match al_dir l with DrInput => ascii_bytes "%IB" | _ => ascii_bytes "%QB" end) ++
  decimal (al_base l) ++ ascii_bytes ".." ++ decimal (al_last l) ++ newline.

(** One turn of the inner loop: the lines and the new base. *)
(** examples/gen_gsdml.rs:73-86 main *)
Definition addr_entry {E} (c : DeviceConfig) (slot : Z) (dir : Direction) (len base : Z) :
    outcome E (list AddrLine * Z) :=
  if decide (len = 0) then Ok ([], base) else
  let! fields := cf_fields c slot dir in
  Ok ([{| al_slot := slot; al_dir := dir; al_len := len;
          al_fields := default 0%nat (length <$> fields); al_base := base;
          al_last := wrap32 (wrap32 (base + wrap32 len) - 1) |}],
      wrap32 (base + wrap32 len)).

Fixpoint addr_lines {E} (c : DeviceConfig) (subs : list SubmoduleSpec) (ib qb : Z) :
    outcome E (list AddrLine) :=
  match subs with
  | [] => Ok []
  | s :: subs =>
    let! il := cf_input_len c (ss_slot s) in
    let! ol := cf_output_len c (ss_slot s) in
    let! (li, ib) := addr_entry c (ss_slot s) DrInput (default 0 il) ib in
    let! (lo, qb) := addr_entry c (ss_slot s) DrOutput (default 0 ol) qb in
    let! rest := addr_lines c subs ib qb in
    Ok (li ++ lo ++ rest)
  end.

(** examples/gen_gsdml.rs:57-88 main *)
Definition address_map {E} (c : DeviceConfig) : outcome E (list AddrLine) :=
  addr_lines c (cf_submodules c) 0 0.

(** [Path::join] with a relative name. *)
Definition path_join (dir name : list Z) : list Z :=
  if is_nil dir then name
  else if decide (list.last dir = Some 47) then dir ++ name else dir ++ [47] ++ name.

Definition gen_meta : GsdmlMeta :=
  {| gm_vendor_name := ascii_bytes "Core Engineering"; gm_product_family := ascii_bytes "pnio";
     gm_info_text := ascii_bytes "pnio sample device: 16 REAL + 32 BOOL per direction";
     gm_date := (2026, 8, 29) |}.

(** The file written and the text on standard output; [write] is the result of
    [std::fs::write], whose failure is a panic. *)
(** examples/gen_gsdml.rs:44-92 main *)
Definition gen_main {X} (a : GenArgs) (write : bool) : outcome X ((list Z * list Z) * list Z) :=
  let! cfg := gen_sample_config a in
  let path := path_join (ga_out a) (file_name gen_meta) in
  let! text := render cfg gen_meta in
  if negb write then Panic else
  let! lines := address_map cfg in
  Ok ((path, text),
      ascii_bytes "wrote " ++ path ++ newline ++
      ascii_bytes "slot  dir     bytes  fields" ++ newline ++
      concat (addr_text <$> lines) ++
      ascii_bytes "(controller addresses assume TIA packs the modules in slot order from 0; check the device view)"
      ++ newline).

(** ** Numbers in text *)

Definition digit (c : Z) : Prop := 48 ≤ c ≤ 57.

Lemma digit_char (x : N) : (x < 10)%N →
  Z.of_N (Ascii.N_of_ascii (pretty_N_char x)) = 48 + Z.of_N x.
Proof.
  intros H. destruct x as [|p]; [done|].
  do 4 (destruct p as [p|p|]; try done); exfalso; revert H; clear; destruct p; done.
Qed.

Lemma pretty_go_parse max (x : N) : ∀ s, Z.of_N x ≤ max →
  uint_digits max 0 (ascii_bytes (pretty_N_go x s)) = uint_digits max (Z.of_N x) (ascii_bytes s).
Proof.
  induction (N.lt_wf_0 x) as [x _ IH]. intros s Hx.
  destruct (decide (x = 0)%N) as [->|Hn]; [by rewrite pretty_N_go_0|].
  rewrite pretty_N_go_step by lia. pose proof (N.div_mod' x 10). pose proof (N.mod_lt x 10 ltac:(done)).
  assert (x / 10 < x)%N by (apply N.div_lt; lia). rewrite IH by lia.
  change (ascii_bytes (String ?c s)) with (Z.of_N (Ascii.N_of_ascii c) :: ascii_bytes s).
  cbn [uint_digits]. rewrite digit_char by done.
  revert H H0. generalize (x / 10)%N (x mod 10)%N. intros q r H H0.
  case_decide; [|lia]. case_decide; [lia|]. f_equal. lia.
Qed.

Lemma pretty_go_digits (x : N) : ∀ s, Forall digit (ascii_bytes s) →
  Forall digit (ascii_bytes (pretty_N_go x s)).
Proof.
  induction (N.lt_wf_0 x) as [x _ IH]. intros s Hs.
  destruct (decide (x = 0)%N) as [->|Hn]; [by rewrite pretty_N_go_0|].
  rewrite pretty_N_go_step by lia. apply IH; [apply N.div_lt; lia|].
  pose proof (N.mod_lt x 10 ltac:(done)).
  change (ascii_bytes (String ?c s)) with (Z.of_N (Ascii.N_of_ascii c) :: ascii_bytes s).
  constructor; [|done]. rewrite digit_char by done. unfold digit.
  revert H. generalize (x mod 10)%N. lia.
Qed.

Lemma pretty_go_length (x : N) : ∀ s, (String.length s ≤ length (ascii_bytes (pretty_N_go x s)))%nat.
Proof.
  induction (N.lt_wf_0 x) as [x _ IH]. intros s.
  destruct (decide (x = 0)%N) as [->|Hn].
  { rewrite pretty_N_go_0. unfold ascii_bytes. rewrite length_fmap. by induction s; cbn; lia. }
  rewrite pretty_N_go_step by lia. etrans; [|apply IH; apply N.div_lt; lia]. cbn. lia.
Qed.

(** A printed number is digits, at least one. *)
Lemma decimal_digits n : Forall digit (decimal n) ∧ decimal n ≠ [].
Proof.
  unfold decimal, pretty, pretty_N. case_decide as H0; [by split; [repeat constructor; unfold digit; cbn; lia|]|].
  split; [apply pretty_go_digits; constructor|].
  rewrite pretty_N_go_step by lia. intros He.
  match type of He with ascii_bytes (pretty_N_go ?y ?s) = _ => pose proof (pretty_go_length y s) as Hl end.
  rewrite He in Hl. cbn in Hl. lia.
Qed.

Lemma parse_uint_digits max s : Forall digit s → s ≠ [] → parse_uint max s = uint_digits max 0 s.
Proof.
  intros H Hn. destruct H as [|c s Hc]; [done|]. cbn [parse_uint]. rewrite decide_False; [done|].
  unfold digit in Hc. lia.
Qed.

(** A number is printed and parsed back. *)
Lemma parse_uint_decimal max n : 0 ≤ n ≤ max → parse_uint max (decimal n) = Some n.
Proof.
  intros H. destruct (decimal_digits n). rewrite parse_uint_digits by done.
  unfold decimal, pretty, pretty_N. case_decide as Hz.
  - assert (n = 0) as -> by lia. change (uint_digits max 0 [48] = Some 0). cbn [uint_digits].
    case_decide; [|lia]. case_decide; [lia|done].
  - rewrite pretty_go_parse by lia. cbn. f_equal. lia.
Qed.

Lemma uint_digits_range max s : ∀ acc n,
  0 ≤ acc ≤ max → uint_digits max acc s = Some n → 0 ≤ n ≤ max.
Proof.
  induction s as [|c s IH]; intros acc n Ha; cbn; [intros [= <-]; lia|].
  case_decide; [|done]. case_decide; [done|]. apply IH. lia.
Qed.

Lemma parse_uint_range max s n : 0 ≤ max → parse_uint max s = Some n → 0 ≤ n ≤ max.
Proof.
  intros Hm. destruct s as [|c s]; [done|]. cbn [parse_uint].
  case_decide; apply uint_digits_range; lia.
Qed.

(** ** Trimming *)

(** Text that starts and ends with characters the trimming keeps. *)
Definition plain (c : Z) : Prop := digit c ∨ c = 45.

Lemma strip_all_keep ws fuel c s :
  (∀ w, w ∈ ws → ∃ b r, w = b :: r ∧ b ≠ c) → strip_all ws fuel (c :: s) = c :: s.
Proof.
  intros H. destruct fuel as [|fuel]; [done|]. cbn [strip_all].
  destruct (list_find _ ws) as [[i w]|] eqn:Hf; [|done].
  apply list_find_Some in Hf as (Hw & [t Ht] & _). apply list_elem_of_lookup_2, H in Hw as (b & r & -> & Hb).
  unfold strip_prefix in Ht. case_decide as Hp; [|done]. cbn in Hp. congruence.
Qed.

Lemma plain_no_space c w : plain c →
  w ∈ WHITE_SPACE ∨ w ∈ reverse <$> WHITE_SPACE → ∃ b r, w = b :: r ∧ b ≠ c.
Proof.
  intros Hc Hw. assert (c < 58 ∧ 33 ≤ c) as Hr by (unfold plain, digit in Hc; lia). clear Hc.
  rewrite <-elem_of_app in Hw.
  assert (forallb (λ w, match w with [] => false | b :: _ => (b <? 33) || (58 <=? b) end)
    (WHITE_SPACE ++ (reverse <$> WHITE_SPACE)) = true) as HF by reflexivity.
  rewrite forallb_forall in HF. apply list_elem_of_In, HF in Hw. destruct w as [|b r]; [done|].
  exists b, r. split; [done|]. apply orb_prop in Hw as [Hw%Z.ltb_lt|Hw%Z.leb_le]; lia.
Qed.

Lemma trim_text_plain s : Forall plain s → trim_text s = s.
Proof.
  intros H. unfold trim_text. destruct s as [|c s]; [done|].
  assert (plain c) as Hc by by inversion H.
  rewrite strip_all_keep by (intros w Hw; apply plain_no_space; auto). cbn zeta.
  destruct (reverse (c :: s)) as [|d r] eqn:Er.
  { apply (f_equal length) in Er. by rewrite length_reverse in Er. }
  assert (plain d) as Hd.
  { assert (d ∈ c :: s) as Hin by (rewrite <-elem_of_reverse, Er; left).
    rewrite list.Forall_forall in H. by apply H. }
  rewrite strip_all_keep by (intros w Hw; apply plain_no_space; auto).
  by rewrite <-Er, reverse_involutive.
Qed.

(** ** CPU lists read back *)

(** A range as it is written: a single CPU, or both ends. *)
Definition range_text (r : Z * Z) : list Z :=
  if decide (r.1 = r.2) then decimal r.1 else decimal r.1 ++ [45] ++ decimal r.2.
Definition range_cpus (r : Z * Z) : list Z := seqZ r.1 (r.2 - r.1 + 1).
Definition wf_range (r : Z * Z) : Prop := 0 ≤ r.1 ≤ r.2 ∧ r.2 ≤ USIZE_MAX.

Lemma split_joined c l : l ≠ [] → Forall (λ s, c ∉ s) l → split_on c (joined c l) = l.
Proof.
  intros Hn H. induction H as [|s l Hs Hl IH]; [done|]. destruct l as [|t l].
  - by apply split_on_plain.
  - change (joined c (s :: t :: l)) with (s ++ c :: joined c (t :: l)).
    rewrite split_on_app by done. by rewrite IH.
Qed.

Lemma digits_free s c : Forall digit s → ¬ digit c → c ∉ s.
Proof. intros H Hc Hin. rewrite list.Forall_forall in H. by apply Hc, H. Qed.

Lemma split_once_free c s : c ∉ s → split_once c s = None.
Proof.
  induction s as [|b s IH]; [done|]. rewrite not_elem_of_cons. intros [Hb Hs]. cbn.
  rewrite decide_False by congruence. by rewrite IH.
Qed.

Lemma split_once_app c s r : c ∉ s → split_once c (s ++ c :: r) = Some (s, r).
Proof.
  induction s as [|b s IH]; cbn; [intros _; by rewrite decide_True|].
  rewrite not_elem_of_cons. intros [Hb Hs]. rewrite decide_False by congruence. by rewrite IH.
Qed.

Lemma range_text_plain r : Forall plain (range_text r) ∧ range_text r ≠ [].
Proof.
  destruct (decimal_digits r.1) as [H1 N1]. destruct (decimal_digits r.2) as [H2 _].
  assert (∀ s, Forall digit s → Forall plain s) as Hp
    by (intros s H; eapply list.Forall_impl; [exact H|]; by left).
  unfold range_text. case_decide; [by auto|]. split.
  - apply Forall_app. split; [by apply Hp|]. constructor; [by right|by apply Hp].
  - by destruct (decimal r.1).
Qed.

Lemma parse_range cpus r :
  wf_range r → 8 * Z.of_nat (length cpus + length (range_cpus r)) ≤ ISIZE_MAX →
  parse_cpu_part cpus (range_text r) = Ok (cpus ++ range_cpus r).
Proof.
  destruct r as [a b]. intros [Hr Hm] Hl. unfold range_cpus, range_text in *. cbn [fst snd] in *.
  rewrite length_seqZ in Hl. destruct (decimal_digits a) as [Ha _], (decimal_digits b) as [Hb _].
  assert (¬ digit 45) by (unfold digit; lia). unfold parse_cpu_part. case_decide as He.
  - subst b. rewrite split_once_free by (by apply digits_free).
    rewrite parse_uint_decimal by lia. cbn [ok_or obind]. by replace (a - a + 1) with 1 by lia.
  - change (decimal a ++ [45] ++ decimal b) with (decimal a ++ 45 :: decimal b).
    rewrite split_once_app by (by apply digits_free). rewrite !parse_uint_decimal by lia.
    cbn [ok_or obind]. rewrite bool_decide_false by lia. cbn [guard obind].
    rewrite decide_False by lia. done.
Qed.

Lemma parse_ranges ranges : ∀ cpus,
  Forall wf_range ranges → 8 * Z.of_nat (length cpus + length (ranges ≫= range_cpus)) ≤ ISIZE_MAX →
  parse_cpu_parts cpus (range_text <$> ranges) = Ok (cpus ++ (ranges ≫= range_cpus)).
Proof.
  induction ranges as [|r ranges IH]; intros cpus Hw Hl; cbn; [by rewrite app_nil_r|].
  apply list.Forall_cons in Hw as [Hr Hw]. rewrite bind_cons, length_app in Hl.
  rewrite parse_range by (done || lia). cbn [obind].
  rewrite IH; [by rewrite <-app_assoc|done|]. rewrite length_app. lia.
Qed.

Lemma parsed_range {E} max s (e : E) n :
  0 ≤ max → ok_or (parse_uint max s) e = Ok n → 0 ≤ n ≤ max.
Proof.
  intros Hm. destruct (parse_uint max s) eqn:H; [|done]. intros [= <-].
  by apply parse_uint_range in H.
Qed.

Lemma parse_cpu_part_range cpus part cpus' :
  Forall (λ c, 0 ≤ c ≤ USIZE_MAX) cpus → parse_cpu_part cpus part = Ok cpus' →
  Forall (λ c, 0 ≤ c ≤ USIZE_MAX) cpus'.
Proof.
  intros Hc. assert (0 ≤ USIZE_MAX) as HU by done.
  unfold parse_cpu_part. destruct (split_once 45 part) as [[a b]|]; intros H; ok_inv.
  - apply Forall_app. split; [done|]. apply list.Forall_forall. intros c [? ?]%elem_of_seqZ.
    repeat match goal with H : ok_or _ _ = Ok _ |- _ => apply parsed_range in H; [|done] end. lia.
  - apply Forall_app. split; [done|]. constructor; [|done]. by eapply parsed_range.
Qed.

Lemma parse_cpu_parts_range parts : ∀ cpus cpus',
  Forall (λ c, 0 ≤ c ≤ USIZE_MAX) cpus → parse_cpu_parts cpus parts = Ok cpus' →
  Forall (λ c, 0 ≤ c ≤ USIZE_MAX) cpus'.
Proof.
  induction parts as [|part parts IH]; intros cpus cpus' Hc H; cbn in H; ok_inv; [done|].
  eauto using parse_cpu_part_range.
Qed.

(** The CPU list of the command line denotes the CPUs it names.  A list of
    single CPUs and ranges, written with commas, parses to exactly the CPUs of
    the ranges in the order written (as long as they fit a vector), and
    whatever is accepted is a non-empty list of CPU numbers in range. *)
Theorem cpu_list_roundtrip ranges :
  ranges ≠ [] → Forall wf_range ranges →
  8 * Z.of_nat (length (ranges ≫= range_cpus)) ≤ ISIZE_MAX →
  parse_cpu_list (joined 44 (range_text <$> ranges)) = Ok (ranges ≫= range_cpus) ∧
  ∀ s cpus, parse_cpu_list s = Ok cpus →
    cpus ≠ [] ∧ Forall (λ c, 0 ≤ c ≤ USIZE_MAX) cpus.
Proof.
  intros Hn Hw Hl. split.
  - unfold parse_cpu_list. rewrite split_joined.
    2:{ by destruct ranges. }
    2:{ apply Forall_fmap, list.Forall_forall. intros r _ Hin. destruct (range_text_plain r) as [Hp _].
        rewrite list.Forall_forall in Hp. apply Hp in Hin. unfold plain, digit in Hin. lia. }
    replace (filter (.≠ []) (trim_text <$> (range_text <$> ranges))) with (range_text <$> ranges).
    + rewrite parse_ranges by done. cbn [obind app].
      destruct ranges as [|[a b] ranges]; [done|]. apply list.Forall_cons in Hw as [[Hab _] _].
      cbn [fst snd] in Hab. rewrite bind_cons.
      assert (range_cpus (a, b) = a :: seqZ (Z.succ a) (Z.pred (b - a + 1))) as -> by (apply seqZ_cons; cbn; lia).
      done.
    + clear. induction ranges as [|r ranges IH]; [done|]. cbn. destruct (range_text_plain r).
      rewrite trim_text_plain, decide_True by done. by f_equal.
  - intros s cpus H. unfold parse_cpu_list in H. ok_inv. split; [by destruct cpus|].
    eapply parse_cpu_parts_range; [|done]. constructor.
Qed.

Lemma cpu_list_roundtrip_witness :
  parse_cpu_list (ascii_bytes "0-2,5,7-8") = Ok [0; 1; 2; 5; 7; 8] ∧
  parse_cpu_list (ascii_bytes "2-1") = Err (ascii_bytes "bad range '2-1'") ∧
  parse_cpu_list (ascii_bytes " , ") = Err (ascii_bytes "empty cpu list").
Proof.
  split_and!; [|vm_compute; reflexivity..].
  apply (cpu_list_roundtrip [(0, 2); (5, 5); (7, 8)]);
    [done|repeat (apply List.Forall_cons; [unfold wf_range, USIZE_MAX; cbn; lia|]); done
    |vm_compute; discriminate].
Defined.

(** ** Diagnosis arguments read back *)

Lemma text_of_ascii s : text_of (ascii_bytes s) = s.
Proof.
  induction s as [|c s IH]; [done|].
  change (ascii_bytes (String c s)) with (Z.of_N (Ascii.N_of_ascii c) :: ascii_bytes s).
  cbn [text_of foldr]. unfold text_of in IH. by rewrite IH, N2Z.id, Ascii.ascii_N_embedding.
Qed.

(** The name of an error on the command line. *)
Definition error_name (e : ChannelError) : list Z :=
  ascii_bytes (ChannelError_names !!! Z.to_nat (ChannelError_code e - 1)).
Definition diag_text (d : DiagSpec) : list Z :=
  joined 58 [decimal (dsp_slot d); decimal (dsp_channel d); error_name (dsp_error d)].

(** Every diagnosis of a 16-bit slot and channel can be written and reads back,
    and an accepted argument names one. *)
Lemma diag_spec_roundtrip d :
  u16 (dsp_slot d) → u16 (dsp_channel d) → parse_diag_spec (diag_text d) = Ok d.
Proof.
  intros Hs Hc. unfold parse_diag_spec, diag_text.
  destruct (decimal_digits (dsp_slot d)) as [H1 _], (decimal_digits (dsp_channel d)) as [H2 _].
  assert (¬ digit 58) by (unfold digit; lia).
  rewrite split_joined; [|done|].
  2:{ repeat constructor; [by apply digits_free..|]. destruct (dsp_error d); by_decide. }
  rewrite !parse_uint_decimal by (unfold u16 in *; lia). cbn [ok_or obind].
  unfold error_name. rewrite text_of_ascii. destruct d as [s c []]; done.
Qed.

(** ** The verdict is exact *)

Lemma is_nil_app {A} (a b : list A) : is_nil (a ++ b) = is_nil a && is_nil b.
Proof. by destruct a. Qed.
Lemma is_nil_fail_if (P : Prop) `{Decision P} text :
  is_nil (fail_if (bool_decide P) text) = true ↔ ¬ P.
Proof. unfold fail_if. case_bool_decide; by split. Qed.

Lemma and_known (P Q : Prop) : P → P ∧ Q ↔ Q.
Proof. tauto. Qed.

(** The largest sample in whole microseconds is below a threshold exactly when
    all samples are. *)
Lemma max_below samples t : Forall (Z.le 0) samples →
  foldr Z.max 0 samples / 1000 < t ↔ 0 < t ∧ Forall (λ ns, ns < 1000 * t) samples.
Proof.
  intros Hs. assert (0 ≤ foldr Z.max 0 samples) as H0 by (clear Hs; induction samples; cbn; lia).
  destruct (decide (0 < t)) as [Ht|Ht].
  2:{ split; [|tauto]. pose proof (Z.div_pos (foldr Z.max 0 samples) 1000 H0 ltac:(lia)). lia. }
  rewrite (and_known _ _ Ht). clear H0.
  assert (foldr Z.max 0 samples / 1000 < t ↔ foldr Z.max 0 samples < 1000 * t) as ->
    by (split; intros; Z.div_mod_to_equations; lia).
  induction Hs as [|x l Hx Hl IH]; cbn; [split; [constructor|lia]|].
  rewrite list.Forall_cons, <-IH. lia.
Qed.

Lemma tally_ext P Q samples : Forall (λ x, P x = Q x) samples → tally P samples = tally Q samples.
Proof.
  unfold tally. intros H. f_equal. f_equal.
  induction H as [|x l Hx Hl IH]; cbn; [done|]. rewrite Hx, IH. done.
Qed.

(** The percentile is below a threshold exactly when enough samples are; beyond
    the range of the histogram it always is. *)
Lemma percentile_below samples p q :
  Forall (Z.le 0) samples → Z.of_nat (length samples) ≤ 18446744073709551615 →
  percentile_or_0 (hist_of samples) p < q ↔
  0 < q ∧ (samples = [] ∨ Z.of_nat HIST_BINS ≤ q ∨
    percentile_target p (Z.of_nat (length samples)) ≤ tally (λ ns, bool_decide (ns < 1000 * q)) samples).
Proof.
  intros Hs Hl. destruct (decide (0 < q)) as [Hq0|Hq0].
  2:{ split; [|tauto]. unfold percentile_or_0. destruct (percentile _ p); cbn; lia. }
  rewrite (and_known _ _ Hq0). destruct (histogram_correct samples Hs Hl) as (_ & _ & Hp). specialize (Hp p).
  cbn zeta in Hp. unfold percentile_or_0. destruct (percentile (hist_of samples) p) as [r|]; cbn [from_option id].
  2:{ subst. split; [by left|intros _; cbn; lia]. }
  destruct Hp as (Hne & Hr & Hlow & Hup).
  destruct (decide (q < Z.of_nat HIST_BINS)) as [Hq|Hq].
  2:{ split; [intros _; right; left; lia|intros _; lia]. }
  assert (tally (λ ns, bool_decide (ns < 1000 * q)) samples = tally (up_to_bin (Z.to_nat (q - 1))) samples) as ->.
  { apply tally_ext. eapply list.Forall_impl; [exact Hs|]. intros x Hx. unfold up_to_bin, bin_of.
    apply bool_decide_ext. unfold HIST_BINS in *.
    assert (0 ≤ x / 1000 ∧ (x < 1000 * q ↔ x / 1000 < q)) as [Hd ->]
      by (split; [|split; intros]; Z.div_mod_to_equations; lia).
    generalize dependent (x / 1000). lia. }
  split.
  - intros Hlt. right. right. destruct Hup as [Hup| ->]; [|unfold HIST_BINS in *; lia].
    etrans; [exact Hup|]. unfold tally. apply Nat2Z.inj_le.
    clear -Hlt. induction samples as [|x l IH]; cbn; [done|].
    destruct (up_to_bin r x) eqn:E1, (up_to_bin (Z.to_nat (q - 1)) x) eqn:E2; cbn; try lia.
    unfold up_to_bin in *. rewrite bool_decide_eq_true in E1. rewrite bool_decide_eq_false in E2. lia.
  - intros [?|[?|Hle]]; [done|lia|]. destruct (decide (Z.of_nat r < q)) as [|Hge]; [done|exfalso].
    specialize (Hlow (Z.to_nat (q - 1)) ltac:(lia)). lia.
Qed.

(** C39: the verdict of a run is PASS exactly when the run met its thresholds,
    as far as the histogram can tell.  For the statistics of any recorded
    sequences of lateness and interval samples and any thresholds: the
    thresholds are positive, no tick was missed, the watchdog never expired,
    frames were sent, every tick was late by less than the maximum, the
    controller's frames were never further apart than the limit, and at least
    the rank of the 99.99th percentile of the ticks was late by less than its
    threshold.  The last condition is not enforced for thresholds from 2048
    microseconds on, beyond the bins of the histogram: there the percentile is
    below the threshold whatever the samples are. *)
Theorem verdict_exact stats t lateness rx :
  rs_tick_lateness stats = hist_of lateness → rs_rx_interval stats = hist_of rx →
  Forall (Z.le 0) lateness → Forall (Z.le 0) rx →
  Z.of_nat (length lateness) ≤ 18446744073709551615 → Z.of_nat (length rx) ≤ 18446744073709551615 →
  verdict stats t = true ↔
    (0 < th_max_lateness_us t ∧ 0 < th_max_rx_interval_us t ∧ 0 < th_p9999_lateness_us t) ∧
    rs_missed_ticks stats = 0 ∧ rs_watchdog_expirations stats = 0 ∧ rs_tx stats ≠ 0 ∧
    Forall (λ ns, ns < 1000 * th_max_lateness_us t) lateness ∧
    Forall (λ ns, ns < 1000 * th_max_rx_interval_us t) rx ∧
    (lateness = [] ∨ Z.of_nat HIST_BINS ≤ th_p9999_lateness_us t ∨
     percentile_target P9999 (Z.of_nat (length lateness)) ≤
       tally (λ ns, bool_decide (ns < 1000 * th_p9999_lateness_us t)) lateness).
Proof.
  intros Hlat Hrx Fl Fr Ll Lr. unfold verdict, verdict_fails.
  rewrite !is_nil_app, !andb_true_iff, !is_nil_fail_if. cbn [stats_snapshot sn_missed_ticks
    sn_watchdog_expirations sn_max_tick_lateness_ns sn_max_rx_interval_ns sn_tx].
  destruct (hist_of_spec lateness Fl Ll) as (_ & _ & _ & Hm1).
  destruct (hist_of_spec rx Fr Lr) as (_ & _ & _ & Hm2).
  rewrite Hlat, Hrx, Hm1, Hm2, !Z.nle_gt, !max_below, percentile_below by done.
  destruct (decide (rs_missed_ticks stats = 0)), (decide (rs_watchdog_expirations stats = 0));
    tauto.
Qed.

Definition sample_run (lateness : list Z) : RtStats :=
  {| rs_tx := 5; rs_rx_accepted := 5; rs_rx_ignored := 0; rs_rx_dropped := 0;
     rs_rx_invalid := 0; rs_reordered := 0; rs_watchdog_expirations := 0; rs_missed_ticks := 0;
     rs_input_snapshot_reused := 0; rs_output_publish_deferred := 0;
     rs_tick_lateness := hist_of lateness; rs_cycle_work := Histogram_new;
     rs_rx_interval := hist_of [1000000] |}.

(** A run within its thresholds, and one whose two ticks, 5 and 6 ms late, pass
    a p99.99 threshold of 3 ms. *)
Lemma verdict_exact_witness :
  verdict (sample_run [5000; 99999])
    {| th_max_lateness_us := 300; th_p9999_lateness_us := 100; th_max_rx_interval_us := 1500 |} = true ∧
  verdict (sample_run [5000000; 6000000])
    {| th_max_lateness_us := 9000; th_p9999_lateness_us := 3000; th_max_rx_interval_us := 1500 |} = true ∧
  tally (λ ns, bool_decide (ns < 3000000)) [5000000; 6000000] = 0.
Proof.
  split; [|split; [|vm_compute; reflexivity]].
  - apply (verdict_exact _ _ [5000; 99999] [1000000]); [done|done|by_decide|by_decide|cbn; lia|cbn; lia|].
    split_and!; [done|done|done|done|done|done|by_decide|by_decide|]. right. right. vm_compute. discriminate.
  - apply (verdict_exact _ _ [5000000; 6000000] [1000000]); [done|done|by_decide|by_decide|cbn; lia|cbn; lia|].
    split_and!; [done|done|done|done|done|done|by_decide|by_decide|]. right. left. vm_compute. discriminate.
Defined.

(** ** The address map *)

(** The addresses of a direction when the controller packs the modules in slot
    order from 0: the reference. *)
Fixpoint tiled (dir : Direction) (subs : list SubmoduleSpec) (base : Z) : list AddrLine :=
  match subs with
  | [] => []
  | s :: subs =>
    let len := packed_octets (declared dir s) 0 in
    (if is_nil (declared dir s) then [] else
       [{| al_slot := ss_slot s; al_dir := dir; al_len := len;
           al_fields := length (declared dir s); al_base := base; al_last := base + len - 1 |}]) ++
    tiled dir subs (base + len)
  end.

Definition of_dir (d : Direction) (l : AddrLine) : bool := bool_decide (al_dir l = d).

Lemma cf_entry_of c k sm :
  cf_ok c → cf_submodules c !! k = Some sm → ∃ der, cf_entry c (ss_slot sm) k sm der.
Proof.
  intros Hc Hk. pose proof (cf_submodule_index c k sm Hc Hk) as Hi.
  destruct (cf_index_of_entry c _ k Hc Hi) as (sm' & der & He). exists der.
  pose proof He as (_ & Hs & _). rewrite Hk in Hs. by injection Hs as <-.
Qed.

Lemma addr_entry_spec {E} c k sm der dir base :
  cf_entry c (ss_slot sm) k sm der → dir ≠ DrInputOutput →
  0 ≤ base → base + packed_octets (declared dir sm) 0 < 4294967296 →
  addr_entry (E := E) c (ss_slot sm) dir (packed_octets (declared dir sm) 0) base =
    Ok (tiled dir [sm] base, base + packed_octets (declared dir sm) 0).
Proof.
  intros He Hd Hb Hu. pose proof (packed_octets_nonneg (declared dir sm) 0 ltac:(lia)) as Hp.
  pose proof (packed_octets_pos (declared dir sm) 0 ltac:(lia)) as Hz.
  unfold addr_entry. cbn [tiled]. rewrite app_nil_r. case_decide as H0.
  { apply Hz in H0 as [-> _]. cbn. by rewrite Z.add_0_r. }
  rewrite (cf_fields_entry c _ k sm der dir He). cbn [obind].
  destruct (is_nil (declared dir sm)) eqn:Hn.
  { apply is_nil_spec in Hn. rewrite Hn in H0. done. }
  cbn [fmap option_fmap option_map from_option id].
  rewrite (placed_length c _ k sm der dir He).
  unfold wrap32. rewrite !(Z.mod_small (packed_octets _ _)), !(Z.mod_small (base + _)) by lia.
  rewrite Z.mod_small by lia. done.
Qed.

Lemma tiled_cons dir s subs base :
  tiled dir (s :: subs) base = tiled dir [s] base ++ tiled dir subs (base + packed_octets (declared dir s) 0).
Proof. cbn [tiled]. by rewrite app_nil_r. Qed.

Lemma filter_tiled d dir s base :
  List.filter (of_dir d) (tiled dir [s] base) = if decide (d = dir) then tiled dir [s] base else [].
Proof.
  cbn [tiled]. rewrite app_nil_r. destruct (is_nil (declared dir s)); cbn [List.filter].
  - by case_decide.
  - unfold of_dir. cbn [al_dir]. case_bool_decide; case_decide; congruence.
Qed.

Lemma tiled_dirs dir s base :
  dir ≠ DrInputOutput → Forall (λ l, al_dir l ≠ DrInputOutput) (tiled dir [s] base).
Proof. intros Hd. cbn [tiled]. rewrite app_nil_r. case_match; by repeat constructor. Qed.

Definition octets_of (dir : Direction) (subs : list SubmoduleSpec) : Z :=
  foldr Z.add 0 ((λ s, packed_octets (declared dir s) 0) <$> subs).

Lemma octets_of_nonneg dir subs : 0 ≤ octets_of dir subs.
Proof.
  unfold octets_of. induction subs as [|s subs IH]; cbn; [done|].
  pose proof (packed_octets_nonneg (declared dir s) 0). lia.
Qed.

Lemma addr_lines_spec {E} c : cf_ok c → ∀ subs k ib qb,
  (∀ i s, subs !! i = Some s → cf_submodules c !! (k + i)%nat = Some s) →
  0 ≤ ib → ib + octets_of DrInput subs < 4294967296 →
  0 ≤ qb → qb + octets_of DrOutput subs < 4294967296 →
  ∃ lines, addr_lines (E := E) c subs ib qb = Ok lines ∧
    List.filter (of_dir DrInput) lines = tiled DrInput subs ib ∧
    List.filter (of_dir DrOutput) lines = tiled DrOutput subs qb ∧
    Forall (λ l, al_dir l ≠ DrInputOutput) lines.
Proof.
  intros Hc. induction subs as [|s subs IH]; intros k ib qb Hs Hi Hi' Hq Hq'; [by exists []|].
  pose proof (Hs 0%nat s eq_refl) as Hk. rewrite Nat.add_0_r in Hk.
  destruct (cf_entry_of c k s Hc Hk) as [der He].
  pose proof He as (Hidx & _ & Hd & _ & _ & (Hil & _ & _ & Hol & _)).
  unfold octets_of in Hi', Hq'. cbn [fmap list_fmap foldr] in Hi', Hq'.
  fold (octets_of DrInput subs) in Hi'. fold (octets_of DrOutput subs) in Hq'.
  pose proof (octets_of_nonneg DrInput subs). pose proof (octets_of_nonneg DrOutput subs).
  pose proof (packed_octets_nonneg (declared DrInput s) 0 ltac:(lia)).
  pose proof (packed_octets_nonneg (declared DrOutput s) 0 ltac:(lia)).
  cbn [addr_lines]. unfold cf_input_len, cf_output_len, idx. rewrite Hidx, Hd. cbn [obind from_option id].
  rewrite Hil, Hol.
  change (ss_inputs s) with (declared DrInput s). change (ss_outputs s) with (declared DrOutput s).
  rewrite (addr_entry_spec c k s der DrInput ib He) by (done || lia). cbn [obind].
  rewrite (addr_entry_spec c k s der DrOutput qb He) by (done || lia). cbn [obind].
  destruct (IH (S k) (ib + packed_octets (declared DrInput s) 0) (qb + packed_octets (declared DrOutput s) 0))
    as (lines & -> & Hfi & Hfo & Hdir); [|lia..|].
  { intros i t Ht. rewrite Nat.add_succ_comm. by apply Hs. }
  cbn [obind]. eexists. split; [done|].
  rewrite !List.filter_app, !filter_tiled, Hfi, Hfo, !(tiled_cons _ s subs). dec.
  split_and!; [done|done|]. rewrite !Forall_app. by split_and!; [apply tiled_dirs..|].
Qed.

Lemma octets_of_sum l :
  octets_of DrInput l ≤ sum_octets DirInput l ∧ octets_of DrOutput l ≤ sum_octets DirOutput l.
Proof.
  assert (∀ s, packed_octets (declared DrInput s) 0 ≤ cr_octets DirInput s ∧
               packed_octets (declared DrOutput s) 0 ≤ cr_octets DirOutput s) as Hs.
  { intros s. unfold cr_octets. cbn [declared].
    destruct (ss_inputs s), (ss_outputs s); cbn [is_nil]; change (packed_octets [] 0) with 0; lia. }
  unfold octets_of, sum_octets. induction l as [|s l [IH1 IH2]]; [done|].
  cbn [fmap list_fmap foldr]. specialize (Hs s). split; apply Z.add_le_mono; tauto.
Qed.

Lemma address_map_ok {E} b c :
  Forall sane_submodule (bd_submodules b) → build b = Ok c →
  ∃ lines, address_map (E := E) c = Ok lines ∧
    List.filter (of_dir DrInput) lines = tiled DrInput (cf_submodules c) 0 ∧
    List.filter (of_dir DrOutput) lines = tiled DrOutput (cf_submodules c) 0 ∧
    Forall (λ l, al_dir l ≠ DrInputOutput) lines.
Proof.
  intros Hs Hb. pose proof (build_ok b c Hs Hb) as Hc. destruct (build_cases b Hs) as (_ & Hacc & Hbt).
  destruct (Hbt c Hb) as [_ Hperm _ _ _ _ _].
  assert (acceptable b) as [_ _ _ _ _ _ _ Hin Hout] by (apply Hacc; by rewrite Hb).
  rewrite <-(cr_budget_perm DirInput _ _ Hperm) in Hin.
  rewrite <-(cr_budget_perm DirOutput _ _ Hperm) in Hout. unfold cr_budget, MAX_SUBMODULE_BYTES in *.
  destruct (octets_of_sum (cf_submodules c)).
  apply (addr_lines_spec c Hc _ 0); [done|lia..].
Qed.

(** The address map printed for a configuration is the packing a
    controller uses.  For every configuration that was built, the lines of each
    direction are exactly the submodules with data in it, in slot order, each
    with the number of its fields and octets, laid end to end from 0 without
    gaps or overlaps; the 32-bit sums never wrap. *)
Theorem address_map_tiles {E} b c :
  Forall sane_submodule (bd_submodules b) → build b = Ok c →
  ∃ lines, address_map (E := E) c = Ok lines ∧
    List.filter (of_dir DrInput) lines = tiled DrInput (cf_submodules c) 0 ∧
    List.filter (of_dir DrOutput) lines = tiled DrOutput (cf_submodules c) 0 ∧
    Forall (λ l, al_dir l ≠ DrInputOutput) lines.
Proof. apply address_map_ok. Qed.

Lemma address_map_tiles_witness :
  ∃ lines, address_map (E := unit) sample_config = Ok lines ∧
    List.filter (of_dir DrInput) lines = tiled DrInput (cf_submodules sample_config) 0.
Proof.
  destruct (address_map_tiles (E := unit) sample_builder sample_config sample_builder_sane)
    as (lines & H & Hi & _); [vm_compute; reflexivity|]. by exists lines.
Defined.

(** ** The sample configurations build *)

Definition gen_builder (a : GenArgs) : DeviceConfigBuilder :=
  bd_set_im0 (sample_slots (bd_set_interval (bd_identity
    (bd_set_station_type (builder (ga_station a)) (ascii_bytes "pnio sample device"))
    (ga_vendor_id a) (ga_device_id a)) (ga_interval a))) sample_im0.

Lemma gen_builder_sane a : Forall sane_submodule (bd_submodules (gen_builder a)).
Proof. cbn. repeat constructor; by_decide. Qed.

Lemma gen_builder_acceptable a :
  acceptable (gen_builder a) ↔
  is_Some (normalize_station_name (ga_station a)) ∧ (ga_interval a = 16 ∨ ga_interval a = 32) ∧
  ga_vendor_id a ≠ 0.
Proof.
  split; [intros [? ? ? _ _ _ _ _ _]; by split_and!|]. intros (Hn & Hi & Hv).
  split; cbn [gen_builder bd_set_im0 sample_slots]; [done|done|done|done|done| |by_decide|by_decide|by_decide].
  repeat (apply List.Forall_cons; [split_and!; [done|by intros []|vm_compute; discriminate..]|]). done.
Qed.

(** [gen_gsdml] writes its file and prints its map exactly for the station
    names, intervals and vendors a device can have; for every other command
    line, and when the file cannot be written, it panics. *)
Lemma gen_main_total {X} a write :
  match gen_main (X := X) a write with
  | Ok ((path, text), out) =>
    write = true ∧ acceptable (gen_builder a) ∧ path = path_join (ga_out a) (file_name gen_meta)
  | Err _ => False
  | Panic => write = false ∨ ¬ acceptable (gen_builder a)
  end.
Proof.
  destruct (build_cases (gen_builder a) (gen_builder_sane a)) as (Hp & Hacc & Hb).
  unfold gen_main, gen_sample_config. fold (gen_builder a).
  destruct (build (gen_builder a)) as [c|e|] eqn:Hbuild; cbn [expect_Ok obind]; [|..|done].
  2:{ right. rewrite <-Hacc. done. }
  destruct (render_built (E := X) _ c gen_meta (gen_builder_sane a) Hbuild) as [text ->].
  cbn [obind]. destruct write; cbn [negb]; [|by left].
  destruct (address_map_ok (E := X) _ c (gen_builder_sane a) Hbuild) as (lines & -> & _).
  cbn [obind]. split_and!; [done|by apply Hacc|done].
Qed.

(** ** The histogram file reads back *)

Lemma hist_lines_spec {X} a b c n : ∀ i,
  length (hs_bins a) = (i + n)%nat → length (hs_bins b) = (i + n)%nat → length (hs_bins c) = (i + n)%nat →
  ∃ lines, hist_lines (X := X) a b c i n = Ok (csv_line <$> lines) ∧ length lines = n ∧
    ∀ j l, lines !! j = Some l → ∃ x y z, hs_bins a !! (i + j)%nat = Some x ∧
      hs_bins b !! (i + j)%nat = Some y ∧ hs_bins c !! (i + j)%nat = Some z ∧
      l = [nat_decimal (i + j); decimal x; decimal y; decimal z].
Proof.
  induction n as [|n IH]; intros i Ha Hb Hc; [by exists []|]. cbn [hist_lines].
  destruct (lookup_lt_is_Some_2 (hs_bins a) i) as [x Hx]; [lia|].
  destruct (lookup_lt_is_Some_2 (hs_bins b) i) as [y Hy]; [lia|].
  destruct (lookup_lt_is_Some_2 (hs_bins c) i) as [z Hz]; [lia|].
  unfold idx. rewrite Hx, Hy, Hz. cbn [obind].
  destruct (IH (S i)) as (lines & -> & Hl & Hr); [lia..|]. cbn [obind].
  exists ([nat_decimal i; decimal x; decimal y; decimal z] :: lines). split_and!; [done|cbn; lia|].
  intros [|j] l; cbn.
  - intros [= <-]. exists x, y, z. by rewrite Nat.add_0_r.
  - intros Hj. destruct (Hr j l Hj) as (x' & y' & z' & H). exists x', y', z'.
    by rewrite <-Nat.add_succ_comm.
Qed.

Lemma write_lines_ok {X} (lines : list (list Z)) : ∀ i,
  write_lines (X := X) (λ _, Ok tt) i lines = (concat lines, Ok tt).
Proof. induction lines as [|l lines IH]; intros i; cbn; [done|]. by rewrite IH. Qed.

Lemma split_lines rows :
  Forall (λ l, 10 ∉ l) rows → split_on 10 (concat ((λ l, l ++ [10]) <$> rows)) = rows ++ [[]].
Proof.
  induction 1 as [|l rows Hl Hr IH]; [done|]. cbn [fmap list_fmap concat].
  rewrite <-app_assoc. cbn [app]. rewrite split_on_app by done. by rewrite IH.
Qed.

Lemma joined_free c d l : Forall (λ s, d ∉ s) l → d ≠ c → d ∉ joined c l.
Proof.
  intros H Hd. induction H as [|s l Hs Hl IH]; [apply not_elem_of_nil|]. destruct l as [|t l]; [done|].
  change (joined c (s :: t :: l)) with (s ++ c :: joined c (t :: l)).
  rewrite elem_of_app, elem_of_cons. naive_solver.
Qed.

(** When no write fails, the file holds the header and one line per bin, and
    reading a line gives the bin and its three counts. *)
Lemma hist_csv_roundtrip {X} stats :
  let bins h := hi_bins (h stats) in
  length (bins rs_tick_lateness) = HIST_BINS → length (bins rs_cycle_work) = HIST_BINS →
  length (bins rs_rx_interval) = HIST_BINS →
  ∃ text, write_hist_csv (X := X) (Ok tt) (λ _, Ok tt) stats = Ok (text, Ok tt) ∧
    length (split_on 10 text) = (HIST_BINS + 2)%nat ∧
    ∀ i, (i < HIST_BINS)%nat → ∃ line x y z, split_on 10 text !! S i = Some line ∧
      bins rs_tick_lateness !! i = Some x ∧ bins rs_cycle_work !! i = Some y ∧
      bins rs_rx_interval !! i = Some z ∧
      split_on 44 line = [nat_decimal i; decimal x; decimal y; decimal z].
Proof.
  intros bins Ha Hb Hc. unfold write_hist_csv. cbn [obind].
  destruct (hist_lines_spec (X := X) (hist_snapshot (rs_tick_lateness stats))
    (hist_snapshot (rs_cycle_work stats)) (hist_snapshot (rs_rx_interval stats)) HIST_BINS 0 Ha Hb Hc)
    as (lines & -> & Hl & Hr). cbn [obind]. rewrite write_lines_ok. eexists. split; [done|].
  set (hdr := ascii_bytes <$> ["bin_us"; "tick_lateness"; "cycle_work"; "rx_interval"]%string).
  assert (Forall (Forall (λ s, ¬ (10 ∈ s ∨ 44 ∈ s))) lines) as Hfree.
  { apply Forall_lookup. intros j l Hj. destruct (Hr j l Hj) as (x & y & z & _ & _ & _ & ->).
    assert (∀ n, ¬ (10 ∈ decimal n ∨ 44 ∈ decimal n)).
    { intros n. destruct (decimal_digits n) as [Hd _].
      pose proof (digits_free _ 10 Hd ltac:(unfold digit; lia)).
      pose proof (digits_free _ 44 Hd ltac:(unfold digit; lia)). tauto. }
    repeat (apply List.Forall_cons; [by apply H|]). apply List.Forall_nil. }
  assert (split_on 10 (concat (csv_line hdr :: (csv_line <$> lines))) =
          (joined 44 <$> (hdr :: lines)) ++ [[]]) as Hsplit.
  { change (csv_line hdr :: (csv_line <$> lines)) with (csv_line <$> (hdr :: lines)).
    rewrite <-split_lines, <-list_fmap_compose; [done|]. apply Forall_fmap. constructor.
    - unfold compose. by_decide.
    - eapply list.Forall_impl; [exact Hfree|]. intros l H. apply joined_free; [|done].
      eapply list.Forall_impl; [exact H|]. intros s Hs Hin. apply Hs. by left. }
  rewrite Hsplit. split; [rewrite length_app, length_fmap; cbn [length]; lia|]. intros i Hi.
  destruct (lookup_lt_is_Some_2 lines i) as [l Hli]; [lia|].
  destruct (Hr i l Hli) as (x & y & z & Hx & Hy & Hz & El). exists (joined 44 l), x, y, z.
  split_and!; [|done..|].
  - rewrite lookup_app_l by (rewrite length_fmap; cbn; lia). rewrite list_lookup_fmap.
    change ((hdr :: lines) !! S i) with (lines !! i). by rewrite Hli.
  - rewrite split_joined; [by subst l|by subst l|]. eapply Forall_lookup_1 in Hfree; [|done].
    eapply list.Forall_impl; [exact Hfree|]. intros s Hs Hin. apply Hs. by right.
Qed.
