(* ===== verification/TextIds.v ===== *)
(** * The text identifiers of the description file (gsdml.rs)

    Every name and comment of the description file is a text of its own,
    referred to by an identifier made of the slot, the direction and the index
    of what it names.  Two elements with the same identifier would show the
    wrong text, and a file that defines one twice is not valid.  This file
    shows that the identifiers of a rendered file are exactly one per element,
    and no two of them equal. *)

From Stdlib Require Import ZArith Lia.
From stdpp Require Import base numbers list option strings.
From S2P Require Import Prelude Eth Rpc Block Connect Records Diag Data Layout Config Text Gsdml Api Cli.
Local Open Scope Z_scope.

(** ** Identifiers *)

(** The elements of a direction that have a text: a scalar item, a group of
    bits and each bit of a group, by the index of the field. *)
Inductive FieldText := TxScalar (i : nat) | TxBits (i : nat) | TxBit (i : nat).

Definition text_index (k : FieldText) : nat :=
  match k with TxScalar i | TxBits i | TxBit i => i end.
Definition text_tail (k : FieldText) : list Z :=
  match k with TxScalar _ => [] | TxBits _ => lit "_bits" | TxBit _ => lit "_b" end.
Definition field_suffix (k : FieldText) : list Z := nat_decimal (text_index k) ++ text_tail k.

Definition item_texts (it : Item) : list FieldText :=
  match it with
  | ItScalar _ i => [TxScalar i]
  | ItBits g => TxBits (default 0%nat (fst <$> head g)) :: (TxBit ∘ fst <$> g)
  end.

(** The identifiers of a module: its name, its comment, its fields. *)
Definition module_suffixes (der : Derived) : list (list Z) :=
  [lit "Name"; lit "Info"] ++
  ((λ k, lit "In" ++ field_suffix k) <$> (items (de_inputs der) ≫= item_texts)) ++
  ((λ k, lit "Out" ++ field_suffix k) <$> (items (de_outputs der) ≫= item_texts)).
Definition module_id (slot : Z) (suffix : list Z) : list Z :=
  lit "M" ++ decimal slot ++ lit "_" ++ suffix.
Definition module_ids (x : SubmoduleSpec * Derived) : list (list Z) :=
  module_id (ss_slot x.1) <$> module_suffixes x.2.

(** ** They are different *)

Definition stops (t : list Z) : Prop := match t with [] => True | c :: _ => ¬ digit c end.

Lemma digits_stop a b ta tb :
  Forall digit a → Forall digit b → stops ta → stops tb → a ++ ta = b ++ tb → a = b ∧ ta = tb.
Proof.
  intros Ha. revert b. induction Ha as [|c a Hc Ha IH]; intros b Hb Hta Htb He.
  - destruct Hb as [|d b Hd]; [done|]. cbn in He. subst ta. done.
  - destruct Hb as [|d b Hd Hb]; [cbn in He; subst tb; done|].
    injection He as -> He. by destruct (IH b Hb Hta Htb He) as [-> ->].
Qed.

Lemma decimal_inj n m : 0 ≤ n → 0 ≤ m → decimal n = decimal m → n = m.
Proof.
  intros Hn Hm He. pose proof (parse_uint_decimal (Z.max n m) n ltac:(lia)) as H1.
  pose proof (parse_uint_decimal (Z.max n m) m ltac:(lia)) as H2. rewrite He in H1. congruence.
Qed.

Lemma tail_stops k : stops (text_tail k).
Proof. destruct k; cbn; [done|by_decide..]. Qed.

#[global] Instance field_suffix_inj : Inj (=) (=) field_suffix.
Proof.
  intros k k' He. destruct (decimal_digits (Z.of_nat (text_index k))) as [Hd _].
  destruct (decimal_digits (Z.of_nat (text_index k'))) as [Hd' _].
  destruct (digits_stop _ _ _ _ Hd Hd' (tail_stops k) (tail_stops k') He) as [Hi Ht].
  apply decimal_inj in Hi; [|lia..]. destruct k, k'; cbn in *; try discriminate; f_equal; lia.
Qed.

Lemma module_id_inj slot slot' t t' :
  0 ≤ slot → 0 ≤ slot' → module_id slot t = module_id slot' t' → slot = slot' ∧ t = t'.
Proof.
  intros Hs Hs' He. unfold module_id in He. apply app_inv_head in He.
  destruct (digits_stop (decimal slot) (decimal slot') (lit "_" ++ t) (lit "_" ++ t')) as [Hd Ht];
    [apply decimal_digits..|by_decide|by_decide|done|].
  apply decimal_inj in Hd; [|done..]. by apply app_inv_head in Ht.
Qed.

(** The fields of a table give texts of increasing index. *)
Lemma group_indices (g : list (nat * FieldRef)) i (P : nat → FieldRef) :
  (∀ k p, g !! k = Some p → p = ((i + k)%nat, P k)) → fst <$> g = seq i (length g).
Proof.
  intros H. apply list_eq. intros k. rewrite list_lookup_fmap. destruct (g !! k) as [p|] eqn:Hk; cbn.
  - rewrite (H k p Hk). symmetry. apply lookup_seq. split; [done|]. by apply lookup_lt_Some in Hk.
  - symmetry. apply lookup_ge_None. rewrite length_seq. by apply lookup_ge_None.
Qed.

Lemma bits_texts g i :
  fst <$> g = seq i (length g) → g ≠ [] →
  item_texts (ItBits g) = TxBits i :: (TxBit <$> seq i (length g)).
Proof.
  intros Hg Hne. cbn [item_texts]. rewrite list_fmap_compose, Hg. f_equal.
  destruct g as [|p g]; [done|]. injection Hg as Hp _. cbn. by rewrite Hp.
Qed.

Lemma spans_texts refs its : ∀ o i o' i',
  spans refs o i its o' i' →
  NoDup (its ≫= item_texts) ∧ Forall (λ k, i ≤ text_index k)%nat (its ≫= item_texts).
Proof.
  induction its as [|[ty j|g] its IH]; intros o i o' i' Hs; [by split; constructor|..].
  - destruct Hs as (-> & _ & _ & Hs). destruct (IH _ _ _ _ Hs) as [Hn Hge]. rewrite bind_cons. cbn [item_texts].
    split; [|constructor; [cbn; lia|]; eapply Forall_weaken; [exact Hge|]; cbn; lia].
    cbn [app]. apply list.NoDup_cons. split; [|done]. intros Hin. rewrite list.Forall_forall in Hge.
    specialize (Hge _ Hin). cbn in Hge. lia.
  - destruct Hs as (Hl & Hg & Hs). destruct (IH _ _ _ _ Hs) as [Hn Hge]. rewrite bind_cons.
    rewrite (bits_texts g i); [|apply (group_indices g i (λ k, {| fr_byte := o; fr_bit := Z.of_nat k; fr_ty := FtBool |}));
      intros k p Hk; by apply Hg|by destruct g; cbn in Hl; [lia|]].
    rewrite list.Forall_forall in Hge. split.
    + apply list.NoDup_app. split_and!; [|intros k Hk Hin; specialize (Hge _ Hin)|done].
      * apply list.NoDup_cons. split; [by intros (? & ? & _)%list_elem_of_fmap|].
        apply NoDup_fmap_2; [by intros ? ? [= ->]|apply NoDup_seq].
      * apply elem_of_cons in Hk as [->|(x & -> & Hx)%list_elem_of_fmap]; cbn in Hge; [lia|].
        apply elem_of_seq in Hx. lia.
    + apply Forall_app. split; [|apply list.Forall_forall; intros k Hk; specialize (Hge k Hk); lia].
      constructor; [cbn; lia|]. apply list.Forall_forall. intros k (x & -> & Hx)%list_elem_of_fmap.
      apply elem_of_seq in Hx. cbn. lia.
Qed.

Lemma suffixes_NoDup der oi ii oo io :
  spans (de_inputs der) 0 0 (items (de_inputs der)) oi ii →
  spans (de_outputs der) 0 0 (items (de_outputs der)) oo io → NoDup (module_suffixes der).
Proof.
  intros Hi Ho. destruct (spans_texts _ _ _ _ _ _ Hi) as [Ni _]. destruct (spans_texts _ _ _ _ _ _ Ho) as [No _].
  assert (∀ p, Inj (=) (=) (λ k, p ++ field_suffix k)) as Hinj
    by (intros p k k' He%app_inv_head; by apply field_suffix_inj).
  assert (∀ k t, lit "Info" ≠ lit "In" ++ field_suffix k ++ t) as Hinfo.
  { intros k t He. change (lit "Info") with (lit "In" ++ lit "fo") in He. apply app_inv_head in He.
    unfold field_suffix, nat_decimal in He. destruct (decimal_digits (Z.of_nat (text_index k))) as [Hd Hne].
    destruct (decimal _) as [|c l]; [done|]. apply Forall_cons_1 in Hd as [Hd _]. injection He as Hc _.
    revert Hd. rewrite <-Hc. by_decide. }
  unfold module_suffixes. apply list.NoDup_app. split_and!.
  - by_decide.
  - intros t [->|[->|[]%not_elem_of_nil]%elem_of_cons]%elem_of_cons [Hin|Hin]%elem_of_app;
      apply list_elem_of_fmap in Hin as (k & He & _); try discriminate.
    apply (Hinfo k []). by rewrite app_nil_r.
  - apply list.NoDup_app. split_and!; [by apply NoDup_fmap_2| |by apply NoDup_fmap_2].
    intros t (k & -> & _)%list_elem_of_fmap (k' & He & _)%list_elem_of_fmap. discriminate.
Qed.

(** ** The rendered texts *)

Lemma parts_ids {E A} (f : A → outcome E Part) (g : A → list (list Z)) l : ∀ p,
  parts f l = Ok p → (∀ a q, a ∈ l → f a = Ok q → fst <$> q.2 = g a) → fst <$> p.2 = l ≫= g.
Proof.
  induction l as [|a l IH]; intros p Hp Hg; cbn [parts] in Hp; [by injection Hp as <-|].
  apply obind_Ok in Hp as (x & Hx & Hp). apply obind_Ok in Hp as (y & Hy & [= <-]). cbn.
  rewrite fmap_app, (Hg a x); [|by left|done]. f_equal. apply IH; [done|].
  intros b q Hb. apply Hg. by right.
Qed.

Definition dir_id (slot : Z) (prefix : list Z) (k : FieldText) : list Z :=
  module_id slot (prefix ++ field_suffix k).

Lemma item_part_ids {E} slot prefix it p :
  item_part (E := E) (decimal slot) prefix it = Ok p → fst <$> p.2 = dir_id slot prefix <$> item_texts it.
Proof.
  destruct it as [ty i|g]; cbn [item_part].
  - intros [= <-]. cbn. unfold dir_id, module_id, field_suffix. cbn. by rewrite app_nil_r.
  - destruct g as [|[i f] g]; cbn [idx lookup list_lookup obind fst]; [done|].
    destruct (list.last _) as [final|]; [|done]. intros [= <-].
    assert (∀ l, fst <$> (foldr (λ p q, part_app (bit_part (decimal slot) prefix p) q) ([], []) l).2
            = dir_id slot prefix <$> (TxBit ∘ fst <$> l)) as Hl.
    { induction l as [|[j h] l IH]; [done|]. cbn [foldr]. unfold part_app at 1. cbn [snd bit_part app].
      rewrite !fmap_cons, IH. done. }
    cbn [fmap list_fmap fst snd]. by rewrite Hl.
Qed.

Lemma fmap_of_bind {A B C} (f : B → C) (g : A → list B) l : f <$> (l ≫= g) = l ≫= (λ x, f <$> g x).
Proof. induction l as [|x l IH]; [done|]. by rewrite !bind_cons, fmap_app, IH. Qed.

Definition table (dir : Direction) (der : Derived) : list FieldRef :=
  match dir with DrInput => de_inputs der | DrOutput => de_outputs der | DrInputOutput => [] end.

Lemma direction_part_ids {E} c sm k der dir tag prefix p :
  cf_index_of c (ss_slot sm) = Some k → cf_derived c !! k = Some der →
  direction_part (E := E) c sm (dir, tag, prefix) = Ok p →
  fst <$> p.2 = dir_id (ss_slot sm) prefix <$> (items (table dir der) ≫= item_texts).
Proof.
  intros Hk Hd. unfold direction_part, cf_fields. rewrite Hk, (proj2 (idx_Ok _ _ _) Hd). cbn [obind].
  assert (∀ fields q, (let! body := parts (item_part (decimal (ss_slot sm)) prefix) (items fields) in
      Ok (E := E) (lit "                <" ++ tag ++ lit " Consistency='All items consistency'>" ++ newline ++
        body.1 ++ lit "                </" ++ tag ++ lit ">" ++ newline, body.2)) = Ok q →
    fst <$> q.2 = dir_id (ss_slot sm) prefix <$> (items fields ≫= item_texts)) as Hbody.
  { intros fields q Hq. apply obind_Ok in Hq as (body & Hb & [= <-]). cbn [snd].
    rewrite (parts_ids _ (λ it, dir_id (ss_slot sm) prefix <$> item_texts it) _ _ Hb); [by rewrite fmap_of_bind|].
    intros it x _. apply item_part_ids. }
  destruct dir; cbn [table].
  - destruct (is_nil (de_inputs der)) eqn:Hn; [|apply Hbody]. apply is_nil_spec in Hn. rewrite Hn. by intros [= <-].
  - destruct (is_nil (de_outputs der)) eqn:Hn; [|apply Hbody]. apply is_nil_spec in Hn. rewrite Hn. by intros [= <-].
  - by intros [= <-].
Qed.

Lemma module_part_ids {E} c identity sm k der p :
  cf_index_of c (ss_slot sm) = Some k → cf_derived c !! k = Some der →
  module_part (E := E) c identity sm = Ok p → fst <$> p.2 = module_ids (sm, der).
Proof.
  intros Hk Hd. unfold module_part. intros Hp.
  apply obind_Ok in Hp as (i & _ & Hp). apply obind_Ok in Hp as (o & _ & Hp).
  apply obind_Ok in Hp as (body & Hb & [= <-]). cbn [snd]. cbn [parts] in Hb.
  apply obind_Ok in Hb as (x & Hx & Hb). apply obind_Ok in Hb as (y & Hy & [= <-]).
  apply obind_Ok in Hy as (z & Hz & [= <-]).
  apply (direction_part_ids _ _ _ _ _ _ _ _ Hk Hd) in Hx, Hz. cbn [table] in Hx, Hz.
  cbn [part_app snd fst]. rewrite !fmap_cons, app_nil_r, fmap_app, Hx, Hz.
  unfold module_ids, module_suffixes. rewrite !fmap_app, !fmap_cons. cbn [fst snd fmap list_fmap app].
  do 3 f_equal; by rewrite <-list_fmap_compose.
Qed.

(** *** The whole file *)

Lemma module_ids_NoDup l ds :
  Forall2 (λ sm d, ∃ oi ii oo io,
    spans (de_inputs d) 0 0 (items (de_inputs d)) oi ii ∧
    spans (de_outputs d) 0 0 (items (de_outputs d)) oo io) l ds →
  Forall (λ s, 0 < ss_slot s) l → NoDup (ss_slot <$> l) → NoDup (zip l ds ≫= module_ids).
Proof.
  induction 1 as [|sm d l ds (oi & ii & oo & io & Hi & Ho) _ IH]; intros Hpos Hn; [constructor|].
  apply Forall_cons_1 in Hpos as [Hp Hpos]. rewrite fmap_cons in Hn. apply list.NoDup_cons in Hn as [Hnot Hn].
  cbn [zip zip_with]. rewrite bind_cons. apply list.NoDup_app. split_and!; [|intros t Hin Hin'|by apply IH].
  - unfold module_ids. cbn [fst snd]. apply NoDup_fmap_2_strong; [|by eapply suffixes_NoDup].
    intros t t' _ _ He. apply module_id_inj in He as [_ ?]; [done|lia..].
  - apply list_elem_of_fmap in Hin as (u & -> & _). apply list_elem_of_bind in Hin' as ([sm' d'] & Hin' & Hz).
    apply list_elem_of_fmap in Hin' as (u' & He & _). cbn [fst] in He.
    apply elem_of_zip_l in Hz. rewrite list.Forall_forall in Hpos. specialize (Hpos _ Hz).
    apply module_id_inj in He as [He _]; [|lia..]. apply Hnot. rewrite He. by apply list_elem_of_fmap_2.
Qed.

Lemma modules_ids {E} c p :
  cf_ok c → parts (E := E) (module_part c (module_identity_xml c)) (cf_submodules c) = Ok p →
  fst <$> p.2 = zip (cf_submodules c) (cf_derived c) ≫= module_ids.
Proof.
  intros Hc Hp. pose proof (list.Forall2_length _ _ _ (ck_derived c Hc)) as Hlen.
  rewrite <-(fst_zip (cf_submodules c) (cf_derived c)) in Hp by lia.
  assert (∀ l q, l ⊆ zip (cf_submodules c) (cf_derived c) →
    parts (E := E) (module_part c (module_identity_xml c)) (fst <$> l) = Ok q →
    fst <$> q.2 = l ≫= module_ids) as H; [|by apply H].
  induction l as [|[sm der] l IH]; intros q Hl Hq; [by injection Hq as <-|].
  cbn [fmap list_fmap parts fst] in Hq. apply obind_Ok in Hq as (x & Hx & Hq).
  apply obind_Ok in Hq as (y & Hy & [= <-]). rewrite bind_cons. cbn [part_app snd]. rewrite fmap_app.
  f_equal; [|by apply IH; [intros z Hz; apply Hl; by right|]].
  assert ((sm, der) ∈ zip (cf_submodules c) (cf_derived c)) as Hz by (apply Hl; by left).
  apply list_elem_of_lookup in Hz as [k Hk]. apply lookup_zip_Some in Hk as [Hsm Hd].
  apply (module_part_ids (E := E) c (module_identity_xml c) sm k der x); [|done|done].
  by apply cf_submodule_index.
Qed.

Lemma cut_texts {E} (a b c d e t f : list Z) :
  ∃ before after, Ok (E := E) (a ++ b ++ c ++ d ++ e ++ t ++ f) = Ok (before ++ t ++ after).
Proof. exists (a ++ b ++ c ++ d ++ e), f. by rewrite <-!app_assoc. Qed.

(** C28: the description file names every element once.  For every
    configuration that was built, the texts at the end of the rendered file have
    exactly these identifiers: the five of the device access point, and for each
    module its name, its comment and one for each scalar item, each bit group
    and each bit of its input and output lists; and no two of all these
    identifiers are equal. *)
Theorem text_ids_unique b c meta :
  Forall sane_submodule (bd_submodules b) → build b = Ok c → wf_builder_ids c →
  ∃ texts,
    (∃ before after, render (E := Empty_set) c meta = Ok (before ++ (texts ≫= text_xml) ++ after)) ∧
    fst <$> texts = (fst <$> dap_texts meta) ++ (zip (cf_submodules c) (cf_derived c) ≫= module_ids) ∧
    NoDup (fst <$> texts).
Proof.
  intros Hs Hb Hids. destruct (render_built (E := Empty_set) b c meta Hs Hb) as [x Hx].
  assert (cf_ok c) as Hc by by eapply build_ok. pose proof (build_spans b c Hs Hb) as Hsp.
  unfold render in *. apply obind_Ok in Hx as (p & Hp & _). rewrite Hp. cbn [obind].
  pose proof (modules_ids c p Hc Hp) as Hm.
  exists (dap_texts meta ++ p.2). split; [apply cut_texts|].
  assert (fst <$> (dap_texts meta ++ p.2) =
          (fst <$> dap_texts meta) ++ (zip (cf_submodules c) (cf_derived c) ≫= module_ids)) as Hids'
    by by rewrite fmap_app, Hm.
  split; [done|]. rewrite Hids'. apply list.NoDup_app. split_and!.
  - by_decide.
  - intros t Ht (y & (u & -> & _)%list_elem_of_fmap & _)%list_elem_of_bind.
    unfold module_id in Ht. cbn in Ht. repeat apply elem_of_cons in Ht as [Ht|Ht]; try discriminate.
    by apply not_elem_of_nil in Ht.
  - apply module_ids_NoDup; [|by apply cf_slots_pos|apply sorted_NoDup, Hc].
    eapply list.Forall2_impl; [exact Hsp|]. intros sm d [? ?]. by do 4 eexists.
Qed.

Lemma text_ids_unique_witness :
  ∃ texts,
    (∃ before after,
       render (E := Empty_set) sample_config sample_meta = Ok (before ++ (texts ≫= text_xml) ++ after)) ∧
    length texts = 34%nat ∧ NoDup (fst <$> texts).
Proof.
  destruct (text_ids_unique sample_builder sample_config sample_meta) as (texts & Hr & Hi & Hn).
  - exact sample_builder_sane.
  - reflexivity.
  - by_decide.
  - exists texts. split_and!; [exact Hr| |exact Hn].
    rewrite <-(length_fmap fst texts), Hi. vm_compute. reflexivity.
Defined.
