(* ===== verification/Description.v ===== *)
(** * What an engineering tool reads in the description file (gsdml.rs)

    A reader of GSDML text written without regard to the code that renders it:
    a scanner that cuts the octets into tags and attributes, and an interpreter
    that places the data items of each module's input and output lists one
    after the other, by the size of their declared types.  Reading what
    [render] writes gives back exactly the field tables the device uses. *)

From Stdlib Require Import ZArith Lia.
From stdpp Require Import base numbers list option strings.
From S2P Require Import Prelude Eth Rpc Block Connect Records Diag Data Layout Config Text Gsdml Api Cli TextIds.
Local Open Scope Z_scope.

(** ** The scanner *)

(** Where the scanner is: outside of the tags, in the name of a tag, among its
    attributes, or between the quotes of a value. *)
Inductive Mode := MText | MTag | MAttrs | MValue.
Record Lex := { lx_mode : Mode; lx_tag : list Z; lx_name : list Z; lx_buf : list Z }.
Definition outside : Lex := {| lx_mode := MText; lx_tag := []; lx_name := []; lx_buf := [] |}.

(** What it finds: a tag (a closing one with its slash), an attribute of the
    tag, the end of a tag without content. *)
Inductive Found :=
| FTag (tag : list Z) | FAttr (tag name value : list Z) | FEmpty (tag : list Z).

Definition lex_char (s : Lex) (c : Z) : Lex * option Found :=
  let '{| lx_mode := m; lx_tag := tag; lx_name := name; lx_buf := buf |} := s in
  match m with
  | MText =>
    if decide (c = 60) then ({| lx_mode := MTag; lx_tag := []; lx_name := []; lx_buf := [] |}, None)
    else (s, None)
  | MTag =>
    if decide (c = 62) then (outside, Some (FTag buf))
    else if decide (c = 32 ∨ c = 47 ∧ buf ≠ []) then
      ({| lx_mode := MAttrs; lx_tag := buf; lx_name := []; lx_buf := [] |}, Some (FTag buf))
    else ({| lx_mode := MTag; lx_tag := []; lx_name := []; lx_buf := buf ++ [c] |}, None)
  | MAttrs =>
    if decide (c = 62) then (outside, None)
    else if decide (c = 47) then (s, Some (FEmpty tag))
    else if decide (c = 34) then
      ({| lx_mode := MValue; lx_tag := tag; lx_name := buf; lx_buf := [] |}, None)
    else if decide (c = 32) then
      ({| lx_mode := MAttrs; lx_tag := tag; lx_name := []; lx_buf := [] |}, None)
    else if decide (c = 61) then (s, None)
    else ({| lx_mode := MAttrs; lx_tag := tag; lx_name := []; lx_buf := buf ++ [c] |}, None)
  | MValue =>
    if decide (c = 34) then
      ({| lx_mode := MAttrs; lx_tag := tag; lx_name := []; lx_buf := [] |}, Some (FAttr tag name buf))
    else ({| lx_mode := MValue; lx_tag := tag; lx_name := name; lx_buf := buf ++ [c] |}, None)
  end.

(** ** The interpreter *)

(** What has been read: the lengths of the two CRs, the slots of each module,
    the modules with their tables, and the list being read: the next octet and
    the declared type of the item. *)
Record Reader := {
  rd_max : list Z * list Z;
  rd_target : list Z; rd_slots : list (list Z * list Z);
  rd_modules : list (list Z * list FieldRef * list FieldRef);
  rd_id : list Z; rd_inputs : list FieldRef; rd_outputs : list FieldRef;
  rd_dir : option Direction; rd_off : Z; rd_type : list Z; rd_bits : bool;
  rd_valid : bool
}.
Definition Reader_start : Reader :=
  {| rd_max := ([], []); rd_target := []; rd_slots := []; rd_modules := []; rd_id := [];
     rd_inputs := []; rd_outputs := []; rd_dir := None; rd_off := 0; rd_type := []; rd_bits := false;
     rd_valid := true |}.

(** The types a scalar item can have, with their octets. *)
Definition scalar_type (t : list Z) : option (FieldType * Z) :=
  if decide (t = lit "Integer16") then Some (FtInt, 2)
  else if decide (t = lit "Unsigned16") then Some (FtWord, 2)
  else if decide (t = lit "Integer32") then Some (FtDint, 4)
  else if decide (t = lit "Float32") then Some (FtReal, 4)
  else None.
Definition bit_number (t : list Z) : option Z :=
  match t with [c] => if decide (48 ≤ c < 56) then Some (c - 48) else None | _ => None end.

Definition rd_invalid (r : Reader) : Reader :=
  {| rd_max := rd_max r; rd_target := rd_target r; rd_slots := rd_slots r; rd_modules := rd_modules r;
     rd_id := rd_id r; rd_inputs := rd_inputs r; rd_outputs := rd_outputs r; rd_dir := rd_dir r;
     rd_off := rd_off r; rd_type := rd_type r; rd_bits := rd_bits r; rd_valid := false |}.
Definition rd_list (r : Reader) (dir : option Direction) : Reader :=
  {| rd_max := rd_max r; rd_target := rd_target r; rd_slots := rd_slots r; rd_modules := rd_modules r;
     rd_id := rd_id r; rd_inputs := rd_inputs r; rd_outputs := rd_outputs r; rd_dir := dir;
     rd_off := 0; rd_type := []; rd_bits := false; rd_valid := rd_valid r |}.
Definition rd_item (r : Reader) (type : list Z) (bits : bool) : Reader :=
  {| rd_max := rd_max r; rd_target := rd_target r; rd_slots := rd_slots r; rd_modules := rd_modules r;
     rd_id := rd_id r; rd_inputs := rd_inputs r; rd_outputs := rd_outputs r; rd_dir := rd_dir r;
     rd_off := rd_off r; rd_type := type; rd_bits := bits; rd_valid := rd_valid r |}.
Definition rd_module (r : Reader) (id : list Z) : Reader :=
  {| rd_max := rd_max r; rd_target := rd_target r; rd_slots := rd_slots r; rd_modules := rd_modules r;
     rd_id := id; rd_inputs := []; rd_outputs := []; rd_dir := None;
     rd_off := 0; rd_type := []; rd_bits := false; rd_valid := rd_valid r |}.
Definition rd_module_end (r : Reader) : Reader :=
  {| rd_max := rd_max r; rd_target := rd_target r; rd_slots := rd_slots r;
     rd_modules := rd_modules r ++ [(rd_id r, rd_inputs r, rd_outputs r)];
     rd_id := []; rd_inputs := []; rd_outputs := []; rd_dir := None;
     rd_off := 0; rd_type := []; rd_bits := false; rd_valid := rd_valid r |}.
Definition rd_slot (r : Reader) (target : list Z) (slots : list (list Z * list Z)) : Reader :=
  {| rd_max := rd_max r; rd_target := target; rd_slots := slots; rd_modules := rd_modules r;
     rd_id := rd_id r; rd_inputs := rd_inputs r; rd_outputs := rd_outputs r; rd_dir := rd_dir r;
     rd_off := rd_off r; rd_type := rd_type r; rd_bits := rd_bits r; rd_valid := rd_valid r |}.
Definition rd_lengths (r : Reader) (max : list Z * list Z) : Reader :=
  {| rd_max := max; rd_target := rd_target r; rd_slots := rd_slots r; rd_modules := rd_modules r;
     rd_id := rd_id r; rd_inputs := rd_inputs r; rd_outputs := rd_outputs r; rd_dir := rd_dir r;
     rd_off := rd_off r; rd_type := rd_type r; rd_bits := rd_bits r; rd_valid := rd_valid r |}.

(** One more field at the current octet, of the list being read. *)
Definition rd_field (r : Reader) (f : FieldRef) (next : Z) : Reader :=
  {| rd_max := rd_max r; rd_target := rd_target r; rd_slots := rd_slots r; rd_modules := rd_modules r;
     rd_id := rd_id r;
     rd_inputs := match rd_dir r with Some DrInput => rd_inputs r ++ [f] | _ => rd_inputs r end;
     rd_outputs := match rd_dir r with Some DrOutput => rd_outputs r ++ [f] | _ => rd_outputs r end;
     rd_dir := rd_dir r; rd_off := next; rd_type := rd_type r; rd_bits := rd_bits r;
     rd_valid := rd_valid r |}.

Definition read_tag (r : Reader) (tag : list Z) : Reader :=
  if decide (tag = lit "ModuleItem") then rd_module r []
  else if decide (tag = lit "/ModuleItem") then rd_module_end r
  else if decide (tag = lit "Input") then rd_list r (Some DrInput)
  else if decide (tag = lit "Output") then rd_list r (Some DrOutput)
  else if decide (tag = lit "/Input" ∨ tag = lit "/Output") then rd_list r None
  else if decide (tag = lit "DataItem") then rd_item r [] false
  else if decide (tag = lit "/DataItem") then
    if decide (rd_type r = lit "Unsigned8")
    then {| rd_max := rd_max r; rd_target := rd_target r; rd_slots := rd_slots r; rd_modules := rd_modules r;
            rd_id := rd_id r; rd_inputs := rd_inputs r; rd_outputs := rd_outputs r; rd_dir := rd_dir r;
            rd_off := rd_off r + 1; rd_type := []; rd_bits := false; rd_valid := rd_valid r && rd_bits r |}
    else rd_invalid r
  else r.

Definition read_attr (r : Reader) (tag name value : list Z) : Reader :=
  if decide (tag = lit "ModuleItem" ∧ name = lit "ID") then rd_module r value
  else if decide (tag = lit "ModuleItemRef" ∧ name = lit "ModuleItemTarget") then rd_slot r value (rd_slots r)
  else if decide (tag = lit "ModuleItemRef" ∧ name = lit "AllowedInSlots") then
    rd_slot r [] (rd_slots r ++ [(rd_target r, value)])
  else if decide (tag = lit "IOConfigData" ∧ name = lit "MaxInputLength") then
    rd_lengths r (value, snd (rd_max r))
  else if decide (tag = lit "IOConfigData" ∧ name = lit "MaxOutputLength") then
    rd_lengths r (fst (rd_max r), value)
  else if decide (tag = lit "DataItem" ∧ name = lit "DataType") then rd_item r value (rd_bits r)
  else if decide (tag = lit "DataItem" ∧ name = lit "UseAsBits") then
    rd_item r (rd_type r) (bool_decide (value = lit "true"))
  else if decide (tag = lit "BitDataItem" ∧ name = lit "BitOffset") then
    match bit_number value with
    | Some bit => rd_field r {| fr_byte := rd_off r; fr_bit := bit; fr_ty := FtBool |} (rd_off r)
    | None => rd_invalid r
    end
  else r.

Definition read_empty (r : Reader) (tag : list Z) : Reader :=
  if decide (tag = lit "DataItem") then
    match scalar_type (rd_type r) with
    | Some (ty, size) =>
      rd_item (rd_field r {| fr_byte := rd_off r; fr_bit := 0; fr_ty := ty |} (rd_off r + size)) [] false
    | None => rd_invalid r
    end
  else r.

Definition read_found (r : Reader) (f : Found) : Reader :=
  match f with
  | FTag tag => read_tag r tag
  | FAttr tag name value => read_attr r tag name value
  | FEmpty tag => read_empty r tag
  end.

(** ** Reading a text *)

Definition read_char (s : Lex * Reader) (c : Z) : Lex * Reader :=
  let '(l, f) := lex_char s.1 c in
  (l, match f with Some f => read_found s.2 f | None => s.2 end).
Definition scan (s : Lex * Reader) (t : list Z) : Lex * Reader := foldl read_char s t.

(** What a description file says. *)
Record Description := {
  gd_max_input : list Z; gd_max_output : list Z;
  gd_slots : list (list Z * list Z);
  gd_modules : list (list Z * list FieldRef * list FieldRef)
}.
Definition read_description (text : list Z) : option Description :=
  match scan (outside, Reader_start) text with
  | ({| lx_mode := MText |}, r) =>
    if rd_valid r then
      Some {| gd_max_input := fst (rd_max r); gd_max_output := snd (rd_max r);
              gd_slots := rd_slots r; gd_modules := rd_modules r |}
    else None
  | _ => None
  end.

(** ** The scanner on the pieces of a document *)

Lemma scan_app s a b : scan s (a ++ b) = scan (scan s a) b.
Proof. apply foldl_app. Qed.

(** A text that can stand between quotes. *)
Definition quote_free (t : list Z) : Prop := Forall (λ c, c ≠ 34) t.

Lemma scan_value tag name r t : quote_free t → ∀ buf,
  scan ({| lx_mode := MValue; lx_tag := tag; lx_name := name; lx_buf := buf |}, r) t =
    ({| lx_mode := MValue; lx_tag := tag; lx_name := name; lx_buf := buf ++ t |}, r).
Proof.
  induction 1 as [|c t Hc _ IH]; intros buf; [by rewrite app_nil_r|].
  unfold scan in *. cbn [foldl]. unfold read_char at 2. cbn [lex_char fst snd].
  rewrite decide_False by done. by rewrite IH, <-app_assoc.
Qed.

Lemma quote_free_decimal n : quote_free (decimal n).
Proof.
  destruct (decimal_digits n) as [H _]. eapply list.Forall_impl; [exact H|]. unfold digit. lia.
Qed.
Lemma quote_free_app a b : quote_free a → quote_free b → quote_free (a ++ b).
Proof. intros. by apply Forall_app. Qed.
Lemma quote_free_escape s : quote_free (escape s).
Proof.
  destruct (escape_roundtrip s) as [H _]. eapply list.Forall_impl; [exact H|]. unfold special. cbn. lia.
Qed.
Lemma quote_free_hex4 n : 0 ≤ n → quote_free (hex4 n).
Proof.
  intros Hn. unfold quote_free, hex4, hex2, hex_digit. cbn [app].
  pose proof (Z.div_pos n 256 Hn ltac:(lia)) as Hd. pose proof (Z.mod_pos_bound n 256 ltac:(lia)).
  repeat apply List.Forall_cons; try apply List.Forall_nil;
    case_decide; Z.div_mod_to_equations; lia.
Qed.
Lemma quote_free_hex8 n : 0 ≤ n → quote_free (hex8 n).
Proof. intros. apply quote_free_app; apply quote_free_hex4; Z.div_mod_to_equations; lia. Qed.
Lemma quote_free_type ty : quote_free (type_name ty).
Proof. destruct ty; by_decide. Qed.
Create HintDb quotes.
#[local] Hint Resolve quote_free_decimal quote_free_app quote_free_escape quote_free_hex4
  quote_free_hex8 quote_free_type : quotes.
#[local] Hint Extern 1 (quote_free (lit _)) => by_decide : quotes.
#[local] Hint Extern 1 (quote_free (nat_decimal _)) => apply quote_free_decimal : quotes.

(** One piece of a text: a literal is computed, a variable is a value. *)
Ltac scan_closed l r t :=
  let v := eval vm_compute in (scan (l, r) t) in
  replace (scan (l, r) t) with v by (vm_compute; reflexivity);
  change {| lx_mode := MText; lx_tag := []; lx_name := []; lx_buf := [] |} with outside.
Ltac scan_piece :=
  match goal with
  | |- context [scan (?l, ?r) (lit ?x ++ ?t)] => rewrite (scan_app (l, r) (lit x) t); scan_closed l r (lit x)
  | |- context [scan (?l, ?r) (lit ?x)] => scan_closed l r (lit x)
  | |- context [scan (?l, ?r) (newline ++ ?t)] => rewrite (scan_app (l, r) newline t)
  | |- context [scan (outside, ?r) newline] =>
    replace (scan (outside, r) newline) with (outside, r) by (vm_compute; reflexivity)
  | H : quote_free ?x |- context [scan (?l, ?r) (?x ++ ?t)] =>
    rewrite (scan_app (l, r) x t), (scan_value _ _ r x H)
  | |- context [scan (?l, ?r) ((?x ++ ?y) ++ ?t)] => rewrite <-(app_assoc x y t)
  | |- context [scan (?l, ?r) (decimal ?x ++ ?t)] =>
    rewrite (scan_app (l, r) (decimal x) t); scan_closed l r (decimal x)
  end.

(** Name a quote-free text, so that literals compute around it. *)
Ltac quote_free_as x :=
  let H := fresh "Hq" in
  assert (quote_free x) as H by eauto 12 with quotes; revert H; generalize x; intros ? H.

(** A text of the list at the end of the file. *)
Definition text_ok (t : list Z * list Z) : Prop := quote_free t.1 ∧ quote_free t.2.

Lemma scan_text r id value :
  quote_free id → quote_free value → scan (outside, r) (text_xml (id, value)) = (outside, r).
Proof. intros Hi Hv. unfold text_xml. repeat scan_piece. done. Qed.

Lemma scan_texts r texts :
  Forall text_ok texts → scan (outside, r) (texts ≫= text_xml) = (outside, r).
Proof.
  induction 1 as [|[id v] texts [Hi Hv] _ IH]; [done|]. by rewrite bind_cons, scan_app, scan_text.
Qed.

Lemma scan_module_ref r s :
  scan (outside, r) (module_ref s) =
    (outside, rd_slot r [] (rd_slots r ++ [(lit "M" ++ decimal (ss_slot s), decimal (ss_slot s))])).
Proof.
  unfold module_ref. quote_free_as (decimal (ss_slot s)). destruct r. repeat scan_piece. done.
Qed.

Lemma scan_identity r c :
  sw_prefix (im0_software_revision (cf_im0 c)) ≠ 34 →
  scan (outside, r) (module_identity_xml c) = (outside, r).
Proof.
  intros Hp. unfold module_identity_xml.
  assert (quote_free [sw_prefix (im0_software_revision (cf_im0 c))]) as Hs by by repeat constructor.
  revert Hs. generalize [sw_prefix (im0_software_revision (cf_im0 c))]. intros pre Hpre.
  quote_free_as (escape (im0_order_id (cf_im0 c))). quote_free_as (decimal (im0_hardware_revision (cf_im0 c))).
  quote_free_as (decimal (sw_functional (im0_software_revision (cf_im0 c)))).
  quote_free_as (decimal (sw_bug_fix (im0_software_revision (cf_im0 c)))).
  quote_free_as (decimal (sw_internal (im0_software_revision (cf_im0 c)))).
  repeat scan_piece. done.
Qed.

(** ** The items of a list *)

(** The reader after more fields of the list, inside of an item and behind it. *)
Definition rd_fields (r : Reader) (fs : list FieldRef) (off : Z) : Reader :=
  {| rd_max := rd_max r; rd_target := rd_target r; rd_slots := rd_slots r; rd_modules := rd_modules r;
     rd_id := rd_id r;
     rd_inputs := match rd_dir r with Some DrInput => rd_inputs r ++ fs | _ => rd_inputs r end;
     rd_outputs := match rd_dir r with Some DrOutput => rd_outputs r ++ fs | _ => rd_outputs r end;
     rd_dir := rd_dir r; rd_off := off; rd_type := rd_type r; rd_bits := rd_bits r;
     rd_valid := rd_valid r |}.
Definition rd_next (r : Reader) (fs : list FieldRef) (off : Z) : Reader := rd_item (rd_fields r fs off) [] false.
Definition between_items (r : Reader) : Prop := rd_type r = [] ∧ rd_bits r = false.

Lemma rd_fields_app r a b o o' : rd_fields (rd_fields r a o) b o' = rd_fields r (a ++ b) o'.
Proof. unfold rd_fields. cbn. by destruct (rd_dir r) as [[]|]; rewrite ?app_assoc. Qed.
Lemma rd_next_app r a b o o' : rd_next (rd_next r a o) b o' = rd_next r (a ++ b) o'.
Proof. unfold rd_next, rd_item, rd_fields. cbn. by destruct (rd_dir r) as [[]|]; rewrite ?app_assoc. Qed.
Lemma rd_next_nil r : between_items r → rd_next r [] (rd_off r) = r.
Proof.
  intros [H1 H2]. destruct r as [? ? ? ? ? ? ? [[]|]]; cbn in *; subst; unfold rd_next, rd_item, rd_fields; cbn;
    by rewrite ?app_nil_r.
Qed.
Lemma rd_next_between r fs off : between_items (rd_next r fs off).
Proof. done. Qed.

Lemma Ok_eq {E A} (a b : A) : Ok (E := E) a = Ok b → a = b.
Proof. congruence. Qed.

Lemma scan_scalar {E} r n prefix ty i p :
  ty ≠ FtBool → quote_free n → quote_free prefix →
  item_part (E := E) n prefix (ItScalar ty i) = Ok p →
  Forall text_ok p.2 ∧
  scan (outside, r) p.1 =
    (outside, rd_next r [{| fr_byte := rd_off r; fr_bit := 0; fr_ty := ty |}] (rd_off r + Z.of_nat (width ty))).
Proof.
  cbn [item_part]. intros Hty Hn Hp <-%Ok_eq. cbn [fst snd]. split.
  { apply List.Forall_cons; [split; cbn [fst snd]; eauto 12 with quotes|constructor]. }
  quote_free_as (lit "M" ++ n ++ lit "_" ++ prefix ++ nat_decimal i).
  destruct r. destruct ty; [done|..]; cbn [data_type]; repeat scan_piece; done.
Qed.

Lemma scan_bit r n prefix i k :
  quote_free n → quote_free prefix → 0 ≤ k < 8 →
  let p := bit_part n prefix (i, {| fr_byte := rd_off r; fr_bit := k; fr_ty := FtBool |}) in
  Forall text_ok p.2 ∧
  scan (outside, r) p.1 =
    (outside, rd_fields r [{| fr_byte := rd_off r; fr_bit := k; fr_ty := FtBool |}] (rd_off r)).
Proof.
  intros Hn Hp Hk. cbn [bit_part fst snd fr_bit]. split.
  { apply List.Forall_cons; [split; cbn [fst snd]; eauto 12 with quotes|constructor]. }
  quote_free_as (lit "M" ++ n ++ lit "_" ++ prefix ++ nat_decimal i ++ lit "_b").
  assert (k = 0 ∨ k = 1 ∨ k = 2 ∨ k = 3 ∨ k = 4 ∨ k = 5 ∨ k = 6 ∨ k = 7) as Hc by lia.
  destruct r. cbn [rd_off].
  repeat destruct Hc as [->|Hc]; [..|subst k];
    repeat scan_piece; done.
Qed.

(** A bit of the octet being read. *)
Definition bit_at (o : Z) (p : nat * FieldRef) : Prop :=
  ∃ k, 0 ≤ k < 8 ∧ p.2 = {| fr_byte := o; fr_bit := k; fr_ty := FtBool |}.

Lemma scan_bits n prefix g : quote_free n → quote_free prefix → ∀ r,
  Forall (bit_at (rd_off r)) g →
  let q := foldr (λ p q, part_app (bit_part n prefix p) q) ([], []) g in
  Forall text_ok q.2 ∧ scan (outside, r) q.1 = (outside, rd_fields r (snd <$> g) (rd_off r)).
Proof.
  intros Hn Hp. induction g as [|[i f] g IH]; intros r Hg.
  { split; [constructor|]. destruct r as [? ? ? ? ? ? ? [[]|]]; unfold rd_fields; cbn; by rewrite ?app_nil_r. }
  apply Forall_cons_1 in Hg as [(k & Hk & [= ->]) Hg]. cbn [foldr].
  destruct (scan_bit r n prefix i k Hn Hp Hk) as [Ht1 Hs1].
  destruct (IH (rd_fields r [{| fr_byte := rd_off r; fr_bit := k; fr_ty := FtBool |}] (rd_off r)) Hg) as [Ht2 Hs2].
  split; [by apply Forall_app|]. unfold part_app. cbn [fst].
  rewrite scan_app, Hs1. etrans; [exact Hs2|]. by rewrite rd_fields_app.
Qed.

Lemma spans_group o i g (refs : list FieldRef) :
  (length g ≤ 8)%nat →
  (∀ k p, g !! k = Some p →
     p = ((i + k)%nat, {| fr_byte := o; fr_bit := Z.of_nat k; fr_ty := FtBool |}) ∧
     refs !! (i + k)%nat = Some p.2) →
  Forall (bit_at o) g ∧ snd <$> g = take (length g) (drop i refs).
Proof.
  intros Hl Hg. split.
  - apply Forall_lookup. intros k p Hk. destruct (Hg k p Hk) as [-> _]. exists (Z.of_nat k).
    apply lookup_lt_Some in Hk. split; [lia|done].
  - apply list_eq. intros k. rewrite list_lookup_fmap. destruct (decide (k < length g)%nat) as [H|H].
    + rewrite lookup_take_lt, lookup_drop by done. destruct (lookup_lt_is_Some_2 g k H) as [p Hk].
      rewrite Hk. cbn. by destruct (Hg k p Hk).
    + rewrite lookup_take_ge by lia. by rewrite (proj2 (lookup_ge_None g k)) by lia.
Qed.

Lemma scan_group {E} r n prefix g p :
  quote_free n → quote_free prefix → Forall (bit_at (rd_off r)) g →
  item_part (E := E) n prefix (ItBits g) = Ok p →
  Forall text_ok p.2 ∧ scan (outside, r) p.1 = (outside, rd_next r (snd <$> g) (rd_off r + 1)).
Proof.
  intros Hn Hp Hg Hi. cbn [item_part] in Hi. apply obind_Ok in Hi as (first & _ & Hi).
  destruct (list.last g) as [final|]; [|done]. apply Ok_eq in Hi as <-. cbn [fst snd].
  set (r' := rd_item r (lit "Unsigned8") true). destruct (scan_bits n prefix g Hn Hp r' Hg) as [Ht Hs].
  split; [apply List.Forall_cons; [split; cbn [fst snd]; eauto 12 with quotes|exact Ht]|].
  quote_free_as (lit "M" ++ n ++ lit "_" ++ prefix ++ nat_decimal first.1 ++ lit "_bits").
  assert (scan (outside, r) (lit "                  <DataItem DataType='Unsigned8' UseAsBits='true' TextId='" ++
                             l ++ lit "'>" ++ newline) = (outside, r')) as Hh.
  { subst r'. clear -Hq. destruct r. repeat scan_piece. done. }
  rewrite scan_app, Hh, scan_app, Hs. subst r'. clear.
  destruct r as [? ? ? ? ? ? ? ? ? ? ? []]; repeat scan_piece; done.
Qed.

(** The items that span a table are read back as the table. *)
Lemma scan_items {E} n prefix refs o' i' its : quote_free n → quote_free prefix → ∀ r i p,
  spans refs (rd_off r) i its o' i' → between_items r →
  parts (E := E) (item_part n prefix) its = Ok p →
  Forall text_ok p.2 ∧ (i ≤ i')%nat ∧
  scan (outside, r) p.1 = (outside, rd_next r (take (i' - i) (drop i refs)) o').
Proof.
  intros Hn Hp. induction its as [|it its IH]; intros r i p Hs Hr Hi; cbn [parts] in Hi.
  { apply Ok_eq in Hi as <-. destruct Hs as [<- <-]. split_and!; [constructor|done|].
    rewrite Nat.sub_diag. cbn [take]. by rewrite rd_next_nil. }
  apply obind_Ok in Hi as (x & Hx & Hi). apply obind_Ok in Hi as (y & Hy & Hi). apply Ok_eq in Hi as <-.
  cbn [part_app fst snd]. rewrite scan_app. destruct it as [ty j|g].
  - destruct Hs as (-> & Hty & Href & Hs). destruct (scan_scalar r _ _ _ _ _ Hty Hn Hp Hx) as [Ht1 Hs1].
    rewrite Hs1. eapply (IH (rd_next r _ _)) in Hs as (Ht2 & Hle & Hs2); [|done|exact Hy].
    split_and!; [by apply Forall_app|lia|]. rewrite Hs2, rd_next_app. do 2 f_equal.
    replace (i' - i)%nat with (S (i' - S i)) by lia. by rewrite (drop_S _ _ _ Href).
  - destruct Hs as (Hl & Hg & Hs). destruct (spans_group _ _ _ _ (proj2 Hl) Hg) as [Hb Hf].
    destruct (scan_group r _ _ _ _ Hn Hp Hb Hx) as [Ht1 Hs1].
    rewrite Hs1. eapply (IH (rd_next r _ _)) in Hs as (Ht2 & Hle & Hs2); [|done|exact Hy].
    split_and!; [by apply Forall_app|lia|]. rewrite Hs2, rd_next_app, Hf. do 2 f_equal.
    replace (i' - i)%nat with (length g + (i' - (i + length g)))%nat by lia.
    rewrite <-drop_drop. apply take_take_drop.
Qed.

(** ** The modules *)

(** The reader after a list of one direction. *)
Definition rd_table (r : Reader) (dir : Direction) (fs : list FieldRef) : Reader :=
  rd_list (rd_fields (rd_list r (Some dir)) fs 0) None.

Lemma scan_list r dir tag len body fs :
  (dir, tag) = (DrInput, lit "Input") ∨ (dir, tag) = (DrOutput, lit "Output") →
  scan (outside, rd_list r (Some dir)) body = (outside, rd_next (rd_list r (Some dir)) fs len) →
  scan (outside, r) (lit "                <" ++ tag ++ lit " Consistency='All items consistency'>" ++ newline ++
                     body ++ lit "                </" ++ tag ++ lit ">" ++ newline) =
    (outside, rd_table r dir fs).
Proof.
  intros Hd Hb. destruct Hd as [[= -> ->]|[= -> ->]]; repeat scan_piece;
    rewrite scan_app; (etrans; [apply (f_equal (λ s, scan s _) Hb)|]);
    clear; destruct r; repeat scan_piece; done.
Qed.

(** What is needed of the entry of a module. *)
Definition described (sm : SubmoduleSpec) (d : Derived) : Prop :=
  ∀ dir, ∃ len, spans (table dir d) 0 0 (items (table dir d)) len (length (table dir d)).

Lemma scan_direction {E} c sm d k dir tag prefix r p :
  cf_index_of c (ss_slot sm) = Some k → cf_derived c !! k = Some d → described sm d →
  (dir, tag) = (DrInput, lit "Input") ∨ (dir, tag) = (DrOutput, lit "Output") →
  quote_free prefix → r = rd_list r None →
  direction_part (E := E) c sm (dir, tag, prefix) = Ok p →
  Forall text_ok p.2 ∧ scan (outside, r) p.1 = (outside, rd_table r dir (table dir d)).
Proof.
  intros Hk Hd Hsp Htag Hp Hr. unfold direction_part, cf_fields. rewrite Hk, (proj2 (idx_Ok _ _ _) Hd). cbn [obind].
  assert (table dir d = [] → Ok (E := E) ([], []) = Ok p →
          Forall text_ok p.2 ∧ scan (outside, r) p.1 = (outside, rd_table r dir (table dir d))) as Hempty.
  { intros -> <-%Ok_eq. split; [constructor|]. cbn [fst]. rewrite Hr at 1.
    destruct Htag as [[= -> ->]|[= -> ->]]; unfold rd_table, rd_fields; cbn; by rewrite app_nil_r. }
  assert (∀ q, (let! body := parts (item_part (decimal (ss_slot sm)) prefix) (items (table dir d)) in
      Ok (E := E) (lit "                <" ++ tag ++ lit " Consistency='All items consistency'>" ++ newline ++
        body.1 ++ lit "                </" ++ tag ++ lit ">" ++ newline, body.2)) = Ok q →
      Forall text_ok q.2 ∧ scan (outside, r) q.1 = (outside, rd_table r dir (table dir d))) as Hbody.
  { intros q Hq. apply obind_Ok in Hq as (body & Hb & Hq). apply Ok_eq in Hq as <-. cbn [fst snd].
    destruct (Hsp dir) as [len Hs].
    destruct (scan_items (decimal (ss_slot sm)) prefix (table dir d) _ _ _ ltac:(eauto with quotes) Hp
                (rd_list r (Some dir)) _ _ Hs ltac:(done) Hb) as (Ht & _ & Hscan).
    split; [done|]. eapply scan_list; [done|]. rewrite Hscan, Nat.sub_0_r. cbn [drop].
    by rewrite firstn_all. }
  destruct Htag as [[= -> ->]|[= -> ->]]; cbn [table] in *; destruct (is_nil _) eqn:Hn; try apply Hbody;
    apply is_nil_spec in Hn; by apply Hempty.
Qed.

Definition rd_entry (s : SubmoduleSpec) (d : Derived) : list Z * list FieldRef * list FieldRef :=
  (lit "M" ++ decimal (ss_slot s), de_inputs d, de_outputs d).
(** The reader between two modules, [ms] modules later. *)
Definition rd_modules_next (r : Reader) (ms : list (list Z * list FieldRef * list FieldRef)) : Reader :=
  {| rd_max := rd_max r; rd_target := rd_target r; rd_slots := rd_slots r; rd_modules := rd_modules r ++ ms;
     rd_id := []; rd_inputs := []; rd_outputs := []; rd_dir := None;
     rd_off := 0; rd_type := []; rd_bits := false; rd_valid := rd_valid r |}.

Lemma scan_module {E} c identity sm d k r p :
  cf_index_of c (ss_slot sm) = Some k → cf_derived c !! k = Some d → described sm d →
  0 ≤ ss_slot sm → (∀ r, scan (outside, r) identity = (outside, r)) →
  module_part (E := E) c identity sm = Ok p →
  Forall text_ok p.2 ∧ scan (outside, r) p.1 = (outside, rd_modules_next r [rd_entry sm d]).
Proof.
  intros Hk Hd Hsp Hslot Hid. unfold module_part. intros Hp.
  apply obind_Ok in Hp as (i & _ & Hp). apply obind_Ok in Hp as (o & _ & Hp).
  apply obind_Ok in Hp as (body & Hb & Hp). apply Ok_eq in Hp as <-. cbn [fst snd].
  cbn [parts] in Hb. apply obind_Ok in Hb as (x & Hx & Hb). apply obind_Ok in Hb as (y & Hy & Hb).
  apply obind_Ok in Hy as (z & Hz & Hy). apply Ok_eq in Hy as <-. apply Ok_eq in Hb as <-.
  set (r1 := rd_module r (lit "M" ++ decimal (ss_slot sm))).
  destruct (scan_direction c sm d k DrInput (lit "Input") (lit "In") r1 x Hk Hd Hsp (or_introl eq_refl) ltac:(by_decide) eq_refl Hx)
    as [Htx Hsx].
  destruct (scan_direction c sm d k DrOutput (lit "Output") (lit "Out") (rd_table r1 DrInput (de_inputs d)) z Hk Hd Hsp
              (or_intror eq_refl) ltac:(by_decide) eq_refl Hz) as [Htz Hsz].
  cbn [part_app fst snd]. rewrite !app_nil_r. split.
  { apply List.Forall_cons; [|apply List.Forall_cons]; [split; cbn [fst snd]; eauto 20 with quotes..|].
    by apply Forall_app. }
  pose proof (quote_free_hex8 (256 + ss_slot sm) ltac:(lia)) as Hh. pose proof (quote_free_decimal (ss_slot sm)) as Hn.
  revert Hsx Hsz Hh Hn. subst r1. clear -Hid. unfold rd_entry. cbn [table].
  generalize (hex8 (256 + ss_slot sm)), (decimal (ss_slot sm)). intros h n Hsx Hsz Hh Hn.
  rewrite scan_app. rewrite <-(app_assoc x.1 z.1).
  replace (scan (outside, r) _) with (outside, rd_module r (lit "M" ++ n)).
  2: { symmetry. clear -Hh Hn Hid. destruct r. repeat scan_piece.
       match goal with |- scan (?l, ?r) _ = _ => rewrite (scan_app (l, r) identity), Hid end.
       repeat scan_piece. done. }
  rewrite scan_app, Hsx, scan_app, Hsz. clear -Hn. destruct r. repeat scan_piece. done.
Qed.

Lemma rd_entry_zip l ds : (λ x, rd_entry x.1 x.2) <$> zip l ds = zip_with rd_entry l ds.
Proof. revert ds. induction l as [|s l IH]; intros [|d ds]; [done..|]. cbn. by rewrite IH. Qed.

Lemma rd_modules_next_app r a b : rd_modules_next (rd_modules_next r a) b = rd_modules_next r (a ++ b).
Proof. unfold rd_modules_next. cbn. by rewrite <-app_assoc. Qed.

Lemma scan_modules {E} c identity l : cf_ok c → (∀ r, scan (outside, r) identity = (outside, r)) → ∀ r p,
  Forall (λ x, 0 ≤ ss_slot x.1 ∧ described x.1 x.2 ∧ ∃ k, cf_index_of c (ss_slot x.1) = Some k ∧
                 cf_derived c !! k = Some x.2) l →
  r = rd_modules_next r [] →
  parts (E := E) (module_part c identity) (fst <$> l) = Ok p →
  Forall text_ok p.2 ∧
  scan (outside, r) p.1 = (outside, rd_modules_next r ((λ x, rd_entry x.1 x.2) <$> l)).
Proof.
  intros Hc Hid. induction l as [|[sm d] l IH]; intros r p Hl Hr Hp; cbn [fmap list_fmap parts fst snd] in *.
  { apply Ok_eq in Hp as <-. split; [constructor|]. cbn [fst]. by rewrite <-Hr. }
  apply Forall_cons_1 in Hl as [(Hslot & Hsp & k & Hk & Hd) Hl]. cbn [fst snd] in *.
  apply obind_Ok in Hp as (x & Hx & Hp). apply obind_Ok in Hp as (y & Hy & Hp). apply Ok_eq in Hp as <-.
  destruct (scan_module c identity sm d k r x Hk Hd Hsp Hslot Hid Hx) as [Ht1 Hs1].
  destruct (IH (rd_modules_next r [rd_entry sm d]) y Hl) as [Ht2 Hs2]; [|done|].
  { rewrite rd_modules_next_app. by rewrite app_nil_r. }
  cbn [part_app fst snd]. split; [by apply Forall_app|]. by rewrite scan_app, Hs1, Hs2, rd_modules_next_app.
Qed.

(** ** The whole file *)

Definition rd_ref (s : SubmoduleSpec) : list Z * list Z :=
  (lit "M" ++ decimal (ss_slot s), decimal (ss_slot s)).

Lemma scan_refs l : ∀ r, rd_target r = [] →
  scan (outside, r) (l ≫= module_ref) = (outside, rd_slot r [] (rd_slots r ++ (rd_ref <$> l))).
Proof.
  induction l as [|s l IH]; intros r Hr.
  - cbn. rewrite app_nil_r. destruct r; cbn in *; by subst.
  - rewrite bind_cons, scan_app, scan_module_ref, IH by done. cbn. by rewrite <-app_assoc.
Qed.

Lemma scan_dap r send_clock : quote_free send_clock → scan (outside, r) (dap_xml send_clock) = (outside, r).
Proof. intros H. unfold dap_xml. destruct r. repeat scan_piece. done. Qed.

Lemma scan_header c meta n max_in max_out identity :
  0 ≤ cf_vendor_id c → 0 ≤ cf_device_id c → (∀ r, scan (outside, r) identity = (outside, r)) →
  scan (outside, Reader_start) (header_xml c meta n max_in max_out identity) =
    (outside, rd_lengths Reader_start (decimal max_in, decimal max_out)).
Proof.
  intros Hv Hd Hid. unfold header_xml.
  assert (quote_free (hex4 (cf_vendor_id c))) as H1 by by apply quote_free_hex4.
  assert (quote_free (hex4 (cf_device_id c))) as H2 by by apply quote_free_hex4.
  revert H1 H2. generalize (hex4 (cf_vendor_id c)), (hex4 (cf_device_id c)). intros v d H1 H2.
  quote_free_as (escape (gm_vendor_name meta)). quote_free_as (escape (gm_product_family meta)).
  quote_free_as (decimal n). quote_free_as (decimal (cf_min_device_interval c)).
  quote_free_as (escape (cf_station_name c)). quote_free_as (decimal max_in). quote_free_as (decimal max_out).
  quote_free_as (decimal (max_in + max_out)).
  unfold Reader_start. repeat scan_piece.
  match goal with |- scan (?l, ?r) _ = _ => rewrite (scan_app (l, r) identity), Hid end.
  repeat scan_piece. done.
Qed.

Lemma scan_tail r texts : Forall text_ok texts →
  scan (outside, r) (lit "      </ModuleList>
      <ExternalTextList>
        <PrimaryLanguage>
" ++ (texts ≫= text_xml) ++ lit "        </PrimaryLanguage>
      </ExternalTextList>
    </ApplicationProcess>
  </ProfileBody>
</ISO15745Profile>
") = (outside, r).
Proof. intros H. destruct r. scan_piece. rewrite scan_app, scan_texts by done. scan_piece. done. Qed.

Lemma build_sw_prefix b c : build b = Ok c → sw_prefix (im0_software_revision (cf_im0 c)) ≠ 34.
Proof.
  intros Hb. unfold build in Hb. ok_inv. cbn [cf_im0]. intros Hq.
  match goal with H : Im0_validate _ = _ |- _ => unfold Im0_validate in H; rewrite Hq in H end. ok_inv. discriminate.
Qed.

Lemma build_described b c :
  Forall sane_submodule (bd_submodules b) → build b = Ok c → wf_builder_ids c →
  Forall (λ x, 0 ≤ ss_slot x.1 ∧ described x.1 x.2 ∧ ∃ k, cf_index_of c (ss_slot x.1) = Some k ∧
                 cf_derived c !! k = Some x.2) (zip (cf_submodules c) (cf_derived c)).
Proof.
  intros Hs Hb Hids. pose proof (build_ok b c Hs Hb) as Hc. pose proof (build_spans b c Hs Hb) as Hsp.
  apply Forall_lookup. intros k [sm d] [Hsm Hd]%lookup_zip_Some. cbn [fst snd].
  pose proof (cf_slots_pos c Hc Hids) as Hpos. rewrite Forall_lookup in Hpos. specialize (Hpos _ _ Hsm).
  destruct (Forall2_lookup_lr _ _ _ _ _ _ Hsp Hsm Hd) as [Hi Ho].
  destruct (Forall2_lookup_lr _ _ _ _ _ _ (ck_derived c Hc) Hsm Hd) as (_ & _ & (Hti & _) & _ & _ & (Hto & _)).
  split_and!; [lia| |exists k; by rewrite (cf_submodule_index c k sm Hc Hsm)].
  intros [| |]; cbn [table]; eexists.
  - rewrite <-Hti, length_fmap in Hi. exact Hi.
  - rewrite <-Hto, length_fmap in Ho. exact Ho.
  - done.
Qed.

(** C27: an engineering tool that reads the description file finds the device.
    For every configuration that [build] accepts, rendering succeeds, and a
    reader of the rendered octets finds: the lengths of the two CRs; for each
    submodule a module that may be put in the slot of that submodule and in no
    other; and for each module an input and an output list whose data items,
    placed one after the other by the sizes of their declared types, are exactly
    the fields of the device's own tables, in order, every one with its type at
    the octet and the bit where the device puts it. *)
Theorem description_matches_device b c meta :
  Forall sane_submodule (bd_submodules b) → build b = Ok c → wf_builder_ids c →
  ∃ text, render (E := Empty_set) c meta = Ok text ∧
  read_description text = Some
    {| gd_max_input := decimal (cf_input_cr_len c); gd_max_output := decimal (cf_output_cr_len c);
       gd_slots := (λ s, (lit "M" ++ decimal (ss_slot s), decimal (ss_slot s))) <$> cf_submodules c;
       gd_modules := zip_with (λ s d, (lit "M" ++ decimal (ss_slot s), de_inputs d, de_outputs d))
                              (cf_submodules c) (cf_derived c) |}.
Proof.
  intros Hs Hb Hids. destruct (render_built (E := Empty_set) b c meta Hs Hb) as [text Hx].
  exists text. split; [done|]. pose proof (build_ok b c Hs Hb) as Hc.
  pose proof (list.Forall2_length _ _ _ (ck_derived c Hc)) as Hlen.
  pose proof (λ r, scan_identity r c (build_sw_prefix b c Hb)) as Hid.
  unfold render in Hx. apply obind_Ok in Hx as (p & Hp & Hx). apply Ok_eq in Hx as <-.
  rewrite <-(fst_zip (cf_submodules c) (cf_derived c)) in Hp by lia.
  unfold read_description. rewrite scan_app, scan_header; [|apply Hids..|exact Hid].
  rewrite scan_app, scan_refs, scan_app, scan_dap by (done || (case_decide; eauto with quotes)).
  set (r := rd_slot _ _ _).
  destruct (scan_modules c (module_identity_xml c) _ Hc Hid r p (build_described b c Hs Hb Hids) eq_refl Hp)
    as [Ht Hm]. rewrite scan_app, Hm.
  assert (Forall text_ok (dap_texts meta ++ p.2)) as Htexts.
  { apply Forall_app. split; [|done]. unfold dap_texts.
    repeat apply List.Forall_cons; [split; cbn [fst snd]; eauto with quotes..|constructor]. }
  rewrite scan_tail by done. subst r. cbn. do 2 f_equal.
  apply rd_entry_zip.
Qed.

(** ** Witness *)

(** The sample device: the tool reads the lengths of the CRs, the three slots,
    and in its first module groups of two, one and eight bits among the
    scalars. *)
Lemma description_matches_device_witness :
  ∃ text desc, render (E := Empty_set) sample_config sample_meta = Ok text ∧
    read_description text = Some desc ∧
    gd_max_input desc = lit "21" ∧ gd_max_output desc = lit "12" ∧
    gd_slots desc = [(lit "M1", lit "1"); (lit "M3", lit "3"); (lit "M5", lit "5")] ∧
    gd_modules desc !! 2%nat = Some
      (lit "M5", [{| fr_byte := 0; fr_bit := 0; fr_ty := FtReal |}],
       [{| fr_byte := 0; fr_bit := 0; fr_ty := FtInt |}; {| fr_byte := 2; fr_bit := 0; fr_ty := FtBool |}]) ∧
    match gd_modules desc !! 0%nat with
    | Some (_, inputs, outputs) =>
      outputs = [] ∧ length inputs = 14%nat ∧ inputs !! 12%nat = Some {| fr_byte := 8; fr_bit := 7; fr_ty := FtBool |}
    | None => False
    end.
Proof.
  destruct (description_matches_device sample_builder sample_config sample_meta) as (text & Hr & Hd).
  - exact sample_builder_sane.
  - reflexivity.
  - by_decide.
  - exists text. eexists. split; [exact Hr|]. split; [exact Hd|]. vm_compute. auto 10.
Defined.
