(* ===== verification/Bringup.v ===== *)
(** * Bringup: the programs that run a device

    Models the application side of [crates/pnio/examples/linux/]: the cycle of
    [typed_bringup.rs] over the typed handle and of [rt_bringup.rs] over the
    raw image, their loops with the diagnoses, the statistics and the stop
    conditions, the set-up of [ar_bringup.rs], and the measuring loop of
    [latency_probe.rs].

    The other threads work on the same image and counters between any two
    accesses of the application.  What they did is an argument of a step: a
    function on the shared state for each point where it matters, of which the
    theorems assume only that it keeps the invariant.  Times are nanoseconds;
    log lines are left out. *)

From S2P Require Import Prelude Eth Rpc Block Connect Records Ar Diag Dcp Data Layout Config Hist Engine.
From S2P Require Import Image Device Text Gsdml Api Cli.
Local Open Scope Z_scope.

(** ** The application cycle of [typed_bringup] *)

(** [for i in 0..n { w.real(i, snap.real(i)?)?; }] from [i] on. *)
(** examples/linux/typed_bringup.rs:376-378 run_app_cycle *)
Fixpoint copy_reals (snap : SlotSnapshot) (w : SlotWriter) (i n : nat) : outcome ApiError SlotWriter :=
  match n with
  | O => Ok w
  | S n =>
    let! x := snap_real snap i in
    let! w := sw_real w i x in
    copy_reals snap w (S i) n
  end.

(** examples/linux/typed_bringup.rs:386-388 run_app_cycle *)
Fixpoint copy_bools (snap : SlotSnapshot) (w : SlotWriter) (i n : nat) : outcome ApiError SlotWriter :=
  match n with
  | O => Ok w
  | S n =>
    let! x := snap_bool snap i in
    let! w := sw_bool w i x in
    copy_bools snap w (S i) n
  end.

Definition closure (f : SlotWriter → outcome ApiError SlotWriter) (w : SlotWriter) :
    outcome ApiError (SlotWriter * unit) := let! w := f w in Ok (w, tt).

(** The device after the cycle, also when it fails.  [env k] is what the other
    threads did to the shared state before the [k]-th access after the first. *)
(** examples/linux/typed_bringup.rs:369-394 run_app_cycle *)
Definition run_app_cycle (env : nat → IoDevice → IoDevice) (dev : IoDevice) :
    outcome (ApiError * IoDevice) IoDevice :=
  let second dev :=
    let dev := env 1%nat dev in
    match outputs dev 4 with
    | Ok bits =>
      let! (dev, _) := with_inputs (env 2%nat dev) 2 (closure (λ w, copy_bools bits w 0 32)) in Ok dev
    | Err AeNoLayoutYet => Ok dev
    | Err e => Err (e, dev)
    | Panic => Panic
    end in
  match outputs dev 3 with
  | Ok snap =>
    let! (dev, _) := with_inputs (env 0%nat dev) 1 (closure (λ w, copy_reals snap w 0 16)) in second dev
  | Err AeNoLayoutYet => Ok dev
  | Err e => Err (e, dev)
  | Panic => Panic
  end.

(** ** The loop of [typed_bringup] *)

(** examples/linux/typed_bringup.rs:13-62 Args *)
Record TypedArgs := {
  ta_station : list Z; ta_stats_every : Z; ta_duration : Z; ta_thresholds : Thresholds;
  ta_diags : list DiagSpec
}.

(** The state of the loop; [tl_sent] is the commands it has queued so far, a
    history the program does not keep. *)
(** examples/linux/typed_bringup.rs:227-236 main *)
Record TypedLoop := {
  tl_dev : IoDevice; tl_stop : bool; tl_last_ar_state : ArState; tl_last_log : Z; tl_last_err_log : Z;
  tl_csv : option (list Z); tl_diags_raised : bool; tl_sent : list DiagCommand
}.

(** What an iteration meets: the clock at its readings and the other threads
    between its accesses. *)
Record TypedEnv := {
  te_before : IoDevice → IoDevice;          (* before the iteration *)
  te_mid : IoDevice → IoDevice;             (* before the application cycle *)
  te_cycle : nat → IoDevice → IoDevice;     (* within the application cycle *)
  te_late : IoDevice → IoDevice;            (* before the statistics *)
  te_now : nat → Z;                         (* the readings of the clock *)
  te_written : nat;                         (* the octets of a row that reach the file *)
  te_signal : bool                          (* a signal arrived during the iteration *)
}.

Definition raise_cmd (s : DiagSpec) : DiagCommand :=
  DcRaise {| dg_slot := dsp_slot s; dg_channel := dsp_channel s; dg_error := dsp_error s;
             dg_severity := SvFault; dg_direction := DrInput |}.
Definition clear_cmd (s : DiagSpec) : DiagCommand := DcClear (dsp_slot s) (dsp_channel s) (dsp_error s).

(** An unknown slot is only logged. *)
(** examples/linux/typed_bringup.rs:251-261 main *)
Fixpoint raise_all {X} (dev : IoDevice) (sent : list DiagCommand) (diags : list DiagSpec) :
    outcome X (IoDevice * list DiagCommand) :=
  match diags with
  | [] => Ok (dev, sent)
  | s :: diags =>
    match raise_diagnosis dev (dsp_slot s) (dsp_channel s) (dsp_error s) SvFault with
    | Ok dev => raise_all dev (sent ++ [raise_cmd s]) diags
    | Err _ => raise_all dev sent diags
    | Panic => Panic
    end
  end.

(** examples/linux/typed_bringup.rs:313-320 main *)
Fixpoint clear_all {X} (dev : IoDevice) (sent : list DiagCommand) (diags : list DiagSpec) :
    outcome X (IoDevice * list DiagCommand) :=
  match diags with
  | [] => Ok (dev, sent)
  | s :: diags =>
    match clear_diagnosis dev (dsp_slot s) (dsp_channel s) (dsp_error s) with
    | Ok dev => clear_all dev (sent ++ [clear_cmd s]) diags
    | Err _ => clear_all dev sent diags
    | Panic => Panic
    end
  end.

Definition SECOND : Z := 1000000000.

(** One iteration of the loop, entered with the stop flag clear. *)
(** examples/linux/typed_bringup.rs:237-311 main *)
Definition typed_step {X} (a : TypedArgs) (started : Z) (env : TypedEnv) (st : TypedLoop) :
    outcome X TypedLoop :=
  let dev := te_before env (tl_dev st) in
  let last_ar_state := io_ar_state dev in
  let! (dev, sent, raised) :=
    if negb (tl_diags_raised st) && ready dev then
      let! (dev, sent) := raise_all dev (tl_sent st) (ta_diags a) in Ok (dev, sent, true)
    else Ok (dev, tl_sent st, tl_diags_raised st) in
  let! (dev, last_err_log) :=
    match run_app_cycle (te_cycle env) (te_mid env dev) with
    | Ok dev => Ok (dev, tl_last_err_log st)
    | Err (_, dev) =>
      Ok (dev, if decide (SECOND ≤ te_now env 0 - tl_last_err_log st) then te_now env 1
               else tl_last_err_log st)
    | Panic => Panic
    end in
  let dev := te_late env dev in
  let '(csv, last_log) :=
    if decide (ta_stats_every a * SECOND ≤ te_now env 2 - tl_last_log st) then
      ((λ text, text ++ take (te_written env) (csv_row ((te_now env 3 - started) / SECOND) (io_stats dev)))
         <$> tl_csv st,
       te_now env 4)
    else (tl_csv st, tl_last_log st) in
  let reached := bool_decide (0 < ta_duration a ∧ ta_duration a * SECOND ≤ te_now env 5 - started) in
  Ok {| tl_dev := dev; tl_stop := tl_stop st || te_signal env || reached;
        tl_last_ar_state := last_ar_state; tl_last_log := last_log; tl_last_err_log := last_err_log;
        tl_csv := csv; tl_diags_raised := raised; tl_sent := sent |}.

(** The loop: one environment per iteration until the flag is set. *)
Fixpoint typed_loop {X} (a : TypedArgs) (started : Z) (envs : list TypedEnv) (st : TypedLoop) :
    outcome X TypedLoop :=
  if tl_stop st then Ok st else
  match envs with
  | [] => Ok st
  | env :: envs => let! st := typed_step a started env st in typed_loop a started envs st
  end.

(** The exit code, from the result of stopping the device. *)
(** examples/linux/typed_bringup.rs:349-366 main *)
Definition typed_exit {E} (a : TypedArgs) (stats : RtStats) (r : outcome E unit) : Z :=
  let pass := verdict stats (ta_thresholds a) in
  match r with
  | Err _ => 1
  | _ => if pass then 0 else 1
  end.

(** ** The cycle copies the outputs *)

(** The value of an input field in the image, as the controller will decode it
    from the slot's octets. *)
Definition input_value (d : IoDevice) (slot : Z) (j : nat) : option Value :=
  k ← cf_index_of (io_cfg d) slot;
  der ← cf_derived (io_cfg d) !! k;
  f ← de_inputs der !! j;
  match find_cell (io_image d) slot 1 with
  | Ok c =>
    off ← ce_input_off c;
    match decode_field f (region off (octets DrInput der) (im_inputs (io_image d))) with
    | Ok v => Some v
    | _ => None
    end
  | _ => None
  end.

Lemma with_inputs_ext {T} d slot (f g : SlotWriter → outcome ApiError (SlotWriter * T)) :
  (∀ w, f w = g w) → with_inputs d slot f = with_inputs d slot g.
Proof.
  intros H. unfold with_inputs. apply obind_proper; [done|]. intros i.
  apply obind_proper; [done|]. intros sm. apply obind_proper; [done|]. intros fields.
  apply obind_proper; [done|]. intros fs. apply obind_proper; [done|]. intros buf. by rewrite H.
Qed.

(** The sets a loop of copies makes. *)
Definition copy_sets (vs : nat → Value) (i n : nat) : list (nat * Value) := (λ j, (j, vs j)) <$> seq i n.

Lemma copy_reals_sets snap vs n : ∀ w i,
  (∀ j, (i ≤ j < i + n)%nat → snap_get snap j = Ok (vs j) ∧ field_type (vs j) = FtReal) →
  copy_reals snap w i n = set_all w (copy_sets vs i n).
Proof.
  induction n as [|n IH]; intros w i H; [done|]. cbn [copy_reals copy_sets seq fmap list_fmap set_all].
  destruct (H i) as [Hg Ht]; [lia|]. unfold snap_real. rewrite Hg. cbn [obind].
  destruct (vs i) eqn:Hv; try done. cbn [obind]. unfold sw_real.
  destruct (sw_set w i _); cbn [obind]; [|done..]. apply IH. intros j Hj. apply H. lia.
Qed.

Lemma copy_bools_sets snap vs n : ∀ w i,
  (∀ j, (i ≤ j < i + n)%nat → snap_get snap j = Ok (vs j) ∧ field_type (vs j) = FtBool) →
  copy_bools snap w i n = set_all w (copy_sets vs i n).
Proof.
  induction n as [|n IH]; intros w i H; [done|]. cbn [copy_bools copy_sets seq fmap list_fmap set_all].
  destruct (H i) as [Hg Ht]; [lia|]. unfold snap_bool. rewrite Hg. cbn [obind].
  destruct (vs i) eqn:Hv; try done. cbn [obind]. unfold sw_bool.
  destruct (sw_set w i _); cbn [obind]; [|done..]. apply IH. intros j Hj. apply H. lia.
Qed.

Lemma final_copy vs i n j : (i ≤ j < i + n)%nat → final (copy_sets vs i n) j = Some (vs j).
Proof.
  revert i. induction n as [|n IH]; intros i H; [lia|]. cbn [copy_sets seq fmap list_fmap final].
  fold (copy_sets vs (S i) n). destruct (decide (i = j)) as [->|Hne].
  - destruct (final (copy_sets vs (S j) n) j) as [x|] eqn:Hf; [|done].
    exfalso. revert Hf. clear. assert (∀ k, (j < k)%nat → final (copy_sets vs k n) j = None) as Hn.
    { induction n as [|n IH]; intros k Hk; [done|]. cbn [copy_sets seq fmap list_fmap final].
      fold (copy_sets vs (S k) n). rewrite IH by lia. by rewrite decide_False by lia. }
    rewrite Hn by lia. done.
  - rewrite IH by lia. done.
Qed.

(** A snapshot of a slot whose outputs all have one type. *)
Definition snap_values (s : SlotSnapshot) (j : nat) : Value :=
  match snap_get s j with Ok v => v | _ => VBool false end.

Lemma outputs_cell d slot s : outputs d slot = Ok s →
  ∃ c off, find_cell (io_image d) slot 1 = Ok c ∧ ce_output_off c = Some off.
Proof.
  unfold outputs, read_outputs. intros H. apply obind_Ok in H as (fields & _ & H).
  apply obind_Ok in H as ([b v] & H & _). apply map_err_Ok in H. apply obind_Ok in H as (c & Hc & H).
  apply obind_Ok in H as (off & Ho & _). exists c, off. split; [done|].
  by destruct (ce_output_off c) as [?|]; [injection Ho as ->|].
Qed.

Lemma snapshot_values d slot s k sm der ty n :
  io_wf d → outputs d slot = Ok s → cf_entry (io_cfg d) slot k sm der →
  ss_outputs sm = replicate n ty → ∀ j, (j < n)%nat →
  snap_get s j = Ok (snap_values s j) ∧ io_read d slot j = Ok (snap_values s j) ∧
  field_type (snap_values s j) = ty ∧ wf_value (snap_values s j).
Proof.
  intros Hw Hs He Ho j Hj.
  pose proof (snapshot_reads d slot s j Hw Hs) as Hg. unfold snap_values. rewrite Hg.
  assert (ss_outputs sm !! j = Some ty) as Hty by (rewrite Ho; by apply lookup_replicate_2).
  destruct (outputs_cell d slot s Hs) as (c & off & Hc & Hoff).
  assert (∃ v, io_read d slot j = Ok v ∧ field_type v = ty ∧ wf_value v) as (v & -> & ? & ?); [|done].
  pose proof (read_want d slot j None Hw) as Hr.
  change (read_result d slot j None (io_read d slot j)) in Hr.
  inversion Hr as [Hn|k' sm' der' He' Ho'|k' sm' der' He' _ Hx|? ? ? ? ? ? ? [=]|k' sm' der' ty' He' _ _ Hn
    |k' sm' der' ty' c' He' _ _ Hc' Hoff'|k' sm' der' ty' c' off' f v He' Hty' _ _ _ _ Hv Hwf _ Heq].
  - exfalso. apply Hn. destruct He as (_ & Hsm & _ & <- & _). apply list_elem_of_fmap_2.
    by eapply list_elem_of_lookup_2.
  - destruct (cf_entry_inj _ _ _ _ _ _ _ _ He He') as (-> & -> & ->). by rewrite Ho' in Hty.
  - destruct (cf_entry_inj _ _ _ _ _ _ _ _ He He') as (-> & -> & ->). by rewrite Hx in Hty.
  - exfalso. apply find_cell_in in Hc as (Hin & H1 & H2). apply (Hn c Hin). congruence.
  - rewrite Hc in Hc'. injection Hc' as <-. congruence.
  - destruct (cf_entry_inj _ _ _ _ _ _ _ _ He He') as (<- & <- & <-).
    exists v. split_and!; [done|congruence|done].
Qed.

Lemma find_cell_ext img img' slot sub :
  im_cells img' = im_cells img → find_cell img' slot sub = find_cell img slot sub.
Proof. unfold find_cell. by intros ->. Qed.

(** A published buffer shows in its slot and nowhere else. *)
Lemma published_values d si k sm der buf' img inputs :
  io_wf d → cf_entry (io_cfg d) si k sm der → length buf' = octets DrInput der →
  published (io_image d) si buf' img →
  let d' := set_image d img inputs in
  (∀ j f v, de_inputs der !! j = Some f → decode_field f buf' = Ok v → input_value d' si j = Some v) ∧
  (∀ sj j, sj ≠ si → input_value d' sj j = input_value d sj j).
Proof.
  intros Hw He Hl (c & off & Hc & Hoff & Hcl & Hreg & _ & Hoth & Hcells & _) d'.
  pose proof He as (Hk & _ & Hd & _). split.
  - intros j f v Hf Hdec. unfold input_value. cbn [d' io_cfg set_image io_image].
    rewrite Hk. cbn [mbind option_bind]. rewrite Hd. cbn [mbind option_bind]. rewrite Hf. cbn [mbind option_bind]. rewrite (find_cell_ext _ _ _ _ Hcells), Hc, Hoff. cbn [mbind option_bind].
    by rewrite <-Hl, Hreg, Hdec.
  - intros sj j Hne. unfold input_value. cbn [d' io_cfg set_image io_image].
    destruct (cf_index_of (io_cfg d) sj) as [kj|] eqn:Hkj; cbn [mbind option_bind]; [|done].
    destruct (cf_index_of_entry _ _ _ (wf_cfg d Hw) Hkj) as (smj & derj & Hej).
    pose proof Hej as (_ & _ & Hdj & _). rewrite Hdj. cbn [mbind option_bind]. destruct (de_inputs derj !! j) as [f|]; cbn [mbind option_bind]; [|done].
    rewrite (find_cell_ext _ _ _ _ Hcells). destruct (find_cell (io_image d) sj 1) as [cj| |] eqn:Hcj; [|done..].
    destruct (ce_input_off cj) as [offj|] eqn:Hoffj; cbn [mbind option_bind]; [|done].
    destruct (image_cell d sj kj smj derj cj DirInput offj Hw Hej Hcj Hoffj) as [Hlj _]. cbn [cell_len] in Hlj.
    apply find_cell_in in Hcj as (Hin & Hs1 & Hs2). rewrite <-Hlj.
    rewrite (Hoth cj offj); [done|done|done|]. congruence.
Qed.

(** A batch of sets that fit the declaration: published with its last values, or
    kept for the next layout. *)
Lemma fitting_write d si k sm der sets :
  io_wf d → cf_entry (io_cfg d) si k sm der → ss_inputs sm ≠ [] → Forall (fits sm) sets →
  Forall (wf_value ∘ snd) sets →
  match write_all d si sets with
  | Ok (d', _) =>
    io_wf d' ∧ io_cfg d' = io_cfg d ∧
    (∀ j v, final sets j = Some v → is_Some (ss_inputs sm !! j) → input_value d' si j = Some v) ∧
    (∀ sj j, sj ≠ si → input_value d' sj j = input_value d sj j)
  | Err (e, d') =>
    io_wf d' ∧ io_cfg d' = io_cfg d ∧ io_image d' = io_image d ∧
    (e = AeNoLayoutYet ∨ e = AeImage (ImNoInput si 1))
  | Panic => False
  end.
Proof.
  intros Hw He Hne Hfit Hwf. destruct (write_all_result d si _ Hw Hwf) as [Hr Hwf'].
  inversion Hr as [Hx|k1 sm1 der1 He1 Hx|k1 sm1 der1 pre set post e He1 Hset Hpre Hbad
    |k1 sm1 der1 buf buf' e He1 _ Hbuf Hb Hcase Heq|k1 sm1 der1 buf buf' img He1 _ Hbuf Hb Hpub Heq].
  - exfalso. apply Hx. destruct He as (_ & Hsm & _ & <- & _). apply list_elem_of_fmap_2.
    by eapply list_elem_of_lookup_2.
  - by destruct (cf_entry_inj _ _ _ _ _ _ _ _ He He1) as (_ & <- & _).
  - destruct (cf_entry_inj _ _ _ _ _ _ _ _ He He1) as (_ & <- & _). exfalso.
    rewrite Hset in Hfit. apply Forall_app in Hfit as [_ [Hf _]%list.Forall_cons].
    unfold bad_set, fits in *. destruct Hbad as [[? _]|(ty' & ? & ? & _)]; congruence.
  - split_and!; [by apply Hwf'|done|done|]. destruct Hcase as [[-> _]|[-> _]]; auto.
  - destruct (cf_entry_inj _ _ _ _ _ _ _ _ He He1) as (<- & <- & <-). destruct Hb as (Hl & _ & Hval).
    destruct He as (Hk' & Hsm' & Hd' & ?).
    pose proof (Forall2_lookup_lr _ _ _ _ _ _ (wf_inputs d Hw) Hd' Hbuf) as [Hlb _].
    destruct (published_values d si k sm der buf' img (<[k := buf']> (io_inputs d)) Hw He1) as [Hmine Hother];
      [cbn; lia|done|]. split_and!; [by apply Hwf'|done| |exact Hother].
    intros j v Hj [ty Hty]. pose proof (placed_lookup _ _ _ _ _ DrInput j He1) as Hp.
    cbn [declared placed] in Hp. rewrite Hty in Hp. destruct Hp as (f & Hf & _).
    eapply Hmine; [exact Hf|]. by rewrite (Hval j f Hf), Hj.
Qed.

(** One copy: the outputs of [so], taken in the state [d0], into the inputs of
    [si] in the state [d]. *)
Lemma copy_result d0 d so si s k sm der k' sm' der' ty n :
  io_wf d0 → outputs d0 so = Ok s → cf_entry (io_cfg d0) so k sm der →
  ss_outputs sm = replicate n ty →
  io_wf d → cf_entry (io_cfg d) si k' sm' der' → ss_inputs sm' = replicate n ty → n ≠ 0%nat →
  match write_all d si (copy_sets (snap_values s) 0 n) with
  | Ok (d', _) =>
    io_wf d' ∧ io_cfg d' = io_cfg d ∧
    (∀ j, (j < n)%nat → ∃ v, input_value d' si j = Some v ∧ io_read d0 so j = Ok v) ∧
    (∀ sj j, sj ≠ si → input_value d' sj j = input_value d sj j)
  | Err (e, d') =>
    io_wf d' ∧ io_cfg d' = io_cfg d ∧ io_image d' = io_image d ∧
    (e = AeNoLayoutYet ∨ e = AeImage (ImNoInput si 1))
  | Panic => False
  end.
Proof.
  intros Hw0 Hs He Ho Hw He' Hi Hn.
  pose proof (snapshot_values d0 so s k sm der ty n Hw0 Hs He Ho) as Hv.
  assert (∀ P : nat * Value → Prop, (∀ j, (j < n)%nat → P (j, snap_values s j)) →
    Forall P (copy_sets (snap_values s) 0 n)) as Hall.
  { intros P HP. apply Forall_fmap, Forall_seq. intros j Hj. apply HP. lia. }
  assert (ss_inputs sm' ≠ []) as Hne by (rewrite Hi; by destruct n).
  assert (Forall (fits sm') (copy_sets (snap_values s) 0 n)) as Hfit.
  { apply Hall. intros j Hj. destruct (Hv j Hj) as (_ & _ & Hty & _). unfold fits. cbn [fst snd].
    rewrite Hi, Hty. by apply lookup_replicate_2. }
  assert (Forall (wf_value ∘ snd) (copy_sets (snap_values s) 0 n)) as Hwf by (apply Hall; intros; by apply Hv).
  pose proof (fitting_write d si k' sm' der' _ Hw He' Hne Hfit Hwf) as Hr.
  destruct (write_all _ _ _) as [[d' []]|[e d']|]; [|done|done].
  destruct Hr as (? & ? & Hval & ?). split_and!; [done|done| |done]. intros j Hj.
  exists (snap_values s j). split; [|by apply Hv]. apply Hval; [apply final_copy; lia|].
  rewrite Hi, lookup_replicate_2 by done. by eexists.
Qed.

(** The errors of a snapshot of a declared slot. *)
Lemma outputs_result d slot k sm der :
  io_wf d → cf_entry (io_cfg d) slot k sm der → ss_outputs sm ≠ [] →
  match outputs d slot with
  | Ok _ => True
  | Err e => e = AeNoLayoutYet ∨ e = AeImage (ImNoOutput slot 1)
  | Panic => False
  end.
Proof.
  intros Hw He Hne. unfold outputs. rewrite (fields_of_entry d slot k sm der DrOutput He).
  cbn [declared]. destruct (ss_outputs sm) as [|ty tys]; [done|]. cbn [is_nil obind].
  unfold read_outputs. destruct (find_cell (io_image d) slot 1) as [c|e|] eqn:Hc; cbn [obind map_err].
  - destruct (ce_output_off c) as [off|] eqn:Hoff; cbn [ok_or obind map_err]; [|by right].
    destruct (image_cell d slot k sm der c DirOutput off Hw He Hc Hoff) as [_ Hb].
    cbn [cell_len cell_off] in Hb. rewrite decide_False by lia. unfold slice.
    by rewrite decide_True by lia.
  - apply find_cell_none in Hc as [-> _]. by left.
  - unfold find_cell in Hc. by destruct (List.find _ _).
Qed.

(** The submodules of the sample configuration. *)
Definition sample_specs : list SubmoduleSpec := bd_submodules (sample_slots (builder [])).

Lemma typed_config {X} station c : typed_sample_config (X := X) station = Ok c →
  cf_ok c ∧ cf_submodules c = sample_specs.
Proof.
  unfold typed_sample_config. intros H.
  match type of H with expect_Ok (build ?b) = _ => set (bd := b) in H end.
  destruct (build bd) as [c'|e|] eqn:Hb; cbn [expect_Ok] in H; [injection H as ->|done..].
  split; [eapply build_ok; [|exact Hb]; cbn; repeat constructor; by_decide|].
  unfold build in Hb. ok_inv. vm_compute. reflexivity.
Qed.

Lemma copy_with d si sets (cp : SlotWriter → outcome ApiError SlotWriter) :
  (∀ w, cp w = set_all w sets) → with_inputs d si (closure cp) = write_all d si sets.
Proof. intros H. apply with_inputs_ext. intros w. unfold closure. by rewrite H. Qed.

(** What the other threads may do to the shared state. *)
Definition env_ok (f : IoDevice → IoDevice) : Prop :=
  ∀ d, io_wf d → io_wf (f d) ∧ io_cfg (f d) = io_cfg d.

Definition copied (d0 : IoDevice) (so : Z) (d : IoDevice) (si : Z) (n : nat) : Prop :=
  ∀ j, (j < n)%nat → ∃ v, input_value d si j = Some v ∧ io_read d0 so j = Ok v.

(** The errors a cycle can report. *)
Definition cycle_error (e : ApiError) : Prop :=
  e = AeNoLayoutYet ∨ ∃ s, e = AeImage (ImNoOutput s 1) ∨ e = AeImage (ImNoInput s 1).

Lemma app_cycle_result {X} station env d :
  typed_sample_config (X := X) station = Ok (io_cfg d) → io_wf d → (∀ k, env_ok (env k)) →
  match run_app_cycle env d with
  | Ok d' =>
    io_wf d' ∧ io_cfg d' = io_cfg d ∧
    (outputs d 3 = Err AeNoLayoutYet ∧ d' = d ∨
     ∃ d1, copied d 3 d1 1 16 ∧
       (outputs (env 1%nat d1) 4 = Err AeNoLayoutYet ∧ d' = env 1%nat d1 ∨
        copied (env 1%nat d1) 4 d' 2 32 ∧
        ∀ j, input_value d' 1 j = input_value (env 2%nat (env 1%nat d1)) 1 j))
  | Err (e, d') => io_wf d' ∧ io_cfg d' = io_cfg d ∧ cycle_error e
  | Panic => False
  end.
Proof.
  intros Hst Hw Henv. destruct (typed_config station _ Hst) as [Hok Hsub].
  assert (∀ k sm, sample_specs !! k = Some sm → ∃ der, cf_entry (io_cfg d) (ss_slot sm) k sm der) as Hent
    by (intros k sm Hk; apply cf_entry_of; [done|by rewrite Hsub]).
  destruct (Hent 0%nat _ eq_refl) as [e1 E1]. destruct (Hent 1%nat _ eq_refl) as [e2 E2].
  destruct (Hent 2%nat _ eq_refl) as [e3 E3]. destruct (Hent 3%nat _ eq_refl) as [e4 E4].
  clear Hent. unfold run_app_cycle.
  pose proof (outputs_result d 3 _ _ _ Hw E3 ltac:(done)) as Ho.
  destruct (outputs d 3) as [snap|e|] eqn:Hs; [|destruct Ho as [-> | ->]; unfold cycle_error; eauto 10|done].
  destruct (Henv 0%nat d Hw) as [Hw0 Hc0].
  rewrite (copy_with _ 1 (copy_sets (snap_values snap) 0 16)).
  2:{ intros w. apply copy_reals_sets. intros j Hj.
      by destruct (snapshot_values d 3 snap _ _ _ FtReal 16 Hw Hs E3 eq_refl j ltac:(lia)) as (? & _ & ? & _). }
  pose proof E1 as E1'. rewrite <-Hc0 in E1'.
  pose proof (copy_result d (env 0%nat d) 3 1 snap _ _ _ _ _ _ FtReal 16 Hw Hs E3 eq_refl Hw0 E1' eq_refl
    ltac:(done)) as H1.
  destruct (write_all _ 1 _) as [[d1 []]|[e d1]|]; cbn [obind]; [|..|done].
  2:{ destruct H1 as (? & Hc & _ & He). split_and!; [done|congruence|]. unfold cycle_error. naive_solver. }
  destruct H1 as (Hw1 & Hc1 & Hcp1 & _). destruct (Henv 1%nat d1 Hw1) as [Hw2 Hc2].
  assert (io_cfg (env 1%nat d1) = io_cfg d) as Hcd by congruence.
  pose proof E4 as E4'. rewrite <-Hcd in E4'. pose proof E2 as E2'. rewrite <-Hcd in E2'.
  pose proof (outputs_result (env 1%nat d1) 4 _ _ _ Hw2 E4' ltac:(done)) as Ho2.
  destruct (outputs (env 1%nat d1) 4) as [bits|e|] eqn:Hs2; [|destruct Ho2 as [-> | ->]|done].
  2:{ split_and!; [done|done|]. right. exists d1. split; [done|by left]. }
  2:{ split_and!; [done|done|]. unfold cycle_error. naive_solver. }
  destruct (Henv 2%nat _ Hw2) as [Hw3 Hc3].
  rewrite (copy_with _ 2 (copy_sets (snap_values bits) 0 32)).
  2:{ intros w. apply copy_bools_sets. intros j Hj.
      by destruct (snapshot_values _ 4 bits _ _ _ FtBool 32 Hw2 Hs2 E4' eq_refl j ltac:(lia)) as (? & _ & ? & _). }
  rewrite <-Hc3 in E2'.
  pose proof (copy_result (env 1%nat d1) (env 2%nat (env 1%nat d1)) 4 2 bits _ _ _ _ _ _ FtBool 32 Hw2 Hs2 E4'
    eq_refl Hw3 E2' eq_refl ltac:(done)) as H2.
  destruct (write_all _ 2 _) as [[d2 []]|[e d2]|]; cbn [obind]; [|..|done].
  - destruct H2 as (Hw4 & Hc4 & Hcp2 & Hkeep). split_and!; [done|congruence|]. right. exists d1.
    split; [done|]. right. split; [done|]. intros j. by apply Hkeep.
  - destruct H2 as (? & Hc & _ & He). split_and!; [done|congruence|]. unfold cycle_error. naive_solver.
Qed.

(** ** The loop and its diagnoses *)

(** The diagnoses whose slot the device has. *)
Definition known (c : DeviceConfig) (diags : list DiagSpec) : list DiagSpec :=
  List.filter (λ s, bool_decide (is_Some (cf_index_of c (dsp_slot s)))) diags.

Lemma push_command_wf d cmd : io_wf d → io_wf (push_command d cmd).
Proof. intros [? ? ? ?]. by split. Qed.

Lemma cf_submodule_cases {X} c slot : cf_ok c →
  (∃ sm, cf_submodule (E := X) c slot = Ok (Some sm) ∧ is_Some (cf_index_of c slot)) ∨
  (cf_submodule (E := X) c slot = Ok None ∧ cf_index_of c slot = None).
Proof.
  intros Hc. unfold cf_submodule. destruct (cf_index_of c slot) as [i|] eqn:Hi; [left|by right].
  destruct (cf_index_of_entry c slot i Hc Hi) as (sm & d & _ & Hsm & _). exists sm. unfold idx.
  rewrite Hsm. by split.
Qed.

Lemma raise_all_spec {X} diags : ∀ d sent, io_wf d →
  ∃ d', raise_all (X := X) d sent diags = Ok (d', sent ++ (raise_cmd <$> known (io_cfg d) diags)) ∧
    io_wf d' ∧ io_cfg d' = io_cfg d ∧ io_image d' = io_image d.
Proof.
  induction diags as [|s diags IH]; intros d sent Hw; [exists d; by rewrite app_nil_r|].
  cbn [raise_all]. unfold raise_diagnosis, known. cbn [List.filter].
  destruct (cf_submodule_cases (X := ApiError) (io_cfg d) (dsp_slot s) (wf_cfg d Hw)) as [(sm & -> & Hk)|[-> Hk]];
    cbn [obind ok_or].
  - rewrite bool_decide_true by done.
    match goal with |- context [push_command d ?cmd] => change cmd with (raise_cmd s) end.
    destruct (IH (push_command d (raise_cmd s)) (sent ++ [raise_cmd s]) (push_command_wf d _ Hw)) as (d' & -> & ?).
    exists d'. split; [|done]. by rewrite <-app_assoc.
  - rewrite bool_decide_false by (rewrite Hk; by intros []). by apply IH.
Qed.

Lemma clear_all_spec {X} diags : ∀ d sent, io_wf d →
  ∃ d', clear_all (X := X) d sent diags = Ok (d', sent ++ (clear_cmd <$> known (io_cfg d) diags)) ∧
    io_wf d' ∧ io_cfg d' = io_cfg d.
Proof.
  induction diags as [|s diags IH]; intros d sent Hw; [exists d; by rewrite app_nil_r|].
  cbn [clear_all]. unfold clear_diagnosis, known. cbn [List.filter].
  destruct (cf_submodule_cases (X := ApiError) (io_cfg d) (dsp_slot s) (wf_cfg d Hw)) as [(sm & -> & Hk)|[-> Hk]];
    cbn [obind ok_or].
  - rewrite bool_decide_true by done. change (DcClear _ _ _) with (clear_cmd s).
    destruct (IH (push_command d (clear_cmd s)) (sent ++ [clear_cmd s]) (push_command_wf d _ Hw)) as (d' & -> & ?).
    exists d'. split; [|done]. by rewrite <-app_assoc.
  - rewrite bool_decide_false by (rewrite Hk; by intros []). by apply IH.
Qed.

(** An environment in which the other threads keep the invariant. *)
Definition typed_env_ok (env : TypedEnv) : Prop :=
  env_ok (te_before env) ∧ env_ok (te_mid env) ∧ (∀ k, env_ok (te_cycle env k)) ∧ env_ok (te_late env).

Definition loop_inv (a : TypedArgs) (c : DeviceConfig) (st : TypedLoop) : Prop :=
  io_wf (tl_dev st) ∧ io_cfg (tl_dev st) = c ∧
  tl_sent st = if tl_diags_raised st then raise_cmd <$> known c (ta_diags a) else [].

Lemma typed_step_inv {X Y} a c started env st :
  typed_sample_config (X := Y) (ta_station a) = Ok c → typed_env_ok env → loop_inv a c st →
  ∃ st', typed_step (X := X) a started env st = Ok st' ∧ loop_inv a c st' ∧
    tl_diags_raised st' = tl_diags_raised st || ready (te_before env (tl_dev st)) ∧
    tl_stop st' = tl_stop st || te_signal env ||
      bool_decide (0 < ta_duration a ∧ ta_duration a * SECOND ≤ te_now env 5%nat - started).
Proof.
  intros Hst (Hb & Hm & Hcy & Hla) (Hw & Hc & Hsent). unfold typed_step.
  destruct (Hb _ Hw) as [Hwb Hcb]. set (dev := te_before env (tl_dev st)) in *.
  assert (∃ d sent r, (if negb (tl_diags_raised st) && ready dev then
      let! (d, s) := raise_all (X := X) dev (tl_sent st) (ta_diags a) in Ok (d, s, true)
    else Ok (dev, tl_sent st, tl_diags_raised st)) = Ok (d, sent, r) ∧ io_wf d ∧ io_cfg d = c ∧
    r = tl_diags_raised st || ready dev ∧
    sent = if r then raise_cmd <$> known c (ta_diags a) else []) as (d & sent & r & -> & Hwd & Hcd & -> & ->).
  { destruct (tl_diags_raised st) eqn:Hr; cbn [negb andb orb].
    - exists dev, (tl_sent st), true. split_and!; [done|done|congruence|done|done].
    - destruct (ready dev); cbn [orb].
      + destruct (raise_all_spec (X := X) (ta_diags a) dev (tl_sent st) Hwb) as (d & -> & ? & ? & _).
        cbn [obind]. eexists d, _, true. split_and!; [done|done|congruence|done|]. rewrite Hsent.
        cbn. by rewrite Hcb, Hc.
      + exists dev, (tl_sent st), false. split_and!; [done|done|congruence|done|done]. }
  cbn [obind]. destruct (Hm d Hwd) as [Hwm Hcm].
  assert (io_cfg (te_mid env d) = c) as Hcm' by congruence.
  pose proof (app_cycle_result (X := Y) (ta_station a) (te_cycle env) (te_mid env d)
    ltac:(by rewrite Hcm') Hwm Hcy) as Hcyc.
  assert (∃ d2 le, match run_app_cycle (te_cycle env) (te_mid env d) with
    | Ok dev => Ok (E := X) (dev, tl_last_err_log st)
    | Err (_, dev) => Ok (dev, if decide (SECOND ≤ te_now env 0 - tl_last_err_log st) then te_now env 1
                               else tl_last_err_log st)
    | Panic => Panic end = Ok (d2, le) ∧ io_wf d2 ∧ io_cfg d2 = c) as (d2 & le & -> & Hw2 & Hc2).
  { destruct (run_app_cycle _ _) as [d2|[e d2]|]; [| |done]; destruct Hcyc as (? & ? & _);
      eexists _, _; (split_and!; [done|done|congruence]). }
  cbn [obind]. destruct (Hla d2 Hw2) as [Hwl Hcl].
  case_decide; (eexists; split; [done|]); (split_and!; [|done|done]);
    unfold loop_inv; cbn [tl_dev tl_sent tl_diags_raised]; (split_and!; [done|congruence|done]).
Qed.

Lemma typed_loop_inv {X Y} a c started envs : ∀ st,
  typed_sample_config (X := Y) (ta_station a) = Ok c → Forall typed_env_ok envs → loop_inv a c st →
  ∃ st', typed_loop (X := X) a started envs st = Ok st' ∧ loop_inv a c st' ∧
    (tl_diags_raised st = true → tl_diags_raised st' = true).
Proof.
  induction envs as [|env envs IH]; intros st Hst He Hi.
  { cbn. exists st. by destruct (tl_stop st). }
  cbn [typed_loop]. destruct (tl_stop st); [by exists st|]. apply list.Forall_cons in He as [He Hes].
  destruct (typed_step_inv (X := X) a c started env st Hst He Hi) as (st1 & -> & Hi1 & Hr1 & _). cbn [obind].
  destruct (IH st1 Hst Hes Hi1) as (st2 & -> & Hi2 & Hr2). exists st2. split_and!; [done|done|].
  intros Hr. apply Hr2. by rewrite Hr1, Hr.
Qed.

(** The state in which the loop is entered. *)
Definition typed_start (d : IoDevice) (now : Z) (csv : option (list Z)) : TypedLoop :=
  {| tl_dev := d; tl_stop := false; tl_last_ar_state := io_ar_state d; tl_last_log := now;
     tl_last_err_log := now - SECOND; tl_csv := csv; tl_diags_raised := false; tl_sent := [] |}.

(** C17: the program raises every diagnosis of its command line once and clears
    it before it stops.  However the other threads interleave, the loop never
    panics; until an iteration finds the device ready no command is queued;
    from then on exactly one raise for every diagnosis with a known slot has
    been queued, in order, however often the AR comes and goes; and the
    shutdown queues exactly one clear for each of them behind that.  An
    iteration that ends at or after the duration, or during which a signal
    arrived, is the last. *)
Theorem diagnoses_raised_once a c started envs d csv :
  typed_sample_config (X := Empty_set) (ta_station a) = Ok c → io_wf d → io_cfg d = c →
  Forall typed_env_ok envs →
  ∃ st dev,
    typed_loop (X := Empty_set) a started envs (typed_start d started csv) = Ok st ∧
    tl_sent st = (if tl_diags_raised st then raise_cmd <$> known c (ta_diags a) else []) ∧
    clear_all (X := Empty_set) (tl_dev st) (tl_sent st) (ta_diags a) =
      Ok (dev, tl_sent st ++ (clear_cmd <$> known c (ta_diags a))) ∧ io_wf dev ∧
    ∀ env, typed_env_ok env → ∃ st',
      typed_step (X := Empty_set) a started env st = Ok st' ∧
      tl_diags_raised st' = tl_diags_raised st || ready (te_before env (tl_dev st)) ∧
      (te_signal env = true ∨ 0 < ta_duration a ∧ ta_duration a * SECOND ≤ te_now env 5%nat - started →
       ∀ envs', typed_loop (X := Empty_set) a started envs' st' = Ok st').
Proof.
  intros Hst Hw Hc He.
  destruct (typed_loop_inv (X := Empty_set) a c started envs (typed_start d started csv) Hst He)
    as (st & Hl & Hi & _); [by split_and!|]. pose proof Hi as (Hws & Hcs & Hsent).
  destruct (clear_all_spec (X := Empty_set) (ta_diags a) (tl_dev st) (tl_sent st) Hws) as (dev & Hcl & Hwd & _).
  exists st, dev. rewrite Hcs in Hcl. split_and!; [done..|]. intros env Hev.
  destruct (typed_step_inv (X := Empty_set) a c started env st Hst Hev Hi) as (st' & Hs & _ & Hr & Hstop).
  exists st'. split_and!; [done..|]. intros Hend envs'.
  assert (tl_stop st' = true) as Hst'.
  { rewrite Hstop. destruct Hend as [-> |Hend]; [by rewrite orb_true_r|].
    by rewrite bool_decide_true, orb_true_r by done. }
  destruct envs'; cbn; by rewrite Hst'.
Qed.

(** C16: the bring-up application mirrors the controller's outputs bit for bit.
    For the sample configuration, whatever the other threads do between its
    accesses: a cycle that succeeds either found no layout and changed nothing,
    or left in the inputs of slot 1 exactly the sixteen REALs that the snapshot
    of slot 3 held and, unless the layout went away in between, in those of
    slot 2 the thirty-two BOOLs of slot 4, without disturbing slot 1; the only
    errors are a missing layout or a slot the AR does not exchange, and nothing
    panics. *)
Theorem app_cycle_mirrors station env d :
  typed_sample_config (X := Empty_set) station = Ok (io_cfg d) → io_wf d → (∀ k, env_ok (env k)) →
  match run_app_cycle env d with
  | Ok d' =>
    io_wf d' ∧ io_cfg d' = io_cfg d ∧
    (outputs d 3 = Err AeNoLayoutYet ∧ d' = d ∨
     ∃ d1, copied d 3 d1 1 16 ∧
       (outputs (env 1%nat d1) 4 = Err AeNoLayoutYet ∧ d' = env 1%nat d1 ∨
        copied (env 1%nat d1) 4 d' 2 32 ∧
        ∀ j, input_value d' 1 j = input_value (env 2%nat (env 1%nat d1)) 1 j))
  | Err (e, d') => io_wf d' ∧ io_cfg d' = io_cfg d ∧ cycle_error e
  | Panic => False
  end.
Proof. apply app_cycle_result. Qed.

(** ** A connected device *)

Definition bring_config : DeviceConfig :=
  match typed_sample_config (X := Empty_set) (ascii_bytes "pnio-dev") with Ok c => c | _ => sample_config end.
Lemma bring_config_eq : typed_sample_config (X := Empty_set) (ascii_bytes "pnio-dev") = Ok bring_config.
Proof. vm_compute. reflexivity. Qed.

Definition bring_cr (frame_id : Z) (data iocs : list IocrObject) : IocrParams :=
  {| ip_reference := 1; ip_frame_id := frame_id; ip_data_length := 80; ip_send_clock_factor := 32;
     ip_reduction_ratio := 1; ip_watchdog_factor := 3; ip_data_hold_factor := 3;
     ip_io_data := data; ip_iocs := iocs |}.
Definition bring_params : ArParams := {|
  ap_ar_uuid := sample_uuid 7; ap_session_key := 3; ap_initiator_mac := sample_mac;
  ap_initiator_object_uuid := sample_uuid 9; ap_activity_timeout_factor := 600;
  ap_input_cr := bring_cr 0x8001 [at_off 1 0; at_off 2 65] [at_off 3 70; at_off 4 71];
  ap_output_cr := bring_cr 0x8002 [at_off 3 0; at_off 4 65] [at_off 1 70; at_off 2 71];
  ap_alarm_ref_remote := 1; ap_max_alarm_data_length := 200;
  ap_max_alarm_data_length_remote := 200; ap_rta_timeout_factor := 1; ap_rta_retries := 3;
  ap_alarm_ref_local := 0; ap_alarm_tag_high := 0xC000; ap_alarm_tag_low := 0xA000 |}.
Definition bring_layout : Layout :=
  match Layout_from_ar bring_params (cf_model bring_config sample_mac) with Ok la => la | _ => sample_layout end.
Lemma bring_layout_ok : Layout_from_ar bring_params (cf_model bring_config sample_mac) = Ok bring_layout.
Proof. vm_compute. reflexivity. Qed.

(** A connected handle whose controller has sent data. *)
Definition bring_image : IoImage :=
  {| im_cells := la_cells bring_layout; im_inputs := replicate 80 0;
     im_csdu := [63; 128; 0; 0; 127; 192; 0; 1] ++ replicate 57 0 ++ [5; 0; 0; 128] ++ replicate 11 0;
     im_validity := Validity_default |}.
Definition bring_handle : IoDevice :=
  {| io_cfg := bring_config; io_image := bring_image; io_stats := RtStats_default;
     io_state := (Data, None); io_stop := false;
     io_inputs := [replicate 64 0; replicate 4 0; []; []]; io_params := Some bring_params;
     io_diag := DiagShared_default |}.

Lemma bring_handle_wf : io_wf bring_handle.
Proof.
  split.
  - by apply (typed_config (X := Empty_set) (ascii_bytes "pnio-dev")), bring_config_eq.
  - by_decide.
  - split_and!; [by_decide..|]. right. exists bring_params, sample_mac, bring_layout.
    split; [apply bring_layout_ok|split; vm_compute; reflexivity].
  - by_decide.
Qed.

Lemma app_cycle_mirrors_witness :
  match run_app_cycle (λ _ d, d) bring_handle with
  | Ok d' =>
    io_wf d' ∧ input_value d' 1 0 = Some (VReal 0x3F800000) ∧ input_value d' 1 1 = Some (VReal 0x7FC00001) ∧
    input_value d' 2 2 = Some (VBool true) ∧ input_value d' 2 31 = Some (VBool true)
  | _ => False
  end.
Proof.
  pose proof (app_cycle_mirrors (ascii_bytes "pnio-dev") (λ _ d, d) bring_handle bring_config_eq
    bring_handle_wf (λ _ _ H, conj H eq_refl)) as H.
  destruct (run_app_cycle _ bring_handle) as [d'|[e d']|] eqn:Hr; [|vm_compute in Hr; discriminate Hr..].
  split; [apply H|]. vm_compute in Hr. injection Hr as <-. vm_compute. done.
Defined.

Definition quiet_env (now : Z) : TypedEnv :=
  {| te_before := λ d, d; te_mid := λ d, d; te_cycle := λ _ d, d; te_late := λ d, d;
     te_now := λ _, now; te_written := 1000; te_signal := false |}.

Lemma quiet_env_ok now : typed_env_ok (quiet_env now).
Proof. assert (env_ok (λ d, d)) by (by intros d Hd). by split_and!. Qed.

Lemma diagnoses_raised_once_witness :
  let a := {| ta_station := ascii_bytes "pnio-dev"; ta_stats_every := 5; ta_duration := 1;
              ta_thresholds := {| th_max_lateness_us := 300; th_p9999_lateness_us := 100; th_max_rx_interval_us := 1500 |};
              ta_diags := [{| dsp_slot := 2; dsp_channel := 3; dsp_error := LineBreak |};
                           {| dsp_slot := 9; dsp_channel := 0; dsp_error := LineBreak |}] |} in
  ∃ st, typed_loop (X := Empty_set) a 0 [quiet_env 1000; quiet_env 2000; quiet_env SECOND; quiet_env 5]
          (typed_start bring_handle 0 None) = Ok st ∧
    tl_stop st = true ∧ tl_sent st = [raise_cmd {| dsp_slot := 2; dsp_channel := 3; dsp_error := LineBreak |}].
Proof.
  intros a.
  destruct (diagnoses_raised_once a bring_config 0
    [quiet_env 1000; quiet_env 2000; quiet_env SECOND; quiet_env 5] bring_handle None
    bring_config_eq bring_handle_wf eq_refl) as (st & dev & Hl & Hs & _).
  { repeat (apply List.Forall_cons; [apply quiet_env_ok|]). apply List.Forall_nil. }
  exists st. split; [done|]. clear Hs. vm_compute in Hl. injection Hl as <-. split; reflexivity.
Defined.

(** ** [rt_bringup] and [ar_bringup] *)

(** The set-up both programs give the device; [rt] is what [rt_bringup] adds. *)
Definition bringup_setup (name : list Z) (ip : list Z) (mac : MacAddr) (rt : option RtOptions) : DeviceSetup :=
  let m := pnet_sample mac in
  {| su_dcp := {| dc_mac := mac; dc_properties :=
       {| dp_name_of_station := name; dp_type_of_station := ascii_bytes "pnio bring-up";
          dp_vendor_id := 0x0493; dp_device_id := 0x0002; dp_device_role := 0x0100;
          dp_device_instance := 1; dp_device_options := [1; 2; 2; 2; 2; 3]; dp_ip := ip;
          dp_subnet := [255; 255; 255; 0]; dp_gateway := ip; dp_ip_block_info := 1 |} |};
     su_model := {| dm_vendor_id := dm_vendor_id m; dm_device_id := dm_device_id m;
       dm_instance := dm_instance m; dm_station_name := name; dm_mac := dm_mac m;
       dm_max_alarm_data_length := dm_max_alarm_data_length m; dm_slots := dm_slots m |};
     su_activity_seed :=
       MkUuid ([0x14; 0xaf; 0x19; 0x8a; 0x12; 0x34; 0x10; 0x56; 0x80; 0x79] ++ mac_octets mac);
     su_rt := rt; su_im0 := Im0_default; su_im_store := None |}.

(** examples/linux/rt_bringup.rs:132-169 main *)
Definition rt_setup (name ip : list Z) (mac : MacAddr) (iface : string) (cpu rt_priority : option Z)
    (lock_memory : bool) : DeviceSetup :=
  bringup_setup name ip mac (Some {| ro_iface := iface; ro_cpu_pin := cpu; ro_rt_priority := rt_priority;
                                     ro_lock_memory := lock_memory |}).
(** examples/linux/ar_bringup.rs:57-89 main *)
Definition ar_setup (name ip : list Z) (mac : MacAddr) : DeviceSetup := bringup_setup name ip mac None.

(** One mirror of the cycle: read the outputs of [so], take what [pick] takes of
    them, write it to the inputs of [si]; the image is what it was if the read
    failed.  [env] is what the other threads did in between. *)
Definition mirror_slot (env : IoImage → IoImage) (pick : list Z → outcome ImageError (list Z)) (so si : Z)
    (img : IoImage) : IoImage * outcome ImageError unit :=
  match read_outputs img so 1 (λ b _, pick b) with
  | Ok (Ok v) =>
    match write_inputs (env img) si 1 v with
    | Ok img => (img, Ok tt)
    | Err e => (env img, Err e)
    | Panic => (env img, Panic)
    end
  | Ok (Err e) | Err e => (img, Err e)
  | Ok Panic | Panic => (img, Panic)
  end.

(** [&[b[0]]] and [b.to_vec()] *)
Definition first_octet (b : list Z) : outcome ImageError (list Z) := let! x := idx b 0 in Ok [x].
Definition all_octets (b : list Z) : outcome ImageError (list Z) := Ok b.

(** The three results and the image; [env] gives the other threads between any
    two accesses. *)
(** examples/linux/rt_bringup.rs:289-304 run_app_cycle *)
Definition rt_app_cycle (env : nat → IoImage → IoImage) (img : IoImage) :
    IoImage * list (outcome ImageError unit) :=
  let (img, r1) := mirror_slot (env 0%nat) first_octet 2 1 img in
  let (img, r2) := mirror_slot (env 2%nat) first_octet 3 3 (env 1%nat img) in
  let (img, r3) := mirror_slot (env 4%nat) all_octets 4 4 (env 3%nat img) in
  (img, [r1; r2; r3]).

(** The image of the programs' device: no layout, or one for its model. *)
Definition rt_image (img : IoImage) : Prop :=
  im_cells img = [] ∨
  ∃ params name ip mac rt la,
    Layout_from_ar params (su_model (bringup_setup name ip mac rt)) = Ok la ∧ im_ok la img.

Lemma bringup_unique name ip mac rt : unique_keys (su_model (bringup_setup name ip mac rt)).
Proof. change (unique_keys (pnet_sample sample_mac)). by_decide. Qed.

(** The lengths of the model's submodules: (input, output). *)
Definition bringup_lens (slot : Z) : nat * nat :=
  if decide (slot = 1) then (1, 0)%nat else if decide (slot = 2) then (0, 1)%nat
  else if decide (slot = 3) then (1, 1)%nat else if decide (slot = 4) then (8, 8)%nat else (0, 0)%nat.

Lemma bringup_cell img slot c dir off :
  rt_image img → find_cell img slot 1 = Ok c → cell_off dir c = Some off →
  ce_input_len c = (bringup_lens slot).1 ∧ ce_output_len c = (bringup_lens slot).2 ∧
  (off + cell_len dir c ≤
     length (match dir with DirInput => im_inputs | DirOutput => im_csdu end img))%nat.
Proof.
  intros Hi Hf Hoff. apply find_cell_in in Hf as (Hin & Hs & Hss).
  destruct Hi as [Hn|(params & name & ip & mac & rt & la & Hla & [Hcells Hl1 Hl2])];
    [by rewrite Hn in Hin; apply not_elem_of_nil in Hin|].
  rewrite Hcells in Hin.
  pose proof (cell_in_bounds _ _ _ dir _ _ Hla (bringup_unique name ip mac rt) Hin Hoff) as Hb.
  assert (ce_input_len c = (bringup_lens slot).1 ∧ ce_output_len c = (bringup_lens slot).2) as [H1 H2].
  { unfold Layout_from_ar in Hla. apply obind_Ok in Hla as (icr & _ & Hla).
    apply obind_Ok in Hla as (ocr & _ & [= <-]). cbn [la_cells] in Hin.
    unfold make_cells in Hin. cbn in Hin. subst slot.
    repeat (apply elem_of_cons in Hin as [->|Hin]; [done|]). by apply not_elem_of_nil in Hin. }
  split_and!; [done|done|]. destruct dir; cbn in *; lia.
Qed.

(** What a mirror may do to another thread's view: the image stays one of the
    device's. *)
Definition img_env_ok (f : IoImage → IoImage) : Prop := ∀ img, rt_image img → rt_image (f img).

Definition out_region (img : IoImage) (slot : Z) : option (list Z) :=
  match find_cell img slot 1 with
  | Ok c => off ← ce_output_off c; Some (region off (ce_output_len c) (im_csdu img))
  | _ => None
  end.
Definition in_region (img : IoImage) (slot : Z) : option (list Z) :=
  match find_cell img slot 1 with
  | Ok c => off ← ce_input_off c; Some (region off (ce_input_len c) (im_inputs img))
  | _ => None
  end.

Lemma mirror_slot_spec env pick so si img :
  rt_image img → img_env_ok env →
  (∀ b, length b = (bringup_lens so).2 → pick b = Ok b) → (bringup_lens so).2 = (bringup_lens si).1 →
  let '(img', r) := mirror_slot env pick so si img in
  rt_image img' ∧
  match r with
  | Ok _ => ∃ b, out_region img so = Some b ∧ in_region img' si = Some b ∧ im_csdu img' = im_csdu (env img)
  | Err e => e ∈ [ImUnknownSubmodule so 1; ImNoOutput so 1; ImUnknownSubmodule si 1; ImNoInput si 1]
  | Panic => False
  end.
Proof.
  intros Hi He Hp Hlen. unfold mirror_slot, read_outputs, out_region.
  destruct (find_cell img so 1) as [c|e|] eqn:Hc; cbn [obind];
    [|apply find_cell_none in Hc as [-> _]; split; [done|left]|unfold find_cell in Hc; by destruct (List.find _ _)].
  destruct (ce_output_off c) as [off|] eqn:Hoff; cbn [ok_or obind]; [|split; [done|right; left]].
  destruct (bringup_cell img so c DirOutput off Hi Hc Hoff) as (_ & Hcl & Hb). cbn [cell_len] in Hb.
  rewrite decide_False by lia. unfold slice. rewrite decide_True by lia. cbn [obind].
  replace (take (off + ce_output_len c - off) (drop off (im_csdu img)))
    with (region off (ce_output_len c) (im_csdu img)) by (unfold region; f_equal; lia).
  set (b := region off (ce_output_len c) (im_csdu img)).
  assert (length b = (bringup_lens so).2) as Hbl.
  { unfold b, region. rewrite length_take, length_drop. lia. }
  rewrite Hp by done. specialize (He img Hi). unfold write_inputs.
  destruct (find_cell (env img) si 1) as [c'|e|] eqn:Hc'; cbn [obind];
    [|apply find_cell_none in Hc' as [-> _]; split; [done|do 2 right; left]
    |unfold find_cell in Hc'; by destruct (List.find _ _)].
  destruct (ce_input_off c') as [off'|] eqn:Hoff'; cbn [ok_or obind]; [|split; [done|do 3 right; left]].
  destruct (bringup_cell (env img) si c' DirInput off' He Hc' Hoff') as (Hcl' & _ & Hb'). cbn [cell_len] in Hb'.
  rewrite decide_False by lia. rewrite decide_False by lia.
  destruct (copy_at (E := ImageError) (im_inputs (env img)) off' b) as [ins|e|] eqn:Hcopy; cbn [obind].
  2,3: exfalso; revert Hcopy; unfold copy_at; rewrite decide_True by lia; done.
  pose proof (copy_at_length _ _ _ _ Hcopy) as Hlc. split.
  - destruct He as [Hn|(params & name & ip & mac & rt & la & Hla & [Hcells Hl1 Hl2])]; [by left|right].
    exists params, name, ip, mac, rt, la. split; [done|]. split; cbn; [done|congruence|done].
  - exists b. split_and!; [done| |done]. unfold in_region.
    rewrite (find_cell_ext (env img)), Hc' by done. rewrite Hoff'. cbn [mbind option_bind im_inputs].
    f_equal. replace (ce_input_len c') with (length b) by lia. by eapply region_copy.
Qed.

(** The state of the application thread of [rt_bringup]. *)
(** examples/linux/rt_bringup.rs:192-197 main *)
Record RtLoop := {
  rl_image : IoImage; rl_stats : RtStats; rl_stop : bool; rl_last_log : Z; rl_last_err_log : Z;
  rl_csv : option (list Z)
}.

(** What an iteration meets; the clock is read for every result that is logged. *)
Record RtEnv := {
  re_before : IoImage → IoImage; re_cycle : nat → IoImage → IoImage; re_stats : RtStats;
  re_err : nat → Z * Z; re_now : nat → Z; re_written : nat; re_signal : bool
}.

(** A missing submodule is retried silently; other errors are logged at most
    once a second.  A result that is a panic ends the thread. *)
(** examples/linux/rt_bringup.rs:199-211 main *)
Fixpoint log_results {X} (clock : nat → Z * Z) (k : nat) (last : Z) (rs : list (outcome ImageError unit)) :
    outcome X Z :=
  match rs with
  | [] => Ok last
  | Ok _ :: rs | Err (ImUnknownSubmodule _ _) :: rs => log_results clock (S k) last rs
  | Err _ :: rs =>
    let (elapsed_at, now) := clock k in
    log_results clock (S k) (if decide (SECOND ≤ elapsed_at - last) then now else last) rs
  | Panic :: _ => Panic
  end.

(** One iteration, entered with the stop flag clear. *)
(** examples/linux/rt_bringup.rs:198-250 main *)
Definition rt_step {X} (stats_every duration started : Z) (env : RtEnv) (st : RtLoop) : outcome X RtLoop :=
  let (img, rs) := rt_app_cycle (re_cycle env) (re_before env (rl_image st)) in
  let! last_err_log := log_results (re_err env) 0 (rl_last_err_log st) rs in
  let '(csv, last_log) :=
    if decide (stats_every * SECOND ≤ re_now env 0 - rl_last_log st) then
      ((λ text, text ++ take (re_written env) (csv_row ((re_now env 1 - started) / SECOND) (re_stats env)))
         <$> rl_csv st, re_now env 2)
    else (rl_csv st, rl_last_log st) in
  let reached := bool_decide (0 < duration ∧ duration * SECOND ≤ re_now env 3 - started) in
  Ok {| rl_image := img; rl_stats := re_stats env; rl_stop := rl_stop st || re_signal env || reached;
        rl_last_log := last_log; rl_last_err_log := last_err_log; rl_csv := csv |}.

(** examples/linux/rt_bringup.rs:271-286 main *)
Definition rt_exit {E} (thresholds : Thresholds) (stats : RtStats) (run_result : outcome E unit) : Z :=
  let pass := rt_verdict stats thresholds in
  match run_result with
  | Err _ => 1
  | _ => if pass then 0 else 1
  end.

Definition rt_env_ok (env : RtEnv) : Prop :=
  img_env_ok (re_before env) ∧ ∀ k, img_env_ok (re_cycle env k).

Lemma rt_cycle_spec env img :
  rt_image img → (∀ k, img_env_ok (env k)) →
  ∃ i1 i2 img' r1 r2 r3, rt_app_cycle env img = (img', [r1; r2; r3]) ∧ rt_image img' ∧
    Forall no_panic [r1; r2; r3] ∧
    (r1 = Ok tt → ∃ b, out_region img 2 = Some b ∧ in_region i1 1 = Some b) ∧
    (r2 = Ok tt → ∃ b, out_region (env 1%nat i1) 3 = Some b ∧ in_region i2 3 = Some b) ∧
    (r3 = Ok tt → ∃ b, out_region (env 3%nat i2) 4 = Some b ∧ in_region img' 4 = Some b).
Proof.
  intros Hi He. unfold rt_app_cycle.
  assert (∀ b, length b = 1%nat → first_octet b = Ok b) as Hf by (intros [|x [|y b]]; done).
  pose proof (mirror_slot_spec (env 0%nat) first_octet 2 1 img Hi (He _) Hf eq_refl) as H1.
  destruct (mirror_slot _ _ 2 1 img) as [i1 r1]. destruct H1 as [Hi1 H1].
  pose proof (mirror_slot_spec (env 2%nat) first_octet 3 3 (env 1%nat i1) (He _ _ Hi1) (He _) Hf eq_refl) as H2.
  destruct (mirror_slot _ _ 3 3 _) as [i2 r2]. destruct H2 as [Hi2 H2].
  pose proof (mirror_slot_spec (env 4%nat) all_octets 4 4 (env 3%nat i2) (He _ _ Hi2) (He _) (λ _ _, eq_refl) eq_refl) as H3.
  destruct (mirror_slot _ _ 4 4 _) as [i3 r3]. destruct H3 as [Hi3 H3].
  exists i1, i2, i3, r1, r2, r3. split_and!; [done|done| |..].
  - repeat (apply List.Forall_cons; [by intros ->|]). apply List.Forall_nil.
  - intros ->. destruct H1 as (b & ? & ? & _). eauto.
  - intros ->. destruct H2 as (b & ? & ? & _). eauto.
  - intros ->. destruct H3 as (b & ? & ? & _). eauto.
Qed.

Lemma log_results_total {X} clock rs : ∀ k last,
  Forall no_panic rs → ∃ t, log_results (X := X) clock k last rs = Ok t.
Proof.
  induction rs as [|r rs IH]; intros k last H; cbn [log_results]; [by eexists|].
  apply list.Forall_cons in H as [Hr H]. destruct r as [[]|[]|]; [..|done];
    try (apply IH; done); destruct (clock k); by apply IH.
Qed.

(** The application thread of [rt_bringup] never panics and copies the octets
    of slots 2, 3 and 4 into the inputs of slots 1, 3 and 4, each on its own,
    whatever the other threads do in between. *)
Theorem rt_application_mirrors {X} stats_every duration started env st :
  rt_image (rl_image st) → rt_env_ok env →
  (∃ st', rt_step (X := X) stats_every duration started env st = Ok st' ∧ rt_image (rl_image st') ∧
     (0 < duration → duration * SECOND ≤ re_now env 3%nat - started → rl_stop st' = true)) ∧
  ∃ i1 i2 img' r1 r2 r3,
    rt_app_cycle (re_cycle env) (re_before env (rl_image st)) = (img', [r1; r2; r3]) ∧
    (r1 = Ok tt → ∃ b, out_region (re_before env (rl_image st)) 2 = Some b ∧ in_region i1 1 = Some b) ∧
    (r2 = Ok tt → ∃ b, out_region (re_cycle env 1%nat i1) 3 = Some b ∧ in_region i2 3 = Some b) ∧
    (r3 = Ok tt → ∃ b, out_region (re_cycle env 3%nat i2) 4 = Some b ∧ in_region img' 4 = Some b).
Proof.
  intros Hi [Hb Hc].
  destruct (rt_cycle_spec (re_cycle env) _ (Hb _ Hi) Hc)
    as (i1 & i2 & img' & r1 & r2 & r3 & Heq & Hi' & Hnp & H1 & H2 & H3).
  split; [|by exists i1, i2, img', r1, r2, r3]. unfold rt_step. rewrite Heq.
  destruct (log_results_total (X := X) (re_err env) _ 0 (rl_last_err_log st) Hnp) as [t ->]. cbn [obind].
  case_decide; (eexists; split; [done|]); (split; [done|]); intros; cbn [rl_stop];
    by rewrite bool_decide_true, orb_true_r by done.
Qed.
