(* ===== verification/Probe.v ===== *)
(** * Probe: the echo latency measurement

    Models the measuring loop of [crates/pnio/examples/linux/latency_probe.rs]:
    a counter published to the controller every period, the age of its echo,
    the cadence of the controller's own counter, and the counts of stalls,
    backward steps and jumps the exit code and the report are made of.  The
    counters keep their widths; a [REAL] carries the 32 bits of a counter. *)

From S2P Require Import Prelude Eth Rpc Block Connect Records Ar Diag Dcp Data Layout Config Hist Engine.
From S2P Require Import Image Device Text Gsdml Api Cli Bringup.
Local Open Scope Z_scope.

Definition U32_MAX : Z := 4294967295.

(** examples/linux/latency_probe.rs:82-85 age *)
Definition age (now echo : Z) : Z := wrap32 (now - echo).

(** [1000] times the stall limit over the period, in cycles; a period of 0 is a
    division by zero. *)
(** examples/linux/latency_probe.rs:123-123 main *)
Definition stall_cycles {X} (stall_ms period_us : Z) : outcome X Z :=
  if decide (period_us = 0) then Panic
  else Ok (wrap32 (Z.max (wrap64 (stall_ms * 1000) / period_us) 1)).

(** examples/linux/latency_probe.rs:125-138 main *)
Record Probe := {
  pb_n : Z; pb_last_echo : Z; pb_echo_frozen : Z; pb_stalls : Z; pb_backwards : Z; pb_ob_last : Z;
  pb_ob_seen : bool; pb_ob_gap : Z; pb_ob_jumps : Z; pb_samples : Z; pb_age_hist : Histogram;
  pb_ob_gap_hist : Histogram
}.
Definition Probe_new : Probe :=
  {| pb_n := 0; pb_last_echo := 0; pb_echo_frozen := 0; pb_stalls := 0; pb_backwards := 0; pb_ob_last := 0;
     pb_ob_seen := false; pb_ob_gap := 0; pb_ob_jumps := 0; pb_samples := 0;
     pb_age_hist := Histogram_new; pb_ob_gap_hist := Histogram_new |}.

(** examples/linux/latency_probe.rs:154-171 main *)
Definition see_echo (limit : Z) (p : Probe) (echo : Z) : Probe :=
  if decide (echo = 0) then p else
  let same := bool_decide (echo = pb_last_echo p) in
  let frozen := if same then wrap32 (pb_echo_frozen p + 1) else 0 in
  {| pb_n := pb_n p; pb_last_echo := echo; pb_echo_frozen := frozen;
     pb_stalls := if same && bool_decide (frozen = limit) then inc64 (pb_stalls p) else pb_stalls p;
     pb_backwards := if decide (U32_MAX / 2 < age (pb_n p) echo) then inc64 (pb_backwards p)
                     else pb_backwards p;
     pb_ob_last := pb_ob_last p; pb_ob_seen := pb_ob_seen p; pb_ob_gap := pb_ob_gap p;
     pb_ob_jumps := pb_ob_jumps p; pb_samples := inc64 (pb_samples p);
     pb_age_hist := hist_record (pb_age_hist p) (age (pb_n p) echo * 1000);
     pb_ob_gap_hist := pb_ob_gap_hist p |}.

(** examples/linux/latency_probe.rs:172-188 main *)
Definition see_ob (p : Probe) (ob : Z) : Probe :=
  if decide (ob = 0) then p else
  let gap := if pb_ob_seen p then wrap32 (pb_ob_gap p + 1) else pb_ob_gap p in
  let delta := wrap32 (ob - pb_ob_last p) in
  let changed := pb_ob_seen p && bool_decide (delta ≠ 0) in
  {| pb_n := pb_n p; pb_last_echo := pb_last_echo p; pb_echo_frozen := pb_echo_frozen p;
     pb_stalls := pb_stalls p; pb_backwards := pb_backwards p; pb_ob_last := ob; pb_ob_seen := true;
     pb_ob_gap := if changed then 0 else gap;
     pb_ob_jumps := if changed && bool_decide (2 ≤ delta) then inc64 (pb_ob_jumps p) else pb_ob_jumps p;
     pb_samples := pb_samples p; pb_age_hist := pb_age_hist p;
     pb_ob_gap_hist := if changed then hist_record (pb_ob_gap_hist p) (wrap32 (gap + 1) * 1000)
                       else pb_ob_gap_hist p |}.

Definition next_n (p : Probe) : Probe :=
  {| pb_n := wrap32 (pb_n p + 1); pb_last_echo := pb_last_echo p; pb_echo_frozen := pb_echo_frozen p;
     pb_stalls := pb_stalls p; pb_backwards := pb_backwards p; pb_ob_last := pb_ob_last p;
     pb_ob_seen := pb_ob_seen p; pb_ob_gap := pb_ob_gap p; pb_ob_jumps := pb_ob_jumps p;
     pb_samples := pb_samples p; pb_age_hist := pb_age_hist p; pb_ob_gap_hist := pb_ob_gap_hist p |}.

(** [snap.real(i).map(f32::to_bits).unwrap_or(0)] *)
Definition bits_or_0 {X} (s : SlotSnapshot) (i : nat) : outcome X Z :=
  match snap_real s i with Ok x => Ok x | Err _ => Ok 0 | Panic => Panic end.

(** One iteration on the device; [env] is what the other threads did between
    the write and the read.  Errors are only logged. *)
(** examples/linux/latency_probe.rs:142-192 main *)
Definition probe_step {X} (limit : Z) (env : IoDevice → IoDevice) (dev : IoDevice) (p : Probe) :
    outcome X (IoDevice * Probe) :=
  let p := next_n p in
  let! dev :=
    match with_inputs dev 1 (closure (λ w, sw_real w 0 (pb_n p))) with
    | Ok (dev, _) | Err (_, dev) => Ok dev
    | Panic => Panic
    end in
  let dev := env dev in
  match outputs dev 3 with
  | Ok snap =>
    let! echo := bits_or_0 snap 0 in
    let! ob := bits_or_0 snap 1 in
    Ok (dev, see_ob (see_echo limit p echo) ob)
  | Err _ => Ok (dev, p)
  | Panic => Panic
  end.

(** The loop condition at the end of an iteration. *)
(** examples/linux/latency_probe.rs:203-205 main *)
Definition probe_done (duration started now : Z) : bool :=
  bool_decide (0 < duration ∧ duration * SECOND ≤ now - started).

(** examples/linux/latency_probe.rs:235-240 main *)
Definition probe_exit {E} (p : Probe) (r : outcome E unit) : Z :=
  match r with
  | Err _ => 1
  | _ => if bool_decide (pb_stalls p = 0 ∧ pb_backwards p = 0) then 0 else 1
  end.

(** ** What is measured *)

(** What the loop sees in a row of iterations: the echo and the controller's
    counter of each snapshot, or nothing when there was none. *)
Definition seen := option (Z * Z).
Definition see (limit : Z) (p : Probe) (s : seen) : Probe :=
  match s with
  | Some (echo, ob) => see_ob (see_echo limit (next_n p) echo) ob
  | None => next_n p
  end.
Definition see_all (limit : Z) (p : Probe) (l : list seen) : Probe := foldl (see limit) p l.

(** The ages of the echoes, with the counter at [n] before the first. *)
Fixpoint ages (n : Z) (l : list seen) : list Z :=
  match l with
  | [] => []
  | s :: l =>
    let n := wrap32 (n + 1) in
    match s with
    | Some (echo, _) => if decide (echo = 0) then [] else [age n echo]
    | None => []
    end ++ ages n l
  end.

Definition backward (a : Z) : bool := bool_decide (U32_MAX / 2 < a).

(** An echo [k] cycles old has age [k], also across the wrap of the counter. *)
Lemma age_wraps n k : 0 ≤ k ≤ U32_MAX → age n (wrap32 (n - k)) = k.
Proof.
  unfold U32_MAX, age, wrap32. intros Hk. rewrite Zminus_mod_idemp_r.
  replace (n - (n - k)) with k by lia. apply Z.mod_small. lia.
Qed.

Lemma age_range n e : 0 ≤ age n e ≤ U32_MAX.
Proof. unfold age, wrap32, U32_MAX. pose proof (Z.mod_pos_bound (n - e) 4294967296). lia. Qed.

Lemma see_ages limit l : ∀ p,
  let p' := see_all limit p l in
  pb_samples p' = foldl (λ s _, inc64 s) (pb_samples p) (ages (pb_n p) l) ∧
  pb_backwards p' = foldl (λ s _, inc64 s) (pb_backwards p) (List.filter backward (ages (pb_n p) l)) ∧
  pb_age_hist p' = foldl hist_record (pb_age_hist p) (Z.mul 1000 <$> ages (pb_n p) l).
Proof.
  induction l as [|s l IH]; intros p; [done|]. cbn [see_all foldl].
  fold (see_all limit (see limit p s) l). specialize (IH (see limit p s)). cbn zeta in IH |- *.
  destruct IH as (H1 & H2 & H3). rewrite H1, H2, H3. cbn [ages].
  destruct s as [[echo ob]|]; cbn [see]; [|done].
  assert (pb_n (see_ob (see_echo limit (next_n p) echo) ob) = wrap32 (pb_n p + 1)) as ->
    by (unfold see_ob, see_echo; repeat case_decide; done).
  rewrite List.filter_app, fmap_app, !foldl_app.
  unfold see_ob, see_echo. destruct (decide (echo = 0)); cbn [foldl List.filter fmap list_fmap].
  { case_decide; done. }
  cbn [pb_n next_n]. unfold backward at 2.
  destruct (decide (U32_MAX / 2 < age (wrap32 (pb_n p + 1)) echo)) as [Hb|Hb];
    [rewrite (bool_decide_true _ Hb)|rewrite (bool_decide_false _ Hb)];
    case_decide; cbn [foldl pb_samples pb_backwards pb_age_hist next_n];
    split_and!; f_equal; by rewrite ?(Z.mul_comm 1000).
Qed.

Lemma count_inc {A} (l : list A) : ∀ k, 0 ≤ k → k + Z.of_nat (length l) ≤ 18446744073709551615 →
  foldl (λ s _, inc64 s) k l = k + Z.of_nat (length l).
Proof.
  induction l as [|x l IH]; intros k Hk Hl; cbn [foldl length] in *; [lia|].
  rewrite inc64_small by lia. rewrite IH by lia. lia.
Qed.

Lemma ages_length l : ∀ n, (length (ages n l) ≤ length l)%nat.
Proof.
  induction l as [|s l IH]; intros n; cbn [ages length]; [done|]. rewrite length_app.
  specialize (IH (wrap32 (n + 1))). destruct s as [[e ob]|]; [case_decide|]; cbn; lia.
Qed.

(** A row of iterations that all see the echo [e]. *)
Definition frozen_at (e : Z) (l : list seen) : Prop := Forall (λ s, ∃ ob, s = Some (e, ob)) l.

Lemma see_frozen limit p e ob :
  e ≠ 0 → pb_last_echo p = e → 0 ≤ pb_echo_frozen p < U32_MAX →
  let p' := see limit p (Some (e, ob)) in
  pb_last_echo p' = e ∧ pb_echo_frozen p' = pb_echo_frozen p + 1 ∧
  pb_stalls p' = if decide (pb_echo_frozen p + 1 = limit) then inc64 (pb_stalls p) else pb_stalls p.
Proof.
  intros He Hl Hf. cbn [see]. unfold see_echo. rewrite (decide_False (P := e = 0)) by done.
  unfold see_ob. rewrite bool_decide_true by done. cbn [pb_last_echo pb_echo_frozen pb_stalls next_n andb].
  assert (wrap32 (pb_echo_frozen p + 1) = pb_echo_frozen p + 1) as ->
    by (apply Z.mod_small; unfold U32_MAX in *; lia).
  case_decide; cbn [pb_last_echo pb_echo_frozen pb_stalls]; (split_and!; [done|done|]);
    case_bool_decide; case_decide; congruence.
Qed.

Lemma see_all_frozen limit e l : ∀ p,
  e ≠ 0 → frozen_at e l → pb_last_echo p = e → 0 ≤ pb_echo_frozen p →
  pb_echo_frozen p + Z.of_nat (length l) ≤ U32_MAX →
  0 ≤ pb_stalls p → pb_stalls p + Z.of_nat (length l) ≤ 18446744073709551615 →
  let p' := see_all limit p l in
  pb_echo_frozen p' = pb_echo_frozen p + Z.of_nat (length l) ∧
  pb_stalls p' = pb_stalls p +
    (if decide (pb_echo_frozen p < limit ≤ pb_echo_frozen p + Z.of_nat (length l)) then 1 else 0).
Proof.
  induction l as [|s l IH]; intros p He Hf Hp H0 Hb Hs Hs'; cbn [see_all foldl length] in *.
  { rewrite Z.add_0_r. split; [done|]. case_decide; lia. }
  apply list.Forall_cons in Hf as [[ob ->] Hf].
  destruct (see_frozen limit p e ob He Hp ltac:(lia)) as (H1 & H2 & H3).
  assert (pb_stalls (see limit p (Some (e, ob))) =
          pb_stalls p + if decide (pb_echo_frozen p + 1 = limit) then 1 else 0) as H3'.
  { rewrite H3. case_decide; [|lia]. apply inc64_small. lia. }
  fold (see_all limit (see limit p (Some (e, ob))) l).
  destruct (IH (see limit p (Some (e, ob))) He Hf H1) as [Hfr Hst]; [lia|lia|case_decide; lia..|].
  rewrite Hfr, Hst, H2, H3'. split; [lia|]. repeat case_decide; lia.
Qed.

(** The probe measures what it reports about the echo.  Over any sequence
    of iterations from the start: the samples are the iterations with an echo,
    the histogram is that of their ages in cycles, an echo [k] cycles old having
    age [k] even across the wrap of the 32-bit counter, and the backward steps
    are the ages of more than half the counter's range.  An echo that stays
    frozen for a row of iterations adds one stall when the row passes the limit,
    and only one, however long it lasts. *)
Theorem probe_measures limit l p e row :
  Z.of_nat (length l) ≤ 18446744073709551615 →
  e ≠ 0 → frozen_at e row → pb_last_echo p = e → 0 ≤ pb_echo_frozen p →
  pb_echo_frozen p + Z.of_nat (length row) ≤ U32_MAX →
  0 ≤ pb_stalls p → pb_stalls p + Z.of_nat (length row) ≤ 18446744073709551615 →
  let q := see_all limit Probe_new l in
  pb_samples q = Z.of_nat (length (ages 0 l)) ∧
  pb_age_hist q = hist_of (Z.mul 1000 <$> ages 0 l) ∧
  pb_backwards q = Z.of_nat (length (List.filter backward (ages 0 l))) ∧
  (∀ n k, 0 ≤ k ≤ U32_MAX → age n (wrap32 (n - k)) = k) ∧
  pb_stalls (see_all limit p row) = pb_stalls p +
    (if decide (pb_echo_frozen p < limit ≤ pb_echo_frozen p + Z.of_nat (length row)) then 1 else 0).
Proof.
  intros Hl He Hrow Hp H0 Hb Hs Hs' q. destruct (see_ages limit l Probe_new) as (H1 & H2 & H3).
  fold q in H1, H2, H3. cbn [Probe_new pb_samples pb_backwards pb_n pb_age_hist] in H1, H2, H3.
  pose proof (ages_length l 0). pose proof (filter_length_le backward (ages 0 l)).
  rewrite count_inc in H1, H2 by lia. split_and!; [done|exact H3|done|apply age_wraps|].
  by apply (see_all_frozen limit e row p).
Qed.

Lemma probe_measures_witness :
  let l := [Some (1, 0); Some (1, 0); None; Some (4294967290, 0)] in
  let q := see_all 3 Probe_new l in
  ages 0 l = [0; 1; 10] ∧ pb_samples q = 3 ∧
  pb_stalls (see_all 3 (see 3 Probe_new (Some (1, 0))) (replicate 5 (Some (1, 7)))) = 1.
Proof.
  intros l q.
  destruct (probe_measures 3 l (see 3 Probe_new (Some (1, 0))) 1 (replicate 5 (Some (1, 7)))) as (H1 & _ & _ & _ & H2);
    [cbn; lia|done|by apply Forall_replicate; exists 7|done|done|by vm_compute|done|by vm_compute|].
  split_and!; [reflexivity|exact H1|exact H2].
Defined.

(** ** The cadence of the controller *)

(** A row of iterations that all see the controller's counter at [ob]. *)
Definition steady (ob : Z) (l : list seen) : Prop := Forall (λ s, ∃ e, s = Some (e, ob)) l.

Lemma see_steady limit p e ob :
  ob ≠ 0 → u32 ob → pb_ob_last p = ob → pb_ob_seen p = true → 0 ≤ pb_ob_gap p < U32_MAX →
  let p' := see limit p (Some (e, ob)) in
  pb_ob_last p' = ob ∧ pb_ob_seen p' = true ∧ pb_ob_gap p' = pb_ob_gap p + 1 ∧
  pb_ob_gap_hist p' = pb_ob_gap_hist p ∧ pb_ob_jumps p' = pb_ob_jumps p.
Proof.
  intros Hob Hu Hl Hs Hg. cbn [see]. set (q := see_echo limit (next_n p) e).
  assert (pb_ob_last q = ob ∧ pb_ob_seen q = true ∧ pb_ob_gap q = pb_ob_gap p ∧
    pb_ob_gap_hist q = pb_ob_gap_hist p ∧ pb_ob_jumps q = pb_ob_jumps p) as (Q1 & Q2 & Q3 & Q4 & Q5)
    by (unfold q, see_echo; case_decide; done).
  unfold see_ob. rewrite decide_False by done. rewrite Q1, Q2, Q3. cbn.
  rewrite Z.sub_diag. cbn. rewrite Q4, Q5. split_and!; [done|done| |done|done].
  apply Z.mod_small. unfold U32_MAX in *. lia.
Qed.

Lemma see_all_steady limit ob l : ∀ p,
  ob ≠ 0 → u32 ob → steady ob l → pb_ob_last p = ob → pb_ob_seen p = true → 0 ≤ pb_ob_gap p →
  pb_ob_gap p + Z.of_nat (length l) ≤ U32_MAX →
  let p' := see_all limit p l in
  pb_ob_last p' = ob ∧ pb_ob_seen p' = true ∧ pb_ob_gap p' = pb_ob_gap p + Z.of_nat (length l) ∧
  pb_ob_gap_hist p' = pb_ob_gap_hist p ∧ pb_ob_jumps p' = pb_ob_jumps p.
Proof.
  induction l as [|s l IH]; intros p Hob Hu Hst Hl Hs H0 Hb; cbn [see_all foldl length] in *.
  { split_and!; (done || lia). }
  apply list.Forall_cons in Hst as [[e ->] Hst].
  destruct (see_steady limit p e ob Hob Hu Hl Hs ltac:(lia)) as (H1 & H2 & H3 & H4 & H5).
  destruct (IH (see limit p (Some (e, ob))) Hob Hu Hst H1 H2) as (I1 & I2 & I3 & I4 & I5); [lia..|].
  fold (see_all limit (see limit p (Some (e, ob))) l).
  cbn zeta in I1, I2, I3, I4, I5. unfold see_all in *.
  rewrite I1, I2, I3, I4, I5, H3, H4, H5. split_and!; (done || lia).
Qed.

(** The period recorded between two changes of the controller's counter is one
    cycle longer than the number of iterations from the first to the second:
    the iteration that sees the change has already been added to the gap when
    the [+ 1] for it is. *)
Theorem ob_gap_one_long limit p ob row e ob' :
  ob ≠ 0 → u32 ob → ob' ≠ 0 → u32 ob' → ob' ≠ ob →
  pb_ob_last p = ob → pb_ob_seen p = true → pb_ob_gap p = 0 →
  steady ob row → Z.of_nat (length row) + 2 ≤ U32_MAX →
  let p' := see_all limit p (row ++ [Some (e, ob')]) in
  let cycles := Z.of_nat (length (row ++ [Some (e, ob')])) in
  pb_ob_gap_hist p' = hist_record (pb_ob_gap_hist p) (1000 * (cycles + 1)) ∧
  pb_ob_gap p' = 0 ∧ pb_ob_last p' = ob' ∧
  pb_ob_jumps p' = if decide (2 ≤ wrap32 (ob' - ob)) then inc64 (pb_ob_jumps p) else pb_ob_jumps p.
Proof.
  intros Hob Hu Hob' Hu' Hne Hl Hs Hg Hst Hb p' cycles.
  assert (cycles = Z.of_nat (length row) + 1) as Hcy by (unfold cycles; rewrite length_app; cbn; lia).
  unfold p', see_all. rewrite foldl_app. cbn [foldl].
  destruct (see_all_steady limit ob row p Hob Hu Hst Hl Hs) as (I1 & I2 & I3 & I4 & I5); [lia..|].
  unfold see_all in *. set (r := foldl (see limit) p row) in *. cbn zeta in *.
  cbn [see]. set (q := see_echo limit (next_n r) e).
  assert (pb_ob_last q = ob ∧ pb_ob_seen q = true ∧ pb_ob_gap q = Z.of_nat (length row) ∧
    pb_ob_gap_hist q = pb_ob_gap_hist p ∧ pb_ob_jumps q = pb_ob_jumps p) as (Q1 & Q2 & Q3 & Q4 & Q5).
  { unfold q, see_echo. case_decide; cbn; (split_and!; try done; lia). }
  assert (wrap32 (ob' - ob) ≠ 0) as Hd.
  { unfold wrap32, u32 in *. intros H0. apply Z.mod_divide in H0 as [k Hk]; [|done]. nia. }
  unfold see_ob. rewrite decide_False by done. rewrite Q1, Q2, Q3, (bool_decide_true (_ ≠ 0)) by done.
  cbn [andb pb_ob_gap_hist pb_ob_gap pb_ob_last pb_ob_jumps]. rewrite Q4, Q5. split_and!; [|done|done|].
  - f_equal. unfold wrap32. rewrite !Z.mod_small by (rewrite ?Z.mod_small; unfold U32_MAX in *; lia). lia.
  - case_bool_decide; case_decide; done.
Qed.

(** A controller that counts every cycle is reported with a period of two. *)
Example ob_every_cycle :
  let p := see_all 10 Probe_new [Some (0, 5); Some (0, 6); Some (0, 7)] in
  percentile (pb_ob_gap_hist p) (f64_of_int 50) = Some 2%nat.
Proof. vm_compute. reflexivity. Qed.

(** ** An iteration on the device *)

Lemma probe_config {X} station c : probe_sample_config (X := X) station = Ok c →
  cf_ok c ∧ cf_submodules c = sample_specs.
Proof.
  unfold probe_sample_config. intros H.
  match type of H with expect_Ok (build ?b) = _ => set (bd := b) in H end.
  destruct (build bd) as [c'|e|] eqn:Hb; cbn [expect_Ok] in H; [injection H as ->|done..].
  split; [eapply build_ok; [|exact Hb]; cbn; repeat constructor; by_decide|].
  unfold build in Hb. ok_inv. vm_compute. reflexivity.
Qed.

(** An iteration publishes the next counter value, or keeps it for the next
    layout, and then sees what the snapshot of slot 3 holds; nothing panics. *)
Lemma probe_step_sees {X Y} station limit env dev p :
  probe_sample_config (X := Y) station = Ok (io_cfg dev) → io_wf dev → env_ok env → 0 ≤ pb_n p →
  ∃ dev1 dev' s, probe_step (X := X) limit env dev p = Ok (dev', see limit p s) ∧
    dev' = env dev1 ∧ io_wf dev1 ∧ io_wf dev' ∧
    (input_value dev1 1 0 = Some (VReal (wrap32 (pb_n p + 1))) ∨ io_image dev1 = io_image dev) ∧
    match s with
    | Some (echo, ob) => io_read dev' 3 0 = Ok (VReal echo) ∧ io_read dev' 3 1 = Ok (VReal ob)
    | None => ∃ e, outputs dev' 3 = Err e
    end.
Proof.
  intros Hst Hw He Hn. destruct (probe_config station _ Hst) as [Hok Hsub].
  destruct (cf_entry_of (io_cfg dev) 0 _ Hok ltac:(by rewrite Hsub)) as [e1 E1].
  destruct (cf_entry_of (io_cfg dev) 2 _ Hok ltac:(by rewrite Hsub)) as [e3 E3].
  cbn [ss_slot] in E1, E3. unfold probe_step. set (v := pb_n (next_n p)).
  assert (u32 v) as Hv by (unfold v, next_n, wrap32, u32; cbn; apply Z.mod_pos_bound; lia).
  rewrite (copy_with dev 1 [(0%nat, VReal v)]).
  2:{ intros w. cbn [set_all]. unfold sw_real. by destruct (sw_set w 0 (VReal v)). }
  pose proof (fitting_write dev 1 _ _ _ [(0%nat, VReal v)] Hw E1 ltac:(done)
    ltac:(apply List.Forall_cons; [done|apply List.Forall_nil])
    ltac:(apply List.Forall_cons; [done|apply List.Forall_nil])) as Hr.
  assert (∃ dev1, match write_all dev 1 [(0%nat, VReal v)] with
    | Ok (dev, _) | Err (_, dev) => Ok (E := X) dev | Panic => Panic end = Ok dev1 ∧
    io_wf dev1 ∧ io_cfg dev1 = io_cfg dev ∧
    (input_value dev1 1 0 = Some (VReal v) ∨ io_image dev1 = io_image dev)) as (dev1 & -> & Hw1 & Hc1 & Hval).
  { destruct (write_all _ _ _) as [[d []]|[e d]|]; [| |done]; destruct Hr as (? & ? & Hr & _); exists d;
      (split_and!; [done|done|done|]); [left; by apply Hr|by right]. }
  cbn [obind]. destruct (He dev1 Hw1) as [Hw2 Hc2].
  assert (cf_entry (io_cfg (env dev1)) 3 2 _ e3) as E3' by (rewrite Hc2, Hc1; exact E3).
  pose proof (outputs_result (env dev1) 3 _ _ _ Hw2 E3' ltac:(done)) as Ho.
  destruct (outputs (env dev1) 3) as [snap|e|] eqn:Hs; [|by exists dev1, (env dev1), None; eauto 10|done].
  destruct (snapshot_values (env dev1) 3 snap _ _ _ FtReal 16 Hw2 Hs E3' eq_refl 0 ltac:(lia)) as (G0 & R0 & T0 & _).
  destruct (snapshot_values (env dev1) 3 snap _ _ _ FtReal 16 Hw2 Hs E3' eq_refl 1 ltac:(lia)) as (G1 & R1 & T1 & _).
  unfold bits_or_0, snap_real. rewrite G0, G1. cbn [obind].
  destruct (snap_values snap 0) as [| | | |echo]; try done.
  destruct (snap_values snap 1) as [| | | |ob]; try done. cbn [obind].
  by exists dev1, (env dev1), (Some (echo, ob)).
Qed.
