(* ===== verification/System.v ===== *)
(** * The system: three threads on one device (api.rs, device/mod.rs,
    rt/runner.rs)

    A running device has three threads.  The acyclic one owns the [Device] and
    turns its loop; the cyclic one owns its socket, engine and timer grid; the
    application calls the handle.  They share the I/O image, the counters, the
    handle of the cyclic thread with its event queue, and the diagnosis queue.
    The state below has the locals of each thread and, in each of them, the
    shared objects as that thread sees them; a step relation lets the threads
    take turns in any order, one iteration of a loop or one call at a time, and
    the invariant says that all views of a shared object agree.

    Between two notifications an iteration of the acyclic thread touches
    neither the image nor the cyclic thread ([calm] of [Device]), so it
    commutes with the iterations of the cyclic thread that really overlap it.
    A cyclic thread that outlives the bounded wait of [stop_runner] is not
    modelled. *)

From Stdlib Require Import ZArith Lia.
From stdpp Require Import base numbers list option relations.
From S2P Require Import Prelude Eth Rpc Block Connect Records Ar Cm Diag Dcp Data RtFrame Layout.
From S2P Require Import Config Hist Engine Image Transport Runner Controller Device Api Bringup.
Local Open Scope Z_scope.

(** ** State *)

Record Sys (E R T : Type) := {
  sy_dev : Device E R;           (** the acyclic thread's *)
  sy_last : option ArParams;     (** the parameters it published last *)
  sy_alive : bool;               (** whether it is running *)
  sy_rt : option (Runner T);     (** the cyclic thread, while there is one *)
  sy_io : IoDevice               (** the application's handle *)
}.
Arguments sy_dev {E R T}. Arguments sy_last {E R T}. Arguments sy_alive {E R T}.
Arguments sy_rt {E R T}. Arguments sy_io {E R T}.

Section steps.
Context {E R T : Type} `{!EthTransport E} `{!RpcTransport R} `{!EthTransport T}
  `{!EthTransportLaws T}.
Implicit Types (s : Sys E R T) (dev : Device E R) (r : Runner T).

(** What the cyclic thread and the application write, as the acyclic thread
    finds it. *)
Definition share dev (img : IoImage) (h : option RtShared) (stats : RtStats) : Device E R :=
  {| dv_setup := dv_setup dev; dv_eth := dv_eth dev; dv_rpc := dv_rpc dev; dv_cm := dv_cm dev;
     dv_on_state_change := dv_on_state_change dev; dv_image := img; dv_stats := stats;
     dv_problem := dv_problem dev; dv_diag := dv_diag dev; dv_shared := dv_shared dev;
     dv_alarm := dv_alarm dev; dv_next_alarm_id := dv_next_alarm_id dev;
     dv_alarm_epoch := dv_alarm_epoch dev; dv_runner := h;
     dv_runner_factory := dv_runner_factory dev |}.

Definition with_params (d : IoDevice) (params : option ArParams) : IoDevice :=
  {| io_cfg := io_cfg d; io_image := io_image d; io_stats := io_stats d; io_state := io_state d;
     io_stop := io_stop d; io_inputs := io_inputs d; io_params := params; io_diag := io_diag d |}.

(** The cyclic thread after an iteration of the acyclic one: the same, unless
    a state change was notified, which ends it (and may start another). *)
Definition continues dev dev' (rt : option (Runner T)) : option (Runner T) :=
  match dv_runner dev', rt with
  | Some h, Some r =>
    if decide (dv_on_state_change dev' = dv_on_state_change dev) then Some (upd_shared r h) else None
  | _, _ => None
  end.

(** The acyclic thread left its loop and dropped the device. *)
(** api.rs:287-289 IoDevice::start_inner *)
Definition finished s dev : Sys E R T :=
  let dev := dv_drop dev in
  {| sy_dev := dev; sy_last := sy_last s; sy_alive := false; sy_rt := None;
     sy_io := mirror dev (sy_io s) |}.

(** The cyclic thread is at [r], or has left its loop there and run its exit
    guard. *)
(** rt/runner.rs:243-254 RtRunner::spawn_with_transport *)
Definition thread_at s r (go : bool) : Sys E R T :=
  let r := if go then r else upd_shared r (exit_guard (rn_shared r)) in
  let dev := share (sy_dev s) (rn_image r) (Some (rn_shared r)) (en_stats (rn_engine r)) in
  {| sy_dev := dev; sy_last := sy_last s; sy_alive := sy_alive s;
     sy_rt := if go then Some r else None; sy_io := mirror dev (sy_io s) |}.

(** The application used its handle. *)
Definition called s (io : IoDevice) : Sys E R T :=
  {| sy_dev := set_shared (with_runner (sy_dev s) (io_image io) (dv_runner (sy_dev s))) (io_diag io);
     sy_last := sy_last s; sy_alive := sy_alive s;
     sy_rt := (λ r, upd_image r (io_image io) (rn_pending r)) <$> sy_rt s; sy_io := io |}.

(** What [start_runner] gives the thread it spawns: the layout the image has
    just been rebuilt for, of parameters the device accepted. *)
Definition launches dev (cfg : RtConfig) : Prop :=
  ∃ p, Layout_from_ar p (su_model (dv_setup dev)) = Ok (rg_layout cfg) ∧
    u16 (ip_frame_id (ap_input_cr p)) ∧ u16 (ip_frame_id (ap_output_cr p)) ∧
    rg_our_mac cfg = dc_mac (su_dcp (dv_setup dev)) ∧ rg_cpu_mac cfg = ap_initiator_mac p ∧
    wf_mac (ap_initiator_mac p) ∧ im_ok (rg_layout cfg) (dv_image dev).

(** The calls of the application that change something, with the slot they
    write inputs of. *)
Inductive app_call (d : IoDevice) : option Z → IoDevice → Prop :=
| ac_write slot sets d' :
    Forall (wf_value ∘ snd) sets → after_write (write_all d slot sets) = Some d' →
    app_call d (Some slot) d'
| ac_raise slot channel error severity d' :
    raise_diagnosis d slot channel error severity = Ok d' → app_call d None d'
| ac_clear slot channel error d' :
    clear_diagnosis d slot channel error = Ok d' → app_call d None d'
| ac_stop : app_call d None (drop_handle d).

(** One turn of one thread, labelled with the slot the application writes. *)
Inductive sys_step : option Z → Sys E R T → Sys E R T → Prop :=
| ss_device s env now dev last params :
    sy_alive s = true → io_stop (sy_io s) = false →
    publishing_step (sy_dev s) (sy_last s) (io_params (sy_io s)) env now = Ok (dev, last, params) →
    sys_step None s {| sy_dev := dev; sy_last := last; sy_alive := true;
                  sy_rt := continues (sy_dev s) dev (sy_rt s);
                  sy_io := with_params (mirror dev (sy_io s)) params |}
| ss_failed s env now err dev :
    sy_alive s = true → io_stop (sy_io s) = false →
    publishing_step (sy_dev s) (sy_last s) (io_params (sy_io s)) env now = Err (err, dev) →
    sys_step None s (finished s dev)
| ss_stopped s now dev :
    sy_alive s = true → io_stop (sy_io s) = true →
    shutdown (sy_dev s) now = Ok dev ∨ (∃ err, shutdown (sy_dev s) now = Err (err, dev)) →
    sys_step None s (finished s dev)
| ss_spawned s cfg t env r armed :
    sy_alive s = true → sy_rt s = None → dv_runner (sy_dev s) = Some RtShared_new →
    launches (sy_dev s) cfg → eth_wf t →
    run_setup cfg t (dv_image (sy_dev s)) (dv_stats (sy_dev s)) RtShared_new env = (r, armed) →
    sys_step None s (thread_at s r armed)
| ss_cyclic s r env r' go :
    sy_rt s = Some r → sh_stop (rn_shared r) = false →
    cycle (E := Empty_set) r env = Ok (r', go) → sys_step None s (thread_at s r' go)
| ss_called s w io :
    app_call (sy_io s) w io → sys_step w s (called s io).

Definition any_step s s' : Prop := ∃ w, sys_step w s s'.

(** A turn that does not write the slot, by a thread that goes on, and without
    a change of the AR's state. *)
Definition quiet (slot : Z) s s' : Prop :=
  ∃ w, w ≠ Some slot ∧ sys_step w s s' ∧ sy_alive s' = sy_alive s ∧
    dv_on_state_change (sy_dev s') = dv_on_state_change (sy_dev s).
End steps.

(** ** The invariant *)

Section invariant.
#[local] Set Default Proof Using "Type*".
Context {E R T : Type} `{!EthTransport E, EthL : !EthTransportLaws E}
  `{!RpcTransport R, RpcL : !RpcTransportLaws R} `{!EthTransport T, ThrL : !EthTransportLaws T}.
Context {su : DeviceSetup} {cfg : DeviceConfig} {mac : MacAddr}.
Hypothesis Hsu : su_model su = cf_model cfg mac.
Implicit Types (s : Sys E R T) (dev : Device E R) (r : Runner T) (io : IoDevice).

(** The cyclic thread is in order and sees the image and the handle the device
    has. *)
Definition runs dev r : Prop :=
  ∃ p la, Layout_from_ar p (su_model su) = Ok la ∧ rn_inv la r ∧ wire_u8 r ∧
    rn_image r = dv_image dev ∧ dv_runner dev = Some (rn_shared r).

(** The handle shows what the device has. *)
Record agrees dev io : Prop := {
  ag_io : io_wf io;
  ag_cfg : io_cfg io = cfg;
  ag_image : io_image io = dv_image dev;
  ag_stats : io_stats io = dv_stats dev;
  ag_diag : io_diag io = dv_shared dev
}.

(** The application was told of every change of the AR's state. *)
Definition told dev io : Prop :=
  ∃ calls, dv_on_state_change dev = Some calls ∧ heard Idle calls = announced (dv_state dev) ∧
    io_state io = default (Idle, None) (list.last calls).

Lemma heard_last calls : heard Idle calls = (default (Idle, None) (list.last calls)).1.
Proof.
  unfold heard. destruct calls as [|c calls _] using rev_ind; [done|]. by rewrite foldl_snoc, last_snoc.
Qed.

Lemma told_state dev io : told dev io → io_ar_state io = announced (dv_state dev).
Proof. intros (calls & _ & <- & Hs). unfold io_ar_state. by rewrite Hs, heard_last. Qed.

Lemma told_is_Some dev io : told dev io → is_Some (dv_on_state_change dev).
Proof. intros (calls & -> & _). by eexists. Qed.

Lemma told_mirror dev dev' io l :
  dv_on_state_change dev' = (λ c, c ++ l) <$> dv_on_state_change dev →
  heard (announced (dv_state dev)) l = announced (dv_state dev') →
  told dev io → told dev' (mirror dev' io).
Proof.
  intros Hl Hh (calls & Hc & Hs & Hio). rewrite Hc in Hl. exists (calls ++ l).
  split_and!; [done|by unfold heard in *; rewrite foldl_app, Hs|]. cbn. rewrite Hl. cbn. rewrite last_app.
  destruct (list.last l); cbn; [done|]. rewrite Hio. by destruct (list.last calls).
Qed.

Record sys_inv s : Prop := {
  si_dev : dv_ok su (sy_dev s);
  si_alive : sy_alive s = true → linked (sy_dev s) ∧ told (sy_dev s) (sy_io s);
  si_rt : ∀ r, sy_rt s = Some r → runs (sy_dev s) r;
  si_io : agrees (sy_dev s) (sy_io s)
}.

Lemma image_for_of img : image_for (su_model su) img → image_of cfg img.
Proof.
  intros (? & ? & Hl). split_and!; [done..|]. destruct Hl as [?|(p & la & Hla & ?)]; [by left|].
  right. exists p, mac, la. by rewrite <-Hsu.
Qed.

Lemma mirror_agrees dev io :
  io_wf io → io_cfg io = cfg → dv_ok su dev → agrees dev (mirror dev io).
Proof.
  intros [Hc Hi _ Hin] Hcfg Hd. split; cbn; try done. split; cbn; try done.
  rewrite Hcfg. apply image_for_of. rewrite <-(do_setup _ Hd). apply Hd.
Qed.

Lemma with_params_agrees dev io params : agrees dev io → agrees dev (with_params io params).
Proof. intros [[] ? ? ? ?]. by split. Qed.

(** *** The acyclic thread *)

Lemma publishing_step_ok dev last params env now :
  dv_ok su dev → leads su (publishing_step dev last params env now) (λ '(dev', _, _), goes su dev dev').
Proof.
  intros Hd. unfold publishing_step. eapply leads_bind; [by apply dv_step_ok|]. by intros [dev' ?] ?.
Qed.

Lemma shutdown_ok dev now : dv_ok su dev → leads su (shutdown dev now) (dv_ok su).
Proof.
  intros Hd. unfold shutdown. case_decide; [done|]. unfold abort_with_err_rta.
  eapply leads_bind; [by apply abort_in_ok|]. intros [d' ?] (G & _). apply G.
Qed.

Lemma dv_drop_ok dev : dv_ok su dev → dv_ok su (dv_drop dev) ∧ dv_runner (dv_drop dev) = None.
Proof.
  intros Hd. unfold dv_drop, stop_runner. destruct (dv_runner dev) eqn:Hr; [|done]. split; [|done].
  destruct Hd. split; try done; [apply image_for_clear|by intros []].
Qed.

Lemma finished_inv s dev : sys_inv s → dv_ok su dev → sys_inv (finished s dev).
Proof.
  intros [_ _ _ [Hio Hcfg _ _ _]] Hd. destruct (dv_drop_ok dev Hd) as [Hd' _].
  split; cbn; [done|done|done|by apply mirror_agrees].
Qed.

(** The cyclic thread goes on under an acyclic iteration. *)
Lemma continues_runs dev dev' rt r io :
  goes su dev dev' → told dev io → (∀ r0, rt = Some r0 → runs dev r0) →
  continues dev dev' rt = Some r → runs dev' r.
Proof.
  intros G Ht Hrt. unfold continues. destruct (dv_runner dev') as [h'|] eqn:Hh; [|done].
  destruct rt as [r0|]; [|done]. case_decide as Hcalls; [|done]. intros [= <-].
  destruct (calm_told _ _ (go_calm _ _ G) (told_is_Some _ _ Ht) Hcalls) as [Himg Hr].
  destruct (Hrt r0 eq_refl) as (p & la & Hla & Hi & Hu & Him & Hrun).
  rewrite Hrun, Hh in Hr. inversion_clear Hr as [? ? Htook|].
  exists p, la. split_and!; [done| |done|cbn; congruence|done].
  destruct Hi. split; try done. by apply (tk_bell _ _ Htook).
Qed.

Lemma device_inv s env now dev last params :
  sys_inv s → sy_alive s = true →
  publishing_step (sy_dev s) (sy_last s) (io_params (sy_io s)) env now = Ok (dev, last, params) →
  sys_inv {| sy_dev := dev; sy_last := last; sy_alive := true;
             sy_rt := continues (sy_dev s) dev (sy_rt s);
             sy_io := with_params (mirror dev (sy_io s)) params |}.
Proof.
  intros [Hd Ha Hrt [Hio Hcfg _ _ _]] Hal Hs. destruct (Ha Hal) as [Hl Ht].
  pose proof (publishing_step_ok _ (sy_last s) (io_params (sy_io s)) env now Hd) as G.
  rewrite Hs in G. cbn in G. split; cbn.
  - apply G.
  - intros _. split; [by apply G|]. destruct (go_calm _ _ G) as (l & Hc & _ & Hh).
    by apply (told_mirror _ _ _ l Hc Hh) in Ht.
  - intros r. by eapply continues_runs.
  - apply with_params_agrees, mirror_agrees; [done..|apply G].
Qed.

(** *** The cyclic thread *)

Lemma share_ok dev la p img h stats :
  dv_ok su dev → is_Some (dv_runner dev) → Layout_from_ar p (su_model su) = Ok la → im_ok la img →
  Forall u8 (im_inputs img) → Forall u8 (im_csdu img) → dv_ok su (share dev img h stats).
Proof.
  intros Hd Hr Hla Him Hi Hc. assert (laid_out (su_model (dv_setup dev)) img) as Hl.
  { rewrite (do_setup _ Hd). by exists p, la. }
  destruct Hd. split; try done. split_and!; [done..|by right].
Qed.

(** The thread moved from the device's image to [r]. *)
Lemma thread_at_inv s r go p la :
  sys_inv s → is_Some (dv_runner (sy_dev s)) → Layout_from_ar p (su_model su) = Ok la →
  rn_inv la r → wire_u8 r → im_inputs (rn_image r) = im_inputs (dv_image (sy_dev s)) →
  sys_inv (thread_at s r go).
Proof.
  intros [Hd Ha Hrt [Hio Hcfg _ _ _]] Hrun Hla Hi Hu Hin. unfold thread_at.
  set (r' := if go then r else _).
  assert (rn_inv la r' ∧ rn_image r' = rn_image r ∧ wire_u8 r') as (Hi' & Him & Hu').
  { subst r'. destruct go; [done|]. split_and!; [|done..]. destruct Hi. split; try done.
    by apply bell_ok_push. }
  set (dev := share _ _ _ _).
  assert (dv_ok su dev) as Hd'.
  { apply (share_ok _ la p); try done; [apply Hi'| |apply Hu']. rewrite Him, Hin. apply Hd. }
  split; cbn; [done| | |by apply mirror_agrees].
  - intros [[Hal Hr] Ht]%Ha. split; [split; [done|]; intros _; by apply Hr|].
    apply (told_mirror (sy_dev s) _ _ []); [|done|done]. cbn.
    destruct Ht as (calls & -> & _). cbn. by rewrite app_nil_r.
  - intros r0 Hr0. destruct go; [|done]. injection Hr0 as <-. by exists p, la.
Qed.

Lemma cyclic_inv s r env r' go :
  sys_inv s → sy_rt s = Some r → cycle (E := Empty_set) r env = Ok (r', go) →
  sys_inv (thread_at s r' go) ∧ spares r r'.
Proof.
  intros Hs Hr Hc. destruct (si_rt s Hs r Hr) as (p & la & Hla & Hi & Hu & Him & Hrun).
  destruct (cycle_ok la r env Hi) as (r1 & go1 & Hc' & He & _). rewrite Hc in Hc'. injection Hc' as <- <-.
  pose proof (ev_spares _ _ _ He) as Hsp. split; [|done].
  apply (thread_at_inv s r' go p la); try done; [apply He|by apply Hsp|].
  by rewrite (sp_inputs _ _ Hsp), Him.
Qed.

Lemma spawned_inv s rcfg t env r armed :
  sys_inv s → dv_runner (sy_dev s) = Some RtShared_new → launches (sy_dev s) rcfg → eth_wf t →
  run_setup rcfg t (dv_image (sy_dev s)) (dv_stats (sy_dev s)) RtShared_new env = (r, armed) →
  sys_inv (thread_at s r armed).
Proof.
  intros Hs Hrun (p & Hla & Hin & Hout & Hour & Hcpu & Hmac & Him) Ht Hset.
  pose proof (si_dev s Hs) as Hd. rewrite (do_setup _ Hd) in Hla.
  assert (rn_inv (rg_layout rcfg) r ∧ wire_u8 r ∧ rn_image r = dv_image (sy_dev s)) as (Hi & Hu & Hi').
  { unfold run_setup in Hset. cbv zeta in Hset. set (r0 := {| rn_transport := t |}) in Hset.
    assert (rn_inv (rg_layout rcfg) r0 ∧ wire_u8 r0) as [H0 U0].
    { split; [split; cbn|split; cbn].
      - eapply en_inv_new; try done; [rewrite Hour; apply Hd|by rewrite Hcpu].
      - done.
      - done.
      - apply length_replicate.
      - reflexivity.
      - done.
      - by eapply (sched_events_bell p (su_model su)); [..|rewrite Hour; apply Hd|rewrite Hcpu|].
      - apply u8_zeros.
      - apply Hd. }
    destruct (arm_timerfd _ _); injection Hset as <- _; [done|].
    split_and!; [by apply evolves_event|done..]. }
  apply (thread_at_inv s r armed p (rg_layout rcfg)); try done. by rewrite Hi'.
Qed.

(** *** The application *)

(** What a call leaves as it was. *)
Record call_spares (d d' : IoDevice) : Prop := {
  cs_wf : io_wf d';
  cs_cfg : io_cfg d' = io_cfg d;
  cs_cells : im_cells (io_image d') = im_cells (io_image d);
  cs_csdu : im_csdu (io_image d') = im_csdu (io_image d);
  cs_length : length (im_inputs (io_image d')) = length (im_inputs (io_image d));
  cs_stats : io_stats d' = io_stats d;
  cs_state : io_state d' = io_state d;
  cs_active : dh_active (io_diag d') = dh_active (io_diag d)
}.

Lemma app_call_spares d w d' : io_wf d → app_call d w d' → call_spares d d'.
Proof.
  intros Hw Hc. destruct Hc as [slot sets d' Hv Ha|slot ch err sev d' Hr|slot ch err d' Hr|].
  - destruct (write_all_result d slot sets Hw Hv) as [Hres Hwf]. pose proof (Hwf d' Ha) as Hw'.
    destruct Hres as [|k sm der|k sm der pre set post e|k sm der buf buf' e|k sm der buf buf' img ? ? ? ? Hp];
      injection Ha as <-; try by split.
    destruct Hp as (c & off & _ & _ & _ & _ & ? & _ & ? & ? & _). by split.
  - unfold raise_diagnosis in Hr. apply obind_Ok in Hr as (? & _ & Hr).
    apply obind_Ok in Hr as (? & _ & [= <-]). split; try done. by apply push_command_wf.
  - unfold clear_diagnosis in Hr. apply obind_Ok in Hr as (? & _ & Hr).
    apply obind_Ok in Hr as (? & _ & [= <-]). split; try done. by apply push_command_wf.
  - destruct Hw. by split.
Qed.

Lemma called_inv s w io : sys_inv s → app_call (sy_io s) w io → sys_inv (called s io).
Proof.
  intros [Hd Ha Hrt [Hio Hcfg Himg Hst Hdg]] Hc.
  destruct (app_call_spares _ _ _ Hio Hc) as [Hw Hcfg' Hcells Hcsdu Hlen Hst' Hsta Hact].
  rewrite Himg in Hcells, Hcsdu, Hlen.
  assert (∀ la, im_ok la (dv_image (sy_dev s)) → im_ok la (io_image io)) as Hok.
  { intros la [? ? ?]. split; congruence. }
  assert (laid_out (su_model (dv_setup (sy_dev s))) (dv_image (sy_dev s)) →
          laid_out (su_model (dv_setup (sy_dev s))) (io_image io)) as Hlaid.
  { intros (p & la & ? & ?). exists p, la. eauto. }
  split; cbn.
  - destruct Hd. split; try done.
    + cbn. by rewrite Hact, Hdg.
    + destruct (wf_image io Hw) as (? & ? & _). destruct do_image as (_ & _ & [?|?]); split_and!; try done;
        [left; cbn; congruence|right; by apply Hlaid].
    + cbn. auto.
  - intros [? (calls & ? & ? & ?)]%Ha. split; [done|]. exists calls. split_and!; [done..|by rewrite Hsta].
  - intros r (r0 & Hr0 & ->)%fmap_Some. destruct (Hrt r0 Hr0) as (p & la & Hla & Hi & Hu & Him & Hrun).
    exists p, la. split_and!; try done.
    + destruct Hi. split; try done. apply Hok. by rewrite <-Him.
    + destruct Hu as [? Hu]. split; [done|]. cbn. rewrite Hcsdu. by rewrite <-Him.
  - split; cbn; try done; congruence.
Qed.

(** *** Any interleaving *)

Lemma sys_step_inv w s s' : sys_inv s → sys_step w s s' → sys_inv s'.
Proof.
  intros Hs Hst. destruct Hst as [s env now dev last params Ha _ Hp|s env now err dev Ha _ Hp
    |s now dev Ha _ Hp|s rcfg t env r armed Ha Hr Hrun Hl Ht Hset|s r env r' go Hr _ Hc|s w io Hc].
  - by eapply device_inv.
  - apply finished_inv; [done|].
    pose proof (publishing_step_ok _ (sy_last s) (io_params (sy_io s)) env now (si_dev s Hs)) as G.
    by rewrite Hp in G.
  - apply finished_inv; [done|]. pose proof (shutdown_ok _ now (si_dev s Hs)) as G.
    destruct Hp as [Hp|[err Hp]]; by rewrite Hp in G.
  - by eapply spawned_inv.
  - by apply (cyclic_inv s r env r' go).
  - by eapply called_inv.
Qed.

Lemma sys_steps_inv s s' : sys_inv s → rtc any_step s s' → sys_inv s'.
Proof.
  intros Hs Hst. induction Hst as [|s1 s2 s3 [w H1] _ IH]; [done|]. by apply IH, (sys_step_inv w s1).
Qed.
End invariant.
Arguments sys_inv {E R T _ _ _ _ _ _} su cfg s.

(** ** From the start *)

(** The acyclic thread and the handle as [start_inner] leaves them. *)
(** api.rs:274-303 IoDevice::start_inner *)
Definition sys_start {E R T} (dev : Device E R) (io : IoDevice) : Sys E R T :=
  {| sy_dev := dev; sy_last := None; sy_alive := true; sy_rt := None; sy_io := io |}.

(** No thread panics in its next turn. *)
Record turns_safe {E R T} `{!EthTransport E} `{!RpcTransport R} `{!EthTransport T}
    (s : Sys E R T) : Prop := {
  ts_step : ∀ env now,
    no_panic (publishing_step (sy_dev s) (sy_last s) (io_params (sy_io s)) env now);
  ts_shutdown : ∀ now, no_panic (shutdown (sy_dev s) now);
  ts_cycle : ∀ r env, sy_rt s = Some r → is_Ok (cycle (E := Empty_set) r env) = true;
  ts_write : ∀ slot sets, Forall (wf_value ∘ snd) sets → no_panic (write_all (sy_io s) slot sets);
  ts_read : ∀ slot i, no_panic (io_read (sy_io s) slot i);
  ts_raise : ∀ slot ch err sev, no_panic (raise_diagnosis (sy_io s) slot ch err sev);
  ts_clear : ∀ slot ch err, no_panic (clear_diagnosis (sy_io s) slot ch err)
}.

Section safety.
#[local] Set Default Proof Using "Type*".
Context {E R T : Type} `{!EthTransport E, EthL : !EthTransportLaws E}
  `{!RpcTransport R, RpcL : !RpcTransportLaws R} `{!EthTransport T, ThrL : !EthTransportLaws T}.

Lemma leads_no_panic {A} su (m : outcome (DeviceError * Device E R) A) P :
  leads su m P → no_panic m.
Proof. by destruct m as [|[]|]. Qed.

Lemma inv_safe su cfg mac (s : Sys E R T) :
  su_model su = cf_model cfg mac → sys_inv su cfg s → turns_safe s.
Proof.
  intros Hm [Hd _ Hrt [Hio Hcfg _ _ _]]. split.
  - intros env now. by eapply leads_no_panic, (publishing_step_ok Hm).
  - intros now. by eapply leads_no_panic, (shutdown_ok Hm).
  - intros r env Hr. destruct (Hrt r Hr) as (p & la & _ & Hi & _).
    by destruct (cycle_ok la r env Hi) as (r' & go & -> & _).
  - intros slot sets Hv. by destruct (write_all_result (sy_io s) slot sets Hio Hv) as [[] _].
  - intros slot i. unfold io_read. by destruct (read_want (sy_io s) slot i None Hio).
  - intros. unfold raise_diagnosis.
    by destruct (cf_submodule_cases (X := ApiError) _ slot (wf_cfg _ Hio)) as [(? & -> & _)|[-> _]].
  - intros. unfold clear_diagnosis.
    by destruct (cf_submodule_cases (X := ApiError) _ slot (wf_cfg _ Hio)) as [(? & -> & _)|[-> _]].
Qed.

Lemma start_inv cfg mac ip rt (eth : E) (rpc : R) runner store read dev io :
  cf_ok cfg → wf_builder_ids cfg → wf_mac mac → eth_wf eth → rpc_wf rpc →
  start_inner cfg mac ip rt eth rpc runner store read = Ok (dev, io) →
  su_model (dv_setup dev) = cf_model cfg mac ∧
  sys_inv (dv_setup dev) cfg (sys_start (T := T) dev io).
Proof.
  intros Hc Hids Hmac He Hr Hs. pose proof (start_inner_wf _ _ _ _ _ _ _ _ _ _ _ Hc Hids Hs) as Hw.
  unfold start_inner in Hs. apply obind_Ok in Hs as (setup & Hset & Hs).
  apply obind_Ok in Hs as (bufs & _ & [= <- <-]).
  unfold cf_setup in Hset. apply obind_Ok in Hset as (serial & _ & [= <-]).
  destruct (config_model cfg mac Hc Hids Hmac) as (Hm & _ & Hseed & _).
  cbn [su_model su_dcp su_activity_seed su_rt su_im0] in *.
  set (dev := on_state_change (Device_new _ _ _ _ _)) in *.
  assert (dv_ok (dv_setup dev) dev ∧ linked dev) as [Hd Hl].
  { destruct (Device_new_ok (su := dv_setup dev) eth rpc read runner) as [H0 L0]; [done..|].
    split; [by apply (with_calls_ok _ (Some []))|exact L0]. }
  split; [done|]. split; cbn; [done|intros _; split; [done|by exists []]|done|]. by split.
Qed.

(** C2: the three threads of a started device work together.  From the start
    and whatever the order in which the acyclic thread, the cyclic thread and
    the application take their turns: the device and the cyclic thread keep
    their invariants, the thread's image is the device's and the handle's, the
    handle shows the device's counters and diagnoses and stays well-formed for
    the configuration; while the acyclic thread runs, the state the handle shows
    is the AR's, with the ApplicationReady phase shown as Connected; no turn of
    any thread panics; and the acyclic thread, as
    long as it runs, and the cyclic thread, until it is told to stop, can always
    take another turn. *)
Theorem system_safe cfg mac ip rt (eth : E) (rpc : R) runner store read dev io (s : Sys E R T) :
  cf_ok cfg → wf_builder_ids cfg → wf_mac mac → eth_wf eth → rpc_wf rpc →
  start_inner cfg mac ip rt eth rpc runner store read = Ok (dev, io) →
  rtc any_step (sys_start dev io) s →
  sys_inv (dv_setup dev) cfg s ∧ turns_safe s ∧
  (sy_alive s = true → io_ar_state (sy_io s) = announced (dv_state (sy_dev s))) ∧
  (sy_alive s = true → ∀ env now, ∃ s', sys_step None s s' ∧
     (sy_alive s' = true ∨ io_stop (sy_io s) = true ∨
      is_Ok (publishing_step (sy_dev s) (sy_last s) (io_params (sy_io s)) env now) = false)) ∧
  (∀ r env, sy_rt s = Some r → sh_stop (rn_shared r) = false →
     ∃ r' go, cycle (E := Empty_set) r env = Ok (r', go) ∧ sys_step None s (thread_at s r' go)).
Proof.
  intros Hc Hids Hmac He Hr Hs Hst. destruct (start_inv _ _ _ _ _ _ _ _ _ _ _ Hc Hids Hmac He Hr Hs) as [Hm H0].
  pose proof (sys_steps_inv Hm _ _ H0 Hst) as Hi. pose proof (inv_safe _ _ _ _ Hm Hi) as Hsafe.
  split_and!; [done|done|by intros [_ ?%told_state]%(si_alive _ Hi)| |].
  - intros Ha env now. destruct (io_stop (sy_io s)) eqn:Hstop.
    + pose proof (ts_shutdown s Hsafe now) as Hnp. destruct (shutdown (sy_dev s) now) as [d|[x d]|] eqn:Hsh; [..|done].
      * exists (finished s d). split; [|auto]. eapply ss_stopped; eauto.
      * exists (finished s d). split; [|auto]. eapply ss_stopped; eauto.
    + pose proof (ts_step s Hsafe env now) as Hnp.
      destruct (publishing_step _ _ _ env now) as [[[d l] ps]|[x d]|] eqn:Hp; [..|done].
      * eexists. split; [by eapply ss_device|by left].
      * eexists. split; [by eapply ss_failed|by right; right].
  - intros r env Hrt Hstop. pose proof (ts_cycle s Hsafe r env Hrt) as Hok.
    destruct (cycle r env) as [[r' go]| |] eqn:Hcy; [|done..]. exists r', go. split; [done|].
    by eapply ss_cyclic.
Qed.
End safety.

(** ** A written value stays until it is sent *)

(** The value of an input field in the octets of a provider's C-SDU, cut and
    decoded as the layout in force says. *)
Definition field_in (c : DeviceConfig) (img : IoImage) (csdu : list Z) (slot : Z) (j : nat) :
    option Value :=
  k ← cf_index_of c slot;
  der ← cf_derived c !! k;
  f ← de_inputs der !! j;
  match find_cell img slot 1 with
  | Ok cell =>
    off ← ce_input_off cell;
    match decode_field f (region off (octets DrInput der) csdu) with
    | Ok v => Some v
    | _ => None
    end
  | _ => None
  end.

Lemma input_value_field d slot j :
  input_value d slot j = field_in (io_cfg d) (io_image d) (im_inputs (io_image d)) slot j.
Proof. done. Qed.

Lemma field_in_ext c img img' csdu slot j :
  im_cells img' = im_cells img → field_in c img' csdu slot j = field_in c img csdu slot j.
Proof. intros Hc. unfold field_in. by rewrite (find_cell_ext _ _ _ _ Hc). Qed.

Lemma input_value_ext d d' slot j :
  io_cfg d' = io_cfg d → im_cells (io_image d') = im_cells (io_image d) →
  im_inputs (io_image d') = im_inputs (io_image d) → input_value d' slot j = input_value d slot j.
Proof. intros Hcfg Hc Hi. rewrite !input_value_field, Hcfg, Hi. by apply field_in_ext. Qed.

(** The C-SDU of a tick carries the fields of the image it was made from. *)
Lemma field_sent d p mac la csdu slot j :
  io_wf d → Layout_from_ar p (cf_model (io_cfg d) mac) = Ok la → im_ok la (io_image d) →
  cr_sound (la_input_cr la) → provides (la_input_cr la) (im_inputs (io_image d)) csdu →
  field_in (io_cfg d) (io_image d) csdu slot j = input_value d slot j.
Proof.
  intros Hw Hla Him Hs Hp. rewrite input_value_field. unfold field_in.
  destruct (cf_index_of (io_cfg d) slot) as [k|] eqn:Hk; cbn [mbind option_bind]; [|done].
  destruct (cf_index_of_entry _ _ _ (wf_cfg d Hw) Hk) as (sm & der & He).
  pose proof He as (_ & _ & Hd & _). rewrite Hd. cbn [mbind option_bind].
  destruct (de_inputs der !! j) as [f|]; cbn [mbind option_bind]; [|done].
  destruct (find_cell (io_image d) slot 1) as [c| |] eqn:Hc; [|done..].
  destruct (ce_input_off c) as [off|] eqn:Hoff; cbn [mbind option_bind]; [|done].
  destruct (image_cell d slot k sm der c DirInput off Hw He Hc Hoff) as [Hl _]. cbn [cell_len] in Hl.
  destruct (find_cell_in _ _ _ _ Hc) as [Hin _]. rewrite (io_cells _ _ Him) in Hin.
  destruct (provides_region _ _ _ _ _ _ _ Hla (cf_unique _ mac (wf_cfg d Hw) (wf_ids d Hw)) Hin Hoff Hs Hp)
    as [Heq _]. rewrite Hl in Heq. by rewrite Heq.
Qed.

Section sent.
#[local] Set Default Proof Using "Type*".
Context {E R : Type} `{!EthTransport E, EthL : !EthTransportLaws E}
  `{!RpcTransport R, RpcL : !RpcTransportLaws R}.
Implicit Types s : Sys E R MockTransport.

(** A call that writes another slot, or none, leaves the fields of a slot. *)
Lemma call_elsewhere d w d' slot j :
  io_wf d → app_call d w d' → w ≠ Some slot → input_value d' slot j = input_value d slot j.
Proof.
  intros Hw Hc Hne. destruct Hc as [si sets d' Hv Ha|slot0 ch err sev d' Hr|slot0 ch err d' Hr|].
  - destruct (write_all_result d si sets Hw Hv) as [Hres _].
    destruct Hres as [|k sm der|k sm der pre set post e|k sm der buf buf' e He _ Hbuf Hb
      |k sm der buf buf' img He Hf Hbuf Hb Hp]; injection Ha as <-; try done.
    destruct Hb as (Hl & _). pose proof He as (_ & _ & Hd & _).
    destruct (Forall2_lookup_lr _ _ _ _ _ _ (wf_inputs d Hw) Hd Hbuf) as [Hlen _].
    apply (published_values d si k sm der buf' img _ Hw He); [by rewrite Hl|done|congruence].
  - unfold raise_diagnosis in Hr. apply obind_Ok in Hr as (? & _ & Hr).
    by apply obind_Ok in Hr as (? & _ & [= <-]).
  - unfold clear_diagnosis in Hr. apply obind_Ok in Hr as (? & _ & Hr).
    by apply obind_Ok in Hr as (? & _ & [= <-]).
  - done.
Qed.

Lemma thread_at_value s r go slot j :
  rn_image r = io_image (sy_io s) ∨
    (im_inputs (rn_image r) = im_inputs (io_image (sy_io s)) ∧
     im_cells (rn_image r) = im_cells (io_image (sy_io s))) →
  input_value (sy_io (thread_at s r go)) slot j = input_value (sy_io s) slot j.
Proof.
  intros H. apply input_value_ext; [done|..]; cbn; destruct go; cbn; destruct H as [->|[? ?]]; done.
Qed.

Lemma quiet_value su cfg mac s s' slot j :
  su_model su = cf_model cfg mac → sys_inv su cfg s → sy_alive s = true → quiet slot s s' →
  input_value (sy_io s') slot j = input_value (sy_io s) slot j.
Proof.
  intros Hm Hs Hal (w & Hw & Hst & Ha & Hc). destruct (si_alive _ Hs Hal) as [_ Ht%told_is_Some].
  pose proof (ag_image _ _ (si_io _ Hs)) as Himg.
  destruct Hst as [s env now dev last params _ _ Hp|s env now err dev _ _ Hp
    |s now dev _ _ Hp|s rcfg t env r armed _ Hr Hrun Hl Ht' Hset|s r env r' go Hr _ Hcy|s w io Hcall].
  - pose proof (publishing_step_ok Hm _ (sy_last s) (io_params (sy_io s)) env now (si_dev _ Hs)) as G.
    rewrite Hp in G. cbn in G, Hc. destruct (calm_told _ _ (go_calm _ _ G) Ht Hc) as [Hi _].
    apply input_value_ext; [done|..]; cbn; by rewrite Hi, Himg.
  - by rewrite Hal in Ha.
  - by rewrite Hal in Ha.
  - apply thread_at_value. left. rewrite Himg. unfold run_setup in Hset.
    destruct (arm_timerfd _ _); by injection Hset as <- _.
  - destruct (si_rt _ Hs r Hr) as (p & la & _ & _ & _ & Him & _).
    destruct (cyclic_inv Hm s r env r' go Hs Hr Hcy) as [_ [Hi Hce _]].
    apply thread_at_value. right. by rewrite Hi, Hce, Him, Himg.
  - by apply (call_elsewhere _ w); [apply Hs|..].
Qed.

Lemma quiets_value su cfg mac s s' slot j :
  su_model su = cf_model cfg mac → sys_inv su cfg s → sy_alive s = true → rtc (quiet slot) s s' →
  sys_inv su cfg s' ∧ input_value (sy_io s') slot j = input_value (sy_io s) slot j.
Proof.
  intros Hm Hs Ha Hst. induction Hst as [|s1 s2 s3 Hq _ IH]; [done|].
  pose proof (quiet_value _ _ _ _ _ slot j Hm Hs Ha Hq) as Hv.
  destruct Hq as (w & _ & H1 & Ha2 & _). pose proof (sys_step_inv Hm w _ _ Hs H1) as H2.
  rewrite Ha in Ha2. destruct (IH H2 Ha2) as [? IH2]. split; [done|]. by rewrite IH2.
Qed.

(** A write that was published shows the values it set. *)
Lemma final_fits sm sets j v :
  Forall (fits sm) sets → final sets j = Some v → ss_inputs sm !! j = Some (field_type v).
Proof.
  induction 1 as [|[i x] sets Hx _ IH]; cbn; [done|]. destruct (final sets j) as [y|]; [by auto|].
  case_decide as Hij; [|done]. subst. intros [= <-]. exact Hx.
Qed.

Lemma write_shows d slot sets d' j v :
  io_wf d → Forall (wf_value ∘ snd) sets → write_all d slot sets = Ok (d', tt) →
  final sets j = Some v → input_value d' slot j = Some v.
Proof.
  intros Hw Hv Hwr Hj. destruct (write_all_result d slot sets Hw Hv) as [Hres _]. rewrite Hwr in Hres.
  inversion Hres as [| | | |k sm der buf buf' img He Hfit Hbuf Hb Hp Heq].
  pose proof (final_fits _ _ _ _ Hfit Hj) as Hty. pose proof (placed_lookup _ _ _ _ _ DrInput j He) as Hf.
  cbn [declared placed] in Hf. rewrite Hty in Hf. destruct Hf as (f & Hf & _).
  destruct Hb as (Hl & _ & Hval). pose proof He as (_ & _ & Hd & _).
  destruct (Forall2_lookup_lr _ _ _ _ _ _ (wf_inputs d Hw) Hd Hbuf) as [Hlen _].
  destruct (published_values d slot k sm der buf' img (<[k := buf']> (io_inputs d)) Hw He) as [Hmine _];
    [by rewrite Hl|done|]. eapply Hmine; [exact Hf|]. by rewrite (Hval j f Hf), Hj.
Qed.

(** The frame of a tick of a thread that runs in the system. *)
Lemma tick_sends su cfg mac s r env n slot j :
  su_model su = cf_model cfg mac → sys_inv su cfg s → sy_rt s = Some r → tick_of env = Some n →
  ev_busy_inputs env = false →
  ∃ r' go frame eth rt, cycle (E := Empty_set) r env = Ok (r', go) ∧
    mt_tx (rn_transport r') = mt_tx (rn_transport r) ++ [frame] ∧
    RtFrame_parse frame = Ok (eth, rt) ∧
    field_in cfg (dv_image (sy_dev s)) (rf_csdu rt) slot j = input_value (sy_io s) slot j.
Proof.
  intros Hm Hs Hr Hn Hb. destruct (si_rt _ Hs r Hr) as (p & la & Hla & Hi & _ & Him & _).
  destruct (cycle_frames la r env Hi) as (r' & go & Hc & Hf). rewrite Hn in Hf.
  destruct Hf as (frame & (rt & Hp & Hsay) & Htx). rewrite Hb in Hsay.
  destruct (si_io _ Hs) as [Hio Hcfg Himg _ _].
  destruct Hsay as (_ & _ & _ & _ & _ & _ & _ & Hprov). rewrite (ri_layout _ _ Hi) in Hprov.
  do 5 eexists. split_and!; [exact Hc|exact Htx|exact Hp|].
  rewrite <-Himg, <-Hcfg. rewrite Hm, <-Hcfg in Hla. eapply field_sent; [done|exact Hla|..].
  - rewrite Himg, <-Him. apply Hi.
  - rewrite <-(ri_layout _ _ Hi). apply Hi.
  - by rewrite Himg, <-Him.
Qed.

(** C3: a value the application wrote is sent until it is overwritten.  From
    the start of the device, in any reachable state: after a write that was
    published, whatever turns the threads take in any order, as long as none
    writes the same slot or changes the AR's state, every tick of the cyclic
    thread that finds the image unlocked sends one frame, and the field decoded
    from that frame is the value written. *)
Theorem written_value_sent cfg mac ip rt (eth : E) (rpc : R) runner store read dev io
    s slot sets io1 j v s2 r env n :
  cf_ok cfg → wf_builder_ids cfg → wf_mac mac → eth_wf eth → rpc_wf rpc →
  start_inner cfg mac ip rt eth rpc runner store read = Ok (dev, io) →
  rtc any_step (sys_start dev io) s → sy_alive s = true →
  Forall (wf_value ∘ snd) sets → write_all (sy_io s) slot sets = Ok (io1, tt) →
  final sets j = Some v →
  rtc (quiet slot) (called s io1) s2 → sy_rt s2 = Some r →
  tick_of env = Some n → ev_busy_inputs env = false →
  ∃ r' go frame eth rt, cycle (E := Empty_set) r env = Ok (r', go) ∧
    mt_tx (rn_transport r') = mt_tx (rn_transport r) ++ [frame] ∧
    RtFrame_parse frame = Ok (eth, rt) ∧
    field_in cfg (dv_image (sy_dev s2)) (rf_csdu rt) slot j = Some v.
Proof.
  intros Hc Hids Hmac He Hr Hs Hst Ha Hv Hwr Hj Hq Hrt Hn Hb.
  destruct (start_inv (T := MockTransport) _ _ _ _ _ _ _ _ _ _ _ Hc Hids Hmac He Hr Hs) as [Hm H0].
  pose proof (sys_steps_inv Hm _ _ H0 Hst) as Hi.
  pose proof (si_io _ Hi) as [Hio _ _ _ _].
  assert (sys_inv (dv_setup dev) cfg (called s io1)) as H1.
  { eapply (called_inv Hm); [done|]. apply (ac_write _ slot sets); [done|]. by rewrite Hwr. }
  destruct (quiets_value _ _ _ _ _ slot j Hm H1 Ha Hq) as [H2 Hval].
  destruct (tick_sends _ _ _ s2 r env n slot j Hm H2 Hrt Hn Hb) as (r' & go & frame & eth' & rt' & ? & ? & ? & Hf).
  exists r', go, frame, eth', rt'. split_and!; [done..|]. rewrite Hf, Hval. by eapply write_shows.
Qed.
End sent.

(** ** Witnesses *)

(** A controller that connects to [sample_config], ends the parameterization
    and answers ApplicationReady. *)
Definition up_connect : list Z :=
  match synthetic_connect_req (E := Empty_set) golden_connect_req (cf_model sample_config sample_mac) with
  | Ok pdu => pdu
  | _ => []
  end.
Definition up_prm_end : list Z :=
  sample_datagram 4 2 (block_wire IOD_CONTROL_REQ_PRM_END (ControlBlock_body
    {| cb_block_type := IOD_CONTROL_REQ_PRM_END; cb_ar_uuid := arb_ar_uuid golden_hdr_ar.2;
       cb_session_key := arb_session_key golden_hdr_ar.2; cb_command := PRM_END; cb_properties := 0 |})).
Definition up_rpc : MockRpcTransport :=
  mr_push_rx (mr_push_rx (mr_push_rx MockRpcTransport_new up_connect sample_from)
    up_prm_end sample_from) sample_ready_response sample_from.

Definition up_start : outcome ApiError (Device MockTransport MockRpcTransport * IoDevice) :=
  start_inner sample_config sample_mac [192; 168; 0; 5] (su_rt sample_setup) MockTransport_new up_rpc
    (λ _, Some RtShared_new) None None.
Definition up_dev : Device MockTransport MockRpcTransport :=
  match up_start with Ok (dev, _) => dev | _ => sample_device_new end.
Definition up_io : IoDevice := match up_start with Ok (_, io) => io | _ => sample_handle end.

Definition up0 : Sys MockTransport MockRpcTransport MockTransport := sys_start up_dev up_io.
(** The acyclic thread has turned once: the AR is in Data. *)
Definition up1 : Sys MockTransport MockRpcTransport MockTransport :=
  match publishing_step (sy_dev up0) (sy_last up0) (io_params (sy_io up0)) sample_step_env 1000 with
  | Ok (dev, last, params) =>
    {| sy_dev := dev; sy_last := last; sy_alive := true;
       sy_rt := continues (sy_dev up0) dev (sy_rt up0);
       sy_io := with_params (mirror dev (sy_io up0)) params |}
  | _ => up0
  end.

(** The cyclic thread has started. *)
Definition up_params : ArParams := default typed_params (ar_params (sy_dev up1)).
Definition up_layout : Layout :=
  match Layout_from_ar up_params (cf_model sample_config sample_mac) with
  | Ok la => la
  | _ => sample_layout
  end.
Definition up_rt_config : RtConfig :=
  {| rg_iface := "eth0"; rg_our_mac := sample_mac; rg_cpu_mac := ap_initiator_mac up_params;
     rg_layout := up_layout; rg_cpu_pin := None; rg_rt_priority := None; rg_lock_memory := false |}.
Definition up_thread_on (t : MockTransport) : Runner MockTransport :=
  (run_setup up_rt_config t (dv_image (sy_dev up1)) (dv_stats (sy_dev up1))
     RtShared_new sample_setup_env).1.
Definition up_thread : Runner MockTransport := up_thread_on MockTransport_new.
Definition up2 : Sys MockTransport MockRpcTransport MockTransport := thread_at up1 up_thread true.

(** The application writes a field, the cyclic thread ticks, a diagnosis is
    raised. *)
Definition up_sets : list (nat * Value) := [(0%nat, VReal 0x40490fdb)].
Definition up_written : IoDevice :=
  match write_all (sy_io up2) 5 up_sets with Ok (io, _) => io | _ => sample_handle end.
Definition up3 : Sys MockTransport MockRpcTransport MockTransport := called up2 up_written.
Definition turn (r : Runner MockTransport) (env : Env) : Runner MockTransport :=
  match cycle (E := Empty_set) r env with Ok (r', _) => r' | _ => r end.
Definition up_rt3 : Runner MockTransport := default sample_runner (sy_rt up3).
Definition up4 : Sys MockTransport MockRpcTransport MockTransport :=
  thread_at up3 (turn up_rt3 (tick_env 2000 false false false)) true.
Definition up_raised : IoDevice :=
  match raise_diagnosis (sy_io up4) 5 1 LineBreak SvFault with Ok io => io | _ => sample_handle end.
Definition up5 : Sys MockTransport MockRpcTransport MockTransport := called up4 up_raised.
Definition up_rt5 : Runner MockTransport := default sample_runner (sy_rt up5).

Lemma up_started : up_start = Ok (up_dev, up_io).
Proof.
  unfold up_dev, up_io. assert (is_Ok up_start = true) as H by (vm_compute; reflexivity).
  by destruct up_start as [[]| |].
Qed.

Lemma up1_step : any_step up0 up1.
Proof.
  exists None. unfold up1.
  assert (is_Ok (publishing_step (sy_dev up0) (sy_last up0) (io_params (sy_io up0)) sample_step_env 1000)
          = true) as H by (vm_compute; reflexivity).
  destruct (publishing_step _ _ _ _ _) as [[[dev last] params]| |] eqn:Hp; [|done..].
  eapply ss_device; [reflexivity|vm_compute; reflexivity|exact Hp].
Qed.

Lemma up_spawns t : eth_wf t → any_step up1 (thread_at up1 (up_thread_on t) true).
Proof.
  intros Ht. exists None. apply (ss_spawned up1 up_rt_config t sample_setup_env).
  - vm_compute. reflexivity.
  - vm_compute. reflexivity.
  - vm_compute. reflexivity.
  - exists up_params. split_and!.
    + vm_compute. reflexivity.
    + by_decide.
    + by_decide.
    + vm_compute. reflexivity.
    + reflexivity.
    + unfold wf_mac. by_decide.
    + split; vm_compute; reflexivity.
  - exact Ht.
  - unfold up_thread_on. vm_compute. reflexivity.
Qed.

Lemma up_reached : rtc any_step (sys_start up_dev up_io) up2.
Proof. eapply rtc_l; [exact up1_step|]. apply rtc_once, up_spawns. constructor. Qed.

Lemma default_Some {A} (d : A) (o : option A) : bool_decide (is_Some o) = true → o = Some (default d o).
Proof. by destruct o. Qed.

Lemma turn_Ok r env :
  match cycle (E := Empty_set) r env with Ok (_, go) => go | _ => false end = true →
  cycle (E := Empty_set) r env = Ok (turn r env, true).
Proof. unfold turn. by destruct (cycle r env) as [[? []]| |]. Qed.

Lemma up_quiet : rtc (quiet 5) up3 up5.
Proof.
  apply (rtc_l _ up3 up4); [|apply rtc_once].
  - exists None. split; [done|]. split; [|split; vm_compute; reflexivity].
    apply (ss_cyclic up3 up_rt3 (tick_env 2000 false false false)
      (turn up_rt3 (tick_env 2000 false false false)) true).
    + apply default_Some. vm_compute. reflexivity.
    + vm_compute. reflexivity.
    + apply turn_Ok. vm_compute. reflexivity.
  - exists None. split; [done|]. split; [|split; vm_compute; reflexivity]. apply ss_called.
    apply (ac_raise _ 5 1 LineBreak SvFault). unfold up_raised.
    assert (is_Ok (raise_diagnosis (sy_io up4) 5 1 LineBreak SvFault) = true) as H by (vm_compute; reflexivity).
    by destruct (raise_diagnosis _ _ _ _ _).
Qed.

Lemma system_safe_witness :
  sys_inv (dv_setup up_dev) sample_config up2 ∧ turns_safe up2 ∧ sy_alive up2 = true ∧
  is_Some (sy_rt up2).
Proof.
  destruct (system_safe sample_config sample_mac [192; 168; 0; 5] (su_rt sample_setup) MockTransport_new
    up_rpc (λ _, Some RtShared_new) None None up_dev up_io up2) as (Hi & Hs & _).
  - apply sample_config_ok.
  - apply sample_config_ok.
  - unfold wf_mac. by_decide.
  - constructor.
  - cbn. by_decide.
  - exact up_started.
  - exact up_reached.
  - split_and!; [exact Hi|exact Hs|reflexivity|by eexists].
Defined.

Lemma written_value_sent_witness :
  ∃ r' go frame eth rt,
    cycle (E := Empty_set) up_rt5 (tick_env 3000 false false false) = Ok (r', go) ∧
    mt_tx (rn_transport r') = mt_tx (rn_transport up_rt5) ++ [frame] ∧
    RtFrame_parse frame = Ok (eth, rt) ∧
    field_in sample_config (dv_image (sy_dev up5)) (rf_csdu rt) 5 0 = Some (VReal 0x40490fdb).
Proof.
  apply (written_value_sent sample_config sample_mac [192; 168; 0; 5] (su_rt sample_setup) MockTransport_new
    up_rpc (λ _, Some RtShared_new) None None up_dev up_io up2 5 up_sets up_written 0 (VReal 0x40490fdb)
    up5 up_rt5 (tick_env 3000 false false false) 1).
  - apply sample_config_ok.
  - apply sample_config_ok.
  - unfold wf_mac. by_decide.
  - constructor.
  - cbn. by_decide.
  - exact up_started.
  - exact up_reached.
  - reflexivity.
  - repeat constructor; by_decide.
  - unfold up_written. assert (is_Ok (write_all (sy_io up2) 5 up_sets) = true) as H by (vm_compute; reflexivity).
    destruct (write_all (sy_io up2) 5 up_sets) as [[io []]| |]; [reflexivity|discriminate..].
  - reflexivity.
  - exact up_quiet.
  - apply default_Some. vm_compute. reflexivity.
  - reflexivity.
  - reflexivity.
Defined.
