(* ===== verification/Received.v ===== *)
(** * What the application reads (rt/runner.rs, rt/engine.rs, api.rs)

    The way of the controller's data through the system, the counterpart of the
    written values of [System]: the data of the newest valid frame a turn of
    the cyclic thread received is what the application's reads decode, whatever
    the threads do until the next valid frame or a change of the AR's state. *)

From Stdlib Require Import ZArith Lia.
From stdpp Require Import base numbers list option relations.
From S2P Require Import Prelude Eth Rpc Block Connect Records Ar Cm Diag Dcp Data RtFrame Layout.
From S2P Require Import Config Hist Engine Image Transport Runner Controller Device Api Bringup System.
Local Open Scope Z_scope.

(** ** The data of a frame *)

(** The data the consumer [e] takes from a received frame: its C-SDU, if the
    frame comes from the controller under the output CR's frame id, is usable,
    long enough and says its data is valid. *)
Definition data_of (e : RtEngine) (frame : list Z) : option (list Z) :=
  let cr := la_output_cr (en_layout e) in
  if decide (MAX_FRAME_LEN < length frame)%nat then None else
  match RtFrame_parse frame with
  | Ok (eth, rt) =>
    if decide (eth_src eth = en_cpu_mac e ∧ rf_frame_id rt = cl_frame_id cr ∧
               rf_transfer_status rt = 0 ∧ (cl_data_length cr ≤ length (rf_csdu rt))%nat ∧
               ds_data_valid (rf_data_status rt) = true)
    then Some (take (cl_data_length cr) (rf_csdu rt)) else None
  | _ => None
  end.
(** The newest data of frames that arrive one after the other. *)
Definition newest (e : RtEngine) (frames : list (list Z)) : option (list Z) :=
  list.last (omap (data_of e) frames).

(** Two states of one consumer. *)
Definition same_peer (e e' : RtEngine) : Prop :=
  en_layout e' = en_layout e ∧ en_cpu_mac e' = en_cpu_mac e.

Lemma data_of_peer e e' : same_peer e e' → data_of e' = data_of e.
Proof. intros [Hl Hc]. unfold data_of. by rewrite Hl, Hc. Qed.

Lemma newest_cons e f fs :
  newest e (f :: fs) = match newest e fs with Some c => Some c | None => data_of e f end.
Proof.
  unfold newest. cbn. destruct (data_of e f) as [c|]; [|by destruct (list.last _)].
  by rewrite last_cons.
Qed.

Lemma newest_peer e e' fs : same_peer e e' → newest e' fs = newest e fs.
Proof. intros Hp. unfold newest. by rewrite (data_of_peer _ _ Hp). Qed.

Lemma newest_none e fs : Forall (λ f, data_of e f = None) fs → newest e fs = None.
Proof. induction 1 as [|f fs Hf _ IH]; [done|]. by rewrite newest_cons, IH. Qed.

Lemma en_on_frame_data e frame now e' v :
  en_inv e → (length frame ≤ MAX_FRAME_LEN)%nat →
  en_on_frame (E := Empty_set) e frame now = Ok (e', v) →
  same_peer e e' ∧ en_rx_csdu e' = default (en_rx_csdu e) (data_of e frame) ∧
  (is_Some (data_of e frame) → ∃ run primary valid, v = RxAccepted run primary valid).
Proof.
  intros He Hlen Hf. unfold data_of. rewrite decide_False by lia. unfold en_on_frame in Hf.
  destruct (RtFrame_parse frame) as [[eth rt]|x|] eqn:Hp;
    [|injection Hf as <- <-; split_and!; [done|done|by intros []]|done].
  set (take_it := decide (eth_src eth = _ ∧ _)).
  assert (∀ stats v0, ¬ (addressed e eth rt ∧ rf_transfer_status rt = 0 ∧
      (cl_data_length (la_output_cr (en_layout e)) ≤ length (rf_csdu rt))%nat) →
    Ok (set_en_stats e stats, v0) = Ok (E := Empty_set) (e', v) →
    same_peer e e' ∧ en_rx_csdu e' = default (en_rx_csdu e)
      (if take_it then Some (take (cl_data_length (la_output_cr (en_layout e))) (rf_csdu rt)) else None) ∧
    (is_Some (if take_it then Some (take (cl_data_length (la_output_cr (en_layout e))) (rf_csdu rt)) else None) →
     ∃ run primary valid, v = RxAccepted run primary valid)) as Hno.
  { intros stats v0 Hn [= <- <-]. destruct take_it as [Ht|]; [|by split_and!; [| |intros []]].
    exfalso. apply Hn. unfold addressed. tauto. }
  case_decide as Ha; [eapply Hno, Hf; unfold addressed; tauto|].
  case_decide as Ht; [eapply Hno, Hf; tauto|]. case_decide as Hl; [eapply Hno, Hf; lia|]. clear Hno.
  apply Decidable.not_or in Ha as [Ha1%dec_stable Ha2%dec_stable].
  destruct (en_on_frame_accepts (E := Empty_set) e eth rt frame now He Hp (conj Ha1 Ha2) Ht ltac:(lia))
    as (e1 & H1 & _ & _ & _ & Hv).
  unfold en_on_frame in H1. rewrite Hp in H1. rewrite !decide_False in H1 by (tauto || lia).
  rewrite Hf in H1. injection H1 as -> ->. split_and!; [..|by do 3 eexists].
  - apply obind_Ok in Hf as ([[[? ?] ?] ?] & _ & [= <-]). done.
  - destruct take_it as [Hti|Hti], (ds_data_valid (rf_data_status rt)) eqn:Hd; injection Hv as -> _ _;
      try done; [by destruct Hti as (_ & _ & _ & _ & ?)|]. destruct Hti. split_and!; try done. lia.
Qed.

Lemma en_on_tick_peer e problem n inputs e' frame :
  en_on_tick (E := Empty_set) e problem n inputs = Ok (e', frame) → same_peer e e'.
Proof.
  unfold en_on_tick. intros H. apply obind_Ok in H as (c1 & _ & H).
  apply obind_Ok in H as (c2 & _ & H). destruct (RtFrame_write _ _ _ _) as [[tx m]| |]; [|done|done].
  apply obind_Ok in H as (out & _ & H). by injection H as <- <-.
Qed.

(** ** One turn of the cyclic thread *)

Section turn.
Variable la : Layout.
Implicit Types r : Runner MockTransport.

(** The image shows the data the engine has. *)
Definition synced r : Prop := im_csdu (rn_image r) = en_rx_csdu (rn_engine r).

(** A part of a turn that receives nothing. *)
Record steady r r' : Prop := {
  st_peer : same_peer (rn_engine r) (rn_engine r');
  st_data : en_rx_csdu (rn_engine r') = en_rx_csdu (rn_engine r);
  st_synced : synced r → synced r'
}.
Lemma steady_trans r1 r2 r3 : steady r1 r2 → steady r2 r3 → steady r1 r3.
Proof. intros [[] ? ?] [[] ? ?]. split; [split; congruence|congruence|by auto]. Qed.
Lemma steady_same r r' :
  rn_image r' = rn_image r → en_rx_csdu (rn_engine r') = en_rx_csdu (rn_engine r) →
  same_peer (rn_engine r) (rn_engine r') → steady r r'.
Proof. intros Hi Hc Hp. split; [done..|]. unfold synced. by rewrite Hi, Hc. Qed.
Lemma steady_image r img p :
  im_csdu img = im_csdu (rn_image r) ∨ im_csdu img = en_rx_csdu (rn_engine r) →
  steady r (upd_image r img p).
Proof. intros H. split; [done..|]. unfold synced. cbn. by destruct H as [-> | ->]. Qed.

Lemma retry_stage_steady r busy r' :
  rn_inv la r →
  match rn_pending r with
  | Some p => retry_pending (E := Empty_set) (upd_image r (rn_image r) None) p busy
  | None => Ok r
  end = Ok r' → steady r r'.
Proof.
  intros Hr. destruct (rn_pending r) as [p|]; [|by intros [= <-]; apply steady_same].
  unfold retry_pending. cbn [rn_image rn_engine upd_image rn_pending]. destruct p as [v|v].
  - destruct (rt_publish_ok la (E := Empty_set) (rn_image r) (en_rx_csdu (rn_engine r)) v busy)
      as (img' & -> & _ & Hb & Hf); [apply Hr|by apply rx_csdu_length|]. cbn [obind].
    destruct busy; cbn [negb]; intros [= <-].
    + rewrite Hb by done. by apply steady_same.
    + apply (steady_image r img' None). right. by apply Hf.
  - cbn [obind]. unfold rt_set_validity. destruct busy; intros [= <-].
    + by apply steady_same.
    + apply (steady_image r (set_validity (rn_image r) v) None). by left.
Qed.

Lemma tick_watchdog_steady r now busy : rn_inv la r → steady r (tick_watchdog r now busy).
Proof.
  intros Hr. unfold tick_watchdog. destruct (check_watchdog (rn_engine r) now) as [e v] eqn:Hc.
  pose proof (check_watchdog_same _ _ _ _ Hc) as (_ & Hm & _).
  apply check_watchdog_inv in Hc as (_ & Hl & Hv & _); [|apply Hr]. injection Hv as Hcs _ _.
  assert (same_peer (rn_engine r) e) as Hpe by done. destruct v; try by apply steady_same.
  unfold rt_set_validity. destruct busy; split; try done; unfold synced; cbn; by rewrite Hcs.
Qed.

Lemma on_timer_steady r env n r' alive :
  rn_inv la r → on_timer (E := Empty_set) r env n = Ok (r', alive) → steady r r'.
Proof.
  intros Hr. unfold on_timer. destruct (tg_on_read (rn_grid r) (ev_now env) n) as [grid late].
  set (r1 := upd_stats (upd_grid r grid) _).
  assert (rn_inv la r1) as H1.
  { apply evolves_stats. by apply evolves_grid. }
  intros (r2 & H2 & H)%obind_Ok. pose proof (retry_stage_steady _ _ _ H1 H2) as S2.
  destruct (retry_stage_ok la r1 (ev_busy_retry env) H1) as (r2' & H2' & E2 & _).
  rewrite H2 in H2'. injection H2' as <-.
  pose proof (tick_watchdog_steady r2 (ev_now env) (ev_busy_validity env) (ev_inv _ _ _ E2)) as S3.
  set (r3 := tick_watchdog r2 _ _) in *.
  assert (steady r r3) as S. { eapply steady_trans; [|exact S3]. eapply steady_trans; [|exact S2]. by apply steady_same. }
  apply obind_Ok in H as ([snap fresh] & _ & H).
  apply obind_Ok in H as ([e frame] & Ht & H).
  pose proof (en_on_tick_peer _ _ _ _ _ _ Ht) as Hpeer. apply en_on_tick_layout in Ht as (_ & Hv & _).
  injection Hv as Hv _ _.
  set (r4 := if fresh then _ else _) in *.
  assert (steady r3 r4) as S4. { subst r4. destruct fresh; by apply steady_same. }
  assert (steady r (upd_engine r4 e)) as S5.
  { eapply steady_trans; [exact S|]. eapply steady_trans; [exact S4|]. apply steady_same; [done|done|by destruct Hpeer]. }
  eapply steady_trans; [exact S5|].
  destruct (eth_send _ _) as [t|[err t]|]; [..|done]; injection H as <- _; by apply steady_same.
Qed.

(** What receiving [frames] does: the newest data is taken over, and shown
    unless a lock kept it from the image. *)
Record takes (free : Prop) (frames : list (list Z)) r r' : Prop := {
  tk_peer : same_peer (rn_engine r) (rn_engine r');
  tk_data : en_rx_csdu (rn_engine r') = default (en_rx_csdu (rn_engine r)) (newest (rn_engine r) frames);
  tk_synced : free ∨ Forall (λ f, data_of (rn_engine r) f = None) frames →
    synced r ∨ is_Some (newest (rn_engine r) frames) → synced r'
}.

Lemma steady_takes free r r' : steady r r' → takes free [] r r'.
Proof. intros [? ? ?]. split; [done..|]. intros _ [?|[? [=]]]. by auto. Qed.

Lemma takes_cons (free : Prop) f frames r1 r2 r3 :
  takes free [f] r1 r2 → takes free frames r2 r3 → takes free (f :: frames) r1 r3.
Proof.
  intros [P1 D1 S1] [P2 D2 S2]. rewrite newest_cons in D1, S1. rewrite (newest_peer _ _ _ P1) in D2, S2.
  rewrite (data_of_peer _ _ P1) in S2. split; rewrite ?newest_cons.
  - destruct P1, P2. split; congruence.
  - rewrite D2, D1. by destruct (newest _ frames).
  - intros Hfree Hs. apply S2; [destruct Hfree as [|[]%Forall_cons_1]; auto|].
    destruct (newest _ frames) as [c|]; [right; by eexists|]. left. apply S1; [|done].
    destruct Hfree as [|[]%Forall_cons_1]; [by left|right; by repeat constructor].
Qed.

Lemma takes_steady free frames r1 r2 r3 :
  steady r1 r2 → takes free frames r2 r3 → takes free frames r1 r3.
Proof.
  intros [P1 D1 S1] [P2 D2 S2]. rewrite (newest_peer _ _ _ P1) in D2, S2. rewrite (data_of_peer _ _ P1) in S2.
  split; [destruct P1, P2; split; congruence|congruence|]. intros ? [?|?]; auto.
Qed.
Lemma takes_then free frames r1 r2 r3 :
  takes free frames r1 r2 → steady r2 r3 → takes free frames r1 r3.
Proof.
  intros [P1 D1 S1] [P2 D2 S2]. split; [destruct P1, P2; split; congruence|congruence|by auto].
Qed.

Lemma rx_frame_takes r frame env r' (free : Prop) :
  rn_inv la r → (length frame ≤ MAX_FRAME_LEN)%nat → (free → re_busy env = false) →
  rx_frame (E := Empty_set) r frame env = Ok r' → takes free [frame] r r'.
Proof.
  intros Hr Hlen Hfree. unfold rx_frame. intros ([e v] & He & H)%obind_Ok.
  destruct (en_on_frame_total (E := Empty_set) (rn_engine r) frame (Runner.re_now env) (ri_engine _ _ Hr))
    as (e1 & v1 & He1 & Hi). rewrite He in He1. injection He1 as <- <-.
  pose proof (en_on_frame_layout _ _ _ _ _ He) as [Hl _].
  destruct (en_on_frame_data _ _ _ _ _ (ri_engine _ _ Hr) Hlen He) as (Hp & Hd & Ha).
  assert (newest (rn_engine r) [frame] = data_of (rn_engine r) frame) as Hn by (by rewrite newest_cons).
  assert ((∀ run primary valid, v ≠ RxAccepted run primary valid) → r' = upd_engine r e → takes free [frame] r r') as Hrej.
  { intros Hna ->. split; rewrite ?Hn; [done..|].
    destruct (data_of (rn_engine r) frame) as [c|]; [destruct Ha as (? & ? & ? & ?); [by eexists|by edestruct Hna]|].
    intros _ [Hs|[? [=]]]. unfold synced. cbn. by rewrite Hd. }
  destruct v as [run primary valid| |]; [|injection H as <-; by apply Hrej..]. clear Hrej.
  set (r1 := match en_last_rx (rn_engine r) with Some _ => _ | None => _ end) in H.
  assert (rn_image r1 = rn_image r ∧ en_rx_csdu (rn_engine r1) = en_rx_csdu e ∧ same_peer e (rn_engine r1))
    as (Him & Hc & Hp1). { subst r1. by destruct (en_last_rx (rn_engine r)). }
  assert (same_peer (rn_engine r) (rn_engine r1)) as Hp2. { destruct Hp, Hp1. split; congruence. }
  rewrite Him in H. set (va := {| va_provider_run := _ |}) in H.
  destruct (rt_publish_ok la (E := Empty_set) (rn_image r) (en_rx_csdu e) va (re_busy env))
    as (img' & Hpub & _ & Hb & Hf); [apply Hr| |].
  { rewrite <-(ri_layout _ _ Hr), <-Hl. apply Hi. }
  rewrite Hpub in H. cbn [obind] in H. destruct (re_busy env); cbn [negb] in H; injection H as <-.
  - split; rewrite ?Hn; [done|by cbn; rewrite Hc|]. rewrite Hb by done. intros Hfr Hs. unfold synced. cbn.
    rewrite Hc, Hd. destruct Hfr as [Hfr|[Hfr _]%Forall_cons_1]; [by apply Hfree in Hfr|].
    rewrite Hfr in Hs |- *. by destruct Hs as [|[? [=]]].
  - split; rewrite ?Hn; [done|by cbn; rewrite Hc|]. intros _ _. unfold synced. cbn. rewrite Hc. by apply Hf.
Qed.

(** A pass over the queue of the transport takes at most [n] of its frames. *)
Lemma drain_rx_takes env n (free : Prop) : ∀ r i processed r' alive got,
  rn_inv la r → (free → ∀ j, re_busy (env j) = false) →
  drain_rx (E := Empty_set) n i r env processed = Ok (r', alive, got) →
  takes free (take n (mt_rx (rn_transport r))) r r'.
Proof.
  induction n as [|n IH]; intros r i processed r' alive got Hr Hfree; cbn [drain_rx].
  { intros [= <- _ _]. by apply steady_takes, steady_same. }
  cbn [eth_raw_fd MockTransport_eth eth_recv_into]. rewrite bool_decide_false by (by intros [? ?]).
  cbn [drain_should_continue]. unfold mt_recv_into. rewrite decide_False by (rewrite (ri_rx_buf _ _ Hr); lia).
  destruct (mt_rx (rn_transport r)) as [|f rx] eqn:Hrx.
  { intros [= <- _ _]. by apply steady_takes, steady_same. }
  pose proof (ri_transport _ _ Hr) as Hwf. cbn in Hwf. rewrite Hrx in Hwf.
  apply Forall_cons_1 in Hwf as [Hf8 Hwf]. set (t := {| mt_tx := _; mt_rx := rx |}).
  cbn [take]. case_decide as Hl.
  - intros Hd. apply IH in Hd; [|by apply (evolves_stats la), (evolves_transport la)|done].
    eapply takes_cons; [|exact Hd]. eapply takes_then; [|by apply steady_same].
    rewrite (ri_rx_buf _ _ Hr) in Hl.
    assert (data_of (rn_engine r) f = None) as Hn by (unfold data_of; by rewrite decide_True by lia).
    split; rewrite ?newest_cons, ?Hn; [done..|]. by intros _ [?|[? [=]]].
  - rewrite copy_at_front by lia. cbn [obind]. unfold slice. rewrite decide_True.
    2: { rewrite length_app. lia. } cbn [obind].
    rewrite drop_0, Nat.sub_0_r, take_app_length. set (r0 := upd_buffers _ _ _).
    assert (rn_inv la r0) as H0.
    { apply (evolves_buffers la); [by apply (evolves_transport la)|apply Hr|].
      rewrite length_app, length_drop, <-(ri_rx_buf _ _ Hr). lia. }
    destruct (rx_frame_ok la r0 f (env i) H0 Hf8) as (r1 & Hr1 & He1 & Ht).
    rewrite Hr1. cbn [obind]. intros Hd. apply IH in Hd; [|apply He1|done]. rewrite Ht in Hd.
    eapply takes_cons; [|exact Hd]. apply (takes_steady _ _ _ r0); [by apply steady_same|].
    eapply rx_frame_takes; [done| |intros Hx; by apply Hfree|exact Hr1]. rewrite <-(ri_rx_buf _ _ Hr). lia.
Qed.

(** The frames an iteration receives: those waiting in the transport, one pass
    of them, if it has a tick. *)
Definition pass r (env : Env) : list (list Z) :=
  match tick_of env with Some _ => take MAX_RX_PER_PASS (mt_rx (rn_transport r)) | None => [] end.

Lemma after_tick_takes r env sock ticked r' alive (free : Prop) :
  rn_inv la r → (free → ∀ j, re_busy (ev_rx env j) = false) →
  after_tick (E := Empty_set) r env sock ticked = Ok (r', alive) →
  takes free (if ticked then take MAX_RX_PER_PASS (mt_rx (rn_transport r)) else []) r r'.
Proof.
  intros Hr Hfree. unfold after_tick. cbn [eth_raw_fd MockTransport_eth].
  rewrite bool_decide_false by (by intros [? ?]).
  intros (((r1 & al) & got) & Hd & H)%obind_Ok.
  assert (takes free (if ticked then take MAX_RX_PER_PASS (mt_rx (rn_transport r)) else []) r r1) as H1.
  { destruct ticked; [by eapply drain_rx_takes|]. injection Hd as <- _ _. by apply steady_takes, steady_same. }
  eapply takes_then; [exact H1|]. destruct al; cbn [negb] in H; [|injection H as <- _; by apply steady_same].
  destruct (ticked || got); [injection H as <- _; by apply steady_same|].
  case_decide; injection H as <- _; by apply steady_same.
Qed.

Lemma cycle_takes r env r' go (free : Prop) :
  rn_inv la r → (free → ∀ j, re_busy (ev_rx env j) = false) →
  cycle (E := Empty_set) r env = Ok (r', go) → takes free (pass r env) r r'.
Proof.
  intros Hr Hfree Hc. unfold cycle in Hc. unfold pass, tick_of.
  destruct (ev_poll env) as [e|[[timer wake] sock]]; [injection Hc as <- _; by apply steady_takes, steady_same|].
  set (r0 := if wake then _ else r) in Hc.
  assert (rn_inv la r0 ∧ rn_transport r0 = rn_transport r ∧ steady r r0) as (H0 & Ht & S0).
  { subst r0. destruct wake; [|split_and!; [done|done|by apply steady_same]].
    split_and!; [destruct Hr; by split|done|by apply steady_same]. }
  eapply takes_steady; [exact S0|]. rewrite <-Ht.
  destruct timer; [|by eapply (after_tick_takes r0 env sock false)].
  destruct (read_timer (ev_timer env)) as [n|e|]; [|injection Hc as <- _; by apply steady_takes, steady_same|done].
  case_decide; [by eapply (after_tick_takes r0 env sock false)|].
  destruct (on_timer_ok la r0 env n H0) as (r1 & al & frame & Hr1 & He & _ & Hal & _).
  rewrite Hr1 in Hc. cbn [obind] in Hc. destruct al; [|by destruct Hal as [[? ?] _]].
  pose proof (on_timer_steady _ _ _ _ _ H0 Hr1) as S1. injection Hal as Hal.
  apply (after_tick_takes r1 env sock true _ _ free) in Hc; [|apply He|done].
  eapply takes_steady; [exact S1|]. by rewrite <-Hal in Hc.
Qed.
End turn.

(** ** What a read returns *)

(** The value of an output field in the octets of a C-SDU, cut and decoded as
    the layout in force says. *)
Definition output_in (c : DeviceConfig) (img : IoImage) (csdu : list Z) (slot : Z) (i : nat) :
    option Value :=
  k ← cf_index_of c slot;
  der ← cf_derived c !! k;
  f ← de_outputs der !! i;
  match find_cell img slot 1 with
  | Ok cell =>
    off ← ce_output_off cell;
    match decode_field f (region off (octets DrOutput der) csdu) with
    | Ok v => Some v
    | _ => None
    end
  | _ => None
  end.

Lemma output_in_ext c img img' csdu slot i :
  im_cells img' = im_cells img → output_in c img' csdu slot i = output_in c img csdu slot i.
Proof. intros Hc. unfold output_in. by rewrite (find_cell_ext _ _ _ _ Hc). Qed.

Lemma output_in_entry c slot k sm der img csdu i :
  cf_entry c slot k sm der →
  output_in c img csdu slot i =
    (f ← de_outputs der !! i;
     match find_cell img slot 1 with
     | Ok cell =>
       off ← ce_output_off cell;
       match decode_field f (region off (octets DrOutput der) csdu) with Ok v => Some v | _ => None end
     | _ => None
     end).
Proof. intros (Hk & _ & Hd & _). unfold output_in. rewrite Hk. cbn [mbind option_bind]. by rewrite Hd. Qed.

Lemma io_read_output d slot i v :
  io_wf d →
  io_read d slot i = Ok v ↔ output_in (io_cfg d) (io_image d) (im_csdu (io_image d)) slot i = Some v.
Proof.
  intros Hw. pose proof (read_want d slot i None Hw) as H. change (read_result d slot i None (io_read d slot i)) in H.
  assert (∀ sm k der, cf_entry (io_cfg d) slot k sm der → ss_outputs sm !! i = None → de_outputs der !! i = None) as Hno.
  { intros sm k der He Hn. pose proof (placed_lookup _ _ _ _ _ DrOutput i He) as Hp.
    cbn [declared placed] in Hp. by rewrite Hn in Hp. }
  inversion H as [Hu|k sm der He Ho|k sm der He Ho Hi|k sm der ty w He Hty Hw' _|k sm der ty He Hty _ Hcell
    |k sm der ty c He Hty _ Hc Hoff|k sm der ty c off f v' He Hty _ Hc Hoff Hf _ _ Hdec];
    try (rewrite (output_in_entry _ _ _ _ _ _ _ _ He)).
  - split; [done|]. unfold output_in. destruct (cf_index_of (io_cfg d) slot) as [k|] eqn:Hk; [|done].
    destruct Hu. apply (cf_entry_slot _ _ (wf_cfg d Hw)). by exists k.
  - rewrite (Hno _ _ _ He) by (by rewrite Ho). done.
  - by rewrite (Hno _ _ _ He Hi).
  - done.
  - destruct (de_outputs der !! i); cbn [mbind option_bind]; [|done].
    destruct (find_cell (io_image d) slot 1) as [c| |] eqn:Hc; [|done..].
    apply find_cell_in in Hc as (Hin & Hs & Hss). destruct (Hcell _ Hin). congruence.
  - destruct (de_outputs der !! i); cbn [mbind option_bind]; [|done]. rewrite Hc, Hoff. done.
  - rewrite Hf. cbn [mbind option_bind]. rewrite Hc, Hoff. cbn [mbind option_bind]. rewrite Hdec. naive_solver.
Qed.

Section read.
#[local] Set Default Proof Using "Type*".
Context {E R : Type} `{!EthTransport E, EthL : !EthTransportLaws E}
  `{!RpcTransport R, RpcL : !RpcTransportLaws R}.
Implicit Types s : Sys E R MockTransport.

(** A turn of a thread while the cyclic thread runs and no valid data waits for
    it, by a thread that goes on, and without a change of the AR's state. *)
Definition undisturbed s s' : Prop :=
  ∃ w r, sys_step w s s' ∧ sy_rt s = Some r ∧
    Forall (λ f, data_of (rn_engine r) f = None) (mt_rx (rn_transport r)) ∧
    sy_alive s' = sy_alive s ∧ dv_on_state_change (sy_dev s') = dv_on_state_change (sy_dev s).

(** The handle shows [csdu], cut by [cells], and the engine has it. *)
Record shows (cells : list Cell) (csdu : list Z) s : Prop := {
  sw_cells : im_cells (io_image (sy_io s)) = cells;
  sw_csdu : im_csdu (io_image (sy_io s)) = csdu;
  sw_engine : ∀ r, sy_rt s = Some r → en_rx_csdu (rn_engine r) = csdu
}.

Lemma thread_at_shows s r go cells csdu :
  im_cells (rn_image r) = cells → synced r → en_rx_csdu (rn_engine r) = csdu →
  shows cells csdu (thread_at s r go).
Proof.
  intros Hce Hs Hc. unfold synced in Hs. destruct go; split; cbn; congruence.
Qed.

Lemma undisturbed_shows su cfg mac s s' cells csdu :
  su_model su = cf_model cfg mac → sys_inv su cfg s → sy_alive s = true → undisturbed s s' →
  shows cells csdu s → shows cells csdu s'.
Proof.
  intros Hm Hs Hal (w & r & Hst & Hr & Hq & Ha & Hc) [Hce Hcs Hen].
  destruct (si_alive _ Hs Hal) as [_ Ht%told_is_Some].
  pose proof (ag_image _ _ (si_io _ Hs)) as Himg.
  destruct Hst as [s env now dev last params _ _ Hp|s env now err dev _ _ Hp
    |s now dev _ _ Hp|s rcfg t env r1 armed _ Hr1 Hrun Hl Ht' Hset|s r1 env r' go Hr1 _ Hcy|s w io Hcall].
  - pose proof (publishing_step_ok Hm _ (sy_last s) (io_params (sy_io s)) env now (si_dev _ Hs)) as G.
    rewrite Hp in G. cbn in G, Hc. destruct (calm_told _ _ (go_calm _ _ G) Ht Hc) as [Hi _].
    split; cbn; [by rewrite Hi, <-Himg..|]. intros r' Hr'. unfold continues in Hr'. rewrite Hr in Hr'.
    destruct (dv_runner dev); [|done]. case_decide; [|done]. injection Hr' as <-. by apply (Hen r).
  - by rewrite Hal in Ha.
  - by rewrite Hal in Ha.
  - congruence.
  - rewrite Hr in Hr1. injection Hr1 as <-. destruct (si_rt _ Hs r Hr) as (p & la & _ & Hi & _ & Him & _).
    destruct (cyclic_inv Hm s r env r' go Hs Hr Hcy) as [_ [_ Hce' _]].
    destruct (cycle_takes la r env r' go False Hi ltac:(done) Hcy) as [_ Hd Hsy].
    assert (Forall (λ f, data_of (rn_engine r) f = None) (pass r env)) as Hn.
    { unfold pass. destruct (tick_of env); [by apply Forall_take|constructor]. }
    rewrite (newest_none _ _ Hn) in Hd, Hsy. cbn in Hd.
    apply thread_at_shows; [by rewrite Hce', Him, <-Himg| |by rewrite Hd; apply Hen].
    apply Hsy; [by right|]. left. unfold synced. by rewrite Him, <-Himg, Hcs, Hen.
  - destruct (app_call_spares _ _ _ (ag_io _ _ (si_io _ Hs)) Hcall) as [_ _ Hce' Hcs' _ _ _ _].
    split; cbn; [congruence..|]. intros r' (r0 & Hr0 & ->)%fmap_Some. by apply (Hen r0).
Qed.

Lemma undisturbeds_show su cfg mac s s' cells csdu :
  su_model su = cf_model cfg mac → sys_inv su cfg s → sy_alive s = true → shows cells csdu s →
  rtc undisturbed s s' → sys_inv su cfg s' ∧ shows cells csdu s'.
Proof.
  intros Hm Hs Ha Hsh Hst. induction Hst as [|s1 s2 s3 Hq _ IH]; [done|].
  pose proof (undisturbed_shows _ _ _ _ _ _ _ Hm Hs Ha Hq Hsh) as Hsh2.
  destruct Hq as (w & r & H1 & _ & _ & Ha2 & _). rewrite Ha in Ha2.
  apply IH; [by eapply (sys_step_inv Hm)|done|done].
Qed.

(** C4: the application reads what the controller sent.  From the start of the
    device, in any reachable state: when a tick of the cyclic thread finds
    frames waiting and no reception finds the image locked, the data of the
    newest valid one among them is what the application has.  Whatever turns
    the threads take in any order afterwards, until another valid frame
    arrives, the thread ends or the AR changes its state: every read of an
    output field returns exactly the value decoded from its octets in that
    frame's C-SDU, cut as the layout in force at the reception says, and a read
    that does not succeed is one of a field that is not there. *)
Theorem received_value_read cfg mac ip rt (eth : E) (rpc : R) runner store read dev io s r env n csdu :
  cf_ok cfg → wf_builder_ids cfg → wf_mac mac → eth_wf eth → rpc_wf rpc →
  start_inner cfg mac ip rt eth rpc runner store read = Ok (dev, io) →
  rtc any_step (sys_start dev io) s → sy_alive s = true → sy_rt s = Some r →
  tick_of env = Some n → (∀ j, re_busy (ev_rx env j) = false) →
  newest (rn_engine r) (take MAX_RX_PER_PASS (mt_rx (rn_transport r))) = Some csdu →
  ∃ r' go, cycle (E := Empty_set) r env = Ok (r', go) ∧
    ∀ s2, rtc undisturbed (thread_at s r' go) s2 →
      ∀ slot i v, io_read (sy_io s2) slot i = Ok v ↔
        output_in cfg (dv_image (sy_dev s)) csdu slot i = Some v.
Proof.
  intros Hc Hids Hmac He Hr Hs Hst Ha Hrt Hn Hb Hnew.
  destruct (start_inv (T := MockTransport) _ _ _ _ _ _ _ _ _ _ _ Hc Hids Hmac He Hr Hs) as [Hm H0].
  pose proof (sys_steps_inv Hm _ _ H0 Hst) as Hi.
  destruct (si_rt _ Hi r Hrt) as (p & la & _ & Hri & _ & Him & _).
  destruct (cycle_ok la r env Hri) as (r' & go & Hcy & _). exists r', go. split; [done|].
  destruct (cyclic_inv Hm s r env r' go Hi Hrt Hcy) as [Hi1 [_ Hce _]].
  destruct (cycle_takes la r env r' go True Hri ltac:(done) Hcy) as [_ Hd Hsy].
  unfold pass in Hd, Hsy. rewrite Hn, Hnew in Hd, Hsy. cbn in Hd.
  assert (shows (im_cells (dv_image (sy_dev s))) csdu (thread_at s r' go)) as Hsh.
  { apply thread_at_shows; [by rewrite Hce, Him|apply Hsy; [by left|right; by eexists]|done]. }
  intros s2 Hq slot i v.
  destruct (undisturbeds_show _ _ _ _ _ _ _ Hm Hi1 Ha Hsh Hq) as [Hi2 [Hc2 Hd2 _]].
  destruct (si_io _ Hi2) as [Hio Hcfg _ _ _].
  rewrite (io_read_output _ _ _ _ Hio), Hcfg, Hd2. by rewrite (output_in_ext _ _ _ _ _ _ Hc2).
Qed.
End read.

(** ** Witness *)

(** A frame of the controller under the layout of [up2], waiting for the thread. *)
Definition rx_sent : RtFrame :=
  {| rf_frame_id := cl_frame_id (la_output_cr up_layout);
     rf_csdu := zrange 1 (cl_data_length (la_output_cr up_layout)); rf_cycle_counter := 32;
     rf_data_status := RUN_PRIMARY_VALID_OK; rf_transfer_status := 0 |}.
Definition rx_transport : MockTransport :=
  mt_push_rx MockTransport_new (RtFrame_wire rx_sent sample_mac (ap_initiator_mac up_params)).
Definition rx_thread : Runner MockTransport := up_thread_on rx_transport.
Definition rx2 : Sys MockTransport MockRpcTransport MockTransport := thread_at up1 rx_thread true.
(** It has ticked, a diagnosis was raised, and it ticks again. *)
Definition rx3 : Sys MockTransport MockRpcTransport MockTransport :=
  thread_at rx2 (turn rx_thread (tick_env 2000 false false false)) true.
Definition rx_raised : IoDevice :=
  match raise_diagnosis (sy_io rx3) 5 1 LineBreak SvFault with Ok io => io | _ => sample_handle end.
Definition rx4 : Sys MockTransport MockRpcTransport MockTransport := called rx3 rx_raised.
Definition rx_rt4 : Runner MockTransport := default sample_runner (sy_rt rx4).
Definition rx5 : Sys MockTransport MockRpcTransport MockTransport :=
  thread_at rx4 (turn rx_rt4 (tick_env 3000 false false true)) true.

Lemma rx_reached : rtc any_step (sys_start up_dev up_io) rx2.
Proof. eapply rtc_l; [exact up1_step|]. apply rtc_once, up_spawns. change (Forall (Forall u8) (mt_rx rx_transport)). by_decide. Qed.

Lemma rx_turn : cycle (E := Empty_set) rx_thread (tick_env 2000 false false false)
  = Ok (turn rx_thread (tick_env 2000 false false false), true).
Proof. apply turn_Ok. vm_compute. reflexivity. Qed.

Lemma Ok_pair_eq {X A B} (a a' : A) (b b' : B) : Ok (E := X) (a, b) = Ok (a', b') → a = a' ∧ b = b'.
Proof. by intros [= -> ->]. Qed.

Lemma none_waiting e (frames : list (list Z)) :
  length frames = 0%nat → Forall (λ f, data_of e f = None) frames.
Proof. by intros ->%nil_length_inv. Qed.

Lemma rx_undisturbed : rtc undisturbed rx3 rx5.
Proof.
  apply (rtc_l _ rx3 rx4); [|apply rtc_once].
  - exists None, (turn rx_thread (tick_env 2000 false false false)).
    split_and!; [|exact eq_refl|by apply none_waiting; vm_compute|vm_compute; reflexivity..]. apply ss_called.
    apply (ac_raise _ 5 1 LineBreak SvFault). unfold rx_raised.
    assert (is_Ok (raise_diagnosis (sy_io rx3) 5 1 LineBreak SvFault) = true) as H by (vm_compute; reflexivity).
    by destruct (raise_diagnosis _ _ _ _ _).
  - assert (sy_rt rx4 = Some rx_rt4) as Hr by (apply default_Some; vm_compute; reflexivity).
    exists None, rx_rt4. split_and!; [|exact Hr|by apply none_waiting; vm_compute|vm_compute; reflexivity..].
    apply (ss_cyclic rx4 rx_rt4 (tick_env 3000 false false true)
      (turn rx_rt4 (tick_env 3000 false false true)) true Hr).
    + vm_compute. reflexivity.
    + apply turn_Ok. vm_compute. reflexivity.
Qed.

Lemma received_value_read_witness :
  newest (rn_engine rx_thread) (mt_rx (rn_transport rx_thread)) = Some (rf_csdu rx_sent) ∧
  io_read (sy_io rx2) 3 0 = Ok (VWord 0) ∧ io_read (sy_io rx5) 3 0 = Ok (VWord 0x0506).
Proof.
  destruct (received_value_read sample_config sample_mac [192; 168; 0; 5] (su_rt sample_setup) MockTransport_new
    up_rpc (λ _, Some RtShared_new) None None up_dev up_io rx2 rx_thread (tick_env 2000 false false false) 1
    (rf_csdu rx_sent)) as (r' & go & Hc & Hread).
  - apply sample_config_ok.
  - apply sample_config_ok.
  - unfold wf_mac. by_decide.
  - constructor.
  - cbn. by_decide.
  - exact up_started.
  - exact rx_reached.
  - reflexivity.
  - reflexivity.
  - reflexivity.
  - reflexivity.
  - vm_compute. reflexivity.
  - destruct (Ok_pair_eq _ _ _ _ (eq_trans (eq_sym rx_turn) Hc)) as [<- <-].
    split_and!; [vm_compute; reflexivity..|]. apply (Hread rx5 rx_undisturbed). vm_compute. reflexivity.
Defined.
